(** * RAFOO++: class linking, method dispatch and collection

    A shallow embedding of [lang_types.py], of the linker
    [Parser._resolve_and_link] of [parser.py] and of the resolution,
    execution and collection code of [interpreter.py].

    Python object references are modelled by handles: a [ClassDef] is
    referred to by the key under which the type table holds it (the
    parser stores every type under its own name, parser.py:154, and
    refuses a second definition of a name, parser.py:137), an [Instance]
    by its position in an append-only object store.  Python's [is] on
    two references is equality of handles.

    Loops that follow [base] links take a fuel argument; running out of
    fuel is the error [Diverges], and following a handle that names no
    type is the error [Dangling].  Neither exists in Python.  The chain
    lemmas below show that the walks of a linked type table end within
    their fuel and meet no dangling handle; the results about linked
    tables are stated for a link that returned [Ok], which is never one
    of these two errors. *)

From Stdlib Require Import ZArith String Ascii List Lia.
From Stdlib Require Import DecimalString DecimalZ.
From stdpp Require Import base strings list gmap sets.

Set Warnings "-clear-no-such-hyp".

Open Scope string_scope.
Open Scope list_scope.

(** ** Failures

    Every failure of the program is a [ValueError] carrying a message (or
    a built-in [KeyError], [IndexError], [TypeError]); one constructor
    per [raise] site. *)

Inductive Error : Type :=
  (* parser.py, _resolve_and_link *)
  | UnknownBase (b cls : string)
  | BaseIsInterface (cls : string)
  | UnknownInterface (i cls : string)
  | NotAnInterface (i cls : string)
  | CyclicInheritance
  | LayoutStuck
  | FieldRedeclared (f cls : string)
  | VtableStuck
  (* interpreter.py *)
  | UnknownVariable (x : string)
  | UnknownClass (c : string)
  | UnknownType (c : string)
  | CannotInstantiateInterface
  | ArityError (cls : string) (expected got : nat)
  | MethodNotInView (m view : string)
  | NotImplementing (runtime iface : string)
  | NotSubclass (runtime view : string)
  | NoSlot (m view : string)
  | MethodNotResolved (m : string)
  | UnknownFieldInMethod (tok m : string)
  | UnknownFieldOfInstance (f cls : string)
  | ItableMissing (runtime iface m : string)
  | CannotCastToInterface (runtime target : string)
  | CannotCast (runtime target : string)
  (* Python built-ins *)
  | KeyError
  | IndexError
  | TypeError
  (* artefacts of the embedding *)
  | Diverges
  | Dangling.

Inductive Res (A : Type) : Type :=
  | Ok (a : A)
  | Err (e : Error).
Arguments Ok {A} a.
Arguments Err {A} e.

Definition res_bind {A B} (r : Res A) (k : A -> Res B) : Res B :=
  match r with
  | Ok a => k a
  | Err e => Err e
  end.

Declare Scope res_scope.
Delimit Scope res_scope with res.
Notation "x <- c ;; k" := (res_bind c (fun x => k))
  (at level 100, c at next level, right associativity) : res_scope.

(** ** Insertion-ordered dictionaries with string keys

    [methods] and [method_slot] are Python dicts whose iteration order
    (insertion order) is observable: it fixes the slot numbers. *)

Section odict.
Context {V : Type}.

Fixpoint dict_get (d : list (string * V)) (k : string) : option V :=
  match d with
  | [] => None
  | (k', v) :: d' => if decide (k = k') then Some v else dict_get d' k
  end.

(** [d[k] = v]: overwrite in place when [k] is present, append otherwise. *)
Fixpoint dict_set (d : list (string * V)) (k : string) (v : V) : list (string * V) :=
  match d with
  | [] => [(k, v)]
  | (k', v') :: d' =>
      if decide (k = k') then (k', v) :: d' else (k', v') :: dict_set d' k v
  end.

Definition dict_mem (d : list (string * V)) (k : string) : bool :=
  match dict_get d k with Some _ => true | None => false end.

Definition dict_keys (d : list (string * V)) : list string := map fst d.
End odict.

(** ** lang_types.py *)

(** [_INT_RE = re.compile(r"-?\d+$")] used with [match]: an optional
    minus sign, one or more digits, then the end of the string or a final
    newline.  Tokens are ASCII strings. *)

Definition is_digit (a : ascii) : bool :=
  (48 <=? nat_of_ascii a)%nat && (nat_of_ascii a <=? 57)%nat.

Fixpoint digits_to_end (seen : bool) (s : string) : bool :=
  match s with
  | EmptyString => seen
  | String a rest =>
      if is_digit a then digits_to_end true rest
      else seen && bool_decide (s = String "010" EmptyString)
  end.

Definition is_int (tok : string) : bool :=
  match tok with
  | String "-" rest => digits_to_end false rest
  | _ => digits_to_end false tok
  end.

Fixpoint digits_value (acc : Z) (s : string) : Z :=
  match s with
  | EmptyString => acc
  | String a rest =>
      if is_digit a
      then digits_value (10 * acc + Z.of_nat (nat_of_ascii a - 48)) rest
      else acc
  end.

(** Python's [int(tok)] on a token accepted by [is_int]. *)
Definition int (tok : string) : Z :=
  match tok with
  | String "-" rest => (- digits_value 0 rest)%Z
  | _ => digits_value 0 tok
  end.

(** A compiled method body: [(is_field, value)] pairs. *)
Definition MethodPlan : Type := list (bool * Z).

Record ClassDef : Type := mkClassDef {
  name : string;
  is_interface : bool;
  base_name : option string;
  interfaces_names : list string;
  fields : list string;
  methods : list (string * list string);
  (* resolved references, as handles *)
  base : option string;
  interfaces : list string;
  (* field layout *)
  _all_fields_cache : list string;
  _field_index : gmap string nat;
  (* dispatch tables *)
  method_slot : list (string * nat);
  vtable_tokens : list (list string);
  (* lazy caches filled by the interpreter *)
  _vtable_plans : list (option MethodPlan);
  _itable_plans : gmap string (list (option MethodPlan))
}.

(** A [ClassDef] as its constructor leaves it (dataclass defaults). *)
Definition new_ClassDef (n : string) (i : bool) (b : option string)
    (ins fs : list string) (ms : list (string * list string)) : ClassDef :=
  mkClassDef n i b ins fs ms None [] [] ∅ [] [] [] ∅.

Definition set_base (t : ClassDef) (b : option string) : ClassDef :=
  mkClassDef (name t) (is_interface t) (base_name t) (interfaces_names t)
    (fields t) (methods t) b (interfaces t) (_all_fields_cache t)
    (_field_index t) (method_slot t) (vtable_tokens t) (_vtable_plans t)
    (_itable_plans t).

Definition set_interfaces (t : ClassDef) (l : list string) : ClassDef :=
  mkClassDef (name t) (is_interface t) (base_name t) (interfaces_names t)
    (fields t) (methods t) (base t) l (_all_fields_cache t)
    (_field_index t) (method_slot t) (vtable_tokens t) (_vtable_plans t)
    (_itable_plans t).

Definition set_layout (t : ClassDef) (allf : list string)
    (idx : gmap string nat) : ClassDef :=
  mkClassDef (name t) (is_interface t) (base_name t) (interfaces_names t)
    (fields t) (methods t) (base t) (interfaces t) allf idx
    (method_slot t) (vtable_tokens t) (_vtable_plans t) (_itable_plans t).

Definition set_method_slot (t : ClassDef) (ms : list (string * nat)) : ClassDef :=
  mkClassDef (name t) (is_interface t) (base_name t) (interfaces_names t)
    (fields t) (methods t) (base t) (interfaces t) (_all_fields_cache t)
    (_field_index t) ms (vtable_tokens t) (_vtable_plans t) (_itable_plans t).

Definition set_vtable (t : ClassDef) (ms : list (string * nat))
    (vt : list (list string)) (plans : list (option MethodPlan)) : ClassDef :=
  mkClassDef (name t) (is_interface t) (base_name t) (interfaces_names t)
    (fields t) (methods t) (base t) (interfaces t) (_all_fields_cache t)
    (_field_index t) ms vt plans (_itable_plans t).

Definition set_vtable_plans (t : ClassDef) (plans : list (option MethodPlan)) : ClassDef :=
  mkClassDef (name t) (is_interface t) (base_name t) (interfaces_names t)
    (fields t) (methods t) (base t) (interfaces t) (_all_fields_cache t)
    (_field_index t) (method_slot t) (vtable_tokens t) plans (_itable_plans t).

Definition set_itable_plans (t : ClassDef)
    (ip : gmap string (list (option MethodPlan))) : ClassDef :=
  mkClassDef (name t) (is_interface t) (base_name t) (interfaces_names t)
    (fields t) (methods t) (base t) (interfaces t) (_all_fields_cache t)
    (_field_index t) (method_slot t) (vtable_tokens t) (_vtable_plans t) ip.

(** *** The type table: [Dict[str, ClassDef]], each type under its name *)

Fixpoint get_type (tbl : list ClassDef) (n : string) : option ClassDef :=
  match tbl with
  | [] => None
  | t :: tbl' => if decide (n = name t) then Some t else get_type tbl' n
  end.

(** In-place mutation of the object held under [name t]. *)
Fixpoint put_type (tbl : list ClassDef) (t : ClassDef) : list ClassDef :=
  match tbl with
  | [] => []
  | t0 :: tbl' =>
      if decide (name t = name t0) then t :: tbl' else t0 :: put_type tbl' t
  end.

(** Following a reference. *)
Definition deref (tbl : list ClassDef) (h : string) : Res ClassDef :=
  match get_type tbl h with
  | Some t => Ok t
  | None => Err Dangling
  end.

(** Bound on the length of a base chain in a table. *)
Definition chain_fuel (tbl : list ClassDef) : nat := S (length tbl).

Fixpoint enumerate_from {A} (i : nat) (l : list A) : list (nat * A) :=
  match l with
  | [] => []
  | x :: l' => (i, x) :: enumerate_from (S i) l'
  end.

(** [{n: i for i, n in enumerate(l)}]: a later occurrence overwrites. *)
Definition index_dict (l : list string) : gmap string nat :=
  foldl (fun m p => <[p.2 := p.1]> m) ∅ (enumerate_from 0 l).

Definition all_fields (t : ClassDef) : list string := _all_fields_cache t.

(** [ClassDef.compute_layout] *)
Definition compute_layout (tbl : list ClassDef) (t : ClassDef) : Res ClassDef :=
  (allf <-
     (if is_interface t then Ok []
      else match base t with
           | None => Ok (fields t)
           | Some b => (bt <- deref tbl b;; Ok (all_fields bt ++ fields t))
           end);;
   Ok (set_layout t allf (index_dict allf)))%res.

(** [ClassDef.field_idx]: [KeyError] when missing. *)
Definition field_idx (t : ClassDef) (f : string) : Res nat :=
  match _field_index t !! f with
  | Some i => Ok i
  | None => Err KeyError
  end.

(** The loop of [ClassDef.is_subclass_of]. *)
Fixpoint is_subclass_of_loop (tbl : list ClassDef) (fuel : nat)
    (c : option string) (other : string) : Res bool :=
  match c with
  | None => Ok false
  | Some h =>
      match fuel with
      | O => Err Diverges
      | S fuel' =>
          (t <- deref tbl h;;
           if decide (name t = other) then Ok true
           else is_subclass_of_loop tbl fuel' (base t) other)%res
      end
  end.

Definition is_subclass_of (tbl : list ClassDef) (self other : ClassDef) : Res bool :=
  if is_interface self || is_interface other then Ok false
  else is_subclass_of_loop tbl (chain_fuel tbl) (Some (name self)) (name other).

(** The loop of [ClassDef.all_interfaces]; the set is kept as the list of
    the handles added, membership is all that is asked of it. *)
Fixpoint all_interfaces_loop (tbl : list ClassDef) (fuel : nat)
    (c : option string) (out : list string) : Res (list string) :=
  match c with
  | None => Ok out
  | Some h =>
      match fuel with
      | O => Err Diverges
      | S fuel' =>
          (t <- deref tbl h;;
           all_interfaces_loop tbl fuel' (base t) (out ++ interfaces t))%res
      end
  end.

Definition all_interfaces (tbl : list ClassDef) (self : ClassDef) : Res (list string) :=
  if is_interface self then Ok [name self]
  else all_interfaces_loop tbl (chain_fuel tbl) (Some (name self)) [].

Definition implements_interface (tbl : list ClassDef) (self iface : ClassDef) : Res bool :=
  if negb (is_interface iface) then Ok false
  else (ifs <- all_interfaces tbl self;;
        Ok (bool_decide (name iface ∈ ifs)))%res.

(** The loop of [ClassDef.lookup_method]. *)
Fixpoint lookup_method_loop (tbl : list ClassDef) (fuel : nat)
    (c : option string) (m : string) : Res (option (list string)) :=
  match c with
  | None => Ok None
  | Some h =>
      match fuel with
      | O => Err Diverges
      | S fuel' =>
          (t <- deref tbl h;;
           if dict_mem (methods t) m then Ok (dict_get (methods t) m)
           else lookup_method_loop tbl fuel' (base t) m)%res
      end
  end.

Definition lookup_method (tbl : list ClassDef) (self : ClassDef) (m : string)
    : Res (option (list string)) :=
  if is_interface self then Ok (dict_get (methods self) m)
  else lookup_method_loop tbl (chain_fuel tbl) (Some (name self)) m.

(** ** parser.py: [Parser._resolve_and_link] *)

Definition type_names (tbl : list ClassDef) : list string := map name tbl.

(** [for t in self.types.values(): body]: the objects are visited in the
    order of the dict and mutated in place. *)
Fixpoint for_types (body : list ClassDef -> ClassDef -> Res (list ClassDef))
    (keys : list string) (tbl : list ClassDef) : Res (list ClassDef) :=
  match keys with
  | [] => Ok tbl
  | n :: keys' =>
      (t <- deref tbl n;;
       tbl' <- body tbl t;;
       for_types body keys' tbl')%res
  end.

(** Step 1: bases of classes. *)
Definition link_base (tbl : list ClassDef) (t : ClassDef) : Res (list ClassDef) :=
  if is_interface t then Ok tbl
  else match base_name t with
       | None => Ok tbl
       | Some b =>
           match get_type tbl b with
           | None => Err (UnknownBase b (name t))
           | Some bt =>
               if is_interface bt then Err (BaseIsInterface (name t))
               else Ok (put_type tbl (set_base t (Some b)))
           end
       end.

(** Step 2: interfaces of classes. *)
Fixpoint resolve_interfaces (tbl : list ClassDef) (cls : string)
    (inames resolved : list string) : Res (list string) :=
  match inames with
  | [] => Ok resolved
  | iname :: rest =>
      match get_type tbl iname with
      | None => Err (UnknownInterface iname cls)
      | Some iface =>
          if negb (is_interface iface) then Err (NotAnInterface iname cls)
          else resolve_interfaces tbl cls rest (resolved ++ [iname])
      end
  end.

Definition link_interfaces (tbl : list ClassDef) (t : ClassDef) : Res (list ClassDef) :=
  if is_interface t then Ok tbl
  else (resolved <- resolve_interfaces tbl (name t) (interfaces_names t) [];;
        Ok (put_type tbl (set_interfaces t resolved)))%res.

(** Step 3: the two-pointer walk [has_cycle]. *)
Fixpoint has_cycle_loop (tbl : list ClassDef) (fuel : nat)
    (slow fast : option string) : Res bool :=
  match fast with
  | None => Ok false
  | Some f =>
      (ft <- deref tbl f;;
       match base ft with
       | None => Ok false
       | Some fb =>
           match fuel with
           | O => Err Diverges
           | S fuel' =>
               match slow with
               | None => Err TypeError
               | Some s =>
                   st <- deref tbl s;;
                   fbt <- deref tbl fb;;
                   if decide (base st = base fbt) then Ok true
                   else has_cycle_loop tbl fuel' (base st) (base fbt)
               end
           end
       end)%res
  end.

Definition has_cycle (tbl : list ClassDef) (start : ClassDef) : Res bool :=
  has_cycle_loop tbl (chain_fuel tbl) (Some (name start)) (Some (name start)).

Definition check_cycle (tbl : list ClassDef) (t : ClassDef) : Res (list ClassDef) :=
  if is_interface t then Ok tbl
  else (c <- has_cycle tbl t;;
        if c then Err CyclicInheritance else Ok tbl)%res.

(** Steps 4 and 7 share one loop: [while remaining], a pass over
    [list(remaining)] that handles every class whose base is absent or
    done.  [remaining] and [done] are Python sets of names. *)
Section topo.
Variable process : list ClassDef -> ClassDef -> Res (list ClassDef).
Variable stuck : Error.

Fixpoint topo_pass (snapshot : list string) (tbl : list ClassDef)
    (done remaining : gset string) (progressed : bool)
    : Res (list ClassDef * gset string * gset string * bool) :=
  match snapshot with
  | [] => Ok (tbl, done, remaining, progressed)
  | n :: rest =>
      (t <- deref tbl n;;
       ready <- match base t with
                | None => Ok true
                | Some b => (bt <- deref tbl b;; Ok (bool_decide (name bt ∈ done)))
                end;;
       if (ready : bool)
       then (tbl' <- process tbl t;;
             topo_pass rest tbl' ({[n]} ∪ done) (remaining ∖ {[n]}) true)
       else topo_pass rest tbl done remaining progressed)%res
  end.

Fixpoint topo_loop (fuel : nat) (tbl : list ClassDef)
    (done remaining : gset string) : Res (list ClassDef) :=
  if decide (remaining = ∅) then Ok tbl
  else match fuel with
       | O => Err Diverges
       | S fuel' =>
           (r <- topo_pass (elements remaining) tbl done remaining false;;
            let '(tbl', done', remaining', progressed) := r in
            if (progressed : bool) then topo_loop fuel' tbl' done' remaining'
            else Err stuck)%res
       end.
End topo.

(** [{name for name, t in self.types.items() if not t.is_interface}] *)
Definition class_names (tbl : list ClassDef) : gset string :=
  list_to_set (type_names (filter (fun t => is_interface t = false) tbl)).

(** Step 4: layouts. *)
Definition layout_interface (tbl : list ClassDef) (t : ClassDef) : Res (list ClassDef) :=
  if is_interface t
  then (t' <- compute_layout tbl t;; Ok (put_type tbl t'))%res
  else Ok tbl.

Definition layout_class (tbl : list ClassDef) (t : ClassDef) : Res (list ClassDef) :=
  (t' <- compute_layout tbl t;; Ok (put_type tbl t'))%res.

(** Step 5: a class may not declare a field of its base's layout. *)
Definition check_fields (tbl : list ClassDef) (t : ClassDef) : Res (list ClassDef) :=
  if is_interface t then Ok tbl
  else match base t with
       | None => Ok tbl
       | Some b =>
           (bt <- deref tbl b;;
            match find (fun f => bool_decide (f ∈ all_fields bt)) (fields t) with
            | Some f => Err (FieldRedeclared f (name t))
            | None => Ok tbl
            end)%res
       end.

(** Step 6: [{m: i for i, m in enumerate(t.methods.keys())}] *)
Definition enumerate_dict (keys : list string) : list (string * nat) :=
  foldl (fun d p => dict_set d p.2 p.1) [] (enumerate_from 0 keys).

Definition slots_interface (tbl : list ClassDef) (t : ClassDef) : Res (list ClassDef) :=
  if is_interface t
  then Ok (put_type tbl (set_method_slot t (enumerate_dict (dict_keys (methods t)))))
  else Ok tbl.

(** Step 7: the body of [for mname, toks in t.methods.items()]. *)
Definition add_method (acc : list (string * nat) * list (list string))
    (mt : string * list string) : Res (list (string * nat) * list (list string)) :=
  let '(ms, vt) := acc in
  let '(mname, toks) := mt in
  match dict_get ms mname with
  | Some slot =>
      if decide (slot < length vt)%nat then Ok (ms, <[slot := toks]> vt)
      else Err IndexError
  | None => Ok (dict_set ms mname (length vt), vt ++ [toks])
  end.

Fixpoint add_methods (acc : list (string * nat) * list (list string))
    (ms : list (string * list string))
    : Res (list (string * nat) * list (list string)) :=
  match ms with
  | [] => Ok acc
  | mt :: ms' => (acc' <- add_method acc mt;; add_methods acc' ms')%res
  end.

(** Step 7 for one class: copy the tables of the base, then add the
    class's own methods; the plan cache gets one empty cell per slot. *)
Definition class_vtable (tbl : list ClassDef) (t : ClassDef) : Res ClassDef :=
  (init <- match base t with
           | None => Ok ([], [])
           | Some b => (bt <- deref tbl b;; Ok (method_slot bt, vtable_tokens bt))
           end;;
   r <- add_methods init (methods t);;
   Ok (set_vtable t r.1 r.2 (replicate (length r.2) None)))%res.

Definition build_vtable (tbl : list ClassDef) (t : ClassDef) : Res (list ClassDef) :=
  (t' <- class_vtable tbl t;; Ok (put_type tbl t'))%res.

Definition _resolve_and_link (tbl : list ClassDef) : Res (list ClassDef) :=
  let keys := type_names tbl in
  (tbl1 <- for_types link_base keys tbl;;
   tbl2 <- for_types link_interfaces keys tbl1;;
   tbl3 <- for_types check_cycle keys tbl2;;
   tbl4 <- for_types layout_interface keys tbl3;;
   tbl5 <- topo_loop layout_class LayoutStuck (size (class_names tbl4)) tbl4 ∅ (class_names tbl4);;
   tbl6 <- for_types check_fields keys tbl5;;
   tbl7 <- for_types slots_interface keys tbl6;;
   topo_loop build_vtable VtableStuck (size (class_names tbl7)) tbl7 ∅ (class_names tbl7))%res.

(** ** interpreter.py *)

Record Config : Type := mkConfig {
  enable_metrics : bool;
  enable_gc : bool;
  enable_vtable : bool;
  enable_cache : bool
}.

Definition default_Config : Config := mkConfig false false false true.

(** [inst] is a reference into the object store, [view_cls] a reference
    into the type table. *)
Record VarBinding : Type := mkVarBinding {
  inst : nat;
  view_cls : string
}.

Record Instance : Type := mkInstance {
  cls : string;
  values : list Z
}.

Record Metrics : Type := mkMetrics {
  resolve_calls : nat;
  resolve_time_ns : Z;
  resolve_steps : nat;
  cache_hits : nat;
  cache_misses : nat;
  vtable_uses : nat;
  itable_uses : nat;
  class_jumps : nat;
  class_probes : nat;
  resolve_fails : nat;
  gc_runs : nat;
  gc_collected : nat
}.

Definition new_Metrics : Metrics := mkMetrics 0 0 0 0 0 0 0 0 0 0 0 0.

Definition hit (m : Metrics) : Metrics :=
  mkMetrics (resolve_calls m) (resolve_time_ns m) (resolve_steps m)
    (S (cache_hits m)) (cache_misses m) (vtable_uses m) (itable_uses m)
    (class_jumps m) (class_probes m) (resolve_fails m) (gc_runs m) (gc_collected m).

Definition miss (m : Metrics) : Metrics :=
  mkMetrics (resolve_calls m) (resolve_time_ns m) (resolve_steps m)
    (cache_hits m) (S (cache_misses m)) (vtable_uses m) (itable_uses m)
    (class_jumps m) (class_probes m) (resolve_fails m) (gc_runs m) (gc_collected m).

Definition vtable_use (m : Metrics) : Metrics :=
  mkMetrics (resolve_calls m) (resolve_time_ns m) (resolve_steps m)
    (cache_hits m) (cache_misses m) (S (vtable_uses m)) (itable_uses m)
    (class_jumps m) (class_probes m) (resolve_fails m) (gc_runs m) (gc_collected m).

Definition itable_use (m : Metrics) : Metrics :=
  mkMetrics (resolve_calls m) (resolve_time_ns m) (resolve_steps m)
    (cache_hits m) (cache_misses m) (vtable_uses m) (S (itable_uses m))
    (class_jumps m) (class_probes m) (resolve_fails m) (gc_runs m) (gc_collected m).

Definition jump (m : Metrics) : Metrics :=
  mkMetrics (resolve_calls m) (resolve_time_ns m) (resolve_steps m)
    (cache_hits m) (cache_misses m) (vtable_uses m) (itable_uses m)
    (S (class_jumps m)) (class_probes m) (resolve_fails m) (gc_runs m) (gc_collected m).

Definition probe (m : Metrics) : Metrics :=
  mkMetrics (resolve_calls m) (resolve_time_ns m) (resolve_steps m)
    (cache_hits m) (cache_misses m) (vtable_uses m) (itable_uses m)
    (class_jumps m) (S (class_probes m)) (resolve_fails m) (gc_runs m) (gc_collected m).

Definition probe_fail (m : Metrics) : Metrics :=
  mkMetrics (resolve_calls m) (resolve_time_ns m) (resolve_steps m)
    (cache_hits m) (cache_misses m) (vtable_uses m) (itable_uses m)
    (class_jumps m) (class_probes m) (S (resolve_fails m)) (gc_runs m) (gc_collected m).

Definition add_steps (n : nat) (m : Metrics) : Metrics :=
  mkMetrics (resolve_calls m) (resolve_time_ns m) (resolve_steps m + n)
    (cache_hits m) (cache_misses m) (vtable_uses m) (itable_uses m)
    (class_jumps m) (class_probes m) (resolve_fails m) (gc_runs m) (gc_collected m).

Definition resolved (elapsed : Z) (m : Metrics) : Metrics :=
  mkMetrics (S (resolve_calls m)) (resolve_time_ns m + elapsed) (resolve_steps m)
    (cache_hits m) (cache_misses m) (vtable_uses m) (itable_uses m)
    (class_jumps m) (class_probes m) (resolve_fails m) (gc_runs m) (gc_collected m).

Definition gc_ran (collected : nat) (m : Metrics) : Metrics :=
  mkMetrics (resolve_calls m) (resolve_time_ns m) (resolve_steps m)
    (cache_hits m) (cache_misses m) (vtable_uses m) (itable_uses m)
    (class_jumps m) (class_probes m) (resolve_fails m)
    (S (gc_runs m)) (gc_collected m + collected).

(** A line written to standard output.  The average of the metrics
    report is a float printed with one decimal; it is kept as the pair
    it is the quotient of. *)
Inductive OutLine : Type :=
  | Line (s : string)
  | ResolveTimeAvg (total_ns : Z) (calls : nat).

(** The interpreter: its attributes, the object store that its
    references point into, what it has printed, and the clock. *)
Record Interpreter : Type := mkInterpreter {
  classes : list ClassDef;
  env : gmap string VarBinding;
  cfg : Config;
  metrics : Metrics;
  _plan_cache : gmap (string * string * string * string) MethodPlan;
  heap : list nat;
  objects : list Instance;
  stdout : list OutLine;
  clock : nat -> Z;
  clock_reads : nat
}.

(** [Interpreter.__init__] *)
Definition new_Interpreter (tbl : list ClassDef) (config : Config)
    (clk : nat -> Z) : Interpreter :=
  mkInterpreter tbl ∅ config new_Metrics ∅ [] [] [] clk 0.

Definition set_classes (st : Interpreter) (c : list ClassDef) : Interpreter :=
  mkInterpreter c (env st) (cfg st) (metrics st) (_plan_cache st) (heap st)
    (objects st) (stdout st) (clock st) (clock_reads st).

Definition set_env (st : Interpreter) (e : gmap string VarBinding) : Interpreter :=
  mkInterpreter (classes st) e (cfg st) (metrics st) (_plan_cache st) (heap st)
    (objects st) (stdout st) (clock st) (clock_reads st).

Definition set_metrics (st : Interpreter) (m : Metrics) : Interpreter :=
  mkInterpreter (classes st) (env st) (cfg st) m (_plan_cache st) (heap st)
    (objects st) (stdout st) (clock st) (clock_reads st).

Definition set_plan_cache (st : Interpreter)
    (c : gmap (string * string * string * string) MethodPlan) : Interpreter :=
  mkInterpreter (classes st) (env st) (cfg st) (metrics st) c (heap st)
    (objects st) (stdout st) (clock st) (clock_reads st).

Definition set_heap (st : Interpreter) (h : list nat) : Interpreter :=
  mkInterpreter (classes st) (env st) (cfg st) (metrics st) (_plan_cache st) h
    (objects st) (stdout st) (clock st) (clock_reads st).

Definition set_objects (st : Interpreter) (o : list Instance) : Interpreter :=
  mkInterpreter (classes st) (env st) (cfg st) (metrics st) (_plan_cache st)
    (heap st) o (stdout st) (clock st) (clock_reads st).

Definition set_stdout (st : Interpreter) (o : list OutLine) : Interpreter :=
  mkInterpreter (classes st) (env st) (cfg st) (metrics st) (_plan_cache st)
    (heap st) (objects st) o (clock st) (clock_reads st).

Definition set_clock_reads (st : Interpreter) (n : nat) : Interpreter :=
  mkInterpreter (classes st) (env st) (cfg st) (metrics st) (_plan_cache st)
    (heap st) (objects st) (stdout st) (clock st) n.

(** *** Methods of the interpreter: state and failure

    A raised exception ends the run and leaves the state as it was when
    it was raised. *)

Definition M (A : Type) : Type := Interpreter -> Res A * Interpreter.

Definition ret {A} (a : A) : M A := fun st => (Ok a, st).
Definition raise {A} (e : Error) : M A := fun st => (Err e, st).
Definition bind {A B} (c : M A) (k : A -> M B) : M B :=
  fun st => match c st with
            | (Ok a, st') => k a st'
            | (Err e, st') => (Err e, st')
            end.
Definition lift {A} (r : Res A) : M A := fun st => (r, st).
Definition get : M Interpreter := fun st => (Ok st, st).
Definition modify (f : Interpreter -> Interpreter) : M unit :=
  fun st => (Ok tt, f st).

Declare Scope m_scope.
Delimit Scope m_scope with M.
Notation "x <- c ;; k" := (bind c (fun x => k))
  (at level 100, c at next level, right associativity) : m_scope.
Notation "c ;;; k" := (bind c (fun _ => k))
  (at level 100, right associativity) : m_scope.

(** [if self.cfg.enable_metrics: self.metrics.<counter> += ...] *)
Definition when_metrics (f : Metrics -> Metrics) : M unit :=
  fun st => if enable_metrics (cfg st)
            then (Ok tt, set_metrics st (f (metrics st)))
            else (Ok tt, st).

Definition count (f : Metrics -> Metrics) : M unit :=
  modify (fun st => set_metrics st (f (metrics st))).

(** [time.perf_counter_ns()] *)
Definition perf_counter_ns : M Z :=
  fun st => (Ok (clock st (clock_reads st)), set_clock_reads st (S (clock_reads st))).

(** [time.perf_counter_ns() if self.cfg.enable_metrics else 0] *)
Definition start_timer : M Z :=
  fun st => if enable_metrics (cfg st) then perf_counter_ns st else (Ok 0%Z, st).

(** The closing [if self.cfg.enable_metrics:] block of a resolution. *)
Definition stop_timer (start_ns : Z) (f : Metrics -> Metrics) : M unit :=
  fun st => if enable_metrics (cfg st)
            then (now <- perf_counter_ns;;
                  count (fun m => f (resolved (now - start_ns) m)))%M st
            else (Ok tt, st).

Definition deref_class (h : string) : M ClassDef :=
  fun st => (deref (classes st) h, st).

Definition deref_object (a : nat) : M Instance :=
  fun st => (match objects st !! a with
             | Some i => Ok i
             | None => Err Dangling
             end, st).

Definition print (l : OutLine) : M unit :=
  modify (fun st => set_stdout st (stdout st ++ [l])).

(** The inner loop of [_lookup_with_steps] over the keys of [c.methods]. *)
Fixpoint probe_methods (keys : list string) (m : string) (mt : Metrics)
    : bool * Metrics :=
  match keys with
  | [] => (false, mt)
  | k :: keys' =>
      if decide (k = m) then (true, probe mt)
      else probe_methods keys' m (probe_fail (probe mt))
  end.

Fixpoint _lookup_with_steps_loop (fuel : nat) (c : option string) (m : string)
    (steps : nat) : M (option (list string) * nat) :=
  match c with
  | None => ret (None, steps)
  | Some h =>
      match fuel with
      | O => raise Diverges
      | S fuel' =>
          (t <- deref_class h;;
           count jump;;;
           st <- get;;
           let r := probe_methods (dict_keys (methods t)) m (metrics st) in
           modify (fun st => set_metrics st r.2);;;
           if r.1
           then match dict_get (methods t) m with
                | Some toks => ret (Some toks, steps)
                | None => raise KeyError
                end
           else _lookup_with_steps_loop fuel' (base t) m (S steps))%M
      end
  end.

Definition _lookup_with_steps (start : string) (m : string)
    : M (option (list string) * nat) :=
  (st <- get;;
   _lookup_with_steps_loop (chain_fuel (classes st)) (Some start) m 0)%M.

Fixpoint _compile_plan (runtime : ClassDef) (method_name : string)
    (tokens : list string) : Res MethodPlan :=
  match tokens with
  | [] => Ok []
  | tok :: rest =>
      (op <- (if is_int tok then Ok (false, int tok)
              else match _field_index runtime !! tok with
                   | Some idx => Ok (true, Z.of_nat idx)
                   | None => Err (UnknownFieldInMethod tok method_name)
                   end);;
       plan <- _compile_plan runtime method_name rest;;
       Ok (op :: plan))%res
  end.

(** [l[i]] with [IndexError] out of range. *)
Definition index {A} (l : list A) (i : nat) : Res A :=
  match l !! i with
  | Some x => Ok x
  | None => Err IndexError
  end.

(** [l[i] = x] with [IndexError] out of range. *)
Definition store_at {A} (l : list A) (i : nat) (x : A) : Res (list A) :=
  if decide (i < length l)%nat then Ok (<[i := x]> l) else Err IndexError.

Definition str_Z (z : Z) : string := NilZero.string_of_int (Z.to_int z).
Definition str_nat (n : nat) : string := str_Z (Z.of_nat n).

Definition _vtable_plan (runtime : string) (slot : nat) : M MethodPlan :=
  (rt <- deref_class runtime;;
   cached <- lift (index (_vtable_plans rt) slot);;
   match cached with
   | Some plan => when_metrics hit;;; ret plan
   | None =>
       when_metrics miss;;;
       start_ns <- start_timer;;
       tokens <- lift (index (vtable_tokens rt) slot);;
       plan <- lift (_compile_plan rt ("<slot " +:+ str_nat slot +:+ ">") tokens);;
       plans <- lift (store_at (_vtable_plans rt) slot (Some plan));;
       modify (fun st => set_classes st
                 (put_type (classes st) (set_vtable_plans rt plans)));;;
       stop_timer start_ns (fun m => m);;;
       ret plan
   end)%M.

(** The loop of [_itable_plan] over [iface.method_slot.items()]. *)
Fixpoint build_itable (runtime iface : string) (slots : list (string * nat))
    (plans : list (option MethodPlan)) : M (list (option MethodPlan)) :=
  match slots with
  | [] => ret plans
  | (m, slot) :: rest =>
      (r <- _lookup_with_steps runtime m;;
       match r.1 with
       | None => raise (ItableMissing runtime iface m)
       | Some tokens =>
           rt <- deref_class runtime;;
           plan <- lift (_compile_plan rt m tokens);;
           plans' <- lift (store_at plans slot (Some plan));;
           when_metrics (add_steps r.2);;;
           build_itable runtime iface rest plans'
       end)%M
  end.

(** [_itable_plan].  A slot still holding [None] would be returned as
    the plan and fail with a [TypeError] once iterated by the caller; the
    failure is raised here. *)
Definition _itable_plan (runtime iface : string) (method_name : string)
    : M MethodPlan :=
  (rt <- deref_class runtime;;
   ifc <- deref_class iface;;
   cache <- match _itable_plans rt !! name ifc with
            | None =>
                when_metrics miss;;;
                start_ns <- start_timer;;
                plans <- build_itable runtime (name ifc) (method_slot ifc)
                           (replicate (length (method_slot ifc)) None);;
                rt' <- deref_class runtime;;
                modify (fun st => set_classes st (put_type (classes st)
                  (set_itable_plans rt' (<[name ifc := plans]> (_itable_plans rt')))));;;
                stop_timer start_ns (fun m => m);;;
                ret plans
            | Some cache => when_metrics hit;;; ret cache
            end;;
   slot <- match dict_get (method_slot ifc) method_name with
           | Some slot => ret slot
           | None => raise KeyError
           end;;
   entry <- lift (index cache slot);;
   match entry with
   | Some plan => ret plan
   | None => raise TypeError
   end)%M.

(** Lines 282-298 of [_resolve_call_plan]: the token sequence of the
    fallback path and the number of base hops. *)
Definition lookup_tokens (view runtime : ClassDef) (method_name : string)
    (dynamic : bool) : M (option (list string) * nat) :=
  (if negb dynamic
   then
     if is_interface view
     then
       st <- get;;
       impl <- lift (implements_interface (classes st) runtime view);;
       if negb impl then raise (NotImplementing (name runtime) (name view))
       else
         r <- _lookup_with_steps (name view) method_name;;
         match r.1 with
         | None | Some [] => _lookup_with_steps (name runtime) method_name
         | Some _ => ret r
         end
     else _lookup_with_steps (name view) method_name
   else
     (if is_interface view
      then
        st <- get;;
        impl <- lift (implements_interface (classes st) runtime view);;
        if negb impl then raise (NotImplementing (name runtime) (name view))
        else ret tt
      else ret tt);;;
     _lookup_with_steps (name runtime) method_name)%M.

Definition cache_key (dynamic : bool) (view runtime : ClassDef)
    (method_name : string) : string * string * string * string :=
  (if dynamic then "dyn" else "static", name view, name runtime, method_name).

Definition _resolve_call_plan (binding : VarBinding) (method_name : string)
    (dynamic : bool) : M MethodPlan :=
  (i <- deref_object (inst binding);;
   view <- deref_class (view_cls binding);;
   runtime <- deref_class (cls i);;
   st <- get;;
   visible <- lift (lookup_method (classes st) view method_name);;
   match visible with
   | None => raise (MethodNotInView method_name (name view))
   | Some _ =>
       if dynamic && enable_vtable (cfg st)
       then
         if is_interface view
         then
           impl <- lift (implements_interface (classes st) runtime view);;
           if negb impl then raise (NotImplementing (name runtime) (name view))
           else
             plan <- _itable_plan (name runtime) (name view) method_name;;
             when_metrics itable_use;;;
             ret plan
         else
           sub <- lift (is_subclass_of (classes st) runtime view);;
           if negb sub && negb (bool_decide (name runtime = name view))
           then raise (NotSubclass (name runtime) (name view))
           else
             match dict_get (method_slot view) method_name with
             | None => raise (NoSlot method_name (name view))
             | Some slot =>
                 plan <- _vtable_plan (name runtime) slot;;
                 when_metrics vtable_use;;;
                 ret plan
             end
       else
         match (if enable_cache (cfg st)
                then _plan_cache st !! cache_key dynamic view runtime method_name
                else None) with
         | Some plan => when_metrics hit;;; ret plan
         | None =>
             when_metrics (fun m => if enable_cache (cfg st) then miss m else m);;;
             start_ns <- start_timer;;
             r <- lookup_tokens view runtime method_name dynamic;;
             match r.1 with
             | None => raise (MethodNotResolved method_name)
             | Some tokens =>
                 plan <- lift (_compile_plan runtime method_name tokens);;
                 stop_timer start_ns (add_steps r.2);;;
                 (if enable_cache (cfg st)
                  then modify (fun st' => set_plan_cache st'
                         (<[cache_key dynamic view runtime method_name := plan]>
                            (_plan_cache st')))
                  else ret tt);;;
                 ret plan
             end
         end
   end)%M.
(** *** Statements

    The interpreter receives statements as text and splits them itself;
    here a statement is the result of that splitting.  The choice of
    the handler by the text, the splitting and the reflection statements
    ([typeof], [fieldsof], [methodsof], [interfacesof]) are in [Text]
    below. *)

Inductive Stmt : Type :=
  | LetNew (x cls_name : string) (args : list Z)
  | LetClone (x src : string)
  | LetCast (x target src : string)
  | LetAlias (x src : string)
  | FieldAssign (x f : string) (value : Z)
  | Call (x m : string)
  | VCall (x m : string)
  | Is (x type_name : string)
  | Free (x : string)
  | Gc.

Definition _get_binding (x : string) : M VarBinding :=
  (st <- get;;
   match env st !! x with
   | Some b => ret b
   | None => raise (UnknownVariable x)
   end)%M.

Definition bind_name (x : string) (b : VarBinding) : M unit :=
  modify (fun st => set_env st (<[x := b]> (env st))).

(** Allocation: a new object, referred to by its position in the store. *)
Definition allocate (i : Instance) : M nat :=
  fun st => (Ok (length (objects st)), set_objects st (objects st ++ [i])).

Definition _instantiate (class_name : string) (args : list Z) : M nat :=
  (st <- get;;
   match get_type (classes st) class_name with
   | None => raise (UnknownClass class_name)
   | Some c =>
       if is_interface c then raise CannotInstantiateInterface
       else if negb (bool_decide (length (all_fields c) = length args))
       then raise (ArityError class_name (length (all_fields c)) (length args))
       else
         a <- allocate (mkInstance (name c) args);;
         modify (fun st => set_heap st (heap st ++ [a]));;;
         ret a
   end)%M.

Definition _clone (a : nat) : M nat :=
  (i <- deref_object a;;
   a' <- allocate (mkInstance (cls i) (values i));;
   modify (fun st => set_heap st (heap st ++ [a']));;;
   ret a')%M.

Definition _cast_binding (binding : VarBinding) (target_name : string) : M VarBinding :=
  (st <- get;;
   match get_type (classes st) target_name with
   | None => raise (UnknownType target_name)
   | Some target =>
       i <- deref_object (inst binding);;
       runtime <- deref_class (cls i);;
       if is_interface target
       then
         impl <- lift (implements_interface (classes st) runtime target);;
         if negb impl then raise (CannotCastToInterface (name runtime) (name target))
         else ret (mkVarBinding (inst binding) (name target))
       else
         sub <- lift (is_subclass_of (classes st) runtime target);;
         if negb sub then raise (CannotCast (name runtime) (name target))
         else ret (mkVarBinding (inst binding) (name target))
   end)%M.

Definition _exec_field_assign (x f : string) (value : Z) : M unit :=
  (binding <- _get_binding x;;
   i <- deref_object (inst binding);;
   c <- deref_class (cls i);;
   match _field_index c !! f with
   | None => raise (UnknownFieldOfInstance f (name c))
   | Some idx =>
       vs <- lift (store_at (values i) idx value);;
       modify (fun st => set_objects st
                 (<[inst binding := mkInstance (cls i) vs]> (objects st)))
   end)%M.

(** The loop of [_exec_call] over the plan. *)
Fixpoint run_plan (vals : list Z) (plan : MethodPlan) : Res (list Z) :=
  match plan with
  | [] => Ok []
  | (is_field, v) :: plan' =>
      (x <- (if (is_field : bool)
             then (if decide (0 <= v)%Z then index vals (Z.to_nat v)
                   else if decide (- v <= Z.of_nat (length vals))%Z
                   then index vals (length vals - Z.to_nat (- v))
                   else Err IndexError)
             else Ok v);;
       out <- run_plan vals plan';;
       Ok (x :: out))%res
  end.

(** [" ".join(str(x) for x in values)] *)
Definition join_values (vs : list Z) : string :=
  String.concat " " (map str_Z vs).

Definition _exec_call (x method_name : string) (dynamic : bool) : M unit :=
  (binding <- _get_binding x;;
   plan <- _resolve_call_plan binding method_name dynamic;;
   i <- deref_object (inst binding);;
   vs <- lift (run_plan (values i) plan);;
   print (Line (join_values vs)))%M.

Definition _exec_is (var_name type_name : string) : M unit :=
  (st <- get;;
   match env st !! var_name, get_type (classes st) type_name with
   | Some binding, Some t =>
       i <- deref_object (inst binding);;
       c <- deref_class (cls i);;
       r <- lift (if is_interface t
                  then implements_interface (classes st) c t
                  else is_subclass_of (classes st) c t);;
       print (Line (if (r : bool) then "IS" else "ISN'T"))
   | _, _ => print (Line "ISN'T")
   end)%M.

Definition _exec_free (x : string) : M unit :=
  (st <- get;;
   match env st !! x with
   | None => raise (UnknownVariable x)
   | Some _ => modify (fun st => set_env st (delete x (env st)))
   end)%M.

(** [{id(b.inst) for b in self.env.values()}] *)
Definition roots (e : gmap string VarBinding) : gset nat :=
  list_to_set (map (fun kb => inst kb.2) (map_to_list e)).

Definition _gc_collect : M unit :=
  (st <- get;;
   let rs := roots (env st) in
   let before := length (heap st) in
   let heap' := filter (fun x => x ∈ rs) (heap st) in
   modify (fun st => set_heap st heap');;;
   when_metrics (gc_ran (before - length heap')))%M.

Definition _exec_statement (s : Stmt) : M unit :=
  (match s with
   | LetNew x c args =>
       a <- _instantiate c args;;
       i <- deref_object a;;
       bind_name x (mkVarBinding a (cls i))
   | LetClone x src =>
       b <- _get_binding src;;
       a <- _clone (inst b);;
       bind_name x (mkVarBinding a (view_cls b))
   | LetCast x target src =>
       b <- _get_binding src;;
       b' <- _cast_binding b target;;
       bind_name x b'
   | LetAlias x src =>
       b <- _get_binding src;;
       bind_name x (mkVarBinding (inst b) (view_cls b))
   | FieldAssign x f v => _exec_field_assign x f v
   | Call x m => _exec_call x m false
   | VCall x m => _exec_call x m true
   | Is x t => _exec_is x t
   | Free x => _exec_free x
   | Gc =>
       st <- get;;
       if enable_gc (cfg st) then _gc_collect else ret tt
   end)%M.

(** [Metrics.print] *)
Definition Metrics_print (m : Metrics) : list OutLine :=
  [ Line EmptyString;
    Line "=== Metrics ===";
    Line ("resolve_calls   : " +:+ str_nat (resolve_calls m));
    Line ("cache_hits      : " +:+ str_nat (cache_hits m));
    Line ("cache_misses    : " +:+ str_nat (cache_misses m));
    Line ("vtable_uses     : " +:+ str_nat (vtable_uses m));
    Line ("itable_uses     : " +:+ str_nat (itable_uses m));
    Line ("resolve_steps   : " +:+ str_nat (resolve_steps m));
    (if decide (resolve_calls m = 0)%nat
     then Line ("resolve_time_ns : " +:+ str_Z (resolve_time_ns m))
     else ResolveTimeAvg (resolve_time_ns m) (resolve_calls m));
    Line ("gc_runs         : " +:+ str_nat (gc_runs m));
    Line ("gc_collected    : " +:+ str_nat (gc_collected m)) ].

Fixpoint exec_statements (stmts : list Stmt) : M unit :=
  match stmts with
  | [] => ret tt
  | s :: rest => (_exec_statement s;;; exec_statements rest)%M
  end.

(** [Interpreter.run] *)
Definition run (stmts : list Stmt) : M unit :=
  (exec_statements stmts;;;
   st <- get;;
   if enable_metrics (cfg st)
   then modify (fun st => set_stdout st (stdout st ++ Metrics_print (metrics st)))
   else ret tt)%M.

Module Examples.
(** A chain [A <- B <- C] with overrides, and an interface. *)
Definition decl_I := new_ClassDef "I" true None [] [] [("show", []); ("dflt", ["7"])].
Definition decl_A :=
  new_ClassDef "A" false None ["I"] ["x"] [("show", ["x"; "1"]); ("get", ["x"])].
Definition decl_B :=
  new_ClassDef "B" false (Some "A") [] ["y"] [("show", ["y"; "x"]); ("extra", ["y"])].
Definition decl_C := new_ClassDef "C" false (Some "B") [] ["z"] [("get", ["z"])].
Definition table := [decl_C; decl_I; decl_B; decl_A].
End Examples.

(** * Properties *)

(** ** The type table *)

Lemma get_type_name tbl n t : get_type tbl n = Some t -> name t = n.
Proof.
  induction tbl as [|t0 tbl IH]; simpl; [done|].
  destruct (decide (n = name t0)); [intros [= <-]; done | exact IH].
Qed.

Lemma get_type_elem tbl n t : get_type tbl n = Some t -> t ∈ tbl.
Proof.
  induction tbl as [|t0 tbl IH]; simpl; [done|].
  destruct (decide (n = name t0)).
  - intros [= <-]. apply list_elem_of_here.
  - intros H. apply list_elem_of_further, IH, H.
Qed.

Lemma get_type_None tbl n : get_type tbl n = None <-> n ∉ type_names tbl.
Proof.
  induction tbl as [|t0 tbl IH]; simpl.
  - split; [intros _; apply not_elem_of_nil | done].
  - rewrite not_elem_of_cons. destruct (decide (n = name t0)); [|tauto].
    split; [done | tauto].
Qed.

Lemma get_type_Some_names tbl n t : get_type tbl n = Some t -> n ∈ type_names tbl.
Proof.
  intros H. destruct (decide (n ∈ type_names tbl)) as [|Hn]; [done|].
  apply get_type_None in Hn. congruence.
Qed.

Lemma elem_get_type tbl t :
  NoDup (type_names tbl) -> t ∈ tbl -> get_type tbl (name t) = Some t.
Proof.
  induction tbl as [|t0 tbl IH]; simpl; intros Hnd Hin.
  - by apply elem_of_nil in Hin.
  - apply NoDup_cons in Hnd as [Hn Hnd].
    apply elem_of_cons in Hin as [->|Hin].
    + by rewrite decide_True.
    + rewrite decide_False; [by apply IH|].
      intros Heq. apply Hn. rewrite <- Heq.
      apply list_elem_of_fmap. by exists t.
Qed.

Lemma type_names_put tbl t : type_names (put_type tbl t) = type_names tbl.
Proof.
  induction tbl as [|t0 tbl IH]; simpl; [done|].
  destruct (decide (name t = name t0)) as [e|]; simpl; [by rewrite e|].
  by rewrite IH.
Qed.

Lemma get_put tbl t n :
  get_type (put_type tbl t) n =
  match get_type tbl n with
  | Some t0 => if decide (n = name t) then Some t else Some t0
  | None => None
  end.
Proof.
  induction tbl as [|t0 tbl IH]; simpl; [done|].
  destruct (decide (name t = name t0)) as [e|ne]; simpl.
  - repeat case_decide; try congruence. by destruct (get_type tbl n).
  - rewrite IH. repeat case_decide; try congruence; by destruct (get_type tbl n).
Qed.

Lemma get_put_ne tbl t n :
  n <> name t -> get_type (put_type tbl t) n = get_type tbl n.
Proof.
  intros Hne. rewrite get_put.
  destruct (get_type tbl n); [|done]. by rewrite decide_False.
Qed.

Lemma get_put_eq tbl t t0 :
  get_type tbl (name t) = Some t0 -> get_type (put_type tbl t) (name t) = Some t.
Proof. intros H. rewrite get_put, H. by rewrite decide_True. Qed.

Lemma put_type_app pre t0 t suf :
  name t = name t0 -> name t0 ∉ type_names pre ->
  put_type (pre ++ t0 :: suf) t = pre ++ t :: suf.
Proof.
  intros Hn. induction pre as [|p pre IH]; simpl; intros Hni.
  - by rewrite decide_True.
  - apply not_elem_of_cons in Hni as [Hne Hni].
    rewrite decide_False by congruence. by rewrite IH.
Qed.

Lemma get_type_app pre t0 suf :
  name t0 ∉ type_names pre -> get_type (pre ++ t0 :: suf) (name t0) = Some t0.
Proof.
  induction pre as [|p pre IH]; simpl; intros Hni.
  - by rewrite decide_True.
  - apply not_elem_of_cons in Hni as [Hne Hni].
    rewrite decide_False by done. by apply IH.
Qed.

Lemma deref_Ok tbl h t : deref tbl h = Ok t <-> get_type tbl h = Some t.
Proof. unfold deref. destruct (get_type tbl h); naive_solver. Qed.

Lemma put_get_id tbl t : get_type tbl (name t) = Some t -> put_type tbl t = tbl.
Proof.
  induction tbl as [|t0 tbl IH]; simpl; [done|].
  destruct (decide (name t = name t0)) as [e|ne].
  - intros [= ->]. done.
  - intros H. by rewrite IH.
Qed.

(** ** Loops over the table as maps

    A [for t in self.types.values()] loop whose body rewrites the visited
    object by [f] (or only checks it) maps [f] over the table; the [i]-th
    type is handled in a table whose first [i] types are rewritten. *)
Section for_types_map.
Variable body : list ClassDef -> ClassDef -> Res (list ClassDef).
Variable f : ClassDef -> ClassDef.
Hypothesis f_name : forall t, name (f t) = name t.
Hypothesis body_put : forall tbl t tbl',
  get_type tbl (name t) = Some t -> body tbl t = Ok tbl' -> tbl' = put_type tbl (f t).

Lemma type_names_map_f l : type_names (map f l) = type_names l.
Proof.
  unfold type_names. rewrite map_map. apply map_ext. intros; apply f_name.
Qed.

Lemma for_types_app suf : forall opre tbl',
  NoDup (type_names (opre ++ suf)) ->
  for_types body (type_names suf) (map f opre ++ suf) = Ok tbl' ->
  tbl' = map f (opre ++ suf) /\
  forall i t, suf !! i = Some t ->
    exists r, body (map f (opre ++ take i suf) ++ drop i suf) t = Ok r.
Proof.
  induction suf as [|t suf IH]; intros opre tbl' Hnd; simpl.
  - intros [= <-]. rewrite !app_nil_r. split; [done|]. intros i t Hi.
    by rewrite lookup_nil in Hi.
  - assert (Hni : name t ∉ type_names (map f opre)).
    { rewrite type_names_map_f. unfold type_names in Hnd.
      rewrite map_app in Hnd. apply NoDup_app in Hnd as (_ & Hd & _).
      intros Hin. apply (Hd _ Hin). simpl. apply list_elem_of_here. }
    unfold deref. rewrite (get_type_app _ _ _ Hni). simpl.
    destruct (body (map f opre ++ t :: suf) t) as [tbl1|e] eqn:Hb; simpl; [|done].
    pose proof (body_put _ _ _ (get_type_app _ _ _ Hni) Hb) as ->.
    rewrite (put_type_app _ t) by (auto using f_name).
    intros Hfor.
    replace (map f opre ++ f t :: suf) with (map f (opre ++ [t]) ++ suf) in Hfor
      by (rewrite map_app; simpl; by rewrite <- app_assoc).
    apply IH in Hfor as [-> Hchk]; [|by rewrite <- app_assoc].
    split; [by rewrite <- app_assoc|].
    intros [|i] t' Hi; simpl in Hi.
    + injection Hi as <-. rewrite take_0, drop_0, app_nil_r. eauto.
    + destruct (Hchk i t' Hi) as [r Hr]. exists r.
      simpl. rewrite <- app_assoc in Hr. exact Hr.
Qed.

Lemma for_types_map tbl tbl' :
  NoDup (type_names tbl) ->
  for_types body (type_names tbl) tbl = Ok tbl' ->
  tbl' = map f tbl /\
  forall i t, tbl !! i = Some t ->
    exists r, body (map f (take i tbl) ++ drop i tbl) t = Ok r.
Proof. intros Hnd H. by apply (for_types_app tbl [] tbl'). Qed.
End for_types_map.

(** Looking a name up in a partly rewritten table. *)
Lemma get_type_mid (f : ClassDef -> ClassDef) l1 l2 n x :
  (forall t, name (f t) = name t) ->
  get_type (map f l1 ++ l2) n = Some x ->
  exists y, get_type (l1 ++ l2) n = Some y /\ (x = y \/ x = f y).
Proof.
  intros Hf. induction l1 as [|t l1 IH]; simpl.
  - eauto.
  - rewrite Hf. destruct (decide (n = name t)).
    + intros [= <-]. eauto.
    + exact IH.
Qed.

Lemma get_type_map (f : ClassDef -> ClassDef) l n :
  (forall t, name (f t) = name t) ->
  get_type (map f l) n = f <$> get_type l n.
Proof.
  intros Hf. induction l as [|t l IH]; simpl; [done|].
  rewrite Hf. by destruct (decide (n = name t)).
Qed.

(** The rewriting done by steps 1, 2, 4 (interfaces) and 6. *)
Definition linked_base (t : ClassDef) : ClassDef :=
  if is_interface t then t
  else match base_name t with
       | Some b => set_base t (Some b)
       | None => t
       end.

Definition linked_interfaces (t : ClassDef) : ClassDef :=
  if is_interface t then t else set_interfaces t (interfaces_names t).

Definition interface_layout (t : ClassDef) : ClassDef :=
  if is_interface t then set_layout t [] (index_dict []) else t.

Definition interface_slots (t : ClassDef) : ClassDef :=
  if is_interface t
  then set_method_slot t (enumerate_dict (dict_keys (methods t)))
  else t.

Lemma resolve_interfaces_Ok tbl c inames acc r :
  resolve_interfaces tbl c inames acc = Ok r ->
  r = acc ++ inames /\
  Forall (fun i => exists it, get_type tbl i = Some it /\ is_interface it = true) inames.
Proof.
  revert acc. induction inames as [|i inames IH]; simpl; intros acc.
  - intros [= <-]. by rewrite app_nil_r.
  - destruct (get_type tbl i) as [it|] eqn:Hi; [|done].
    destruct (is_interface it) eqn:Hit; simpl; [|done].
    intros H. apply IH in H as [-> HF]. rewrite <- app_assoc. split; [done|].
    constructor; eauto.
Qed.

Lemma link_base_put tbl t tbl' :
  get_type tbl (name t) = Some t -> link_base tbl t = Ok tbl' ->
  tbl' = put_type tbl (linked_base t).
Proof.
  unfold link_base, linked_base. intros Hg.
  destruct (is_interface t); [intros [= <-]; by rewrite put_get_id|].
  destruct (base_name t) as [b|]; [|intros [= <-]; by rewrite put_get_id].
  destruct (get_type tbl b) as [bt|]; [|done].
  destruct (is_interface bt); [done|]. by intros [= <-].
Qed.

Lemma link_interfaces_put tbl t tbl' :
  get_type tbl (name t) = Some t -> link_interfaces tbl t = Ok tbl' ->
  tbl' = put_type tbl (linked_interfaces t).
Proof.
  unfold link_interfaces, linked_interfaces. intros Hg.
  destruct (is_interface t); [intros [= <-]; by rewrite put_get_id|].
  destruct (resolve_interfaces _ _ _ _) as [r|] eqn:Hr; simpl; [|done].
  apply resolve_interfaces_Ok in Hr as [-> _]. by intros [= <-].
Qed.

Lemma check_cycle_put tbl t tbl' :
  get_type tbl (name t) = Some t -> check_cycle tbl t = Ok tbl' ->
  tbl' = put_type tbl (id t).
Proof.
  unfold check_cycle. intros Hg. simpl. rewrite put_get_id by done.
  destruct (is_interface t); [by intros [= <-]|].
  destruct (has_cycle tbl t) as [[]|]; simpl; [done| |done]. by intros [= <-].
Qed.

Lemma layout_interface_put tbl t tbl' :
  get_type tbl (name t) = Some t -> layout_interface tbl t = Ok tbl' ->
  tbl' = put_type tbl (interface_layout t).
Proof.
  unfold layout_interface, interface_layout, compute_layout. intros Hg.
  destruct (is_interface t); simpl; [by intros [= <-]|].
  intros [= <-]. by rewrite put_get_id.
Qed.

Lemma check_fields_put tbl t tbl' :
  get_type tbl (name t) = Some t -> check_fields tbl t = Ok tbl' ->
  tbl' = put_type tbl (id t).
Proof.
  unfold check_fields. intros Hg. simpl. rewrite put_get_id by done.
  destruct (is_interface t); [by intros [= <-]|].
  destruct (base t) as [b|]; [|by intros [= <-]].
  destruct (deref tbl b); simpl; [|done].
  destruct (find _ _); [done|]. by intros [= <-].
Qed.

Lemma slots_interface_put tbl t tbl' :
  get_type tbl (name t) = Some t -> slots_interface tbl t = Ok tbl' ->
  tbl' = put_type tbl (interface_slots t).
Proof.
  unfold slots_interface, interface_slots. intros Hg.
  destruct (is_interface t); [by intros [= <-]|].
  intros [= <-]. by rewrite put_get_id.
Qed.

(** ** Base chains *)

(** [Chain tbl c l]: following [base] from [c] visits exactly the types
    [l] and then reaches [None]. *)
Inductive Chain (tbl : list ClassDef) : option string -> list ClassDef -> Prop :=
  | Chain_nil : Chain tbl None []
  | Chain_cons h t l :
      get_type tbl h = Some t -> Chain tbl (base t) l -> Chain tbl (Some h) (t :: l).

Lemma Chain_fun tbl c l1 l2 : Chain tbl c l1 -> Chain tbl c l2 -> l1 = l2.
Proof.
  intros H. revert l2. induction H as [|h t l Hg Hc IH]; intros l2 H2.
  - by inversion H2.
  - inversion H2 as [|h' t' l' Hg' Hc']; subst.
    rewrite Hg in Hg'. injection Hg' as <-. f_equal. by apply IH.
Qed.

Lemma elem_class_names tbl n :
  n ∈ class_names tbl <-> exists t, t ∈ tbl /\ is_interface t = false /\ name t = n.
Proof.
  unfold class_names, type_names. rewrite elem_of_list_to_set, list_elem_of_fmap.
  split.
  - intros (t & -> & Ht). apply list_elem_of_filter in Ht as [? ?]. eauto.
  - intros (t & Ht & Hi & <-). exists t. split; [done|].
    apply list_elem_of_filter. done.
Qed.

Lemma class_names_get tbl n t :
  NoDup (type_names tbl) -> get_type tbl n = Some t ->
  n ∈ class_names tbl <-> is_interface t = false.
Proof.
  intros Hnd Hg. rewrite elem_class_names. split.
  - intros (t' & Hin & Hi & Hn). apply (elem_get_type _ _ Hnd) in Hin.
    rewrite Hn, Hg in Hin. by injection Hin as ->.
  - intros Hi. exists t. split; [by eapply get_type_elem|].
    split; [done|]. by eapply get_type_name.
Qed.

Lemma size_list_to_set_le (l : list string) :
  size (list_to_set l : gset string) <= length l.
Proof.
  induction l as [|x l IH]; simpl; [done|].
  destruct (decide (x ∈ (list_to_set l : gset string))) as [Hin|Hin].
  - replace ({[x]} ∪ list_to_set l) with (list_to_set l : gset string)
      by set_solver.
    lia.
  - rewrite size_union by set_solver. rewrite size_singleton. lia.
Qed.

Lemma size_class_names tbl : size (class_names tbl) <= length tbl.
Proof.
  unfold class_names, type_names.
  etransitivity; [apply size_list_to_set_le|].
  rewrite length_map. apply length_filter.
Qed.

(** ** The topological loop

    When the loop ends normally, every class has been rewritten by the
    body [g] in a table in which its base already had its final form,
    and every class has a finite base chain. *)
Section topo_spec.
Variable g : list ClassDef -> ClassDef -> Res ClassDef.
Variable process : list ClassDef -> ClassDef -> Res (list ClassDef).
Variable stuck : Error.
Hypothesis process_eq : forall tbl t,
  process tbl t = (t' <- g tbl t;; Ok (put_type tbl t'))%res.
Hypothesis g_skel : forall tbl t t', g tbl t = Ok t' ->
  name t' = name t /\ is_interface t' = is_interface t /\ base t' = base t.
Hypothesis g_local : forall tbl1 tbl2 t,
  (forall b, base t = Some b -> get_type tbl1 b = get_type tbl2 b) ->
  g tbl1 t = g tbl2 t.

Variable T0 : list ClassDef.
Hypothesis T0_nodup : NoDup (type_names T0).

Record TopoInv (tbl : list ClassDef) (done remaining : gset string) : Prop := {
  ti_names : type_names tbl = type_names T0;
  ti_point : forall n t0, get_type T0 n = Some t0 ->
    exists t, get_type tbl n = Some t /\ base t = base t0 /\
      if decide (n ∈ done) then g tbl t0 = Ok t else t = t0;
  ti_base : forall n t0 b, n ∈ done -> get_type T0 n = Some t0 ->
    base t0 = Some b -> b ∈ done;
  ti_chain : forall n, n ∈ done ->
    exists l, Chain T0 (Some n) l /\ length l <= size done;
  ti_cover : class_names T0 ⊆ done ∪ remaining;
  ti_classes : done ∪ remaining ⊆ class_names T0;
  ti_disj : done ## remaining
}.

Lemma TopoInv_init : TopoInv T0 ∅ (class_names T0).
Proof.
  split.
  - done.
  - intros n t0 Hg. exists t0. by rewrite decide_False by set_solver.
  - intros n t0 b Hn. set_solver.
  - intros n Hn. set_solver.
  - set_solver.
  - set_solver.
  - set_solver.
Qed.

Lemma topo_pass_inv snapshot : forall tbl done rem prog tbl' done' rem' prog',
  TopoInv tbl done rem -> NoDup snapshot ->
  (forall n, n ∈ snapshot -> n ∈ rem) ->
  topo_pass process snapshot tbl done rem prog = Ok (tbl', done', rem', prog') ->
  TopoInv tbl' done' rem' /\
  (prog' = true \/ (prog' = prog /\ rem' = rem)) /\
  (prog' = true -> prog = false -> size rem' < size rem) /\
  size rem' <= size rem.
Proof.
  induction snapshot as [|n rest IH]; intros tbl done rem prog tbl' done' rem' prog'
    Inv Hnd Hsub; simpl.
  - intros [= <- <- <- <-]. split; [done|]. split; [by right|].
    split; [congruence | lia].
  - apply NoDup_cons in Hnd as [Hn Hnd].
    destruct (deref tbl n) as [t|] eqn:Ht; simpl; [|done].
    apply deref_Ok in Ht.
    pose proof (Hsub n (list_elem_of_here _ _)) as Hnrem.
    assert (Hndone : n ∉ done) by (pose proof (ti_disj _ _ _ Inv); set_solver).
    assert (HT0 : get_type T0 n = Some t).
    { assert (Hin : n ∈ type_names T0).
      { rewrite <- (ti_names _ _ _ Inv). by eapply get_type_Some_names. }
      destruct (get_type T0 n) as [t0|] eqn:H0;
        [|by apply get_type_None in H0].
      destruct (ti_point _ _ _ Inv n t0 H0) as (t1 & Hg1 & _ & Hrel).
      rewrite decide_False in Hrel by done. congruence. }
    set (ready := match base t with
                  | Some b => (bt <- deref tbl b;; Ok (bool_decide (name bt ∈ done)))%res
                  | None => Ok true
                  end).
    destruct ready as [[]|] eqn:Hready; subst ready; simpl; [| |done].
    + (* the class is handled *)
      rewrite process_eq.
      destruct (g tbl t) as [t'|] eqn:Hgt; simpl; [|done].
      intros Hpass.
      destruct (g_skel _ _ _ Hgt) as (Hname & Hif & Hbase).
      assert (Hnt : name t = n) by (by eapply get_type_name).
      assert (Hbd : forall b, base t = Some b -> b ∈ done).
      { intros b Hb. rewrite Hb in Hready.
        destruct (deref tbl b) as [bt|] eqn:Hbt; simpl in Hready; [|done].
        apply deref_Ok, get_type_name in Hbt. rewrite Hbt in Hready.
        injection Hready as Hready. by apply bool_decide_eq_true in Hready. }
      assert (Inv' : TopoInv (put_type tbl t') ({[n]} ∪ done) (rem ∖ {[n]})).
      { split.
        - rewrite type_names_put. apply (ti_names _ _ _ Inv).
        - intros m t0 H0.
          destruct (ti_point _ _ _ Inv m t0 H0) as (t1 & Hg1 & Hb1 & Hrel).
          destruct (decide (m = n)) as [->|Hmn].
          + exists t'. rewrite HT0 in H0. injection H0 as <-.
            split; [rewrite <- Hnt, <- Hname; eapply get_put_eq;
                    rewrite Hname, Hnt; exact Ht|].
            split; [done|]. rewrite decide_True by set_solver.
            rewrite <- Hgt. apply g_local. intros b Hb.
            apply get_put_ne. rewrite Hname, Hnt.
            intros ->. by apply Hndone, Hbd.
          + exists t1. split; [rewrite get_put_ne; [done|congruence]|].
            split; [done|].
            destruct (decide (m ∈ done)) as [Hmd|Hmd].
            * rewrite decide_True by set_solver.
              rewrite <- Hrel. apply g_local. intros b Hb.
              apply get_put_ne. rewrite Hname, Hnt. intros ->.
              apply Hndone. eapply (ti_base _ _ _ Inv); eauto.
            * rewrite decide_False by set_solver. done.
        - intros m t0 b Hm H0 Hb.
          apply elem_of_union in Hm as [Hm|Hm].
          + apply elem_of_singleton in Hm as ->.
            rewrite HT0 in H0. injection H0 as <-. apply elem_of_union_r. auto.
          + apply elem_of_union_r. eapply (ti_base _ _ _ Inv); eauto.
        - intros m Hm. rewrite size_union, size_singleton by set_solver.
          apply elem_of_union in Hm as [Hm|Hm].
          + apply elem_of_singleton in Hm as ->.
            destruct (base t) as [b|] eqn:Hb.
            * destruct (ti_chain _ _ _ Inv b (Hbd b eq_refl)) as (l & Hl & Hlen).
              exists (t :: l). split; [|simpl; lia].
              econstructor; [done|]. by rewrite Hb.
            * exists [t]. split; [|simpl; lia].
              econstructor; [done|]. rewrite Hb. constructor.
          + destruct (ti_chain _ _ _ Inv m Hm) as (l & Hl & Hlen).
            exists l. split; [done | lia].
        - pose proof (ti_cover _ _ _ Inv). intros x Hx.
          destruct (decide (x = n)); set_solver.
        - pose proof (ti_classes _ _ _ Inv). set_solver.
        - pose proof (ti_disj _ _ _ Inv). set_solver. }
      apply IH in Hpass as (Inv'' & Hp & _ & Hsz); [|done|done|].
      * assert (prog' = true) as -> by (by destruct Hp as [?|[? ?]]).
        split; [done|]. split; [by left|].
        assert (size (rem ∖ {[n]}) < size rem).
        { apply subset_size. set_solver. }
        split; [intros; lia | lia].
      * intros m Hm. apply elem_of_difference. split; [apply Hsub; set_solver|].
        intros ->%elem_of_singleton. done.
    + (* not ready: skipped *)
      intros Hpass. apply IH in Hpass; [done|done|done|].
      intros m Hm. apply Hsub. set_solver.
Qed.

Lemma topo_loop_inv fuel : forall tbl done rem T',
  TopoInv tbl done rem ->
  topo_loop process stuck fuel tbl done rem = Ok T' ->
  exists done', TopoInv T' done' ∅.
Proof.
  induction fuel as [|fuel IH]; intros tbl done rem T' Inv; simpl.
  - destruct (decide (rem = ∅)) as [->|]; [|done].
    intros [= <-]. eauto.
  - destruct (decide (rem = ∅)) as [->|]; [intros [= <-]; eauto|].
    destruct (topo_pass process (elements rem) tbl done rem false)
      as [[[[tbl1 done1] rem1] prog1]|] eqn:Hpass; simpl; [|done].
    apply topo_pass_inv in Hpass as (Inv1 & _); [|done|apply NoDup_elements|].
    + destruct prog1; [|done]. by apply IH.
    + intros x. by rewrite elem_of_elements.
Qed.

Theorem topo_loop_spec fuel T' :
  topo_loop process stuck fuel T0 ∅ (class_names T0) = Ok T' ->
  type_names T' = type_names T0 /\
  (forall n t0, get_type T0 n = Some t0 ->
     exists t', get_type T' n = Some t' /\ base t' = base t0 /\
       if is_interface t0 then t' = t0 else g T' t0 = Ok t') /\
  (forall n t0, get_type T0 n = Some t0 -> is_interface t0 = false ->
     exists l, Chain T0 (Some n) l /\ length l <= length T0).
Proof.
  intros H. apply topo_loop_inv in H as [done Inv]; [|apply TopoInv_init].
  assert (Hdone : done = class_names T0).
  { pose proof (ti_cover _ _ _ Inv). pose proof (ti_classes _ _ _ Inv).
    set_solver. }
  split; [apply (ti_names _ _ _ Inv)|]. split.
  - intros n t0 H0. destruct (ti_point _ _ _ Inv n t0 H0) as (t' & Hg' & Hb & Hrel).
    exists t'. split; [done|]. split; [done|].
    pose proof (class_names_get _ _ _ T0_nodup H0) as Hcn.
    rewrite <- Hdone in Hcn.
    destruct (is_interface t0).
    + rewrite decide_False in Hrel; [done|]. intros Hin. by apply Hcn in Hin.
    + rewrite decide_True in Hrel; [done|]. by apply Hcn.
  - intros n t0 H0 Hi.
    assert (Hn : n ∈ done).
    { rewrite Hdone. by apply (class_names_get _ _ _ T0_nodup H0). }
    destruct (ti_chain _ _ _ Inv n Hn) as (l & Hl & Hlen).
    exists l. split; [done|]. rewrite Hdone in Hlen.
    pose proof (size_class_names T0). lia.
Qed.
End topo_spec.

Lemma Chain_transfer T T' c l :
  (forall n t, get_type T n = Some t ->
     exists t', get_type T' n = Some t' /\ base t' = base t) ->
  Chain T c l -> exists l', Chain T' c l' /\ length l' = length l.
Proof.
  intros HT H. induction H as [|h t l Hg Hc (l' & Hl' & Hlen)].
  - exists []. split; [constructor | done].
  - destruct (HT _ _ Hg) as (t' & Hg' & Hb). exists (t' :: l').
    split; [|simpl; by rewrite Hlen].
    econstructor; [done|]. by rewrite Hb.
Qed.

(** ** The two instances of the topological loop *)

Lemma compute_layout_skel tbl t t' :
  compute_layout tbl t = Ok t' ->
  name t' = name t /\ is_interface t' = is_interface t /\ base t' = base t.
Proof.
  unfold compute_layout.
  destruct (if is_interface t then _ else _); simpl; [|done].
  by intros [= <-].
Qed.

Lemma compute_layout_local tbl1 tbl2 t :
  (forall b, base t = Some b -> get_type tbl1 b = get_type tbl2 b) ->
  compute_layout tbl1 t = compute_layout tbl2 t.
Proof.
  intros H. unfold compute_layout, deref.
  destruct (is_interface t); [done|].
  destruct (base t) as [b|]; [|done]. by rewrite (H b).
Qed.

Lemma class_vtable_skel tbl t t' :
  class_vtable tbl t = Ok t' ->
  name t' = name t /\ is_interface t' = is_interface t /\ base t' = base t.
Proof.
  unfold class_vtable.
  destruct (match base t with Some _ => _ | None => _ end); simpl; [|done].
  destruct (add_methods _ _); simpl; [|done].
  by intros [= <-].
Qed.

Lemma class_vtable_local tbl1 tbl2 t :
  (forall b, base t = Some b -> get_type tbl1 b = get_type tbl2 b) ->
  class_vtable tbl1 t = class_vtable tbl2 t.
Proof.
  intros H. unfold class_vtable, deref.
  destruct (base t) as [b|]; [|done]. by rewrite (H b).
Qed.

(** ** What a successful link establishes *)

(** The form every type has before the class layouts are computed. *)
Definition pre_layout (t : ClassDef) : ClassDef :=
  interface_layout (linked_interfaces (linked_base t)).

Lemma linked_base_name t : name (linked_base t) = name t.
Proof. unfold linked_base. by repeat case_match. Qed.
Lemma linked_interfaces_name t : name (linked_interfaces t) = name t.
Proof. unfold linked_interfaces. by repeat case_match. Qed.
Lemma interface_layout_name t : name (interface_layout t) = name t.
Proof. unfold interface_layout. by repeat case_match. Qed.
Lemma interface_slots_name t : name (interface_slots t) = name t.
Proof. unfold interface_slots. by repeat case_match. Qed.
Lemma pre_layout_name t : name (pre_layout t) = name t.
Proof.
  unfold pre_layout.
  by rewrite interface_layout_name, linked_interfaces_name, linked_base_name.
Qed.

(** The stages of [_resolve_and_link], as a relation between the table it
    is given, the table after step 5 and the table it returns. *)
Record Stages (T0 T5 T8 : list ClassDef) : Prop := {
  st_base : forall n t0 b, get_type T0 n = Some t0 -> is_interface t0 = false ->
    base_name t0 = Some b ->
    exists bt, get_type T0 b = Some bt /\ is_interface bt = false;
  st_ifaces : forall n t0, get_type T0 n = Some t0 -> is_interface t0 = false ->
    Forall (fun i => exists it, get_type T0 i = Some it /\ is_interface it = true)
      (interfaces_names t0);
  st_layout : forall n t0, get_type T0 n = Some t0 ->
    exists t5, get_type T5 n = Some t5 /\
      if is_interface t0 then t5 = pre_layout t0
      else compute_layout T5 (pre_layout t0) = Ok t5;
  st_fields : forall n t5 b bt f, get_type T5 n = Some t5 -> is_interface t5 = false ->
    base t5 = Some b -> get_type T5 b = Some bt -> f ∈ fields t5 ->
    f ∉ all_fields bt;
  st_vtable : forall n t5, get_type T5 n = Some t5 ->
    exists t8, get_type T8 n = Some t8 /\
      if is_interface t5 then t8 = interface_slots t5
      else class_vtable T8 (interface_slots t5) = Ok t8;
  st_chain : forall n t5, get_type T5 n = Some t5 -> is_interface t5 = false ->
    exists l, Chain T5 (Some n) l /\ length l <= length T5;
  st_names5 : type_names T5 = type_names T0;
  st_names8 : type_names T8 = type_names T0
}.

Lemma link_base_Ok tbl t r :
  link_base tbl t = Ok r -> is_interface t = false ->
  forall b, base_name t = Some b ->
  exists bt, get_type tbl b = Some bt /\ is_interface bt = false.
Proof.
  unfold link_base. intros H Hc b Hb. rewrite Hc, Hb in H.
  destruct (get_type tbl b) as [bt|]; [|done].
  destruct (is_interface bt) eqn:Hi; [done|]. eauto.
Qed.

Lemma link_interfaces_Ok tbl t r :
  link_interfaces tbl t = Ok r -> is_interface t = false ->
  Forall (fun i => exists it, get_type tbl i = Some it /\ is_interface it = true)
    (interfaces_names t).
Proof.
  unfold link_interfaces. intros H Hc. rewrite Hc in H.
  destruct (resolve_interfaces _ _ _ _) as [r'|] eqn:Hr; simpl in H; [|done].
  by apply resolve_interfaces_Ok in Hr as [_ ?].
Qed.

Lemma check_fields_Ok tbl t r :
  check_fields tbl t = Ok r -> is_interface t = false ->
  forall b bt f, base t = Some b -> get_type tbl b = Some bt -> f ∈ fields t ->
  f ∉ all_fields bt.
Proof.
  unfold check_fields, deref. intros H Hc b bt f Hb Hbt Hf.
  rewrite Hc, Hb, Hbt in H. simpl in H.
  destruct (find _ _) eqn:Hfind; [done|].
  intros Hin.
  pose proof (find_none _ _ Hfind f (proj1 (list_elem_of_In _ _) Hf)) as Hn.
  simpl in Hn. by apply bool_decide_eq_false in Hn.
Qed.

Lemma get_type_same_names T T' n t' :
  type_names T = type_names T' -> get_type T' n = Some t' ->
  exists t, get_type T n = Some t.
Proof.
  intros Hn Hg. destruct (get_type T n) as [t|] eqn:H; [eauto|].
  apply get_type_None in H. rewrite Hn in H. apply get_type_None in H. congruence.
Qed.

Section for_types_checks.
Variable body : list ClassDef -> ClassDef -> Res (list ClassDef).
Variable f : ClassDef -> ClassDef.
Hypothesis f_name : forall t, name (f t) = name t.
Hypothesis body_put : forall tbl t tbl',
  get_type tbl (name t) = Some t -> body tbl t = Ok tbl' -> tbl' = put_type tbl (f t).

Lemma for_types_checks tbl tbl' :
  NoDup (type_names tbl) ->
  for_types body (type_names tbl) tbl = Ok tbl' ->
  tbl' = map f tbl /\
  forall n t, get_type tbl n = Some t ->
    exists mid r, body mid t = Ok r /\
      forall m x, get_type mid m = Some x ->
        exists y, get_type tbl m = Some y /\ (x = y \/ x = f y).
Proof.
  intros Hnd H.
  destruct (for_types_map body f f_name body_put tbl tbl' Hnd H) as [-> Hchk].
  split; [done|]. intros n t Hg.
  apply get_type_elem, list_elem_of_lookup in Hg as [i Hi].
  destruct (Hchk i t Hi) as [r Hr].
  exists (map f (take i tbl) ++ drop i tbl), r. split; [done|].
  intros m x Hx. apply get_type_mid in Hx; [|done].
  by rewrite take_drop in Hx.
Qed.
End for_types_checks.

Lemma id_name (t : ClassDef) : name (id t) = name t.
Proof. done. Qed.

Lemma linked_base_is_interface t : is_interface (linked_base t) = is_interface t.
Proof. unfold linked_base. by destruct (is_interface t) eqn:E, (base_name t). Qed.

Lemma linked_interfaces_is_interface t :
  is_interface (linked_interfaces t) = is_interface t.
Proof. unfold linked_interfaces. by destruct (is_interface t) eqn:E. Qed.

Lemma interface_layout_is_interface t :
  is_interface (interface_layout t) = is_interface t.
Proof. unfold interface_layout. by destruct (is_interface t) eqn:E. Qed.

Lemma pre_layout_is_interface t : is_interface (pre_layout t) = is_interface t.
Proof.
  unfold pre_layout.
  by rewrite interface_layout_is_interface, linked_interfaces_is_interface,
    linked_base_is_interface.
Qed.

Lemma linked_base_interfaces_names t :
  interfaces_names (linked_base t) = interfaces_names t.
Proof. unfold linked_base. by destruct (is_interface t), (base_name t). Qed.

Lemma interface_slots_is_interface t :
  is_interface (interface_slots t) = is_interface t.
Proof. unfold interface_slots. by destruct (is_interface t) eqn:E. Qed.

Theorem link_stages T0 T8 :
  NoDup (type_names T0) -> _resolve_and_link T0 = Ok T8 ->
  exists T5, Stages T0 T5 T8.
Proof.
  intros Hnd. unfold _resolve_and_link.
  destruct (for_types link_base _ T0) as [T1|] eqn:H1; simpl; [|done].
  apply (for_types_checks _ _ linked_base_name link_base_put) in H1 as [-> C1];
    [|done].
  pose proof (type_names_map_f _ linked_base_name T0) as N1.
  destruct (for_types link_interfaces _ _) as [T2|] eqn:H2; simpl; [|done].
  rewrite <- N1 in H2.
  apply (for_types_checks _ _ linked_interfaces_name link_interfaces_put) in H2
    as [-> C2]; [|by rewrite N1].
  pose proof (type_names_map_f _ linked_interfaces_name (map linked_base T0)) as N2.
  destruct (for_types check_cycle _ _) as [T3|] eqn:H3; simpl; [|done].
  rewrite <- N1, <- N2 in H3.
  apply (for_types_checks _ _ id_name check_cycle_put) in H3 as [-> _];
    [|by rewrite N2, N1].
  rewrite map_id in *.
  destruct (for_types layout_interface _ _) as [T4|] eqn:H4; simpl; [|done].
  rewrite <- N1, <- N2 in H4.
  apply (for_types_checks _ _ interface_layout_name layout_interface_put) in H4
    as [-> _]; [|by rewrite N2, N1].
  set (T4 := map interface_layout (map linked_interfaces (map linked_base T0))).
  assert (N4 : type_names T4 = type_names T0).
  { unfold T4. by rewrite (type_names_map_f _ interface_layout_name), N2, N1. }
  assert (G4 : forall n, get_type T4 n = pre_layout <$> get_type T0 n).
  { intros n. unfold T4.
    rewrite (get_type_map _ _ _ interface_layout_name),
      (get_type_map _ _ _ linked_interfaces_name),
      (get_type_map _ _ _ linked_base_name).
    by destruct (get_type T0 n). }
  destruct (topo_loop layout_class _ _ T4 _ _) as [T5|] eqn:H5; simpl; [|done].
  apply (topo_loop_spec compute_layout layout_class LayoutStuck) in H5
    as (N5 & P5 & Ch5);
    [|done|apply compute_layout_skel|apply compute_layout_local|by rewrite N4].
  destruct (for_types check_fields _ T5) as [T6|] eqn:H6; simpl; [|done].
  rewrite <- N4, <- N5 in H6.
  apply (for_types_checks _ _ id_name check_fields_put) in H6 as [-> C6];
    [|by rewrite N5, N4].
  rewrite map_id in *.
  destruct (for_types slots_interface _ T5) as [T7|] eqn:H7; simpl; [|done].
  rewrite <- N4, <- N5 in H7.
  apply (for_types_checks _ _ interface_slots_name slots_interface_put) in H7
    as [-> _]; [|by rewrite N5, N4].
  pose proof (type_names_map_f _ interface_slots_name T5) as N7.
  intros H8.
  apply (topo_loop_spec class_vtable build_vtable VtableStuck) in H8
    as (N8 & P8 & _);
    [|done|apply class_vtable_skel|apply class_vtable_local|by rewrite N7, N5, N4].
  exists T5. split.
  - (* st_base *)
    intros n t0 b Hg Hi Hb.
    destruct (C1 n t0 Hg) as (mid & r & Hr & Hmid).
    destruct (link_base_Ok _ _ _ Hr Hi b Hb) as (bt & Hbt & Hbi).
    destruct (Hmid _ _ Hbt) as (y & Hy & [->| ->]); exists y; split; try done.
    by rewrite linked_base_is_interface in Hbi.
  - (* st_ifaces *)
    intros n t0 Hg Hi.
    assert (Hg1 : get_type (map linked_base T0) n = Some (linked_base t0)).
    { by rewrite (get_type_map _ _ _ linked_base_name), Hg. }
    destruct (C2 n _ Hg1) as (mid & r & Hr & Hmid).
    apply link_interfaces_Ok in Hr; [|by rewrite linked_base_is_interface].
    rewrite linked_base_interfaces_names in Hr.
    eapply Forall_impl; [exact Hr|].
    intros i (it & Hit & Hiti). simpl in Hit.
    destruct (Hmid _ _ Hit) as (y & Hy & Hrel).
    rewrite (get_type_map _ _ _ linked_base_name) in Hy.
    destruct (get_type T0 i) as [y0|] eqn:Hy0; [|done].
    injection Hy as <-. exists y0. split; [done|].
    destruct Hrel as [-> | ->];
      by rewrite ?linked_interfaces_is_interface, linked_base_is_interface in Hiti.
  - (* st_layout *)
    intros n t0 Hg.
    assert (Hg4 : get_type T4 n = Some (pre_layout t0)) by (by rewrite G4, Hg).
    destruct (P5 _ _ Hg4) as (t5 & Hg5 & _ & Hrel).
    exists t5. split; [done|]. by rewrite pre_layout_is_interface in Hrel.
  - (* st_fields *)
    intros n t5 b bt f Hg Hi Hb Hbt Hf.
    destruct (C6 n t5 Hg) as (mid & r & Hr & Hmid).
    intros Hin.
    destruct (base t5) as [b'|] eqn:Hb5; [|done]. injection Hb as ->.
    unfold check_fields in Hr. rewrite Hi, Hb5 in Hr.
    destruct (deref mid b) as [btm|] eqn:Hbm; simpl in Hr; [|done].
    apply deref_Ok in Hbm. destruct (Hmid _ _ Hbm) as (y & Hy & Hrel).
    assert (btm = bt) as ->
      by (destruct Hrel as [-> | ->]; unfold id; congruence).
    destruct (find _ _) eqn:Hfind; [done|].
    pose proof (find_none _ _ Hfind f (proj1 (list_elem_of_In _ _) Hf)) as Hn.
    simpl in Hn. by apply bool_decide_eq_false in Hn.
  - (* st_vtable *)
    intros n t5 Hg.
    assert (Hg7 : get_type (map interface_slots T5) n = Some (interface_slots t5)).
    { by rewrite (get_type_map _ _ _ interface_slots_name), Hg. }
    destruct (P8 _ _ Hg7) as (t8 & Hg8 & _ & Hrel).
    exists t8. split; [done|]. by rewrite interface_slots_is_interface in Hrel.
  - (* st_chain *)
    intros n t5 Hg Hi.
    destruct (get_type_same_names T4 T5 n t5) as [t4 Hg4]; [done|done|].
    destruct (P5 _ _ Hg4) as (t5' & Hg5 & _ & Hrel).
    assert (t5' = t5) as -> by congruence.
    assert (Hi4 : is_interface t4 = false).
    { destruct (is_interface t4) eqn:E; [|done]. rewrite Hrel in Hi. congruence. }
    destruct (Ch5 _ _ Hg4 Hi4) as (l & Hl & Hlen).
    destruct (Chain_transfer T4 T5 (Some n) l) as (l' & Hl' & Hlen'); [|done|].
    + intros m t Hm. destruct (P5 _ _ Hm) as (t' & ? & ? & _). eauto.
    + exists l'. split; [done|].
      assert (length T5 = length T4).
      { rewrite <- (length_map name T5), <- (length_map name T4).
        unfold type_names in N5. by rewrite N5. }
      lia.
  - by rewrite N5, N4.
  - by rewrite N8, N7, N5, N4.
Qed.

(** A [ClassDef] as [_parse_type_block] builds it: only the declaration
    is filled in. *)
Definition constructed (t : ClassDef) : Prop :=
  t = new_ClassDef (name t) (is_interface t) (base_name t) (interfaces_names t)
        (fields t) (methods t).

(** The tables of the base of [t], the empty ones without a base. *)
Definition base_all_fields (T : list ClassDef) (t : ClassDef) : list string :=
  match base t with
  | Some b => match get_type T b with Some bt => all_fields bt | None => [] end
  | None => []
  end.

Definition base_tables (T : list ClassDef) (t : ClassDef)
    : list (string * nat) * list (list string) :=
  match base t with
  | Some b => match get_type T b with
              | Some bt => (method_slot bt, vtable_tokens bt)
              | None => ([], [])
              end
  | None => ([], [])
  end.

(** The linked table [T] of the declarations [T0]. *)
Record Linked (T0 T : list ClassDef) : Prop := {
  lk_nodup : NoDup (type_names T);
  lk_names : type_names T = type_names T0;
  lk_decl : forall n t, get_type T n = Some t ->
    exists t0, get_type T0 n = Some t0 /\
      is_interface t = is_interface t0 /\ fields t = fields t0 /\
      methods t = methods t0 /\ base_name t = base_name t0 /\
      interfaces_names t = interfaces_names t0;
  lk_base_name : forall n t, get_type T n = Some t ->
    base t = if is_interface t then None else base_name t;
  lk_base : forall n t b, get_type T n = Some t -> base t = Some b ->
    exists bt, get_type T b = Some bt /\ is_interface bt = false;
  lk_chain : forall n t, get_type T n = Some t -> is_interface t = false ->
    exists l, Chain T (Some n) l /\ length l <= length T;
  lk_interfaces : forall n t, get_type T n = Some t -> is_interface t = false ->
    interfaces t = interfaces_names t /\
    Forall (fun i => exists it, get_type T i = Some it /\ is_interface it = true)
      (interfaces t);
  lk_layout : forall n t, get_type T n = Some t ->
    all_fields t = (if is_interface t then [] else base_all_fields T t ++ fields t) /\
    _field_index t = index_dict (all_fields t);
  lk_fields : forall n t b bt f, get_type T n = Some t -> is_interface t = false ->
    base t = Some b -> get_type T b = Some bt -> f ∈ fields t -> f ∉ all_fields bt;
  lk_slots : forall n t, get_type T n = Some t -> is_interface t = true ->
    method_slot t = enumerate_dict (dict_keys (methods t));
  lk_vtable : forall n t, get_type T n = Some t -> is_interface t = false ->
    add_methods (base_tables T t) (methods t) = Ok (method_slot t, vtable_tokens t) /\
    length (_vtable_plans t) = length (vtable_tokens t)
}.

(** The lazy caches of a table as the linker leaves it. *)
Definition caches_empty (T : list ClassDef) : Prop :=
  forall n t, get_type T n = Some t ->
    _itable_plans t = ∅ /\
    _vtable_plans t = replicate (length (vtable_tokens t)) None.

Lemma compute_layout_Ok T t t' :
  compute_layout T t = Ok t' -> is_interface t = false ->
  (forall b, base t = Some b -> exists bt, get_type T b = Some bt) /\
  t' = set_layout t (base_all_fields T t ++ fields t)
         (index_dict (base_all_fields T t ++ fields t)).
Proof.
  unfold compute_layout, base_all_fields, deref. intros H Hi. rewrite Hi in H.
  destruct (base t) as [b|].
  - destruct (get_type T b) as [bt|] eqn:Hb; simpl in H; [|done].
    injection H as <-. split; [|done]. intros ? [= <-]. eauto.
  - simpl in H. injection H as <-. split; [|done]. done.
Qed.

Lemma class_vtable_Ok T t t' :
  class_vtable T t = Ok t' ->
  (forall b, base t = Some b -> exists bt, get_type T b = Some bt) /\
  exists ms vt, add_methods (base_tables T t) (methods t) = Ok (ms, vt) /\
    t' = set_vtable t ms vt (replicate (length vt) None).
Proof.
  unfold class_vtable, base_tables, deref. intros H.
  destruct (base t) as [b|].
  - destruct (get_type T b) as [bt|] eqn:Hb; simpl in H; [|done].
    destruct (add_methods _ _) as [[ms vt]|]; simpl in H; [|done].
    injection H as <-. split; [intros ? [= <-]; eauto|]. eauto.
  - simpl in H.
    destruct (add_methods _ _) as [[ms vt]|]; simpl in H; [|done].
    injection H as <-. split; [done|]. eauto.
Qed.

Lemma stages_back T0 T5 T8 n t8 :
  Stages T0 T5 T8 -> get_type T8 n = Some t8 ->
  exists t0 t5, get_type T0 n = Some t0 /\ get_type T5 n = Some t5 /\
    (if is_interface t0 then t5 = pre_layout t0
     else compute_layout T5 (pre_layout t0) = Ok t5) /\
    is_interface t5 = is_interface t0 /\
    (if is_interface t0 then t8 = interface_slots t5
     else class_vtable T8 t5 = Ok t8).
Proof.
  intros S Hg.
  destruct (get_type_same_names T0 T8 n t8) as [t0 H0];
    [symmetry; apply (st_names8 _ _ _ S)|done|].
  destruct (st_layout _ _ _ S n t0 H0) as (t5 & H5 & R5).
  destruct (st_vtable _ _ _ S n t5 H5) as (t8' & H8 & R8).
  assert (t8' = t8) as -> by congruence.
  assert (Hi5 : is_interface t5 = is_interface t0).
  { destruct (is_interface t0) eqn:Hi.
    - subst t5. by rewrite pre_layout_is_interface.
    - apply compute_layout_skel in R5 as (_ & -> & _).
      by rewrite pre_layout_is_interface. }
  exists t0, t5. repeat split; try done.
  rewrite Hi5 in R8. destruct (is_interface t0); [done|].
  unfold interface_slots in R8. rewrite Hi5 in R8. done.
Qed.

(** Projections of rewritten records. *)
Ltac setters :=
  unfold set_base, set_interfaces, set_layout, set_method_slot, set_vtable,
    set_vtable_plans, set_itable_plans in *;
  simpl in *.

Lemma pre_layout_class t :
  is_interface t = false -> base t = None ->
  pre_layout t = set_interfaces (set_base t (base_name t)) (interfaces_names t).
Proof.
  intros Hi Hb. unfold pre_layout, interface_layout, linked_interfaces, linked_base.
  rewrite Hi. destruct (base_name t) as [b|] eqn:E; setters; rewrite Hi; [done|].
  destruct t; simpl in *. by subst.
Qed.

Lemma pre_layout_iface t :
  is_interface t = true -> pre_layout t = set_layout t [] (index_dict []).
Proof.
  intros Hi. unfold pre_layout, interface_layout, linked_interfaces, linked_base.
  by rewrite !Hi.
Qed.

Lemma constructed_base t : constructed t -> base t = None.
Proof. intros ->. done. Qed.

Lemma constructed_itable t : constructed t -> _itable_plans t = ∅.
Proof. intros ->. done. Qed.

(** The final form of a class and of an interface. *)
Lemma stages_class T0 T5 T8 n t8 :
  Stages T0 T5 T8 -> Forall constructed T0 ->
  get_type T8 n = Some t8 -> is_interface t8 = false ->
  exists t0 t5 ms vt,
    get_type T0 n = Some t0 /\ get_type T5 n = Some t5 /\ is_interface t0 = false /\
    t5 = set_layout (pre_layout t0) (base_all_fields T5 (pre_layout t0) ++ fields t0)
           (index_dict (base_all_fields T5 (pre_layout t0) ++ fields t0)) /\
    pre_layout t0 = set_interfaces (set_base t0 (base_name t0)) (interfaces_names t0) /\
    add_methods (base_tables T8 t5) (methods t0) = Ok (ms, vt) /\
    t8 = set_vtable t5 ms vt (replicate (length vt) None).
Proof.
  intros S HC Hg Hi.
  destruct (stages_back _ _ _ _ _ S Hg) as (t0 & t5 & H0 & H5 & R5 & Hi5 & R8).
  assert (Hc0 : constructed t0).
  { eapply Forall_forall in HC; [exact HC|]. by eapply get_type_elem. }
  assert (Hi0 : is_interface t0 = false).
  { destruct (is_interface t0) eqn:E; [|done].
    subst t8. rewrite interface_slots_is_interface in Hi. congruence. }
  rewrite Hi0 in R5, R8.
  apply compute_layout_Ok in R5 as [_ E5]; [|by rewrite pre_layout_is_interface].
  apply class_vtable_Ok in R8 as (_ & ms & vt & Hadd & E8).
  pose proof (pre_layout_class t0 Hi0 (constructed_base _ Hc0)) as Epre.
  assert (Hf : fields (pre_layout t0) = fields t0) by (by rewrite Epre).
  assert (Hm : methods t5 = methods t0) by (by rewrite E5, Epre).
  rewrite Hf in E5. rewrite Hm in Hadd.
  exists t0, t5, ms, vt. repeat split; assumption.
Qed.

Lemma stages_interface T0 T5 T8 n t8 :
  Stages T0 T5 T8 -> get_type T8 n = Some t8 -> is_interface t8 = true ->
  exists t0, get_type T0 n = Some t0 /\ is_interface t0 = true /\
    get_type T5 n = Some (pre_layout t0) /\
    t8 = interface_slots (set_layout t0 [] (index_dict [])).
Proof.
  intros S Hg Hi.
  destruct (stages_back _ _ _ _ _ S Hg) as (t0 & t5 & H0 & H5 & R5 & Hi5 & R8).
  assert (Hi0 : is_interface t0 = true).
  { destruct (is_interface t0) eqn:E; [done|].
    apply class_vtable_skel in R8 as (_ & R8 & _). congruence. }
  rewrite Hi0 in R5, R8. subst t5 t8. exists t0.
  by rewrite <- (pre_layout_iface t0 Hi0).
Qed.

(** Layout and class-hood of a type are the same after step 5 and at
    the end. *)
Lemma stages_forward T0 T5 T8 n t5 :
  Stages T0 T5 T8 -> get_type T5 n = Some t5 ->
  exists t8, get_type T8 n = Some t8 /\
    is_interface t8 = is_interface t5 /\ all_fields t8 = all_fields t5 /\
    base t8 = base t5 /\ fields t8 = fields t5.
Proof.
  intros S H5. destruct (st_vtable _ _ _ S n t5 H5) as (t8 & H8 & R8).
  exists t8. split; [done|].
  destruct (is_interface t5) eqn:Hi.
  - subst t8. unfold interface_slots. by rewrite Hi.
  - unfold interface_slots in R8. rewrite Hi in R8.
    apply class_vtable_Ok in R8 as (_ & ms & vt & _ & ->). done.
Qed.

Lemma base_all_fields_forward T0 T5 T8 t5 t8 :
  Stages T0 T5 T8 -> base t8 = base t5 ->
  (forall b, base t5 = Some b -> exists bt, get_type T5 b = Some bt) ->
  base_all_fields T8 t8 = base_all_fields T5 t5.
Proof.
  intros S Hb Hex. unfold base_all_fields. rewrite Hb.
  destruct (base t5) as [b|]; [|done].
  destruct (Hex b eq_refl) as [bt Hbt]. rewrite Hbt.
  destruct (stages_forward _ _ _ _ _ S Hbt) as (bt8 & -> & _ & -> & _). done.
Qed.

Lemma stages_forward0 T0 T5 T8 n t0 :
  Stages T0 T5 T8 -> get_type T0 n = Some t0 ->
  exists t5 t8, get_type T5 n = Some t5 /\ get_type T8 n = Some t8 /\
    is_interface t5 = is_interface t0 /\ is_interface t8 = is_interface t0.
Proof.
  intros S H0. destruct (st_layout _ _ _ S n t0 H0) as (t5 & H5 & R5).
  destruct (stages_forward _ _ _ _ _ S H5) as (t8 & H8 & Hi8 & _).
  assert (Hi5 : is_interface t5 = is_interface t0).
  { destruct (is_interface t0) eqn:Hi.
    - subst t5. by rewrite pre_layout_is_interface.
    - apply compute_layout_skel in R5 as (_ & -> & _).
      by rewrite pre_layout_is_interface. }
  exists t5, t8. rewrite Hi8. done.
Qed.

Theorem link_Linked_caches T0 T :
  NoDup (type_names T0) -> Forall constructed T0 ->
  _resolve_and_link T0 = Ok T -> Linked T0 T /\ caches_empty T.
Proof.
  intros Hnd HC Hlink.
  destruct (link_stages _ _ Hnd Hlink) as [T5 S].
  assert (Hcls : forall n t8, get_type T n = Some t8 -> is_interface t8 = false ->
    exists t0 t5 ms vt,
      get_type T0 n = Some t0 /\ get_type T5 n = Some t5 /\ is_interface t0 = false /\
      t5 = set_layout (pre_layout t0) (base_all_fields T5 (pre_layout t0) ++ fields t0)
             (index_dict (base_all_fields T5 (pre_layout t0) ++ fields t0)) /\
      pre_layout t0 = set_interfaces (set_base t0 (base_name t0)) (interfaces_names t0) /\
      add_methods (base_tables T t5) (methods t0) = Ok (ms, vt) /\
      t8 = set_vtable t5 ms vt (replicate (length vt) None)).
  { intros n t8 Hg Hi. by eapply stages_class. }
  assert (Hifc : forall n t8, get_type T n = Some t8 -> is_interface t8 = true ->
    exists t0, get_type T0 n = Some t0 /\ is_interface t0 = true /\
      get_type T5 n = Some (pre_layout t0) /\
      t8 = interface_slots (set_layout t0 [] (index_dict []))).
  { intros n t8 Hg Hi. by eapply stages_interface. }
  assert (Hbase : forall n t b, get_type T n = Some t -> base t = Some b ->
    is_interface t = false /\ base_name t = Some b /\
    exists bt5 bt, get_type T5 b = Some bt5 /\ get_type T b = Some bt /\
      is_interface bt = false /\ all_fields bt = all_fields bt5).
  { intros n t b Hg Hb. destruct (is_interface t) eqn:Hi.
    - destruct (Hifc _ _ Hg Hi) as (t0 & H0 & Hi0 & _ & ->).
      assert (Hc0 : constructed t0).
      { eapply Forall_forall in HC; [exact HC|]. by eapply get_type_elem. }
      unfold interface_slots in Hb. setters. rewrite Hi0 in Hb. setters.
      by rewrite (constructed_base _ Hc0) in Hb.
    - destruct (Hcls _ _ Hg Hi) as (t0 & t5 & ms & vt & H0 & H5 & Hi0 & E5 & Epre & _ & ->).
      rewrite E5, Epre in Hb |- *. setters.
      destruct (st_base _ _ _ S n t0 b H0 Hi0 Hb) as (bt0 & Hbt0 & Hbi0).
      destruct (st_layout _ _ _ S b bt0 Hbt0) as (bt5 & Hbt5 & _).
      destruct (stages_forward _ _ _ _ _ S Hbt5) as (bt & Hbt & Hbi & Hall & _).
      destruct (stages_forward0 _ _ _ _ _ S Hbt0) as (bt5' & bt' & ? & ? & ? & ?).
      split; [done|]. split; [done|]. exists bt5, bt.
      repeat split; try done. congruence. }
  split; [split|].
  - rewrite (st_names8 _ _ _ S). done.
  - apply (st_names8 _ _ _ S).
  - intros n t Hg. destruct (is_interface t) eqn:Hi.
    + destruct (Hifc _ _ Hg Hi) as (t0 & H0 & Hi0 & _ & ->).
      exists t0. unfold interface_slots. setters. rewrite Hi0. by setters.
    + destruct (Hcls _ _ Hg Hi) as (t0 & t5 & ms & vt & H0 & H5 & Hi0 & E5 & Epre & _ & ->).
      exists t0. rewrite E5, Epre. by setters.
  - intros n t Hg. destruct (is_interface t) eqn:Hi.
    + destruct (Hifc _ _ Hg Hi) as (t0 & H0 & Hi0 & _ & ->).
      assert (Hc0 : constructed t0).
      { eapply Forall_forall in HC; [exact HC|]. by eapply get_type_elem. }
      unfold interface_slots. setters. rewrite Hi0. setters.
      by apply constructed_base.
    + destruct (Hcls _ _ Hg Hi) as (t0 & t5 & ms & vt & H0 & H5 & Hi0 & E5 & Epre & _ & ->).
      rewrite E5, Epre. by setters.
  - intros n t b Hg Hb.
    destruct (Hbase _ _ _ Hg Hb) as (_ & _ & bt5 & bt & _ & ? & ? & _). eauto.
  - intros n t Hg Hi.
    destruct (get_type_same_names T5 T n t) as [t5 H5];
      [by rewrite (st_names5 _ _ _ S), (st_names8 _ _ _ S)|done|].
    destruct (stages_forward _ _ _ _ _ S H5) as (t' & Hg' & Hi' & _).
    assert (t' = t) as -> by congruence.
    destruct (st_chain _ _ _ S n t5 H5) as (l & Hl & Hlen); [congruence|].
    destruct (Chain_transfer T5 T (Some n) l) as (l' & Hl' & Hlen'); [|done|].
    + intros m x Hm.
      destruct (stages_forward _ _ _ _ _ S Hm) as (x' & ? & _ & _ & ? & _). eauto.
    + exists l'. split; [done|].
      assert (length T = length T5).
      { rewrite <- (length_map name T), <- (length_map name T5).
        pose proof (st_names5 _ _ _ S) as E5. pose proof (st_names8 _ _ _ S) as E8.
        unfold type_names in *. by rewrite E5, E8. }
      lia.
  - intros n t Hg Hi.
    destruct (Hcls _ _ Hg Hi) as (t0 & t5 & ms & vt & H0 & H5 & Hi0 & E5 & Epre & _ & ->).
    rewrite E5, Epre. setters. split; [done|].
    eapply Forall_impl; [apply (st_ifaces _ _ _ S n t0 H0 Hi0)|].
    intros i (it & Hit & Hii). simpl in *.
    destruct (stages_forward0 _ _ _ _ _ S Hit) as (? & it8 & _ & ? & _ & ?).
    exists it8. split; [done | congruence].
  - intros n t Hg. destruct (is_interface t) eqn:Hi.
    + destruct (Hifc _ _ Hg Hi) as (t0 & H0 & Hi0 & _ & ->).
      unfold interface_slots, all_fields. setters. rewrite Hi0. by setters.
    + destruct (Hcls _ _ Hg Hi) as (t0 & t5 & ms & vt & H0 & H5 & Hi0 & E5 & Epre & _ & E8).
      assert (Hall : all_fields t = base_all_fields T5 (pre_layout t0) ++ fields t0).
      { rewrite E8, E5. unfold all_fields. by setters. }
      assert (Hidx : _field_index t = index_dict (all_fields t)).
      { rewrite Hall. rewrite E8, E5. by setters. }
      split; [|done]. rewrite Hall.
      assert (Hf : fields t = fields t0) by (rewrite E8, E5, Epre; by setters).
      rewrite Hf. f_equal. unfold base_all_fields.
      assert (Hb : base t = base (pre_layout t0)) by (rewrite E8, E5; by setters).
      rewrite Hb. destruct (base (pre_layout t0)) as [b|] eqn:Eb; [|done].
      destruct (Hbase _ _ _ Hg Hb) as (_ & _ & bt5 & bt & -> & -> & _ & ->). done.
  - intros n t b bt f Hg Hi Hb Hbt Hf.
    destruct (Hbase _ _ _ Hg Hb) as (_ & _ & bt5 & bt' & Hbt5 & Hbt' & _ & Hall).
    assert (bt' = bt) as -> by congruence. rewrite Hall.
    destruct (Hcls _ _ Hg Hi) as (t0 & t5 & ms & vt & H0 & H5 & Hi0 & E5 & Epre & _ & E8).
    eapply (st_fields _ _ _ S n t5 b bt5 f H5); try done.
    + rewrite E5. setters. by rewrite pre_layout_is_interface.
    + rewrite <- Hb, E8. by setters.
    + assert (fields t5 = fields t) as -> by (rewrite E8; by setters). done.
  - intros n t Hg Hi.
    destruct (Hifc _ _ Hg Hi) as (t0 & H0 & Hi0 & _ & ->).
    unfold interface_slots. setters. rewrite Hi0. by setters.
  - intros n t Hg Hi.
    destruct (Hcls _ _ Hg Hi) as (t0 & t5 & ms & vt & H0 & H5 & Hi0 & E5 & Epre & Hadd & E8).
    assert (Hbt : base_tables T t = base_tables T t5).
    { unfold base_tables. rewrite E8. by setters. }
    assert (Hm : methods t = methods t0) by (rewrite E8, E5, Epre; by setters).
    rewrite Hbt, Hm, Hadd. rewrite E8. setters. by rewrite length_replicate.
  - intros n t Hg. destruct (is_interface t) eqn:Hi.
    + destruct (Hifc _ _ Hg Hi) as (t0 & H0 & Hi0 & _ & ->).
      assert (Hc0 : constructed t0).
      { eapply Forall_forall in HC; [exact HC|]. by eapply get_type_elem. }
      unfold interface_slots. setters. rewrite Hi0. setters.
      split; [by apply constructed_itable | by rewrite Hc0].
    + destruct (Hcls _ _ Hg Hi) as (t0 & t5 & ms & vt & H0 & H5 & Hi0 & E5 & Epre & _ & ->).
      assert (Hc0 : constructed t0).
      { eapply Forall_forall in HC; [exact HC|]. by eapply get_type_elem. }
      rewrite E5, Epre. setters. split; [by apply constructed_itable | done].
Qed.

Theorem link_Linked T0 T :
  NoDup (type_names T0) -> Forall constructed T0 ->
  _resolve_and_link T0 = Ok T -> Linked T0 T.
Proof. intros Hnd HC H. by apply link_Linked_caches. Qed.

(** ** Field indices *)

Lemma index_fold_notin (l : list string) : forall i (m : gmap string nat) f,
  f ∉ l ->
  foldl (fun m p => <[p.2 := p.1]> m) m (enumerate_from i l) !! f = m !! f.
Proof.
  induction l as [|x l IH]; intros i m f Hf; simpl; [done|].
  apply not_elem_of_cons in Hf as [Hne Hf].
  rewrite IH by done. by rewrite lookup_insert_ne.
Qed.

Lemma enumerate_from_app {A} (l1 l2 : list A) i :
  enumerate_from i (l1 ++ l2) =
  enumerate_from i l1 ++ enumerate_from (i + length l1) l2.
Proof.
  revert i. induction l1 as [|x l1 IH]; intros i; simpl.
  - by rewrite Nat.add_0_r.
  - rewrite IH. do 3 f_equal. lia.
Qed.

Lemma index_dict_app_notin l1 l2 f :
  f ∉ l2 -> index_dict (l1 ++ l2) !! f = index_dict l1 !! f.
Proof.
  intros Hf. unfold index_dict. rewrite enumerate_from_app, foldl_app.
  by apply index_fold_notin.
Qed.

Lemma index_fold_elem (l : list string) : forall i (m : gmap string nat) f k,
  foldl (fun m p => <[p.2 := p.1]> m) m (enumerate_from i l) !! f = Some k ->
  m !! f = Some k \/ f ∈ l.
Proof.
  induction l as [|x l IH]; intros i m f k; simpl; [by left|].
  intros H. apply IH in H as [H|H]; [|right; by apply list_elem_of_further].
  destruct (decide (x = f)) as [->|Hne].
  - right. apply list_elem_of_here.
  - rewrite lookup_insert_ne in H by done. by left.
Qed.

Lemma index_dict_elem l f k : index_dict l !! f = Some k -> f ∈ l.
Proof.
  intros H. apply index_fold_elem in H as [H|H]; [|done].
  by rewrite lookup_empty in H.
Qed.

(** ** The walks up the base chain on a finite chain *)

Definition first_decl (l : list ClassDef) (m : string) : option (list string) :=
  match find (fun t => dict_mem (methods t) m) l with
  | Some t => dict_get (methods t) m
  | None => None
  end.

Lemma is_subclass_of_loop_chain T l c other fuel :
  Chain T c l -> length l <= fuel ->
  is_subclass_of_loop T fuel c other = Ok (bool_decide (other ∈ map name l)).
Proof.
  intros H. revert fuel. induction H as [|h t l Hg Hc IH]; intros fuel Hf.
  - destruct fuel; simpl; f_equal; symmetry;
      apply bool_decide_eq_false_2, not_elem_of_nil.
  - destruct fuel as [|fuel]; simpl in *; [lia|].
    unfold deref. rewrite Hg. simpl.
    destruct (decide (name t = other)) as [<-|Hne].
    + rewrite bool_decide_eq_true_2; [done|]. apply list_elem_of_here.
    + rewrite IH by lia. f_equal. apply bool_decide_ext.
      rewrite elem_of_cons. naive_solver.
Qed.

Lemma lookup_method_loop_chain T l c m fuel :
  Chain T c l -> length l <= fuel ->
  lookup_method_loop T fuel c m = Ok (first_decl l m).
Proof.
  intros H. revert fuel. induction H as [|h t l Hg Hc IH]; intros fuel Hf.
  - by destruct fuel.
  - destruct fuel as [|fuel]; simpl in *; [lia|].
    unfold deref. rewrite Hg. simpl. unfold first_decl. simpl.
    destruct (dict_mem (methods t) m); [done|].
    rewrite IH by lia. done.
Qed.

Lemma all_interfaces_loop_chain T l c out fuel :
  Chain T c l -> length l <= fuel ->
  all_interfaces_loop T fuel c out = Ok (out ++ concat (map interfaces l)).
Proof.
  intros H. revert fuel out. induction H as [|h t l Hg Hc IH]; intros fuel out Hf.
  - destruct fuel; simpl; by rewrite app_nil_r.
  - destruct fuel as [|fuel]; simpl in *; [lia|].
    unfold deref. rewrite Hg. simpl. rewrite IH by lia. by rewrite <- app_assoc.
Qed.

(** A class and its ancestors are classes of the table, and the first
    entry of the chain from a name is the type of that name. *)
Lemma Chain_head T n l t :
  Chain T (Some n) l -> get_type T n = Some t -> exists l', l = t :: l' /\ Chain T (base t) l'.
Proof.
  intros H Hg. inversion H as [|h t' l' Hg' Hc]; subst.
  assert (t' = t) as -> by congruence. eauto.
Qed.

Lemma Chain_elem T c l t :
  Chain T c l -> t ∈ l -> exists l', Chain T (Some (name t)) (t :: l') /\
    get_type T (name t) = Some t /\ length l' < length l.
Proof.
  intros H. induction H as [|h t' l Hg Hc IH]; intros Hin.
  - by apply elem_of_nil in Hin.
  - apply elem_of_cons in Hin as [->|Hin].
    + exists l. pose proof (get_type_name _ _ _ Hg) as <-.
      split; [by econstructor|]. split; [done | simpl; lia].
    + destruct (IH Hin) as (l' & ? & ? & ?). exists l'.
      repeat split; try done. simpl. lia.
Qed.

(** ** Consequences of linking *)

Section linked.
Variables T0 T : list ClassDef.
Hypothesis L : Linked T0 T.

Lemma Chain_classes c l :
  Chain T c l ->
  (forall n t, c = Some n -> get_type T n = Some t -> is_interface t = false) ->
  Forall (fun t => is_interface t = false /\ get_type T (name t) = Some t) l.
Proof.
  intros H. induction H as [|h t l Hg Hc IH]; intros Hcls; [constructor|].
  constructor.
  - split; [by eapply Hcls|]. by rewrite (get_type_name _ _ _ Hg).
  - apply IH. intros n bt Hb Hbt.
    destruct (lk_base _ _ L h t n Hg Hb) as (bt' & Hbt' & Hi). congruence.
Qed.

Lemma class_chain n t :
  get_type T n = Some t -> is_interface t = false ->
  exists l, Chain T (Some n) (t :: l) /\ Chain T (base t) l /\
    length (t :: l) <= length T /\
    Forall (fun t => is_interface t = false /\ get_type T (name t) = Some t) (t :: l).
Proof.
  intros Hg Hi. destruct (lk_chain _ _ L n t Hg Hi) as (l & Hl & Hlen).
  destruct (Chain_head _ _ _ _ Hl Hg) as (l' & -> & Hl').
  exists l'. repeat split; try done.
  eapply Chain_classes; [exact Hl|]. intros ? ? [= <-] ?. congruence.
Qed.

(** [is_subclass_of] on two classes of the table: membership in the chain. *)
Lemma is_subclass_of_spec n c l b :
  get_type T n = Some c -> is_interface c = false -> Chain T (Some n) l ->
  length l <= length T ->
  is_subclass_of T c b =
  Ok (negb (is_interface b) && bool_decide (name b ∈ map name l)).
Proof.
  intros Hg Hi Hl Hlen. unfold is_subclass_of. rewrite Hi.
  destruct (is_interface b) eqn:Hib; [done|]. cbn [orb negb andb].
  rewrite (get_type_name _ _ _ Hg).
  by rewrite (is_subclass_of_loop_chain T l) by (done || unfold chain_fuel; lia).
Qed.

Lemma name_in_chain c l nb b :
  Chain T c l -> get_type T nb = Some b -> name b ∈ map name l -> b ∈ l.
Proof.
  intros Hl Hb Hin. apply list_elem_of_fmap in Hin as (a & Ha & Hin).
  destruct (Chain_elem _ _ _ _ Hl Hin) as (_ & _ & Hga & _).
  rewrite <- Ha, (get_type_name _ _ _ Hb), Hb in Hga. by injection Hga as ->.
Qed.

Lemma field_index_chain c l :
  Chain T c l ->
  Forall (fun t => is_interface t = false /\ get_type T (name t) = Some t) l ->
  forall hd anc f i, head l = Some hd -> anc ∈ l ->
    _field_index anc !! f = Some i -> _field_index hd !! f = Some i.
Proof.
  intros H. induction H as [|h t l Hg Hc IH]; intros HF hd anc f i Hhd Hin Hidx;
    simpl in *; [done|].
  injection Hhd as <-. apply Forall_cons in HF as [[Hi Hgt] HF].
  apply elem_of_cons in Hin as [->|Hin]; [done|].
  inversion Hc as [E | b bt l' Hgb Hcb E El]; subst l;
    [by apply elem_of_nil in Hin|].
  specialize (IH HF bt anc f i eq_refl Hin Hidx).
  destruct (lk_layout _ _ L _ _ Hg) as [Hall Hidxt].
  destruct (lk_layout _ _ L _ _ Hgb) as [_ Hidxb].
  rewrite Hi in Hall. unfold base_all_fields in Hall.
  rewrite <- E, Hgb in Hall.
  rewrite Hidxt, Hall. rewrite Hidxb in IH.
  rewrite index_dict_app_notin; [done|].
  intros Hf. eapply (lk_fields _ _ L h t b bt f); try done.
  by eapply index_dict_elem.
Qed.
End linked.

(** A table of declarations as the parser hands it to the linker: one
    freshly constructed [ClassDef] per name. *)
Definition declarations (T0 : list ClassDef) : Prop :=
  NoDup (type_names T0) /\ Forall constructed T0 /\
  Forall (fun t => NoDup (dict_keys (methods t))) T0.

(** C2. After a successful link, the layout of every class is the layout
    of its base (empty without a base) followed by the fields the class
    declares, and a field of a class has the same index in the
    [_field_index] of every subclass. *)
Theorem field_layout_stable T0 T n c :
  declarations T0 -> _resolve_and_link T0 = Ok T ->
  get_type T n = Some c -> is_interface c = false ->
  all_fields c =
    match base c with
    | None => []
    | Some b => match get_type T b with Some bt => all_fields bt | None => [] end
    end ++ fields c /\
  (forall b, base c = Some b -> exists bt, get_type T b = Some bt) /\
  forall nb b f i, get_type T nb = Some b -> is_subclass_of T c b = Ok true ->
    _field_index b !! f = Some i -> _field_index c !! f = Some i.
Proof.
  intros (Hnd & HC & _) Hlink Hg Hi.
  pose proof (link_Linked _ _ Hnd HC Hlink) as L.
  destruct (lk_layout _ _ L _ _ Hg) as [Hall _]. rewrite Hi in Hall.
  split; [exact Hall|]. split.
  - intros b Hb. destruct (lk_base _ _ L _ _ _ Hg Hb) as (bt & ? & _). eauto.
  - intros nb b f i Hb Hsub Hidx.
    destruct (class_chain _ _ L _ _ Hg Hi) as (l & Hl & _ & Hlen & HF).
    rewrite (is_subclass_of_spec T n c _ b Hg Hi Hl Hlen) in Hsub.
    injection Hsub as Hsub. apply andb_true_iff in Hsub as [_ Hin].
    apply bool_decide_eq_true in Hin.
    apply (name_in_chain T _ _ _ _ Hl Hb) in Hin.
    by eapply (field_index_chain _ _ L _ _ Hl HF c b).
Qed.

(** ** Slot maps and vtables *)

Section dict_lemmas.
Context {V : Type}.
Implicit Types d : list (string * V).

Lemma dict_get_set d k v k' :
  dict_get (dict_set d k v) k' = if decide (k' = k) then Some v else dict_get d k'.
Proof.
  induction d as [|[k0 v0] d IH]; simpl.
  - by destruct (decide (k' = k)).
  - destruct (decide (k = k0)) as [->|Hne]; simpl.
    + by destruct (decide (k' = k0)).
    + rewrite IH. destruct (decide (k' = k0)) as [->|]; [|done].
      by rewrite decide_False.
Qed.

Lemma dict_mem_get d k : dict_mem d k = true <-> is_Some (dict_get d k).
Proof.
  unfold dict_mem. destruct (dict_get d k).
  - split; eauto.
  - split; [done | by intros [? ?]].
Qed.

Lemma dict_get_keys d k : is_Some (dict_get d k) <-> k ∈ dict_keys d.
Proof.
  unfold dict_keys. induction d as [|[k0 v0] d IH]; simpl.
  - split; [by intros [? ?] | by intros ?%elem_of_nil].
  - rewrite elem_of_cons. destruct (decide (k = k0)) as [->|Hne].
    + split; [by left | by eauto].
    + rewrite IH. naive_solver.
Qed.
End dict_lemmas.

(** The token sequence a slot map and a vtable hold for a method name. *)
Definition tokens_at (ms : list (string * nat)) (vt : list (list string))
    (m : string) : option (list string) :=
  match dict_get ms m with
  | Some s => vt !! s
  | None => None
  end.

(** Slots are in range and no two names share one. *)
Definition slots_ok (ms : list (string * nat)) (vt : list (list string)) : Prop :=
  (forall m s, dict_get ms m = Some s -> s < length vt) /\
  (forall m1 m2 s, dict_get ms m1 = Some s -> dict_get ms m2 = Some s -> m1 = m2).

Lemma slots_ok_nil : slots_ok [] [].
Proof. split; intros; done. Qed.

Lemma add_method_spec ms vt m toks ms' vt' :
  slots_ok ms vt -> add_method (ms, vt) (m, toks) = Ok (ms', vt') ->
  slots_ok ms' vt' /\ length vt <= length vt' /\
  (forall m' s, dict_get ms m' = Some s -> dict_get ms' m' = Some s) /\
  (forall m', dict_get ms' m' = None <-> dict_get ms m' = None /\ m' <> m) /\
  (forall m' s, dict_get ms m' = None -> dict_get ms' m' = Some s -> length vt <= s) /\
  (forall m', tokens_at ms' vt' m' =
     if decide (m' = m) then Some toks else tokens_at ms vt m').
Proof.
  intros [Hlt Hinj]. unfold add_method.
  destruct (dict_get ms m) as [slot|] eqn:Hm.
  - pose proof (Hlt _ _ Hm) as Hslot. rewrite decide_True by done.
    intros [= <- <-]. rewrite length_insert. repeat split; try done.
    + intros m' s ?. rewrite length_insert. eauto.
    + intros ->. congruence.
    + intros [? ?]. done.
    + intros m' s H1 H2. congruence.
    + intros m'. unfold tokens_at. destruct (decide (m' = m)) as [->|Hne].
      * rewrite Hm. by apply list_lookup_insert_eq.
      * destruct (dict_get ms m') as [s|] eqn:Hm'; [|done].
        apply list_lookup_insert_ne. intros ->. apply Hne. eauto.
  - intros [= <- <-]. rewrite length_app. simpl. repeat split.
    + intros m' s. rewrite dict_get_set. destruct (decide (m' = m)).
      * intros [= <-]. rewrite length_app. simpl. lia.
      * intros H. apply Hlt in H. rewrite length_app. simpl. lia.
    + intros m1 m2 s. rewrite !dict_get_set.
      destruct (decide (m1 = m)) as [->|], (decide (m2 = m)) as [->|]; try done.
      * intros [= <-] H. apply Hlt in H. lia.
      * intros H [= <-]. apply Hlt in H. lia.
      * apply Hinj.
    + lia.
    + intros m' s H. rewrite dict_get_set. destruct (decide (m' = m)); [congruence|done].
    + rewrite dict_get_set in H. by destruct (decide (m' = m)).
    + rewrite dict_get_set in H. by destruct (decide (m' = m)).
    + intros [H Hne]. rewrite dict_get_set. by rewrite decide_False.
    + intros m' s H. rewrite dict_get_set. destruct (decide (m' = m)); [|congruence].
      intros [= <-]. lia.
    + intros m'. unfold tokens_at. rewrite dict_get_set.
      destruct (decide (m' = m)) as [->|Hne].
      * rewrite lookup_app_r by lia. by rewrite Nat.sub_diag.
      * destruct (dict_get ms m') as [s|] eqn:Hm'; [|done].
        apply Hlt in Hm'. by rewrite lookup_app_l.
Qed.

Lemma add_methods_spec meths : forall ms vt ms' vt',
  slots_ok ms vt -> NoDup (dict_keys meths) ->
  add_methods (ms, vt) meths = Ok (ms', vt') ->
  slots_ok ms' vt' /\ length vt <= length vt' /\
  (forall m s, dict_get ms m = Some s -> dict_get ms' m = Some s) /\
  (forall m, dict_get ms' m = None <-> dict_get ms m = None /\ dict_get meths m = None) /\
  (forall m s, dict_get ms m = None -> dict_get ms' m = Some s -> length vt <= s) /\
  (forall m, tokens_at ms' vt' m =
     match dict_get meths m with
     | Some toks => Some toks
     | None => tokens_at ms vt m
     end).
Proof.
  induction meths as [|[m toks] meths IH]; intros ms vt ms' vt' Hok Hnd.
  - simpl. intros [= <- <-].
    split; [done|]. split; [done|]. split; [done|].
    split; [intros m; tauto|]. split; [intros; congruence | done].
  - apply NoDup_cons in Hnd as [Hni Hnd].
    change (add_methods (ms, vt) ((m, toks) :: meths))
      with (res_bind (add_method (ms, vt) (m, toks))
              (fun acc' => add_methods acc' meths)).
    destruct (add_method (ms, vt) (m, toks)) as [[ms1 vt1]|] eqn:H1; simpl; [|done].
    apply add_method_spec in H1 as (Hok1 & Hlen1 & Hkeep1 & Hdom1 & Hfresh1 & Htok1);
      [|done].
    intros H2. apply IH in H2 as (Hok2 & Hlen2 & Hkeep2 & Hdom2 & Hfresh2 & Htok2);
      [|done|done].
    split; [done|]. split; [lia|]. split; [eauto|]. split; [|split].
    + intros m'. rewrite Hdom2, Hdom1. destruct (decide (m' = m)); naive_solver.
    + intros m' s Hn Hs. destruct (dict_get ms1 m') as [s1|] eqn:E.
      * pose proof (Hkeep2 _ _ E). assert (s1 = s) as -> by congruence.
        by eapply Hfresh1.
      * pose proof (Hfresh2 _ _ E Hs). lia.
    + intros m'. rewrite Htok2, Htok1.
      destruct (decide (m' = m)) as [->|Hne]; [|done].
      destruct (dict_get meths m) eqn:E; [|done].
      exfalso. apply Hni. apply (dict_get_keys meths m). eauto.
Qed.

Lemma first_decl_cons t l m :
  first_decl (t :: l) m =
  match dict_get (methods t) m with
  | Some toks => Some toks
  | None => first_decl l m
  end.
Proof.
  unfold first_decl. simpl. unfold dict_mem.
  destruct (dict_get (methods t) m) eqn:E; [by rewrite E | done].
Qed.

Lemma first_decl_Some l m toks :
  first_decl l m = Some toks ->
  exists t, t ∈ l /\ dict_get (methods t) m = Some toks.
Proof.
  induction l as [|t l IH]; [done|]. rewrite first_decl_cons.
  destruct (dict_get (methods t) m) as [toks'|] eqn:E.
  - intros [= <-]. exists t. split; [apply list_elem_of_here | done].
  - intros H. destruct (IH H) as (t' & ? & ?). exists t'.
    split; [by apply list_elem_of_further | done].
Qed.

Lemma first_decl_None l m :
  first_decl l m = None <-> forall t, t ∈ l -> dict_get (methods t) m = None.
Proof.
  induction l as [|t l IH].
  - split; [intros _ t Ht; by apply elem_of_nil in Ht | done].
  - rewrite first_decl_cons. destruct (dict_get (methods t) m) as [toks|] eqn:E.
    + split; [done|]. intros H. specialize (H t (list_elem_of_here _ _)). congruence.
    + rewrite IH. split.
      * intros H t' [->|Ht']%elem_of_cons; auto.
      * intros H t' Ht'. apply H. by apply list_elem_of_further.
Qed.

Section linked_vtable.
Variables T0 T : list ClassDef.
Hypothesis L : Linked T0 T.
Hypothesis Hkeys : Forall (fun t => NoDup (dict_keys (methods t))) T0.

Lemma methods_nodup n t : get_type T n = Some t -> NoDup (dict_keys (methods t)).
Proof.
  intros Hg. destruct (lk_decl _ _ L n t Hg) as (t0 & H0 & _ & _ & -> & _).
  eapply Forall_forall in Hkeys; [exact Hkeys|]. by eapply get_type_elem.
Qed.

(** The vtable of a class holds, for every method declared along its
    chain, the tokens of the nearest declaration; slots are kept from
    ancestor to descendant. *)
Lemma vtable_chain c l :
  Chain T c l ->
  Forall (fun t => is_interface t = false /\ get_type T (name t) = Some t) l ->
  forall hd, head l = Some hd ->
    slots_ok (method_slot hd) (vtable_tokens hd) /\
    (forall m, tokens_at (method_slot hd) (vtable_tokens hd) m = first_decl l m) /\
    (forall m, dict_get (method_slot hd) m = None <-> first_decl l m = None) /\
    (forall anc, anc ∈ l ->
       length (vtable_tokens anc) <= length (vtable_tokens hd) /\
       forall m s, dict_get (method_slot anc) m = Some s ->
                   dict_get (method_slot hd) m = Some s).
Proof.
  intros H. induction H as [|h t l Hg Hc IH]; intros HF hd Hhd; simpl in *; [done|].
  injection Hhd as <-. apply Forall_cons in HF as [[Hi Hgt] HF].
  destruct (lk_vtable _ _ L _ _ Hg Hi) as [Hadd _].
  pose proof (methods_nodup _ _ Hg) as Hnd.
  unfold base_tables in Hadd.
  inversion Hc as [E | b bt l' Hgb Hcb E El]; subst l.
  - rewrite <- E in Hadd.
    apply add_methods_spec in Hadd as (Hok & _ & _ & Hdom & _ & Htok);
      [|apply slots_ok_nil|done].
    split; [done|]. split; [|split].
    + intros m. rewrite Htok, first_decl_cons. done.
    + intros m. rewrite Hdom, first_decl_cons. simpl.
      destruct (dict_get (methods t) m); naive_solver.
    + intros anc [->|Hin]%elem_of_cons; [done|]. by apply elem_of_nil in Hin.
  - rewrite <- E, Hgb in Hadd.
    destruct (IH HF bt eq_refl) as (Hokb & Htokb & Hdomb & Hancb).
    apply add_methods_spec in Hadd as (Hok & Hlen & Hkeep & Hdom & _ & Htok);
      [|done|done].
    split; [done|]. split; [|split].
    + intros m. rewrite Htok, first_decl_cons, Htokb. done.
    + intros m. rewrite Hdom, first_decl_cons, Hdomb.
      destruct (dict_get (methods t) m); naive_solver.
    + intros anc [->|Hin]%elem_of_cons; [done|].
      destruct (Hancb anc Hin) as [Hl Hs]. split; [lia | eauto].
Qed.

(** A method declared outside the table of the base gets a slot past
    the end of the base's vtable. *)
Lemma vtable_fresh n t m s :
  get_type T n = Some t -> is_interface t = false ->
  dict_get (base_tables T t).1 m = None -> dict_get (method_slot t) m = Some s ->
  length (base_tables T t).2 <= s.
Proof.
  intros Hg Hi Hb Hs.
  destruct (lk_vtable _ _ L _ _ Hg Hi) as [Hadd _].
  pose proof (methods_nodup _ _ Hg) as Hnd.
  assert (Hokb : slots_ok (base_tables T t).1 (base_tables T t).2).
  { unfold base_tables. destruct (base t) as [b|] eqn:Eb; [|apply slots_ok_nil].
    destruct (lk_base _ _ L _ _ _ Hg Eb) as (bt & Hbt & Hbi). rewrite Hbt. simpl.
    destruct (class_chain _ _ L _ _ Hbt Hbi) as (l & Hl & _ & _ & HF).
    pose proof (get_type_name _ _ _ Hbt) as <-.
    by destruct (vtable_chain _ _ Hl HF bt eq_refl) as (? & _). }
  destruct (base_tables T t) as [ms0 vt0]. simpl in *.
  apply add_methods_spec in Hadd as (_ & _ & _ & _ & Hfresh & _); [|done|done].
  eauto.
Qed.
End linked_vtable.

Lemma lookup_method_class T0 T n t l m :
  Linked T0 T -> get_type T n = Some t -> is_interface t = false ->
  Chain T (Some n) l -> length l <= length T ->
  lookup_method T t m = Ok (first_decl l m).
Proof.
  intros L Hg Hi Hl Hlen. unfold lookup_method. rewrite Hi.
  rewrite (get_type_name _ _ _ Hg).
  apply lookup_method_loop_chain; [done|]. unfold chain_fuel. lia.
Qed.

(** C3. After a successful link, a method declared in a class [B] has in
    every subclass [D] of [B] the slot it has in [B]; when [D] declares
    the method itself, [D]'s vtable holds [D]'s tokens at that slot; and
    a method of [D] that has no slot in [D]'s base gets a slot past the
    end of the base's vtable. *)
Theorem slot_stability T0 T nd D :
  declarations T0 -> _resolve_and_link T0 = Ok T ->
  get_type T nd = Some D -> is_interface D = false ->
  (forall nb B m, get_type T nb = Some B -> is_subclass_of T D B = Ok true ->
     dict_mem (methods B) m = true ->
     exists s, dict_get (method_slot B) m = Some s /\
       dict_get (method_slot D) m = Some s /\
       forall toks, dict_get (methods D) m = Some toks ->
         vtable_tokens D !! s = Some toks) /\
  (forall m toks, dict_get (methods D) m = Some toks ->
     (forall b bt, base D = Some b -> get_type T b = Some bt ->
        dict_get (method_slot bt) m = None) ->
     exists s, dict_get (method_slot D) m = Some s /\
       s < length (vtable_tokens D) /\ vtable_tokens D !! s = Some toks /\
       forall b bt, base D = Some b -> get_type T b = Some bt ->
         length (vtable_tokens bt) <= s).
Proof.
  intros (Hnd & HC & Hkeys) Hlink Hg Hi.
  pose proof (link_Linked _ _ Hnd HC Hlink) as L.
  destruct (class_chain _ _ L _ _ Hg Hi) as (l & Hl & _ & Hlen & HF).
  destruct (vtable_chain _ _ L Hkeys _ _ Hl HF D eq_refl) as (Hok & Htok & Hdom & Hanc).
  assert (Hown : forall m toks, dict_get (methods D) m = Some toks ->
    exists s, dict_get (method_slot D) m = Some s /\
      vtable_tokens D !! s = Some toks).
  { intros m toks Hm. specialize (Htok m). rewrite first_decl_cons, Hm in Htok.
    unfold tokens_at in Htok. destruct (dict_get (method_slot D) m) as [s|]; [|done].
    eauto. }
  split.
  - intros nb B m Hb Hsub Hm.
    rewrite (is_subclass_of_spec T nd D _ B Hg Hi Hl Hlen) in Hsub.
    injection Hsub as Hsub. apply andb_true_iff in Hsub as [Hib Hin].
    apply negb_true_iff in Hib. apply bool_decide_eq_true in Hin.
    apply (name_in_chain T _ _ _ _ Hl Hb) in Hin.
    destruct (class_chain _ _ L _ _ Hb Hib) as (lb & Hlb & _ & _ & HFb).
    destruct (vtable_chain _ _ L Hkeys _ _ Hlb HFb B eq_refl) as (_ & Htokb & _ & _).
    apply dict_mem_get in Hm as [toksb Hm].
    specialize (Htokb m). rewrite first_decl_cons, Hm in Htokb.
    unfold tokens_at in Htokb.
    destruct (dict_get (method_slot B) m) as [s|] eqn:Hs; [|done].
    exists s. split; [done|].
    destruct (Hanc B Hin) as [_ Hkeep]. split; [by apply Hkeep|].
    intros toks Hd. destruct (Hown m toks Hd) as (s' & Hs' & Hv).
    rewrite (Hkeep _ _ Hs) in Hs'. by injection Hs' as <-.
  - intros m toks Hm Habs. destruct (Hown m toks Hm) as (s & Hs & Hv).
    exists s. split; [done|]. split; [by eapply lookup_lt_Some|]. split; [done|].
    intros b bt Hb Hbt.
    pose proof (vtable_fresh _ _ L Hkeys nd D m s Hg Hi) as Hfresh.
    unfold base_tables in Hfresh. rewrite Hb, Hbt in Hfresh. simpl in Hfresh.
    apply Hfresh; [|done]. by eapply Habs.
Qed.

(** C10. After a successful link, on the vtable path with a class view:
    once the method is visible through the view and the runtime class is
    the view or a subclass of it, the view's slot map has a slot for the
    method and that slot is an index into the runtime class's vtable and
    into its plan cache.  The names with a slot are exactly the names
    declared along the base chain. *)
Theorem vtable_slot_in_range T0 T nv view nr runtime m toks sub :
  declarations T0 -> _resolve_and_link T0 = Ok T ->
  get_type T nv = Some view -> get_type T nr = Some runtime ->
  is_interface view = false ->
  lookup_method T view m = Ok (Some toks) ->
  is_subclass_of T runtime view = Ok sub ->
  negb sub && negb (bool_decide (name runtime = name view)) = false ->
  (exists slot, dict_get (method_slot view) m = Some slot /\
     slot < length (vtable_tokens runtime) /\
     slot < length (_vtable_plans runtime)) /\
  (forall m', dict_get (method_slot view) m' = None <->
              lookup_method T view m' = Ok None).
Proof.
  intros (Hnd & HC & Hkeys) Hlink Hv Hr Hi Hvis Hsub Hchk.
  pose proof (link_Linked _ _ Hnd HC Hlink) as L.
  destruct (class_chain _ _ L _ _ Hv Hi) as (lv & Hlv & _ & Hlenv & HFv).
  destruct (vtable_chain _ _ L Hkeys _ _ Hlv HFv view eq_refl)
    as (Hokv & Htokv & Hdomv & _).
  assert (Hlm : forall m', lookup_method T view m' = Ok (first_decl (view :: lv) m')).
  { intros m'. by eapply lookup_method_class. }
  split.
  - rewrite Hlm in Hvis. injection Hvis as Hvis.
    destruct (dict_get (method_slot view) m) as [slot|] eqn:Hs;
      [|apply Hdomv in Hs; congruence].
    exists slot. split; [done|].
    assert (Hrt : runtime = view \/
      (is_interface runtime = false /\ exists lr, Chain T (Some nr) lr /\
         Forall (fun t => is_interface t = false /\ get_type T (name t) = Some t) lr /\
         head lr = Some runtime /\ view ∈ lr)).
    { apply andb_false_iff in Hchk as [Hc|Hc]; apply negb_false_iff in Hc.
      - right. subst sub. rename Hsub into Hc. unfold is_subclass_of in Hc.
        destruct (is_interface runtime) eqn:Hir; [done|]. split; [done|].
        destruct (class_chain _ _ L _ _ Hr Hir) as (lr & Hlr & _ & Hlenr & HFr).
        exists (runtime :: lr). repeat split; try done.
        rewrite Hi in Hc. cbn [orb] in Hc.
        rewrite (get_type_name _ _ _ Hr) in Hc.
        rewrite (is_subclass_of_loop_chain T (runtime :: lr)) in Hc
          by (done || unfold chain_fuel; lia).
        injection Hc as Hc. apply bool_decide_eq_true in Hc.
        by apply (name_in_chain T _ _ _ _ Hlr Hv) in Hc.
      - left. apply bool_decide_eq_true in Hc.
        rewrite <- (get_type_name _ _ _ Hr), Hc, (get_type_name _ _ _ Hv) in Hr.
        congruence. }
    assert (Hlen : slot < length (vtable_tokens runtime)).
    { destruct Hrt as [->|(Hir & lr & Hlr & HFr & Hhd & Hin)].
      - by eapply (proj1 Hokv).
      - destruct (vtable_chain _ _ L Hkeys _ _ Hlr HFr runtime Hhd) as (_ & _ & _ & Hanc).
        destruct (Hanc view Hin) as [Hle _].
        pose proof (proj1 Hokv _ _ Hs). lia. }
    split; [done|].
    assert (Hir : is_interface runtime = false).
    { destruct Hrt as [->|[? _]]; done. }
    destruct (lk_vtable _ _ L _ _ Hr Hir) as [_ ->]. done.
  - intros m'. rewrite Hlm, Hdomv. split; [by intros -> | by intros [= ->]].
Qed.

(** ** The interpreter *)

(** Unfolding of the state-and-failure operations. *)
Ltac munfold :=
  unfold count, print, bind_name in *;
  unfold bind, ret, raise, lift, get, modify, when_metrics,
    deref_class, deref_object, allocate in *.

(** C8. A [new] whose argument count differs from the length of the
    class's [all_fields] fails with the arity error and leaves the
    interpreter as it was; in particular nothing is added to the heap or
    to the object store, and no name is bound. *)
Theorem wrong_arity_fails st x class_name args c :
  get_type (classes st) class_name = Some c ->
  is_interface c = false ->
  length args <> length (all_fields c) ->
  _instantiate class_name args st =
    (Err (ArityError class_name (length (all_fields c)) (length args)), st) /\
  _exec_statement (LetNew x class_name args) st =
    (Err (ArityError class_name (length (all_fields c)) (length args)), st).
Proof.
  intros Hc Hi Hlen.
  assert (H : _instantiate class_name args st =
    (Err (ArityError class_name (length (all_fields c)) (length args)), st)).
  { unfold _instantiate. munfold. rewrite Hc, Hi.
    rewrite bool_decide_eq_false_2 by congruence. done. }
  split; [exact H|].
  unfold _exec_statement, bind. by rewrite H.
Qed.

(** ** The metrics report *)

Lemma to_int_not_nil z :
  Z.to_int z <> Decimal.Pos Decimal.Nil /\ Z.to_int z <> Decimal.Neg Decimal.Nil.
Proof.
  destruct z as [|p|p]; simpl; split; try discriminate;
    intros [= H]; by apply DecimalPos.Unsigned.to_uint_nonnil in H.
Qed.

Lemma str_Z_inj z1 z2 : str_Z z1 = str_Z z2 -> z1 = z2.
Proof.
  unfold str_Z. intros H. apply (f_equal NilZero.int_of_string) in H.
  destruct (to_int_not_nil z1), (to_int_not_nil z2).
  rewrite !NilZero.isi in H by done.
  injection H as H. by apply DecimalZ.to_int_inj.
Qed.

Lemma str_nat_inj n1 n2 : str_nat n1 = str_nat n2 -> n1 = n2.
Proof. unfold str_nat. intros H%str_Z_inj. lia. Qed.

Lemma append_inj_r (p s1 s2 : string) : p +:+ s1 = p +:+ s2 -> s1 = s2.
Proof. induction p as [|a p IH]; simpl; [done|]. intros [= H]. auto. Qed.

(** The report determines a counter: two metrics with the same report
    agree on it. *)
Definition exposed {A} (counter : Metrics -> A) : Prop :=
  forall m1 m2, Metrics_print m1 = Metrics_print m2 -> counter m1 = counter m2.



(** ** Collection *)

Lemma elem_of_roots (e : gmap string VarBinding) a :
  a ∈ roots e <-> exists x b, e !! x = Some b /\ inst b = a.
Proof.
  unfold roots. rewrite elem_of_list_to_set, list_elem_of_fmap. split.
  - intros ([x b] & -> & H). apply elem_of_map_to_list in H. eauto.
  - intros (x & b & H & <-). exists (x, b). split; [done|].
    by apply elem_of_map_to_list.
Qed.

Lemma filter_all_but_one (P : nat -> Prop) `{forall x, Decision (P x)} l a :
  NoDup l -> a ∈ l -> ~ P a -> (forall x, x ∈ l -> x <> a -> P x) ->
  length l - length (filter P l) = 1.
Proof.
  induction l as [|x l IH]; intros Hnd Hin Hna Hall.
  - by apply elem_of_nil in Hin.
  - apply NoDup_cons in Hnd as [Hx Hnd].
    destruct (decide (x = a)) as [->|Hne].
    + rewrite filter_cons_False by done.
      assert (filter P l = l) as ->.
      { clear IH Hin Hnd. induction l as [|y l IHl]; [done|].
        apply not_elem_of_cons in Hx as [Hya Hx].
        rewrite filter_cons_True.
        - f_equal. apply IHl; [done|]. intros z Hz Hza. apply Hall; [|done].
          apply elem_of_cons in Hz as [->|Hz]; [by apply list_elem_of_here|].
          by do 2 apply list_elem_of_further.
        - apply Hall; [|done]. apply list_elem_of_further, list_elem_of_here. }
      simpl. lia.
    + apply elem_of_cons in Hin as [->|Hin]; [done|].
      rewrite filter_cons_True by (apply Hall; [apply list_elem_of_here | done]).
      simpl. apply IH; try done. intros z Hz. apply Hall. by apply list_elem_of_further.
Qed.

(** C5, as amended.  With collection enabled, [free x] followed by [gc]
    leaves in the heap exactly the objects some remaining name is bound
    to.  When [x] was the only name of its object, the object is gone
    from the heap.  The counter of collected objects grows by the number
    of objects removed when metrics are enabled (by one when the freed
    object was the only unreferenced object of a duplicate-free heap),
    and is unchanged when they are disabled. *)
Theorem gc_after_free st x b :
  enable_gc (cfg st) = true ->
  env st !! x = Some b ->
  (forall y b', y <> x -> env st !! y = Some b' -> inst b' <> inst b) ->
  exists st',
    exec_statements [Free x; Gc] st = (Ok tt, st') /\
    env st' = delete x (env st) /\
    heap st' = filter (fun a => a ∈ roots (env st')) (heap st) /\
    (forall a, a ∈ heap st' <->
       a ∈ heap st /\ exists y b', env st' !! y = Some b' /\ inst b' = a) /\
    (inst b ∉ heap st') /\
    gc_collected (metrics st') =
      (if enable_metrics (cfg st)
       then gc_collected (metrics st) + (length (heap st) - length (heap st'))
       else gc_collected (metrics st)) /\
    (enable_metrics (cfg st) = true -> NoDup (heap st) -> inst b ∈ heap st ->
     (forall a, a ∈ heap st -> a <> inst b ->
        exists y b', y <> x /\ env st !! y = Some b' /\ inst b' = a) ->
     gc_collected (metrics st') = gc_collected (metrics st) + 1).
Proof.
  intros Hgc Hx Honly.
  set (e' := delete x (env st)).
  set (h' := filter (fun a => a ∈ roots e') (heap st)).
  assert (Hnot : inst b ∉ roots e').
  { rewrite elem_of_roots. intros (y & b' & Hy & Hb'). unfold e' in Hy.
    apply lookup_delete_Some in Hy as [Hne Hy]. by eapply Honly. }
  exists (if enable_metrics (cfg st)
          then set_metrics (set_heap (set_env st e') h')
                 (gc_ran (length (heap st) - length h') (metrics st))
          else set_heap (set_env st e') h').
  assert (Hrun : exec_statements [Free x; Gc] st =
    (Ok tt, if enable_metrics (cfg st)
            then set_metrics (set_heap (set_env st e') h')
                   (gc_ran (length (heap st) - length h') (metrics st))
            else set_heap (set_env st e') h')).
  { unfold exec_statements, _exec_statement, _exec_free, _gc_collect. munfold.
    rewrite Hx. simpl. rewrite Hgc. simpl.
    by destruct (enable_metrics (cfg st)). }
  split; [exact Hrun|].
  assert (Henv : env (if enable_metrics (cfg st)
          then set_metrics (set_heap (set_env st e') h')
                 (gc_ran (length (heap st) - length h') (metrics st))
          else set_heap (set_env st e') h') = e')
    by (by destruct (enable_metrics (cfg st))).
  assert (Hheap : heap (if enable_metrics (cfg st)
          then set_metrics (set_heap (set_env st e') h')
                 (gc_ran (length (heap st) - length h') (metrics st))
          else set_heap (set_env st e') h') = h')
    by (by destruct (enable_metrics (cfg st))).
  rewrite Henv, Hheap.
  split; [done|]. split; [done|]. split.
  { intros a. unfold h'. rewrite list_elem_of_filter, elem_of_roots. tauto. }
  split.
  { unfold h'. rewrite list_elem_of_filter. tauto. }
  split.
  { by destruct (enable_metrics (cfg st)). }
  intros Hm Hnd Hin Hall. rewrite Hm. simpl. f_equal.
  apply (filter_all_but_one _ _ (inst b)); try done.
  intros a Ha Hne. apply elem_of_roots.
  destruct (Hall a Ha Hne) as (y & b' & Hy & Hb' & <-).
  exists y, b'. split; [|done]. unfold e'. by rewrite lookup_delete_ne.
Qed.

(** ** The linear walk [_lookup_with_steps] *)

(** Hops made and counters left by a walk over the chain [l]. *)
Fixpoint walk_steps (l : list ClassDef) (m : string) (steps : nat) : nat :=
  match l with
  | [] => steps
  | t :: l' => if dict_mem (methods t) m then steps else walk_steps l' m (S steps)
  end.

Fixpoint walk_metrics (l : list ClassDef) (m : string) (mt : Metrics) : Metrics :=
  match l with
  | [] => mt
  | t :: l' =>
      let r := probe_methods (dict_keys (methods t)) m (jump mt) in
      if r.1 then r.2 else walk_metrics l' m r.2
  end.

Lemma probe_methods_found {V} (d : list (string * V)) m mt :
  (probe_methods (dict_keys d) m mt).1 = dict_mem d m.
Proof.
  revert mt. unfold dict_mem. induction d as [|[k v] d IH]; intros mt; simpl; [done|].
  destruct (decide (k = m)) as [->|Hne].
  - by rewrite decide_True.
  - rewrite decide_False by congruence. apply IH.
Qed.

Lemma probe_methods_steps keys m mt :
  resolve_steps (probe_methods keys m mt).2 = resolve_steps mt /\
  cache_hits (probe_methods keys m mt).2 = cache_hits mt /\
  gc_collected (probe_methods keys m mt).2 = gc_collected mt.
Proof.
  revert mt. induction keys as [|k keys IH]; intros mt; simpl; [done|].
  destruct (decide (k = m)); [done|]. by destruct (IH (probe_fail (probe mt))) as (-> & -> & ->).
Qed.

Lemma lookup_with_steps_loop_chain T l c m : forall fuel steps st,
  Chain T c l -> classes st = T -> length l <= fuel ->
  _lookup_with_steps_loop fuel c m steps st =
    (Ok (first_decl l m, walk_steps l m steps),
     set_metrics st (walk_metrics l m (metrics st))).
Proof.
  intros fuel steps st H. revert fuel steps st.
  induction H as [|h t l Hg Hc IH]; intros fuel steps st HT Hf.
  - destruct fuel; simpl; unfold ret; by destruct st.
  - destruct fuel as [|fuel]; simpl in Hf; [lia|].
    cbn [_lookup_with_steps_loop walk_steps walk_metrics]. munfold. unfold deref.
    rewrite HT, Hg. cbn [set_metrics metrics].
    rewrite first_decl_cons.
    pose proof (probe_methods_found (methods t) m (jump (metrics st))) as Hp.
    unfold dict_mem in Hp |- *.
    destruct (probe_methods (dict_keys (methods t)) m (jump (metrics st)))
      as [found mt'] eqn:Hpm.
    simpl in Hp. cbn [fst snd].
    destruct (dict_get (methods t) m) as [toks|] eqn:Hd; subst found.
    + by destruct st.
    + rewrite IH; [|by destruct st|lia]. by destruct st.
Qed.

Lemma lookup_with_steps_chain l start m st :
  Chain (classes st) (Some start) l -> length l <= length (classes st) ->
  _lookup_with_steps start m st =
    (Ok (first_decl l m, walk_steps l m 0),
     set_metrics st (walk_metrics l m (metrics st))).
Proof.
  intros Hl Hlen. unfold _lookup_with_steps. munfold.
  apply (lookup_with_steps_loop_chain (classes st)); try done.
  unfold chain_fuel. lia.
Qed.

(** ** Tables that differ in the lazy caches only *)

(** [t'] is [t] with other plan caches (of the same size). *)
Definition cached (t t' : ClassDef) : Prop :=
  t' = set_itable_plans (set_vtable_plans t (_vtable_plans t')) (_itable_plans t') /\
  length (_vtable_plans t') = length (_vtable_plans t).

Lemma cached_refl t : cached t t.
Proof. split; [by destruct t | done]. Qed.

Lemma cached_trans t1 t2 t3 : cached t1 t2 -> cached t2 t3 -> cached t1 t3.
Proof.
  intros [E1 L1] [E2 L2]. split; [|congruence].
  rewrite E2 at 1. rewrite E1 at 1. by setters.
Qed.

Lemma cached_static t t' :
  cached t t' ->
  name t' = name t /\ is_interface t' = is_interface t /\ base t' = base t /\
  interfaces t' = interfaces t /\ methods t' = methods t /\
  _field_index t' = _field_index t /\ method_slot t' = method_slot t /\
  vtable_tokens t' = vtable_tokens t /\ all_fields t' = all_fields t /\
  fields t' = fields t /\ base_name t' = base_name t /\
  interfaces_names t' = interfaces_names t.
Proof. intros [-> _]. unfold all_fields. by setters. Qed.

Definition agree (T T' : list ClassDef) : Prop :=
  type_names T' = type_names T /\
  forall n t', get_type T' n = Some t' ->
    exists t, get_type T n = Some t /\ cached t t'.

Lemma agree_refl T : agree T T.
Proof. split; [done|]. intros n t H. exists t. split; [done | apply cached_refl]. Qed.

Lemma agree_back T T' n t :
  agree T T' -> get_type T n = Some t ->
  exists t', get_type T' n = Some t' /\ cached t t'.
Proof.
  intros [Hn Hp] Hg.
  destruct (get_type_same_names T' T n t Hn Hg) as [t' Hg'].
  destruct (Hp _ _ Hg') as (t2 & Hg2 & Hc). exists t'. split; [done|]. congruence.
Qed.

Lemma agree_put T T' n t1 t' :
  agree T T' -> get_type T' n = Some t1 -> cached t1 t' ->
  agree T (put_type T' t').
Proof.
  intros [Hn Hp] Hg Hc. split; [by rewrite type_names_put|].
  intros m x. rewrite get_put.
  destruct (get_type T' m) as [y|] eqn:Hy; [|done].
  destruct (Hp _ _ Hy) as (t0 & H0 & Hc0).
  destruct (decide (m = name t')) as [->|Hne]; intros [= <-].
  - exists t0. split; [done|].
    destruct (cached_static _ _ Hc) as (Hname & _).
    rewrite Hname, (get_type_name _ _ _ Hg) in Hy.
    assert (y = t1) as -> by congruence. by eapply cached_trans.
  - eauto.
Qed.

Lemma agree_length T T' : agree T T' -> length T' = length T.
Proof.
  intros [Hn _]. unfold type_names in Hn.
  by rewrite <- (length_map name T'), Hn, length_map.
Qed.

(** Chains of a table and of a table that agrees with it. *)
Lemma agree_chain T T' c l :
  agree T T' -> Chain T c l ->
  exists l', Chain T' c l' /\ Forall2 cached l l'.
Proof.
  intros Ha H. induction H as [|h t l Hg Hc (l' & Hl' & HF)].
  - exists []. split; constructor.
  - destruct (agree_back _ _ _ _ Ha Hg) as (t' & Hg' & Hct).
    exists (t' :: l'). split; [|by constructor].
    econstructor; [done|]. by destruct (cached_static _ _ Hct) as (_ & _ & -> & _).
Qed.

Lemma first_decl_cached l l' m :
  Forall2 cached l l' -> first_decl l' m = first_decl l m.
Proof.
  induction 1 as [|t t' l l' Hc HF IH]; [done|].
  rewrite !first_decl_cons, IH.
  by destruct (cached_static _ _ Hc) as (_ & _ & _ & _ & -> & _).
Qed.

Lemma walk_steps_cached l l' m : forall s,
  Forall2 cached l l' -> walk_steps l' m s = walk_steps l m s.
Proof.
  intros s H. revert s. induction H as [|t t' l l' Hc HF IH]; intros s; [done|].
  simpl. rewrite IH.
  by destruct (cached_static _ _ Hc) as (_ & _ & _ & _ & -> & _).
Qed.

Lemma compile_plan_cached t t' mn toks :
  cached t t' -> _compile_plan t' mn toks = _compile_plan t mn toks.
Proof.
  intros Hc. destruct (cached_static _ _ Hc) as (_ & _ & _ & _ & _ & Hidx & _).
  induction toks as [|tok toks IH]; simpl; [done|]. by rewrite Hidx, IH.
Qed.

(** The method name given to [_compile_plan] only labels its failure. *)
Lemma compile_plan_name t m1 m2 toks p :
  _compile_plan t m1 toks = Ok p -> _compile_plan t m2 toks = Ok p.
Proof.
  revert p. induction toks as [|tok toks IH]; intros p; simpl; [done|].
  destruct (is_int tok).
  - simpl. destruct (_compile_plan t m1 toks) as [p1|]; simpl; [|done].
    intros [= <-]. by rewrite (IH p1).
  - destruct (_field_index t !! tok); simpl; [|done].
    destruct (_compile_plan t m1 toks) as [p1|]; simpl; [|done].
    intros [= <-]. by rewrite (IH p1).
Qed.

(** ** Reasoning about interpreter methods *)

(** The interpreter without its counters and without the position of
    its clock. *)
Definition core (st : Interpreter) : Interpreter :=
  set_clock_reads (set_metrics st new_Metrics) 0.

Lemma core_fields st st' :
  core st' = core st ->
  classes st' = classes st /\ env st' = env st /\ cfg st' = cfg st /\
  _plan_cache st' = _plan_cache st /\ heap st' = heap st /\
  objects st' = objects st /\ stdout st' = stdout st /\ clock st' = clock st.
Proof. unfold core. intros [= ? ? ? ? ? ? ? ?]. done. Qed.

Lemma bind_Ok {A B} (c : M A) (k : A -> M B) st b st' :
  bind c k st = (Ok b, st') ->
  exists a st1, c st = (Ok a, st1) /\ k a st1 = (Ok b, st').
Proof.
  unfold bind. destruct (c st) as [[a|e] st1]; [eauto | done].
Qed.

Lemma ret_Ok {A} (a b : A) st st' : ret a st = (Ok b, st') -> b = a /\ st' = st.
Proof. by intros [= -> ->]. Qed.

Lemma lift_Ok {A} (r : Res A) a st st' :
  lift r st = (Ok a, st') -> r = Ok a /\ st' = st.
Proof. by intros [= -> ->]. Qed.

Lemma get_Ok st a st' : get st = (Ok a, st') -> a = st /\ st' = st.
Proof. by intros [= -> ->]. Qed.

Lemma modify_Ok f st u st' : modify f st = (Ok u, st') -> st' = f st.
Proof. by intros [= <-]. Qed.

Lemma deref_class_Ok h st t st' :
  deref_class h st = (Ok t, st') -> get_type (classes st) h = Some t /\ st' = st.
Proof. unfold deref_class. intros [= H ->]. by apply deref_Ok in H. Qed.

Lemma deref_object_Ok a st i st' :
  deref_object a st = (Ok i, st') -> objects st !! a = Some i /\ st' = st.
Proof.
  unfold deref_object. destruct (objects st !! a); [|done]. by intros [= -> ->].
Qed.

Lemma when_metrics_core f st r st' : when_metrics f st = (r, st') -> core st' = core st.
Proof.
  unfold when_metrics. destruct (enable_metrics (cfg st)); by intros [= _ <-].
Qed.

Lemma count_core f st r st' : count f st = (r, st') -> core st' = core st.
Proof. unfold count, modify. by intros [= _ <-]. Qed.

Lemma start_timer_core st r st' : start_timer st = (r, st') -> core st' = core st.
Proof.
  unfold start_timer, perf_counter_ns.
  destruct (enable_metrics (cfg st)); by intros [= _ <-].
Qed.

Lemma stop_timer_core s f st r st' : stop_timer s f st = (r, st') -> core st' = core st.
Proof.
  unfold stop_timer, perf_counter_ns, bind, count, modify.
  destruct (enable_metrics (cfg st)); by intros [= _ <-].
Qed.

Lemma lookup_with_steps_loop_core fuel : forall c m steps st r st',
  _lookup_with_steps_loop fuel c m steps st = (r, st') -> core st' = core st.
Proof.
  induction fuel as [|fuel IH]; intros c m steps st r st'; destruct c as [h|]; simpl;
    try (by intros [= _ <-]).
  unfold bind, deref_class. destruct (deref (classes st) h) as [t|]; [|by intros [= _ <-]].
  unfold count, modify, get. simpl.
  destruct (probe_methods _ _ _).1.
  - destruct (dict_get (methods t) m); by intros [= _ <-].
  - intros H. by apply IH in H.
Qed.

Lemma lookup_with_steps_core start m st r st' :
  _lookup_with_steps start m st = (r, st') -> core st' = core st.
Proof.
  unfold _lookup_with_steps, bind, get. apply lookup_with_steps_loop_core.
Qed.

(** Decomposition of a successful run of a sequence of operations. *)
Tactic Notation "mbind" hyp(H) "as" ident(a) ident(st1) ident(H1) :=
  apply bind_Ok in H as (a & st1 & H1 & H).

Ltac minv H :=
  repeat match type of H with
  | bind _ _ _ = (Ok _, _) =>
      let a := fresh "a" in let st1 := fresh "st" in
      let H1 := fresh "H" in
      apply bind_Ok in H as (a & st1 & H1 & H)
  end.

(** ** A linked example *)

Module Linked_example.
Definition T : list ClassDef :=
  match _resolve_and_link Examples.table with
  | Ok T => T
  | Err _ => []
  end.

Definition class_of (n : string) : ClassDef :=
  match get_type T n with
  | Some t => t
  | None => new_ClassDef EmptyString false None [] [] []
  end.

Lemma table_declarations : declarations Examples.table.
Proof.
  split; [|split].
  - apply (bool_decide_unpack _). vm_compute. exact I.
  - repeat constructor.
  - repeat constructor; apply (bool_decide_unpack _); vm_compute; exact I.
Defined.

Lemma table_links : _resolve_and_link Examples.table = Ok T.
Proof. vm_compute. reflexivity. Defined.
End Linked_example.

Lemma field_layout_stable_witness :
  all_fields (Linked_example.class_of "C") = ["x"; "y"] ++ ["z"] /\
  _field_index (Linked_example.class_of "C") !! "x" = Some 0.
Proof.
  destruct (field_layout_stable Examples.table Linked_example.T "C"
              (Linked_example.class_of "C")
              Linked_example.table_declarations Linked_example.table_links
              eq_refl eq_refl) as (Hall & _ & Hidx).
  split.
  - exact Hall.
  - apply (Hidx "A" (Linked_example.class_of "A") "x" 0).
    + vm_compute. reflexivity.
    + vm_compute. reflexivity.
    + vm_compute. reflexivity.
Defined.

Lemma base_all_fields_agree T T' t t' :
  agree T T' -> cached t t' ->
  (forall b, base t = Some b -> is_Some (get_type T b)) ->
  base_all_fields T' t' = base_all_fields T t.
Proof.
  intros Ha Hc Hb. unfold base_all_fields.
  destruct (cached_static _ _ Hc) as (_ & _ & -> & _).
  destruct (base t) as [b|]; [|done].
  destruct (Hb b eq_refl) as [bt Hbt]. rewrite Hbt.
  destruct (agree_back _ _ _ _ Ha Hbt) as (bt' & -> & Hcb).
  by destruct (cached_static _ _ Hcb) as (_ & _ & _ & _ & _ & _ & _ & _ & -> & _).
Qed.

Lemma base_tables_agree T T' t t' :
  agree T T' -> cached t t' ->
  (forall b, base t = Some b -> is_Some (get_type T b)) ->
  base_tables T' t' = base_tables T t.
Proof.
  intros Ha Hc Hb. unfold base_tables.
  destruct (cached_static _ _ Hc) as (_ & _ & -> & _).
  destruct (base t) as [b|]; [|done].
  destruct (Hb b eq_refl) as [bt Hbt]. rewrite Hbt.
  destruct (agree_back _ _ _ _ Ha Hbt) as (bt' & -> & Hcb).
  by destruct (cached_static _ _ Hcb) as (_ & _ & _ & _ & _ & _ & -> & -> & _).
Qed.

(** Filling caches keeps a table linked. *)
Lemma Linked_agree T0 T T' : Linked T0 T -> agree T T' -> Linked T0 T'.
Proof.
  intros L Ha. pose proof Ha as [Hn Hp].
  assert (Hbase : forall n t b, get_type T n = Some t -> base t = Some b ->
            is_Some (get_type T b)).
  { intros n t b Hg Hb. destruct (lk_base _ _ L _ _ _ Hg Hb) as (bt & ? & _). eauto. }
  split.
  - rewrite Hn. apply (lk_nodup _ _ L).
  - rewrite Hn. apply (lk_names _ _ L).
  - intros n t' Hg'. destruct (Hp _ _ Hg') as (t & Hg & Hc).
    destruct (lk_decl _ _ L _ _ Hg) as (t0 & H0 & E1 & E2 & E3 & E4 & E5).
    destruct (cached_static _ _ Hc)
      as (_ & -> & _ & _ & -> & _ & _ & _ & _ & -> & -> & ->).
    exists t0. done.
  - intros n t' Hg'. destruct (Hp _ _ Hg') as (t & Hg & Hc).
    destruct (cached_static _ _ Hc)
      as (_ & -> & -> & _ & _ & _ & _ & _ & _ & _ & -> & _).
    by eapply (lk_base_name _ _ L).
  - intros n t' b Hg' Hb. destruct (Hp _ _ Hg') as (t & Hg & Hc).
    destruct (cached_static _ _ Hc) as (_ & _ & Eb & _). rewrite Eb in Hb.
    destruct (lk_base _ _ L _ _ _ Hg Hb) as (bt & Hbt & Hbi).
    destruct (agree_back _ _ _ _ Ha Hbt) as (bt' & Hbt' & Hcb).
    exists bt'. split; [done|].
    by destruct (cached_static _ _ Hcb) as (_ & -> & _).
  - intros n t' Hg' Hi. destruct (Hp _ _ Hg') as (t & Hg & Hc).
    destruct (cached_static _ _ Hc) as (_ & Ei & _). rewrite Ei in Hi.
    destruct (lk_chain _ _ L _ _ Hg Hi) as (l & Hl & Hlen).
    destruct (agree_chain _ _ _ _ Ha Hl) as (l' & Hl' & HF).
    exists l'. split; [done|].
    rewrite <- (Forall2_length _ _ _ HF), (agree_length _ _ Ha). done.
  - intros n t' Hg' Hi. destruct (Hp _ _ Hg') as (t & Hg & Hc).
    destruct (cached_static _ _ Hc)
      as (_ & Ei & _ & -> & _ & _ & _ & _ & _ & _ & _ & ->).
    rewrite Ei in Hi. destruct (lk_interfaces _ _ L _ _ Hg Hi) as [E HF].
    split; [done|]. eapply Forall_impl; [exact HF|].
    intros i (it & Hit & Hii). simpl in *.
    destruct (agree_back _ _ _ _ Ha Hit) as (it' & Hit' & Hci).
    exists it'. split; [done|].
    by destruct (cached_static _ _ Hci) as (_ & -> & _).
  - intros n t' Hg'. destruct (Hp _ _ Hg') as (t & Hg & Hc).
    rewrite (base_all_fields_agree T T' t t') by eauto.
    destruct (cached_static _ _ Hc)
      as (_ & -> & _ & _ & _ & -> & _ & _ & -> & -> & _).
    by eapply (lk_layout _ _ L).
  - intros n t' b bt' f Hg' Hi Hb Hbt' Hf. destruct (Hp _ _ Hg') as (t & Hg & Hc).
    destruct (Hp _ _ Hbt') as (bt & Hbt & Hcb).
    destruct (cached_static _ _ Hc)
      as (_ & Ei & Eb & _ & _ & _ & _ & _ & _ & Ef & _).
    destruct (cached_static _ _ Hcb) as (_ & _ & _ & _ & _ & _ & _ & _ & -> & _).
    rewrite Ei in Hi. rewrite Eb in Hb. rewrite Ef in Hf.
    by eapply (lk_fields _ _ L n t b bt f).
  - intros n t' Hg' Hi. destruct (Hp _ _ Hg') as (t & Hg & Hc).
    destruct (cached_static _ _ Hc)
      as (_ & Ei & _ & _ & -> & _ & -> & _).
    rewrite Ei in Hi. by eapply (lk_slots _ _ L).
  - intros n t' Hg' Hi. destruct (Hp _ _ Hg') as (t & Hg & Hc).
    rewrite (base_tables_agree T T' t t') by eauto.
    destruct Hc as [Hc Hlen]. pose proof (cached_static _ _ (conj Hc Hlen))
      as (_ & Ei & _ & _ & -> & _ & -> & -> & _).
    rewrite Ei in Hi. rewrite Hlen. by eapply (lk_vtable _ _ L).
Qed.

(** ** Interface slot maps *)

Lemma dict_set_fresh {V} (d : list (string * V)) k v :
  k ∉ dict_keys d -> dict_set d k v = d ++ [(k, v)].
Proof.
  unfold dict_keys. induction d as [|[k0 v0] d IH]; simpl; [done|].
  intros [Hne Hni]%not_elem_of_cons. rewrite decide_False by done. by rewrite IH.
Qed.

Lemma dict_get_elem {V} (d : list (string * V)) k v :
  dict_get d k = Some v -> (k, v) ∈ d.
Proof.
  induction d as [|[k0 v0] d IH]; simpl; [done|].
  destruct (decide (k = k0)) as [->|Hne].
  - intros [= ->]. apply list_elem_of_here.
  - intros H. by apply list_elem_of_further, IH.
Qed.

Lemma enumerate_fold keys : forall i (d : list (string * nat)),
  NoDup keys -> (forall k, k ∈ keys -> k ∉ dict_keys d) ->
  foldl (fun d p => dict_set d p.2 p.1) d (enumerate_from i keys) =
  d ++ map (fun p => (p.2, p.1)) (enumerate_from i keys).
Proof.
  induction keys as [|k keys IH]; intros i d Hnd Hd; simpl.
  - by rewrite app_nil_r.
  - apply NoDup_cons in Hnd as [Hk Hnd].
    rewrite dict_set_fresh by (apply Hd, list_elem_of_here).
    rewrite IH; [by rewrite <- app_assoc|done|].
    intros k' Hk'. unfold dict_keys. rewrite map_app. simpl.
    rewrite elem_of_app, list_elem_of_singleton.
    intros [H| ->]; [|done]. eapply Hd; [|exact H]. by apply list_elem_of_further.
Qed.

Lemma enumerate_from_elem {A} (l : list A) i j x :
  (j, x) ∈ enumerate_from i l -> i <= j /\ l !! (j - i) = Some x.
Proof.
  revert i. induction l as [|y l IH]; intros i; simpl.
  - by intros ?%elem_of_nil.
  - intros [[= -> ->]|H]%elem_of_cons.
    + split; [lia|]. by rewrite Nat.sub_diag.
    + apply IH in H as [Hle Hl]. split; [lia|].
      replace (j - i) with (S (j - S i)) by lia. done.
Qed.

Lemma enumerate_from_fst {A} (l : list A) i :
  map fst (enumerate_from i l) = seq i (length l).
Proof. revert i. induction l as [|y l IH]; intros i; simpl; [done|]. by rewrite IH. Qed.

Lemma enumerate_dict_spec keys :
  NoDup keys ->
  length (enumerate_dict keys) = length keys /\
  (forall m s, (m, s) ∈ enumerate_dict keys -> keys !! s = Some m) /\
  NoDup (map snd (enumerate_dict keys)).
Proof.
  intros Hnd. unfold enumerate_dict.
  rewrite enumerate_fold; [|done|intros k _; apply not_elem_of_nil]. simpl.
  split; [|split].
  - rewrite length_map. rewrite <- (length_map fst), enumerate_from_fst.
    apply length_seq.
  - intros m s H. apply list_elem_of_fmap in H as ([j x] & [= -> ->] & H).
    apply enumerate_from_elem in H as [_ H]. by rewrite Nat.sub_0_r in H.
  - rewrite map_map. simpl.
    change (map (fun x : nat * string => x.1) (enumerate_from 0 keys))
      with (map fst (enumerate_from 0 keys)).
    rewrite enumerate_from_fst. apply NoDup_ListNoDup, List.seq_NoDup.
Qed.

(** ** Plans of virtual calls *)

(** [p] is the plan of the nearest declaration of [m] above the class
    [r], compiled against the layout of [r]. *)
Definition dyn_plan (T : list ClassDef) (r m : string) (p : MethodPlan) : Prop :=
  exists rt l toks,
    get_type T r = Some rt /\ Chain T (Some r) l /\
    first_decl l m = Some toks /\ _compile_plan rt m toks = Ok p.

Lemma dyn_plan_fun T r m p1 p2 : dyn_plan T r m p1 -> dyn_plan T r m p2 -> p1 = p2.
Proof.
  intros (rt1 & l1 & toks1 & Hg1 & Hl1 & Hf1 & Hc1)
         (rt2 & l2 & toks2 & Hg2 & Hl2 & Hf2 & Hc2).
  assert (rt2 = rt1) as -> by congruence.
  rewrite (Chain_fun _ _ _ _ Hl2 Hl1) in Hf2. congruence.
Qed.

Lemma agree_chain_back T T' c l' :
  agree T T' -> Chain T' c l' ->
  exists l, Chain T c l /\ Forall2 cached l l'.
Proof.
  intros [Hn Hp] H. induction H as [|h t' l' Hg' Hc (l & Hl & HF)].
  - exists []. split; constructor.
  - destruct (Hp _ _ Hg') as (t & Hg & Hct).
    exists (t :: l). split; [|by constructor].
    econstructor; [done|]. by destruct (cached_static _ _ Hct) as (_ & _ & <- & _).
Qed.

Lemma dyn_plan_agree T T' r m p : agree T T' -> dyn_plan T' r m p -> dyn_plan T r m p.
Proof.
  intros Ha (rt' & l' & toks & Hg' & Hl' & Hf & Hc).
  destruct (proj2 Ha _ _ Hg') as (rt & Hg & Hcr).
  destruct (agree_chain_back _ _ _ _ Ha Hl') as (l & Hl & HF).
  exists rt, l, toks. repeat split; try done.
  - by rewrite <- (first_decl_cached _ _ m HF).
  - by rewrite <- (compile_plan_cached _ _ _ _ Hcr).
Qed.

(** ** The invariant of a run *)

Record Inv (T : list ClassDef) (st : Interpreter) : Prop := {
  inv_agree : agree T (classes st);
  inv_env : forall x b, env st !! x = Some b ->
    exists i rt, objects st !! inst b = Some i /\
      get_type T (cls i) = Some rt /\ is_interface rt = false /\
      is_Some (get_type T (view_cls b));
  inv_vtable : forall n t s p, get_type (classes st) n = Some t ->
    _vtable_plans t !! s = Some (Some p) ->
    exists toks, vtable_tokens t !! s = Some toks /\ _compile_plan t EmptyString toks = Ok p;
  inv_itable : forall n t i cache ifc m s p, get_type (classes st) n = Some t ->
    _itable_plans t !! i = Some cache -> get_type T i = Some ifc ->
    dict_get (method_slot ifc) m = Some s -> cache !! s = Some (Some p) ->
    dyn_plan T n m p;
  inv_cache : forall v r m p, _plan_cache st !! ("dyn", v, r, m) = Some p ->
    dyn_plan T r m p
}.

Lemma Inv_core T st st' : core st' = core st -> Inv T st -> Inv T st'.
Proof.
  intros Hc I. apply core_fields in Hc as (E1 & E2 & _ & E4 & _ & E6 & _).
  destruct I as [I1 I2 I3 I4 I5].
  split; rewrite ?E1, ?E2, ?E4, ?E6; done.
Qed.

(** States of a run over the linked table [T]. *)
Inductive reachable (T : list ClassDef) : Interpreter -> Prop :=
  | reachable_new config clk : reachable T (new_Interpreter T config clk)
  | reachable_step st s st' :
      reachable T st -> _exec_statement s st = (Ok tt, st') -> reachable T st'.

Lemma Inv_new T config clk : caches_empty T -> Inv T (new_Interpreter T config clk).
Proof.
  intros Hce. split; simpl.
  - apply agree_refl.
  - intros x b H. by rewrite lookup_empty in H.
  - intros n t s p Hg Hs. destruct (Hce _ _ Hg) as [_ Hv].
    rewrite Hv in Hs. apply lookup_replicate in Hs as [? _]. done.
  - intros n t i cache ifc m s p Hg Hi. destruct (Hce _ _ Hg) as [E _].
    rewrite E in Hi. by rewrite lookup_empty in Hi.
  - intros v r m p H. by rewrite lookup_empty in H.
Qed.

Lemma store_at_Ok {A} (l : list A) i x l' :
  store_at l i x = Ok l' -> i < length l /\ l' = <[i := x]> l.
Proof. unfold store_at. destruct (decide (i < length l)); [|done]. by intros [= <-]. Qed.

Lemma index_Ok {A} (l : list A) i x : index l i = Ok x <-> l !! i = Some x.
Proof. unfold index. destruct (l !! i); naive_solver. Qed.

Lemma Inv_put_vtable T st n rt slot plan plans toks mn :
  Inv T st -> get_type (classes st) n = Some rt ->
  store_at (_vtable_plans rt) slot (Some plan) = Ok plans ->
  vtable_tokens rt !! slot = Some toks -> _compile_plan rt mn toks = Ok plan ->
  Inv T (set_classes st (put_type (classes st) (set_vtable_plans rt plans))).
Proof.
  intros [I1 I2 I3 I4 I5] Hg Hst Htok Hcomp.
  apply store_at_Ok in Hst as [Hlt ->].
  set (rt' := set_vtable_plans rt (<[slot:=Some plan]> (_vtable_plans rt))).
  assert (Hc : cached rt rt').
  { split; [by destruct rt|]. unfold rt'. setters. by rewrite length_insert. }
  assert (Hname : name rt' = n) by (rewrite <- (get_type_name _ _ _ Hg); done).
  split; simpl; try done.
  - by eapply agree_put.
  - intros n' t s p. rewrite get_put, Hname.
    destruct (get_type (classes st) n') as [t0|] eqn:Hg'; [|done].
    destruct (decide (n' = n)) as [->|Hne]; intros [= <-]; [|by eapply I3].
    change (_vtable_plans rt') with (<[slot:=Some plan]> (_vtable_plans rt)).
    change (vtable_tokens rt') with (vtable_tokens rt).
    destruct (decide (s = slot)) as [->|Hs].
    + rewrite list_lookup_insert_eq by done. intros [= <-].
      exists toks. split; [done|]. rewrite (compile_plan_cached rt rt') by done.
      by eapply compile_plan_name.
    + rewrite list_lookup_insert_ne by done. intros Hs'.
      destruct (I3 _ _ _ _ Hg Hs') as (toks' & ? & ?).
      exists toks'. split; [done|]. by rewrite (compile_plan_cached rt rt').
  - intros n' t i cache ifc m s p. rewrite get_put, Hname.
    destruct (get_type (classes st) n') as [t0|] eqn:Hg'; [|done].
    destruct (decide (n' = n)) as [->|Hne]; intros [= <-]; [|by eapply I4].
    change (_itable_plans rt') with (_itable_plans rt). by eapply I4.
Qed.

Lemma Inv_put_itable T st n rt i ifc plans :
  Inv T st -> get_type (classes st) n = Some rt -> get_type T i = Some ifc ->
  (forall m s p, dict_get (method_slot ifc) m = Some s ->
     plans !! s = Some (Some p) -> dyn_plan T n m p) ->
  Inv T (set_classes st (put_type (classes st)
           (set_itable_plans rt (<[i := plans]> (_itable_plans rt))))).
Proof.
  intros [I1 I2 I3 I4 I5] Hg Hi Hplans.
  set (rt' := set_itable_plans rt (<[i:=plans]> (_itable_plans rt))).
  assert (Hc : cached rt rt') by (split; [by destruct rt | done]).
  assert (Hname : name rt' = n) by (rewrite <- (get_type_name _ _ _ Hg); done).
  split; simpl; try done.
  - by eapply agree_put.
  - intros n' t s p. rewrite get_put, Hname.
    destruct (get_type (classes st) n') as [t0|] eqn:Hg'; [|done].
    destruct (decide (n' = n)) as [->|Hne]; intros [= <-]; [|by eapply I3].
    change (_vtable_plans rt') with (_vtable_plans rt).
    change (vtable_tokens rt') with (vtable_tokens rt). intros Hs'.
    destruct (I3 _ _ _ _ Hg Hs') as (toks' & ? & ?).
    exists toks'. split; [done|]. by rewrite (compile_plan_cached rt rt').
  - intros n' t i' cache ifc' m s p. rewrite get_put, Hname.
    destruct (get_type (classes st) n') as [t0|] eqn:Hg'; [|done].
    destruct (decide (n' = n)) as [->|Hne]; intros [= <-]; [|by eapply I4].
    change (_itable_plans rt') with (<[i:=plans]> (_itable_plans rt)).
    destruct (decide (i' = i)) as [->|Hi'].
    + rewrite lookup_insert_eq. intros [= <-] Hifc. rewrite Hi in Hifc.
      injection Hifc as <-. apply Hplans.
    + rewrite lookup_insert_ne by done. by eapply I4.
Qed.

Lemma Inv_put_cache T st dynamic view runtime m p :
  Inv T st -> (dynamic = true -> dyn_plan T (name runtime) m p) ->
  Inv T (set_plan_cache st
           (<[cache_key dynamic view runtime m := p]> (_plan_cache st))).
Proof.
  intros [I1 I2 I3 I4 I5] Hp. split; simpl; try done.
  intros v r m' p'. unfold cache_key. destruct dynamic.
  - destruct (decide (("dyn", name view, name runtime, m) = ("dyn", v, r, m')))
      as [[= <- <- <-]|Hne].
    + rewrite lookup_insert_eq. intros [= <-]. by apply Hp.
    + rewrite lookup_insert_ne by done. apply I5.
  - rewrite lookup_insert_ne by done. apply I5.
Qed.

(** What resolution leaves alone. *)
Definition frame (st st' : Interpreter) : Prop :=
  cfg st' = cfg st /\ env st' = env st /\ objects st' = objects st /\
  stdout st' = stdout st /\ heap st' = heap st.

Ltac core_facts :=
  repeat match goal with
  | H : core _ = core _ |- _ =>
      apply core_fields in H as (? & ? & ? & ? & ? & ? & ? & ?)
  end.

Ltac frame_solve :=
  unfold frame in *;
  repeat match goal with H : _ /\ _ |- _ => destruct H end;
  subst; simpl in *; core_facts; simpl in *; repeat split; congruence.

(** ** Resolution over a linked table *)

Section resolution.
Variables T0 T : list ClassDef.
Hypothesis L : Linked T0 T.
Hypothesis Hkeys : Forall (fun t => NoDup (dict_keys (methods t))) T0.

Lemma Inv_Linked st : Inv T st -> Linked T0 (classes st).
Proof. intros I. eapply Linked_agree; [exact L | apply (inv_agree _ _ I)]. Qed.

Lemma vtable_plan_spec st runtime rt slot p st' :
  Inv T st -> get_type (classes st) runtime = Some rt ->
  _vtable_plan runtime slot st = (Ok p, st') ->
  Inv T st' /\ frame st st' /\
  exists toks, vtable_tokens rt !! slot = Some toks /\ _compile_plan rt EmptyString toks = Ok p.
Proof.
  intros I Hg H. unfold _vtable_plan in H.
  mbind H as rt1 s1 H1. apply deref_class_Ok in H1 as [Hg' ->].
  assert (rt1 = rt) as -> by congruence.
  mbind H as entry s2 H2. apply lift_Ok in H2 as [Hidx ->]. apply index_Ok in Hidx.
  destruct entry as [plan|].
  - mbind H as u s3 H3. apply when_metrics_core in H3. apply ret_Ok in H as [-> ->].
    split; [by eapply Inv_core|]. split; [|by eapply (inv_vtable _ _ I)].
    frame_solve.
  - mbind H as u3 s3 H3. apply when_metrics_core in H3.
    mbind H as start s4 H4. apply start_timer_core in H4.
    mbind H as toks s5 H5. apply lift_Ok in H5 as [Htok ->]. apply index_Ok in Htok.
    mbind H as plan s6 H6. apply lift_Ok in H6 as [Hcomp ->].
    mbind H as plans s7 H7. apply lift_Ok in H7 as [Hst ->].
    mbind H as u8 s8 H8. apply modify_Ok in H8.
    mbind H as u9 s9 H9. apply stop_timer_core in H9.
    apply ret_Ok in H as [-> ->].
    assert (Hc : core s4 = core st) by congruence.
    pose proof (core_fields _ _ Hc) as (Ecl & Eenv & Ecfg & _ & _ & Eobj & _).
    pose proof (Inv_core _ _ _ Hc I) as I2.
    rewrite <- Ecl in Hg.
    pose proof (Inv_put_vtable _ _ _ _ _ _ _ _ _ I2 Hg Hst Htok Hcomp) as I3.
    rewrite <- H8 in I3.
    split; [by eapply Inv_core|]. split.
    + clear I I2 I3. frame_solve.
    + exists toks. split; [done|]. by eapply compile_plan_name.
Qed.

Lemma state_chain st n rt :
  Inv T st -> get_type (classes st) n = Some rt -> is_interface rt = false ->
  exists l, Chain (classes st) (Some n) (rt :: l) /\
    length (rt :: l) <= length (classes st) /\
    Forall (fun t => is_interface t = false /\
                     get_type (classes st) (name t) = Some t) (rt :: l).
Proof.
  intros I Hg Hi.
  destruct (class_chain _ _ (Inv_Linked _ I) _ _ Hg Hi) as (l & Hl & _ & Hlen & HF).
  eauto.
Qed.

(** A walk from a class of the state: what it returns. *)
Lemma state_lookup st n rt l m :
  Chain (classes st) (Some n) l -> length l <= length (classes st) ->
  get_type (classes st) n = Some rt ->
  exists st', _lookup_with_steps n m st =
                (Ok (first_decl l m, walk_steps l m 0), st') /\
    core st' = core st /\
    st' = set_metrics st (walk_metrics l m (metrics st)).
Proof.
  intros Hl Hlen Hg. eexists. split; [by apply lookup_with_steps_chain|].
  split; [|done]. by destruct st.
Qed.

Lemma dyn_plan_state st n rt l m toks p mn :
  Inv T st -> get_type (classes st) n = Some rt ->
  Chain (classes st) (Some n) l -> first_decl l m = Some toks ->
  _compile_plan rt mn toks = Ok p -> dyn_plan T n m p.
Proof.
  intros I Hg Hl Hf Hc. apply (dyn_plan_agree T (classes st)); [apply (inv_agree _ _ I)|].
  exists rt, l, toks. repeat split; try done. by eapply compile_plan_name.
Qed.

Lemma build_itable_spec runtime rt iname slots : forall plans st plans' st',
  Inv T st -> get_type (classes st) runtime = Some rt -> is_interface rt = false ->
  NoDup (map snd slots) ->
  build_itable runtime iname slots plans st = (Ok plans', st') ->
  core st' = core st /\ length plans' = length plans /\
  (forall m s, (m, s) ∈ slots ->
     exists p, plans' !! s = Some (Some p) /\ dyn_plan T runtime m p) /\
  (forall s, s ∉ map snd slots -> plans' !! s = plans !! s).
Proof.
  induction slots as [|[m slot] rest IH]; intros plans st plans' st' I Hg Hi Hnd H.
  - simpl in H. apply ret_Ok in H as [-> ->]. repeat split; try done.
    intros m s Hin. by apply elem_of_nil in Hin.
  - simpl in Hnd. apply NoDup_cons in Hnd as [Hslot Hnd].
    cbn [build_itable] in H.
    destruct (state_chain _ _ _ I Hg Hi) as (l & Hl & Hlen & _).
    destruct (state_lookup st runtime rt _ m Hl Hlen Hg) as (s1 & Hlk & Hc1 & _).
    mbind H as r s1' H1. rewrite Hlk in H1. injection H1 as <- <-.
    cbn [fst snd] in H.
    destruct (first_decl (rt :: l) m) as [tokens|] eqn:Hfd; [|done].
    pose proof (core_fields _ _ Hc1) as (Ecl & _).
    mbind H as rt2 s2 H2. apply deref_class_Ok in H2 as [Hg2 ->].
    rewrite Ecl, Hg in Hg2. injection Hg2 as <-.
    mbind H as plan s3 H3. apply lift_Ok in H3 as [Hcomp ->].
    mbind H as plans1 s4 H4. apply lift_Ok in H4 as [Hst ->].
    apply store_at_Ok in Hst as [Hlt ->].
    mbind H as u s5 H5. apply when_metrics_core in H5.
    assert (Hc5 : core s5 = core st) by congruence.
    pose proof (core_fields _ _ Hc5) as (Ecl5 & _).
    apply IH in H as (Hc & Hlen' & Hin & Hout);
      [|by eapply Inv_core|by rewrite Ecl5|done|done].
    split; [congruence|]. split; [by rewrite Hlen', length_insert|]. split.
    + intros m' s' [[= -> ->]|Hin']%elem_of_cons; [|by apply Hin].
      exists plan. split; [|by eapply dyn_plan_state].
      rewrite Hout by done. by apply list_lookup_insert_eq.
    + intros s Hs. simpl in Hs. apply not_elem_of_cons in Hs as [Hne Hs].
      rewrite Hout by done. by apply list_lookup_insert_ne.
Qed.

Lemma interface_slots_nodup st i ifc :
  Inv T st -> get_type (classes st) i = Some ifc -> is_interface ifc = true ->
  NoDup (map snd (method_slot ifc)).
Proof.
  intros I Hg Hi. pose proof (Inv_Linked _ I) as L'.
  rewrite (lk_slots _ _ L' _ _ Hg Hi).
  apply enumerate_dict_spec. by eapply (methods_nodup _ _ L').
Qed.

Lemma itable_plan_spec st runtime rt iface ifc m p st' :
  Inv T st -> get_type (classes st) runtime = Some rt -> is_interface rt = false ->
  get_type (classes st) iface = Some ifc -> is_interface ifc = true ->
  _itable_plan runtime iface m st = (Ok p, st') ->
  Inv T st' /\ frame st st' /\ dyn_plan T runtime m p.
Proof.
  intros I Hg Hi Hgi Hii H. unfold _itable_plan in H.
  mbind H as rt1 s1 H1. apply deref_class_Ok in H1 as [Hg1 ->].
  assert (rt1 = rt) as -> by congruence.
  mbind H as ifc1 s2 H2. apply deref_class_Ok in H2 as [Hg2 ->].
  assert (ifc1 = ifc) as -> by congruence.
  destruct (proj2 (inv_agree _ _ I) _ _ Hgi) as (ifc0 & Hgi0 & Hci).
  destruct (cached_static _ _ Hci) as (Hiname & _ & _ & _ & _ & _ & Hslots & _).
  pose proof (get_type_name _ _ _ Hgi) as Hname.
  mbind H as cache s3 H3.
  assert (Hcache : Inv T s3 /\ frame st s3 /\
    forall m s p, dict_get (method_slot ifc) m = Some s ->
      cache !! s = Some (Some p) -> dyn_plan T runtime m p).
  { destruct (_itable_plans rt !! name ifc) as [cache0|] eqn:Hit.
    - mbind H3 as u s4 H4. apply when_metrics_core in H4.
      apply ret_Ok in H3 as [-> ->].
      split; [by eapply Inv_core|]. split; [frame_solve|].
      intros m' s p' Hs Hp. rewrite Hslots in Hs. rewrite Hname in Hit.
      by eapply (inv_itable _ _ I runtime rt iface cache0 ifc0).
    - mbind H3 as u s4 H4. apply when_metrics_core in H4.
      mbind H3 as start s5 H5. apply start_timer_core in H5.
      assert (Hc5 : core s5 = core st) by congruence.
      pose proof (core_fields _ _ Hc5) as (Ecl5 & Eenv5 & Ecfg5 & _ & _ & Eobj5 & _).
      mbind H3 as plans s6 H6.
      apply (build_itable_spec runtime rt) in H6 as (Hc6 & Hlen & Hin & _);
        [|by eapply Inv_core|by rewrite Ecl5|done|by eapply interface_slots_nodup].
      assert (Hc6' : core s6 = core st) by congruence.
      pose proof (core_fields _ _ Hc6') as (Ecl6 & Eenv6 & Ecfg6 & _ & _ & Eobj6 & _).
      mbind H3 as rt' s7 H7. apply deref_class_Ok in H7 as [Hg7 ->].
      rewrite Ecl6, Hg in Hg7. injection Hg7 as <-.
      mbind H3 as u8 s8 H8. apply modify_Ok in H8.
      mbind H3 as u9 s9 H9. apply stop_timer_core in H9.
      apply ret_Ok in H3 as [-> ->].
      assert (Hplans : forall m s p, dict_get (method_slot ifc0) m = Some s ->
        plans !! s = Some (Some p) -> dyn_plan T runtime m p).
      { intros m' s p' Hs Hp. rewrite <- Hslots in Hs.
        destruct (Hin m' s (dict_get_elem _ _ _ Hs)) as (p2 & Hp2 & Hd). congruence. }
      pose proof (Inv_core _ _ _ Hc6' I) as I6. rewrite <- Ecl6 in Hg.
      pose proof (Inv_put_itable _ _ _ _ iface _ plans I6 Hg Hgi0 Hplans) as I8.
      rewrite <- Hname, <- H8 in I8.
      split; [by eapply Inv_core|]. split.
      + clear I I6 I8 Hc5 Hc6'. frame_solve.
      + intros m' s p' Hs Hp. rewrite Hslots in Hs. by eapply Hplans. }
  destruct Hcache as (I3 & Hframe & Hcache).
  mbind H as slot s4 H4.
  destruct (dict_get (method_slot ifc) m) as [slot'|] eqn:Hslot; [|done].
  apply ret_Ok in H4 as [-> ->].
  mbind H as entry s5 H5. apply lift_Ok in H5 as [Hidx ->]. apply index_Ok in Hidx.
  destruct entry as [plan|]; [|done]. apply ret_Ok in H as [-> ->].
  split; [done|]. split; [done|]. by eapply Hcache.
Qed.

Lemma implements_interface_state st rt v r st' :
  lift (implements_interface (classes st) rt v) st = (r, st') -> st' = st.
Proof. by intros [= _ <-]. Qed.

Lemma lookup_tokens_core view runtime m dynamic st r st' :
  lookup_tokens view runtime m dynamic st = (r, st') -> core st' = core st.
Proof.
  unfold lookup_tokens. destruct dynamic; simpl.
  - destruct (is_interface view).
    + unfold bind, get, lift.
      destruct (implements_interface (classes st) runtime view) as [[]|];
        simpl; try (by intros [= _ <-]).
      apply lookup_with_steps_core.
    + unfold bind, ret. apply lookup_with_steps_core.
  - destruct (is_interface view).
    + unfold bind, get, lift.
      destruct (implements_interface (classes st) runtime view) as [[]|];
        simpl; try (by intros [= _ <-]).
      destruct (_lookup_with_steps (name view) m st) as [[r1|e] s1] eqn:H1;
        [|intros [= _ <-]; by apply lookup_with_steps_core in H1].
      apply lookup_with_steps_core in H1.
      destruct r1.1 as [[|tok toks]|].
      * intros H2%lookup_with_steps_core. congruence.
      * unfold ret. intros [= _ <-]. done.
      * intros H2%lookup_with_steps_core. congruence.
    + apply lookup_with_steps_core.
Qed.

(** On a virtual call the fallback walks from the runtime class. *)
Lemma lookup_tokens_dyn st view runtime rt l m r st' :
  get_type (classes st) runtime = Some rt ->
  Chain (classes st) (Some runtime) l -> length l <= length (classes st) ->
  lookup_tokens view rt m true st = (Ok r, st') ->
  r = (first_decl l m, walk_steps l m 0).
Proof.
  intros Hg Hl Hlen. unfold lookup_tokens. simpl.
  rewrite (get_type_name _ _ _ Hg).
  destruct (state_lookup st runtime rt l m Hl Hlen Hg) as (s1 & Hlk & Hc & _).
  destruct (is_interface view).
  - unfold bind at 1. unfold bind at 1. unfold get.
    unfold bind at 1. unfold lift.
    destruct (implements_interface (classes st) rt view) as [[]|]; simpl; try done.
    unfold bind, ret. rewrite Hlk. by intros [= <- _].
  - unfold bind, ret. rewrite Hlk. by intros [= <- _].
Qed.

(** The subclass check of the vtable path puts the view on the chain
    of the runtime class. *)
Lemma subclass_check_chain TT nv view nr runtime sub :
  Linked T0 TT ->
  get_type TT nv = Some view -> get_type TT nr = Some runtime ->
  is_interface view = false -> is_interface runtime = false ->
  is_subclass_of TT runtime view = Ok sub ->
  negb sub && negb (bool_decide (name runtime = name view)) = false ->
  exists lr, Chain TT (Some nr) (runtime :: lr) /\
    length (runtime :: lr) <= length TT /\
    Forall (fun t => is_interface t = false /\ get_type TT (name t) = Some t)
      (runtime :: lr) /\
    view ∈ runtime :: lr.
Proof.
  intros L' Hv Hr Hi Hir Hsub Hchk.
  destruct (class_chain _ _ L' _ _ Hr Hir) as (lr & Hlr & _ & Hlenr & HFr).
  exists lr. split; [done|]. split; [done|]. split; [done|].
  apply andb_false_iff in Hchk as [Hc|Hc]; apply negb_false_iff in Hc.
  - subst sub.
    rewrite (is_subclass_of_spec TT nr runtime _ view Hr Hir Hlr Hlenr) in Hsub.
    injection Hsub as Hsub. apply andb_true_iff in Hsub as [_ Hin].
    apply bool_decide_eq_true in Hin. by apply (name_in_chain TT _ _ _ _ Hlr Hv) in Hin.
  - apply bool_decide_eq_true in Hc.
    rewrite <- (get_type_name _ _ _ Hr), Hc, (get_type_name _ _ _ Hv) in Hr.
    assert (runtime = view) as -> by congruence. apply list_elem_of_here.
Qed.

(** A successful resolution keeps the invariant, touches neither the
    environment nor the objects, and on a virtual call returns the plan
    of the nearest declaration above the runtime class. *)
Lemma resolve_spec st x b m dynamic p st' :
  Inv T st -> env st !! x = Some b ->
  _resolve_call_plan b m dynamic st = (Ok p, st') ->
  Inv T st' /\ frame st st' /\
  (dynamic = true ->
   exists i, objects st !! inst b = Some i /\ dyn_plan T (cls i) m p).
Proof.
  intros I Hx H. unfold _resolve_call_plan in H.
  destruct (inv_env _ _ I _ _ Hx) as (i0 & rt0 & Hobj & Hrt0 & Hirt0 & _).
  mbind H as i s1 H1. apply deref_object_Ok in H1 as [Hi ->].
  assert (i = i0) as -> by congruence.
  mbind H as view s2 H2. apply deref_class_Ok in H2 as [Hview ->].
  mbind H as rt s3 H3. apply deref_class_Ok in H3 as [Hrt ->].
  destruct (proj2 (inv_agree _ _ I) _ _ Hrt) as (rt0' & Hrt0' & Hcr).
  assert (rt0' = rt0) as -> by congruence.
  assert (Hir : is_interface rt = false).
  { by destruct (cached_static _ _ Hcr) as (_ & -> & _). }
  pose proof (get_type_name _ _ _ Hrt) as Hname.
  mbind H as st0 s4 H4. apply get_Ok in H4 as [-> ->].
  mbind H as visible s5 H5. apply lift_Ok in H5 as [Hvis ->].
  destruct visible as [vtoks|]; [|done].
  destruct (dynamic && enable_vtable (cfg st)) eqn:Hfast.
  - apply andb_true_iff in Hfast as [-> Hvt].
    destruct (is_interface view) eqn:Hiv.
    + mbind H as impl s6 H6. apply lift_Ok in H6 as [Himpl ->].
      destruct impl; [|done]. simpl in H.
      mbind H as plan s7 H7. rewrite Hname in H7.
      pose proof (get_type_name _ _ _ Hview) as Hvname. rewrite Hvname in H7.
      apply (itable_plan_spec _ _ rt _ view) in H7 as (I7 & Hfr & Hd); try done.
      mbind H as u s8 H8. apply when_metrics_core in H8.
      apply ret_Ok in H as [-> ->].
      split; [by eapply Inv_core|]. split.
      * clear I I7. unfold frame in Hfr. frame_solve.
      * intros _. exists i0. done.
    + mbind H as sub s6 H6. apply lift_Ok in H6 as [Hsub ->].
      destruct (negb sub && negb (bool_decide (name rt = name view))) eqn:Hchk;
        [done|].
      destruct (dict_get (method_slot view) m) as [slot|] eqn:Hslot; [|done].
      mbind H as plan s7 H7. rewrite Hname in H7.
      apply (vtable_plan_spec _ _ rt) in H7
        as (I7 & Hfr & toks & Htok & Hcomp); try done.
      mbind H as u s8 H8. apply when_metrics_core in H8.
      apply ret_Ok in H as [-> ->].
      split; [by eapply Inv_core|]. split; [clear I I7; unfold frame in Hfr; frame_solve|].
      intros _. exists i0. split; [done|].
      pose proof (Inv_Linked _ I) as L'.
      destruct (subclass_check_chain _ _ _ _ _ _ L' Hview Hrt Hiv Hir Hsub Hchk)
        as (lr & Hlr & Hlen & HF & Hin).
      destruct (vtable_chain _ _ L' Hkeys _ _ Hlr HF rt eq_refl)
        as (_ & Htoks & _ & Hanc).
      destruct (Hanc view Hin) as [_ Hkeep].
      specialize (Htoks m). unfold tokens_at in Htoks.
      rewrite (Hkeep _ _ Hslot), Htok in Htoks.
      by eapply (dyn_plan_state st (cls i0) rt (rt :: lr) m toks).
  - destruct (if enable_cache (cfg st)
              then _plan_cache st !! cache_key dynamic view rt m
              else None) as [plan|] eqn:Hcache.
    + mbind H as u s6 H6. apply when_metrics_core in H6.
      apply ret_Ok in H as [-> ->].
      split; [by eapply Inv_core|]. split; [clear I; frame_solve|].
      intros ->. exists i0. split; [done|].
      destruct (enable_cache (cfg st)); [|done].
      unfold cache_key in Hcache. rewrite Hname in Hcache.
      by eapply (inv_cache _ _ I).
    + mbind H as u s6 H6. apply when_metrics_core in H6.
      mbind H as start s7 H7. apply start_timer_core in H7.
      assert (Hc7 : core s7 = core st) by congruence.
      pose proof (core_fields _ _ Hc7) as (Ecl7 & _).
      mbind H as r s8 H8. pose proof (lookup_tokens_core _ _ _ _ _ _ _ H8) as Hc8.
      destruct r.1 as [tokens|] eqn:Hr1; [|done].
      mbind H as plan s9 H9. apply lift_Ok in H9 as [Hcomp ->].
      mbind H as u10 s10 H10. apply stop_timer_core in H10.
      assert (Hc10 : core s10 = core st) by congruence.
      assert (Hdyn : dynamic = true -> dyn_plan T (name rt) m plan).
      { intros ->. rewrite Hname.
        rewrite <- Ecl7 in Hrt.
        pose proof (Inv_core _ _ _ Hc7 I) as I7.
        destruct (state_chain _ _ _ I7 Hrt Hir) as (l & Hl & Hlen & _).
        rewrite (lookup_tokens_dyn _ _ _ _ _ _ _ _ Hrt Hl Hlen H8) in Hr1.
        simpl in Hr1. by eapply (dyn_plan_state s7 (cls i0) rt (rt :: l) m tokens). }
      mbind H as u11 s11 H11. apply ret_Ok in H as [-> ->].
      pose proof (Inv_core _ _ _ Hc10 I) as I10.
      assert (Hfr : frame st s10).
      { clear I I10 Hdyn H8 Hc7 Hc8 H6 H7 H10. frame_solve. }
      destruct (enable_cache (cfg st)).
      * apply modify_Ok in H11. subst s11.
        split; [by apply Inv_put_cache|]. split; [exact Hfr|].
        intros ->. exists i0. split; [done|]. rewrite <- Hname. by apply Hdyn.
      * apply ret_Ok in H11 as [_ ->].
        split; [done|]. split; [exact Hfr|].
        intros ->. exists i0. split; [done|]. rewrite <- Hname. by apply Hdyn.
Qed.

Lemma Inv_fields st st' :
  classes st' = classes st -> env st' = env st -> objects st' = objects st ->
  _plan_cache st' = _plan_cache st -> Inv T st -> Inv T st'.
Proof.
  intros E1 E2 E3 E4 [I1 I2 I3 I4 I5]. split; rewrite ?E1, ?E2, ?E3, ?E4; done.
Qed.

(** The class of the object a name is bound to. *)
Lemma binding_class st x b :
  Inv T st -> env st !! x = Some b ->
  exists i rt l, objects st !! inst b = Some i /\
    get_type (classes st) (cls i) = Some rt /\ is_interface rt = false /\
    Chain (classes st) (Some (cls i)) (rt :: l) /\
    length (rt :: l) <= length (classes st) /\
    is_Some (get_type (classes st) (view_cls b)).
Proof.
  intros I Hx. destruct (inv_env _ _ I _ _ Hx) as (i & rt0 & Hobj & Hrt0 & Hi0 & [v0 Hv0]).
  destruct (agree_back _ _ _ _ (inv_agree _ _ I) Hrt0) as (rt & Hrt & Hc).
  assert (Hi : is_interface rt = false).
  { by destruct (cached_static _ _ Hc) as (_ & -> & _). }
  destruct (state_chain _ _ _ I Hrt Hi) as (l & Hl & Hlen & _).
  destruct (agree_back _ _ _ _ (inv_agree _ _ I) Hv0) as (v & Hv & _).
  exists i, rt, l. eauto 10.
Qed.

(** What [is] answers for an object of class [rt] with ancestors [l]
    and a type [t]. *)
Definition is_answer (l : list ClassDef) (t : ClassDef) : bool :=
  if is_interface t
  then bool_decide (name t ∈ concat (map interfaces l))
  else bool_decide (name t ∈ map name l).

Lemma is_check st n rt l t :
  get_type (classes st) n = Some rt -> is_interface rt = false ->
  Chain (classes st) (Some n) (rt :: l) ->
  length (rt :: l) <= length (classes st) ->
  (if is_interface t
   then implements_interface (classes st) rt t
   else is_subclass_of (classes st) rt t) = Ok (is_answer (rt :: l) t).
Proof.
  intros Hg Hi Hl Hlen. unfold is_answer. destruct (is_interface t) eqn:Hit.
  - unfold implements_interface, all_interfaces. rewrite Hit, Hi.
    cbn [negb]. rewrite (get_type_name _ _ _ Hg).
    rewrite (all_interfaces_loop_chain _ (rt :: l)) by (done || unfold chain_fuel; lia).
    done.
  - rewrite (is_subclass_of_spec _ n rt (rt :: l) t Hg Hi Hl Hlen). by rewrite Hit.
Qed.

Lemma is_answer_spec TT c l t nt :
  Chain TT c l -> get_type TT nt = Some t ->
  is_answer l t = true <->
  (is_interface t = false /\ t ∈ l) \/
  (is_interface t = true /\ exists a, a ∈ l /\ name t ∈ interfaces a).
Proof.
  intros Hl Ht. unfold is_answer. destruct (is_interface t).
  - rewrite bool_decide_eq_true, list_elem_of_In, in_concat. split.
    + intros (ifs & Hifs & Hin). apply in_map_iff in Hifs as (a & <- & Ha).
      right. split; [done|]. exists a. by rewrite !list_elem_of_In.
    + intros [[? _]|[_ (a & Ha & Hin)]]; [done|].
      exists (interfaces a). rewrite in_map_iff, <- list_elem_of_In.
      split; [|done]. exists a. split; [done|]. by apply list_elem_of_In.
  - rewrite bool_decide_eq_true. split.
    + intros Hin. left. split; [done|]. by eapply name_in_chain.
    + intros [[_ Hin]|[? _]]; [|done]. apply list_elem_of_fmap. eauto.
Qed.

Lemma exec_is_spec st x type_name :
  Inv T st ->
  exists ans : bool,
    _exec_is x type_name st =
      (Ok tt, set_stdout st (stdout st ++ [Line (if ans then "IS" else "ISN'T")])) /\
    (ans = true <->
     exists b t i rt l,
       env st !! x = Some b /\ get_type (classes st) type_name = Some t /\
       objects st !! inst b = Some i /\ get_type (classes st) (cls i) = Some rt /\
       Chain (classes st) (Some (cls i)) l /\
       ((is_interface t = false /\ t ∈ l) \/
        (is_interface t = true /\ exists a, a ∈ l /\ name t ∈ interfaces a))).
Proof.
  intros I. unfold _exec_is. munfold.
  destruct (env st !! x) as [b|] eqn:Hx.
  - destruct (get_type (classes st) type_name) as [t|] eqn:Ht.
    + destruct (binding_class _ _ _ I Hx) as (i & rt & l & Hobj & Hrt & Hi & Hl & Hlen & _).
      exists (is_answer (rt :: l) t). rewrite Hobj. unfold deref. rewrite Hrt.
      cbn [res_bind]. rewrite (is_check st (cls i) rt l t Hrt Hi Hl Hlen).
      split; [done|]. rewrite (is_answer_spec _ _ _ _ _ Hl Ht). split.
      * intros H. exists b, t, i, rt, (rt :: l). done.
      * intros (b' & t' & i' & rt' & l' & [= <-] & [= <-] & Hobj' & Hrt' & Hl' & H).
        rewrite Hobj in Hobj'. injection Hobj' as <-.
        by rewrite (Chain_fun _ _ _ _ Hl Hl').
    + exists false. split; [done|]. split; [done|].
      intros (b' & t' & i' & rt' & l' & _ & ? & _). done.
  - exists false. split; [by destruct (get_type (classes st) type_name)|].
    split; [done|]. intros (b' & t' & i' & rt' & l' & ? & _). done.
Qed.

Lemma Inv_bind st x b i rt :
  Inv T st -> objects st !! inst b = Some i -> get_type T (cls i) = Some rt ->
  is_interface rt = false -> is_Some (get_type T (view_cls b)) ->
  Inv T (set_env st (<[x := b]> (env st))).
Proof.
  intros [I1 I2 I3 I4 I5] Hobj Hrt Hi Hv. split; simpl; try done.
  intros y b'. destruct (decide (y = x)) as [->|Hne].
  - rewrite lookup_insert_eq. intros [= <-]. eauto 10.
  - rewrite lookup_insert_ne by done. apply I2.
Qed.

Lemma Inv_allocate st i :
  Inv T st -> Inv T (set_objects st (objects st ++ [i])).
Proof.
  intros [I1 I2 I3 I4 I5]. split; simpl; try done.
  intros y b Hy. destruct (I2 _ _ Hy) as (i' & rt & Hobj & ?).
  exists i', rt. split; [|done]. rewrite lookup_app_l; [done|].
  by eapply lookup_lt_Some.
Qed.

Lemma Inv_heap st h : Inv T st -> Inv T (set_heap st h).
Proof. by apply Inv_fields. Qed.

(** Every statement that ends normally keeps the invariant. *)
Lemma exec_Inv st s st' :
  Inv T st -> _exec_statement s st = (Ok tt, st') -> Inv T st'.
Proof.
  intros I H. destruct s as [x c args|x src|x target src|x src|x f v|x m|x m|x t|x|];
    cbn [_exec_statement] in H.
  - (* new *)
    mbind H as a s1 H1. unfold _instantiate in H1.
    mbind H1 as st0 s2 H2. apply get_Ok in H2 as [-> ->].
    destruct (get_type (classes st) c) as [cd|] eqn:Hc; [|done].
    destruct (is_interface cd) eqn:Hi; [done|].
    destruct (negb _); [done|].
    mbind H1 as a' s3 H3. unfold allocate in H3. injection H3 as <- <-.
    mbind H1 as u s4 H4. apply modify_Ok in H4. apply ret_Ok in H1 as [-> ->].
    mbind H as i s5 H5. apply deref_object_Ok in H5 as [Hobj ->].
    unfold bind_name in H. apply modify_Ok in H. subst st' s4.
    simpl in Hobj. rewrite lookup_app_r, Nat.sub_diag in Hobj by done.
    injection Hobj as <-.
    destruct (proj2 (inv_agree _ _ I) _ _ Hc) as (cd0 & Hc0 & Hcc).
    destruct (cached_static _ _ Hcc) as (Hn & Hi' & _). rewrite Hi in Hi'.
    rewrite (get_type_name _ _ _ Hc0) in Hn.
    eapply (Inv_bind _ _ _ (mkInstance (name cd) args) cd0).
    + apply Inv_heap. by apply Inv_allocate.
    + simpl. by rewrite lookup_app_r, Nat.sub_diag.
    + simpl. by rewrite Hn.
    + done.
    + simpl. rewrite Hn. eauto.
  - (* clone *)
    mbind H as b s1 H1. unfold _get_binding in H1.
    mbind H1 as st0 s2 H2. apply get_Ok in H2 as [-> ->].
    destruct (env st !! src) as [b'|] eqn:Hsrc; [|done].
    apply ret_Ok in H1 as [-> ->].
    mbind H as a s3 H3. unfold _clone in H3.
    mbind H3 as i s4 H4. apply deref_object_Ok in H4 as [Hobj ->].
    mbind H3 as a' s5 H5. unfold allocate in H5. injection H5 as <- <-.
    mbind H3 as u s6 H6. apply modify_Ok in H6. apply ret_Ok in H3 as [-> ->].
    unfold bind_name in H. apply modify_Ok in H. subst st' s6.
    destruct (inv_env _ _ I _ _ Hsrc) as (i' & rt & Hobj' & Hrt & Hi & Hv).
    assert (i' = i) as -> by congruence.
    eapply (Inv_bind _ _ _ (mkInstance (cls i) (values i)) rt); try done.
    + apply Inv_heap. by apply Inv_allocate.
    + simpl. by rewrite lookup_app_r, Nat.sub_diag.
  - (* cast *)
    mbind H as b s1 H1. unfold _get_binding in H1.
    mbind H1 as st0 s2 H2. apply get_Ok in H2 as [-> ->].
    destruct (env st !! src) as [b'|] eqn:Hsrc; [|done].
    apply ret_Ok in H1 as [-> ->].
    mbind H as b2 s3 H3. unfold _cast_binding in H3.
    mbind H3 as st0 s4 H4. apply get_Ok in H4 as [-> ->].
    destruct (get_type (classes st) target) as [tg|] eqn:Htg; [|done].
    mbind H3 as i s5 H5. apply deref_object_Ok in H5 as [Hobj ->].
    mbind H3 as rt s6 H6. apply deref_class_Ok in H6 as [Hrt ->].
    unfold bind_name in H. apply modify_Ok in H. subst st'.
    destruct (inv_env _ _ I _ _ Hsrc) as (i' & rt0 & Hobj' & Hrt0 & Hi & Hv).
    assert (i' = i) as -> by congruence.
    destruct (proj2 (inv_agree _ _ I) _ _ Htg) as (tg0 & Htg0 & Hct).
    pose proof (get_type_name _ _ _ Htg) as Hn.
    assert (Hb2 : b2 = mkVarBinding (inst b') (name tg) /\ s3 = st).
    { destruct (is_interface tg).
      - mbind H3 as impl s7 H7. apply lift_Ok in H7 as [_ ->].
        destruct (negb impl); [done|]. by apply ret_Ok in H3 as [-> ->].
      - mbind H3 as sub s7 H7. apply lift_Ok in H7 as [_ ->].
        destruct (negb sub); [done|]. by apply ret_Ok in H3 as [-> ->]. }
    destruct Hb2 as [-> ->].
    eapply (Inv_bind _ _ _ i rt0); try done. simpl. rewrite Hn. eauto.
  - (* alias *)
    mbind H as b s1 H1. unfold _get_binding in H1.
    mbind H1 as st0 s2 H2. apply get_Ok in H2 as [-> ->].
    destruct (env st !! src) as [b'|] eqn:Hsrc; [|done].
    apply ret_Ok in H1 as [-> ->].
    unfold bind_name in H. apply modify_Ok in H. subst st'.
    destruct (inv_env _ _ I _ _ Hsrc) as (i & rt0 & Hobj & Hrt0 & Hi & Hv).
    by eapply (Inv_bind _ _ _ i rt0).
  - (* field assignment *)
    unfold _exec_field_assign in H.
    mbind H as b s1 H1. unfold _get_binding in H1.
    mbind H1 as st0 s2 H2. apply get_Ok in H2 as [-> ->].
    destruct (env st !! x) as [b'|] eqn:Hx; [|done].
    apply ret_Ok in H1 as [-> ->].
    mbind H as i s3 H3. apply deref_object_Ok in H3 as [Hobj ->].
    mbind H as c s4 H4. apply deref_class_Ok in H4 as [Hc ->].
    destruct (_field_index c !! f) as [idx|]; [|done].
    mbind H as vs s5 H5. apply lift_Ok in H5 as [_ ->].
    apply modify_Ok in H. subst st'.
    destruct I as [I1 I2 I3 I4 I5]. split; simpl; try done.
    intros y b2 Hy. destruct (I2 _ _ Hy) as (i' & rt & Hobj' & Hrt & Hi & Hv).
    destruct (decide (inst b2 = inst b')) as [E|Hne].
    + rewrite E in Hobj' |- *. assert (i' = i) as -> by congruence.
      exists (mkInstance (cls i) vs), rt. split; [|done].
      apply list_lookup_insert_eq. by eapply lookup_lt_Some.
    + exists i', rt. split; [|done]. by rewrite list_lookup_insert_ne.
  - (* call *)
    unfold _exec_call in H.
    mbind H as b s1 H1. unfold _get_binding in H1.
    mbind H1 as st0 s2 H2. apply get_Ok in H2 as [-> ->].
    destruct (env st !! x) as [b'|] eqn:Hx; [|done].
    apply ret_Ok in H1 as [-> ->].
    mbind H as plan s3 H3. apply (resolve_spec _ _ _ _ _ _ _ I Hx) in H3 as (I3 & _).
    mbind H as i s4 H4. apply deref_object_Ok in H4 as [_ ->].
    mbind H as vs s5 H5. apply lift_Ok in H5 as [_ ->].
    unfold print in H. apply modify_Ok in H. subst st'. by apply Inv_fields with s3.
  - (* vcall *)
    unfold _exec_call in H.
    mbind H as b s1 H1. unfold _get_binding in H1.
    mbind H1 as st0 s2 H2. apply get_Ok in H2 as [-> ->].
    destruct (env st !! x) as [b'|] eqn:Hx; [|done].
    apply ret_Ok in H1 as [-> ->].
    mbind H as plan s3 H3. apply (resolve_spec _ _ _ _ _ _ _ I Hx) in H3 as (I3 & _).
    mbind H as i s4 H4. apply deref_object_Ok in H4 as [_ ->].
    mbind H as vs s5 H5. apply lift_Ok in H5 as [_ ->].
    unfold print in H. apply modify_Ok in H. subst st'. by apply Inv_fields with s3.
  - (* is *)
    destruct (exec_is_spec st x t I) as (ans & Heq & _). rewrite Heq in H.
    injection H as <-. by apply Inv_fields with st.
  - (* free *)
    unfold _exec_free in H.
    mbind H as st0 s1 H1. apply get_Ok in H1 as [-> ->].
    destruct (env st !! x) as [b|]; [|done].
    apply modify_Ok in H. subst st'.
    destruct I as [I1 I2 I3 I4 I5]. split; simpl; try done.
    intros y b' Hy. apply lookup_delete_Some in Hy as [_ Hy]. by eapply I2.
  - (* gc *)
    mbind H as st0 s1 H1. apply get_Ok in H1 as [-> ->].
    destruct (enable_gc (cfg st)).
    + unfold _gc_collect in H.
      mbind H as st0 s2 H2. apply get_Ok in H2 as [-> ->].
      mbind H as u s3 H3. apply modify_Ok in H3. apply when_metrics_core in H.
      eapply Inv_core; [exact H|]. subst s3. by apply Inv_heap.
    + by apply ret_Ok in H as [_ ->].
Qed.
End resolution.

Lemma reachable_Inv T0 T st :
  declarations T0 -> _resolve_and_link T0 = Ok T -> reachable T st -> Inv T st.
Proof.
  intros (Hnd & HC & Hkeys) Hlink Hr.
  destruct (link_Linked_caches _ _ Hnd HC Hlink) as [L Hce].
  induction Hr as [config clk|st s st' Hr IH Hstep].
  - by apply Inv_new.
  - by eapply (exec_Inv T0 T L Hkeys).
Qed.

(** What a successful [call]/[vcall] statement does: it resolves a plan,
    evaluates it on the values of the bound object and prints the
    values. *)
Lemma exec_call_Ok x m dynamic st st' :
  _exec_call x m dynamic st = (Ok tt, st') ->
  exists b p s1 i vs,
    env st !! x = Some b /\ _resolve_call_plan b m dynamic st = (Ok p, s1) /\
    objects s1 !! inst b = Some i /\ run_plan (values i) p = Ok vs /\
    st' = set_stdout s1 (stdout s1 ++ [Line (join_values vs)]).
Proof.
  intros H. unfold _exec_call in H.
  mbind H as b s1 H1. unfold _get_binding in H1.
  mbind H1 as st0 s2 H2. apply get_Ok in H2 as [-> ->].
  destruct (env st !! x) as [b'|] eqn:Hx; [|done].
  apply ret_Ok in H1 as [-> ->].
  mbind H as plan s3 H3.
  mbind H as i s4 H4. apply deref_object_Ok in H4 as [Hobj ->].
  mbind H as vs s5 H5. apply lift_Ok in H5 as [Hrun ->].
  unfold print in H. apply modify_Ok in H.
  exists b', plan, s3, i, vs. done.
Qed.

(** C1. Take two runs over the same linked table, one with the vtable
    toggle enabled and one with it disabled, and in each a name bound
    through the same view type to an object of the same runtime type
    with the same field values.  If a [vcall] of the same method ends
    normally in both, both resolutions return the same plan and both
    statements print the same line of values. *)
Theorem dispatch_equivalence T0 T st1 st2 x1 x2 b1 b2 i1 i2 m st1' st2' :
  declarations T0 -> _resolve_and_link T0 = Ok T ->
  reachable T st1 -> reachable T st2 ->
  enable_vtable (cfg st1) = true -> enable_vtable (cfg st2) = false ->
  env st1 !! x1 = Some b1 -> env st2 !! x2 = Some b2 ->
  view_cls b1 = view_cls b2 ->
  objects st1 !! inst b1 = Some i1 -> objects st2 !! inst b2 = Some i2 ->
  cls i1 = cls i2 -> values i1 = values i2 ->
  _exec_statement (VCall x1 m) st1 = (Ok tt, st1') ->
  _exec_statement (VCall x2 m) st2 = (Ok tt, st2') ->
  exists p vs,
    (exists s1, _resolve_call_plan b1 m true st1 = (Ok p, s1)) /\
    (exists s2, _resolve_call_plan b2 m true st2 = (Ok p, s2)) /\
    run_plan (values i1) p = Ok vs /\
    stdout st1' = stdout st1 ++ [Line (join_values vs)] /\
    stdout st2' = stdout st2 ++ [Line (join_values vs)].
Proof.
  intros HD Hlink Hr1 Hr2 _ _ Hx1 Hx2 Hview Ho1 Ho2 Hcls Hvals H1 H2.
  pose proof (reachable_Inv _ _ _ HD Hlink Hr1) as I1.
  pose proof (reachable_Inv _ _ _ HD Hlink Hr2) as I2.
  destruct HD as (Hnd & HC & Hkeys).
  pose proof (link_Linked _ _ Hnd HC Hlink) as L.
  cbn [_exec_statement] in H1, H2.
  apply exec_call_Ok in H1 as (b1' & p1 & s1 & i1' & vs1 & Hb1 & Hres1 & Hobj1 & Hrun1 & ->).
  apply exec_call_Ok in H2 as (b2' & p2 & s2 & i2' & vs2 & Hb2 & Hres2 & Hobj2 & Hrun2 & ->).
  assert (b1' = b1) as -> by congruence. assert (b2' = b2) as -> by congruence.
  destruct (resolve_spec T0 T L Hkeys _ _ _ _ _ _ _ I1 Hx1 Hres1)
    as (_ & (_ & _ & Eo1 & Es1 & _) & Hd1).
  destruct (resolve_spec T0 T L Hkeys _ _ _ _ _ _ _ I2 Hx2 Hres2)
    as (_ & (_ & _ & Eo2 & Es2 & _) & Hd2).
  destruct (Hd1 eq_refl) as (j1 & Hj1 & Hp1).
  destruct (Hd2 eq_refl) as (j2 & Hj2 & Hp2).
  assert (j1 = i1) as -> by congruence. assert (j2 = i2) as -> by congruence.
  rewrite Eo1 in Hobj1. rewrite Eo2 in Hobj2.
  assert (i1' = i1) as -> by congruence. assert (i2' = i2) as -> by congruence.
  rewrite <- Hcls in Hp2. pose proof (dyn_plan_fun _ _ _ _ _ Hp1 Hp2) as <-.
  rewrite <- Hvals, Hrun1 in Hrun2. injection Hrun2 as <-.
  exists p1, vs1. simpl. rewrite Es1, Es2. eauto 10.
Qed.

(** ** The global plan cache *)

(** A successful resolution on the fallback path leaves the type table
    as it was and, with the cache enabled, leaves its plan in the cache
    under the key of the call. *)
Lemma resolve_fallback st b m dynamic p st1 :
  dynamic && enable_vtable (cfg st) = false ->
  _resolve_call_plan b m dynamic st = (Ok p, st1) ->
  exists i view rt vt,
    objects st !! inst b = Some i /\
    get_type (classes st) (view_cls b) = Some view /\
    get_type (classes st) (cls i) = Some rt /\
    lookup_method (classes st) view m = Ok (Some vt) /\
    classes st1 = classes st /\ frame st st1 /\
    (enable_cache (cfg st) = true ->
     _plan_cache st1 !! cache_key dynamic view rt m = Some p).
Proof.
  intros Hslow H. unfold _resolve_call_plan in H.
  mbind H as i s1 H1. apply deref_object_Ok in H1 as [Hi ->].
  mbind H as view s2 H2. apply deref_class_Ok in H2 as [Hview ->].
  mbind H as rt s3 H3. apply deref_class_Ok in H3 as [Hrt ->].
  mbind H as st0 s4 H4. apply get_Ok in H4 as [-> ->].
  mbind H as visible s5 H5. apply lift_Ok in H5 as [Hvis ->].
  destruct visible as [vt|]; [|done]. rewrite Hslow in H.
  exists i, view, rt, vt. do 4 (split; [done|]).
  destruct (enable_cache (cfg st)) eqn:Hcache.
  - destruct (_plan_cache st !! cache_key dynamic view rt m) as [plan|] eqn:Hhit.
    + mbind H as u s6 H6. apply when_metrics_core in H6.
      apply ret_Ok in H as [-> ->].
      pose proof (core_fields _ _ H6) as (Ecl & _ & _ & Epc & _).
      split; [done|]. split; [frame_solve|]. intros _. by rewrite Epc.
    + mbind H as u s6 H6. apply when_metrics_core in H6.
      mbind H as start s7 H7. apply start_timer_core in H7.
      mbind H as r s8 H8. apply lookup_tokens_core in H8.
      destruct r.1 as [tokens|]; [|done].
      mbind H as plan s9 H9. apply lift_Ok in H9 as [Hcomp ->].
      mbind H as u10 s10 H10. apply stop_timer_core in H10.
      mbind H as u11 s11 H11. apply modify_Ok in H11.
      apply ret_Ok in H as [-> ->].
      assert (Hc : core s10 = core st) by congruence.
      pose proof (core_fields _ _ Hc) as (Ecl & _).
      split; [by subst s11|]. split; [clear Hc; frame_solve|].
      intros _. subst s11. simpl. apply lookup_insert_eq.
  - mbind H as u s6 H6. apply when_metrics_core in H6.
    mbind H as start s7 H7. apply start_timer_core in H7.
    mbind H as r s8 H8. apply lookup_tokens_core in H8.
    destruct r.1 as [tokens|]; [|done].
    mbind H as plan s9 H9. apply lift_Ok in H9 as [Hcomp ->].
    mbind H as u10 s10 H10. apply stop_timer_core in H10.
    mbind H as u11 s11 H11. apply ret_Ok in H11 as [_ ->].
    apply ret_Ok in H as [-> ->].
    assert (Hc : core s10 = core st) by congruence.
    pose proof (core_fields _ _ Hc) as (Ecl & _).
    split; [done|]. split; [clear Hc; frame_solve | done].
Qed.

(** C4. With the plan cache enabled, after a successful resolution on
    the non-vtable path a second resolution under the same key (the same
    call kind, view type, runtime type and method name) returns the
    same plan; it only counts a cache hit when metrics are enabled, so
    the steps counter and the counters of the walk do not move. *)
Theorem cached_resolution_idempotent st b b' i i' m dynamic p st1 :
  enable_cache (cfg st) = true ->
  dynamic && enable_vtable (cfg st) = false ->
  _resolve_call_plan b m dynamic st = (Ok p, st1) ->
  objects st !! inst b = Some i -> objects st1 !! inst b' = Some i' ->
  view_cls b' = view_cls b -> cls i' = cls i ->
  exists st2,
    _resolve_call_plan b' m dynamic st1 = (Ok p, st2) /\
    st2 = (if enable_metrics (cfg st1)
           then set_metrics st1 (hit (metrics st1)) else st1) /\
    resolve_steps (metrics st2) = resolve_steps (metrics st1) /\
    class_jumps (metrics st2) = class_jumps (metrics st1) /\
    class_probes (metrics st2) = class_probes (metrics st1) /\
    resolve_calls (metrics st2) = resolve_calls (metrics st1).
Proof.
  intros Hcache Hslow H Hi Hi' Hview Hcls.
  destruct (resolve_fallback _ _ _ _ _ _ Hslow H)
    as (j & view & rt & vt & Hj & Hv & Hrt & Hvis & Ecl & (Ecfg & _) & Hpc).
  assert (j = i) as -> by congruence.
  specialize (Hpc Hcache).
  exists (if enable_metrics (cfg st1) then set_metrics st1 (hit (metrics st1)) else st1).
  split; [|by destruct (enable_metrics (cfg st1))].
  unfold _resolve_call_plan. munfold. rewrite Hi', Hview, Hcls, Ecl.
  unfold deref. rewrite Hv, Hrt. cbn [res_bind]. rewrite Hvis, Ecfg, Hslow, Hcache, Hpc.
  rewrite <- Ecfg. by destruct (enable_metrics (cfg st1)).
Qed.

(** ** Static calls through an interface view *)

Section static_interface.
Variables T0 T : list ClassDef.
Hypothesis L : Linked T0 T.
Hypothesis Hkeys : Forall (fun t => NoDup (dict_keys (methods t))) T0.

Lemma interface_chain st nv view :
  Inv T st -> get_type (classes st) nv = Some view -> is_interface view = true ->
  Chain (classes st) (Some nv) [view].
Proof.
  intros I Hv Hi. econstructor; [done|].
  rewrite (lk_base_name _ _ (Inv_Linked T0 T L _ I) _ _ Hv), Hi. constructor.
Qed.

Lemma lookup_tokens_static_interface st nv view nr rt m :
  Inv T st ->
  get_type (classes st) nv = Some view -> is_interface view = true ->
  get_type (classes st) nr = Some rt -> is_interface rt = false ->
  implements_interface (classes st) rt view = Ok true ->
  exists l, Chain (classes st) (Some nr) l /\
    lookup_tokens view rt m false st =
      match dict_get (methods view) m with
      | Some (tok :: toks) =>
          (Ok (Some (tok :: toks), 0),
           set_metrics st (walk_metrics [view] m (metrics st)))
      | _ =>
          (Ok (first_decl l m, walk_steps l m 0),
           set_metrics st (walk_metrics l m (walk_metrics [view] m (metrics st))))
      end.
Proof.
  intros I Hv Hiv Hr Hir Himpl.
  destruct (state_chain T0 T L _ _ _ I Hr Hir) as (l & Hl & Hlen & _).
  exists (rt :: l). split; [done|].
  pose proof (interface_chain _ _ _ I Hv Hiv) as Hlv.
  unfold lookup_tokens. cbn [negb]. rewrite Hiv.
  unfold bind at 1. unfold get. unfold bind at 1. unfold lift. rewrite Himpl.
  cbn [negb]. unfold bind.
  rewrite (get_type_name _ _ _ Hv), (get_type_name _ _ _ Hr).
  assert (Hlenv : length [view] <= length (classes st)).
  { simpl in *. lia. }
  rewrite (lookup_with_steps_chain [view] nv m st Hlv Hlenv).
  cbn [fst snd]. rewrite first_decl_cons. unfold first_decl at 1. simpl find.
  set (st1 := set_metrics st (walk_metrics [view] m (metrics st))).
  assert (Hl1 : Chain (classes st1) (Some nr) (rt :: l)) by done.
  assert (Hlen1 : length (rt :: l) <= length (classes st1)) by done.
  pose proof (lookup_with_steps_chain (rt :: l) nr m st1 Hl1 Hlen1) as Hw.
  assert (Est : set_metrics st1 (walk_metrics (rt :: l) m (metrics st1)) =
    set_metrics st (walk_metrics (rt :: l) m (walk_metrics [view] m (metrics st))))
    by done.
  rewrite Est in Hw.
  destruct (dict_get (methods view) m) as [[|tok toks]|] eqn:Hd.
  - exact Hw.
  - unfold ret. f_equal. f_equal. f_equal. simpl. unfold dict_mem. by rewrite Hd.
  - exact Hw.
Qed.
End static_interface.

(** C6. On a static call through an interface view (the runtime class
    implementing the interface), the fallback takes the interface's own
    tokens for the method when they are a non-empty sequence, and
    otherwise (no entry for the method, or an empty sequence) the tokens
    of the first declaration found walking the base chain from the
    runtime class.  On a cache miss the plan returned by the resolution
    is compiled from those tokens against the runtime class. *)
Theorem static_interface_tokens T0 T st x b i view rt m :
  declarations T0 -> _resolve_and_link T0 = Ok T -> reachable T st ->
  env st !! x = Some b -> objects st !! inst b = Some i ->
  get_type (classes st) (view_cls b) = Some view -> is_interface view = true ->
  get_type (classes st) (cls i) = Some rt ->
  implements_interface (classes st) rt view = Ok true ->
  exists l, Chain (classes st) (Some (cls i)) l /\
    lookup_tokens view rt m false st =
      match dict_get (methods view) m with
      | Some (tok :: toks) =>
          (Ok (Some (tok :: toks), 0),
           set_metrics st (walk_metrics [view] m (metrics st)))
      | _ =>
          (Ok (first_decl l m, walk_steps l m 0),
           set_metrics st (walk_metrics l m (walk_metrics [view] m (metrics st))))
      end /\
    forall p st',
      (if enable_cache (cfg st)
       then _plan_cache st !! cache_key false view rt m else None) = None ->
      _resolve_call_plan b m false st = (Ok p, st') ->
      exists toks,
        match dict_get (methods view) m with
        | Some (tok :: toks') => toks = tok :: toks'
        | _ => first_decl l m = Some toks
        end /\
        _compile_plan rt m toks = Ok p.
Proof.
  intros HD Hlink Hr Hx Hobj Hv Hiv Hrt Himpl.
  pose proof (reachable_Inv _ _ _ HD Hlink Hr) as I.
  destruct HD as (Hnd & HC & Hkeys).
  pose proof (link_Linked _ _ Hnd HC Hlink) as L.
  assert (Hir : is_interface rt = false).
  { destruct (binding_class T0 T L _ _ _ I Hx) as (i' & rt' & l' & Hobj' & Hrt' & Hi' & _).
    congruence. }
  destruct (lookup_tokens_static_interface T0 T L st _ view _ rt m I Hv Hiv Hrt Hir Himpl)
    as (l & Hl & Heq).
  exists l. split; [done|]. split; [exact Heq|].
  intros p st' Hmiss H. unfold _resolve_call_plan in H.
  mbind H as i1 s1 H1. apply deref_object_Ok in H1 as [Hi1 ->].
  assert (i1 = i) as -> by congruence.
  mbind H as view1 s2 H2. apply deref_class_Ok in H2 as [Hview1 ->].
  assert (view1 = view) as -> by congruence.
  mbind H as rt1 s3 H3. apply deref_class_Ok in H3 as [Hrt1 ->].
  assert (rt1 = rt) as -> by congruence.
  mbind H as st0 s4 H4. apply get_Ok in H4 as [-> ->].
  mbind H as visible s5 H5. apply lift_Ok in H5 as [Hvis ->].
  destruct visible as [vt|]; [|done]. cbn [andb] in H. rewrite Hmiss in H.
  mbind H as u s6 H6. apply when_metrics_core in H6.
  mbind H as start s7 H7. apply start_timer_core in H7.
  assert (Hc7 : core s7 = core st) by congruence.
  pose proof (core_fields _ _ Hc7) as (Ecl7 & _).
  pose proof (Inv_core _ _ _ Hc7 I) as I7.
  mbind H as r s8 H8.
  rewrite <- Ecl7 in Hv, Hrt, Himpl.
  destruct (lookup_tokens_static_interface T0 T L s7 (view_cls b) view (cls i) rt m
              I7 Hv Hiv Hrt Hir Himpl) as (l7 & Hl7 & Heq7).
  rewrite Ecl7 in Hl7. rewrite (Chain_fun _ _ _ _ Hl7 Hl) in Heq7.
  rewrite Heq7 in H8.
  destruct r.1 as [tokens|] eqn:Hr1; [|done].
  mbind H as plan s9 H9. apply lift_Ok in H9 as [Hcomp ->].
  mbind H as u10 s10 H10. mbind H as u11 s11 H11. apply ret_Ok in H as [-> _].
  exists tokens. split; [|done].
  destruct (dict_get (methods view) m) as [[|tok toks]|];
    injection H8 as <- _; simpl in Hr1; congruence.
Qed.

(** ** Runs of the example *)

Lemma reachable_exec T stmts : forall st st',
  reachable T st -> exec_statements stmts st = (Ok tt, st') -> reachable T st'.
Proof.
  induction stmts as [|s stmts IH]; intros st st' Hr H; simpl in H.
  - apply ret_Ok in H as [_ ->]. exact Hr.
  - mbind H as u s1 H1. destruct u. eapply IH; [|exact H].
    eapply reachable_step; [exact Hr | exact H1].
Defined.

Module Runs.
Definition clk (n : nat) : Z := Z.of_nat n.

(** The state after a program, started on the linked example. *)
Definition after (config : Config) (prog : list Stmt) : Interpreter :=
  (exec_statements prog (new_Interpreter Linked_example.T config clk)).2.

Lemma after_reachable config prog :
  (exec_statements prog (new_Interpreter Linked_example.T config clk)).1 = Ok tt ->
  reachable Linked_example.T (after config prog).
Proof.
  intros H. apply (reachable_exec Linked_example.T prog
                     (new_Interpreter Linked_example.T config clk));
    [apply reachable_new|].
  unfold after. revert H.
  generalize (exec_statements prog (new_Interpreter Linked_example.T config clk)).
  intros [r st] H. cbn [fst snd] in *. subst r. reflexivity.
Defined.

Definition prog : list Stmt :=
  [LetNew "c" "C" [1; 2; 3]%Z; LetCast "a" "A" "c"; LetCast "i" "I" "c"].

(** vtable enabled / disabled, metrics and collection enabled. *)
Definition fast : Config := mkConfig true true true true.
Definition slow : Config := mkConfig true true false true.
End Runs.

Lemma dispatch_equivalence_witness :
  exists p vs,
    (exists s1, _resolve_call_plan (mkVarBinding 0 "A") "get" true
                  (Runs.after Runs.fast Runs.prog) = (Ok p, s1)) /\
    (exists s2, _resolve_call_plan (mkVarBinding 0 "A") "get" true
                  (Runs.after Runs.slow Runs.prog) = (Ok p, s2)) /\
    run_plan [1; 2; 3]%Z p = Ok vs /\
    stdout (Runs.after Runs.fast (Runs.prog ++ [VCall "a" "get"])) =
      stdout (Runs.after Runs.fast Runs.prog) ++ [Line (join_values vs)] /\
    stdout (Runs.after Runs.slow (Runs.prog ++ [VCall "a" "get"])) =
      stdout (Runs.after Runs.slow Runs.prog) ++ [Line (join_values vs)].
Proof.
  apply (dispatch_equivalence Examples.table Linked_example.T
           (Runs.after Runs.fast Runs.prog) (Runs.after Runs.slow Runs.prog)
           "a" "a" (mkVarBinding 0 "A") (mkVarBinding 0 "A")
           (mkInstance "C" [1; 2; 3]%Z) (mkInstance "C" [1; 2; 3]%Z) "get").
  - exact Linked_example.table_declarations.
  - exact Linked_example.table_links.
  - apply Runs.after_reachable. vm_compute. reflexivity.
  - apply Runs.after_reachable. vm_compute. reflexivity.
  - vm_compute. reflexivity.
  - vm_compute. reflexivity.
  - vm_compute. reflexivity.
  - vm_compute. reflexivity.
  - vm_compute. reflexivity.
  - vm_compute. reflexivity.
  - vm_compute. reflexivity.
  - vm_compute. reflexivity.
  - vm_compute. reflexivity.
  - vm_compute. reflexivity.
  - vm_compute. reflexivity.
Defined.

Lemma slot_stability_witness :
  (exists s,
     dict_get (method_slot (Linked_example.class_of "A")) "show" = Some s /\
     dict_get (method_slot (Linked_example.class_of "B")) "show" = Some s /\
     vtable_tokens (Linked_example.class_of "B") !! s = Some ["y"; "x"]) /\
  (exists s,
     dict_get (method_slot (Linked_example.class_of "B")) "extra" = Some s /\
     s < length (vtable_tokens (Linked_example.class_of "B")) /\
     vtable_tokens (Linked_example.class_of "B") !! s = Some ["y"] /\
     length (vtable_tokens (Linked_example.class_of "A")) <= s).
Proof.
  destruct (slot_stability Examples.table Linked_example.T "B"
              (Linked_example.class_of "B")
              Linked_example.table_declarations Linked_example.table_links
              eq_refl eq_refl) as [Hover Hnew].
  split.
  - destruct (Hover "A" (Linked_example.class_of "A") "show")
      as (s & HA & HB & Htok).
    + vm_compute. reflexivity.
    + vm_compute. reflexivity.
    + vm_compute. reflexivity.
    + exists s. split; [exact HA|]. split; [exact HB|].
      apply Htok. vm_compute. reflexivity.
  - destruct (Hnew "extra" ["y"]) as (s & Hs & Hlt & Htok & Hfresh).
    + vm_compute. reflexivity.
    + intros b bt Hb Hbt. vm_compute in Hb. injection Hb as <-.
      vm_compute in Hbt. injection Hbt as <-. vm_compute. reflexivity.
    + exists s. split; [exact Hs|]. split; [exact Hlt|]. split; [exact Htok|].
      apply (Hfresh "A" (Linked_example.class_of "A")).
      * vm_compute. reflexivity.
      * vm_compute. reflexivity.
Defined.

Lemma vtable_slot_in_range_witness :
  (exists slot,
     dict_get (method_slot (Linked_example.class_of "A")) "get" = Some slot /\
     slot < length (vtable_tokens (Linked_example.class_of "C")) /\
     slot < length (_vtable_plans (Linked_example.class_of "C"))) /\
  (dict_get (method_slot (Linked_example.class_of "A")) "extra" = None <->
   lookup_method Linked_example.T (Linked_example.class_of "A") "extra" = Ok None).
Proof.
  destruct (vtable_slot_in_range Examples.table Linked_example.T
              "A" (Linked_example.class_of "A")
              "C" (Linked_example.class_of "C") "get" ["x"] true
              Linked_example.table_declarations Linked_example.table_links)
    as [Hslot Hnone].
  - vm_compute. reflexivity.
  - vm_compute. reflexivity.
  - vm_compute. reflexivity.
  - vm_compute. reflexivity.
  - vm_compute. reflexivity.
  - vm_compute. reflexivity.
  - split; [exact Hslot | apply Hnone].
Defined.

Lemma wrong_arity_fails_witness :
  _instantiate "B" [1; 2; 3]%Z
    (new_Interpreter Linked_example.T default_Config Runs.clk) =
    (Err (ArityError "B" 2 3),
     new_Interpreter Linked_example.T default_Config Runs.clk) /\
  _exec_statement (LetNew "b" "B" [1; 2; 3]%Z)
    (new_Interpreter Linked_example.T default_Config Runs.clk) =
    (Err (ArityError "B" 2 3),
     new_Interpreter Linked_example.T default_Config Runs.clk).
Proof.
  apply (wrong_arity_fails
           (new_Interpreter Linked_example.T default_Config Runs.clk)
           "b" "B" [1; 2; 3]%Z (Linked_example.class_of "B")).
  - vm_compute. reflexivity.
  - vm_compute. reflexivity.
  - vm_compute. discriminate.
Defined.

Module Cached_run.
(** The first dynamic resolution of [get] through [a], fallback path. *)
Definition b : VarBinding := mkVarBinding 0 "A".
Definition first : Res MethodPlan * Interpreter :=
  _resolve_call_plan b "get" true (Runs.after Runs.slow Runs.prog).
Definition plan : MethodPlan :=
  match first.1 with Ok p => p | Err _ => [] end.
End Cached_run.

Lemma cached_resolution_idempotent_witness :
  exists st2,
    _resolve_call_plan Cached_run.b "get" true Cached_run.first.2 =
      (Ok Cached_run.plan, st2) /\
    st2 = (if enable_metrics (cfg Cached_run.first.2)
           then set_metrics Cached_run.first.2 (hit (metrics Cached_run.first.2))
           else Cached_run.first.2) /\
    resolve_steps (metrics st2) = resolve_steps (metrics Cached_run.first.2) /\
    class_jumps (metrics st2) = class_jumps (metrics Cached_run.first.2) /\
    class_probes (metrics st2) = class_probes (metrics Cached_run.first.2) /\
    resolve_calls (metrics st2) = resolve_calls (metrics Cached_run.first.2).
Proof.
  apply (cached_resolution_idempotent (Runs.after Runs.slow Runs.prog)
           Cached_run.b Cached_run.b
           (mkInstance "C" [1; 2; 3]%Z) (mkInstance "C" [1; 2; 3]%Z)
           "get" true Cached_run.plan Cached_run.first.2).
  - vm_compute. reflexivity.
  - vm_compute. reflexivity.
  - vm_compute. reflexivity.
  - vm_compute. reflexivity.
  - vm_compute. reflexivity.
  - reflexivity.
  - reflexivity.
Defined.

Lemma static_interface_tokens_witness :
  exists l,
    Chain (classes (Runs.after Runs.slow Runs.prog)) (Some "C") l /\
    lookup_tokens (Linked_example.class_of "I") (Linked_example.class_of "C")
      "show" false (Runs.after Runs.slow Runs.prog) =
      (Ok (first_decl l "show", walk_steps l "show" 0),
       set_metrics (Runs.after Runs.slow Runs.prog)
         (walk_metrics l "show"
            (walk_metrics [Linked_example.class_of "I"] "show"
               (metrics (Runs.after Runs.slow Runs.prog))))) /\
    forall p st',
      _resolve_call_plan (mkVarBinding 0 "I") "show" false
        (Runs.after Runs.slow Runs.prog) = (Ok p, st') ->
      exists toks,
        first_decl l "show" = Some toks /\
        _compile_plan (Linked_example.class_of "C") "show" toks = Ok p.
Proof.
  destruct (static_interface_tokens Examples.table Linked_example.T
              (Runs.after Runs.slow Runs.prog) "i" (mkVarBinding 0 "I")
              (mkInstance "C" [1; 2; 3]%Z)
              (Linked_example.class_of "I") (Linked_example.class_of "C") "show")
    as (l & Hl & Htok & Hplan).
  - exact Linked_example.table_declarations.
  - exact Linked_example.table_links.
  - apply Runs.after_reachable. vm_compute. reflexivity.
  - vm_compute. reflexivity.
  - vm_compute. reflexivity.
  - vm_compute. reflexivity.
  - vm_compute. reflexivity.
  - vm_compute. reflexivity.
  - vm_compute. reflexivity.
  - exists l. split; [exact Hl|]. split; [exact Htok|].
    intros p st' Hres. apply (Hplan p st'); [vm_compute; reflexivity | exact Hres].
Defined.

Module Gc_run.
(** Two objects, each held by one name; metrics and collection enabled. *)
Definition prog : list Stmt := [LetNew "x" "A" [1]%Z; LetNew "y" "A" [2]%Z].
Definition st : Interpreter := Runs.after Runs.fast prog.
Definition bx : VarBinding := mkVarBinding 0 "A".
Definition by_ : VarBinding := mkVarBinding 1 "A".

(** One object, metrics disabled, collection enabled. *)
Definition quiet : Config := mkConfig false true true true.
Definition st_quiet : Interpreter := Runs.after quiet [LetNew "x" "A" [1]%Z].
End Gc_run.

Lemma gc_after_free_witness :
  exists st',
    exec_statements [Free "x"; Gc] Gc_run.st = (Ok tt, st') /\
    (inst Gc_run.bx ∉ heap st') /\
    gc_collected (metrics st') = gc_collected (metrics Gc_run.st) + 1.
Proof.
  assert (E : env Gc_run.st = <["y" := Gc_run.by_]> (<["x" := Gc_run.bx]> ∅))
    by (vm_compute; reflexivity).
  destruct (gc_after_free Gc_run.st "x" Gc_run.bx)
    as (st' & Hrun & _ & _ & _ & Hgone & _ & Hone).
  - vm_compute. reflexivity.
  - vm_compute. reflexivity.
  - intros y b' Hne Hy. rewrite E in Hy.
    apply lookup_insert_Some in Hy as [[_ <-]|[_ Hy]]; [vm_compute; discriminate|].
    apply lookup_insert_Some in Hy as [[<- _]|[_ Hy]]; [done|].
    rewrite lookup_empty in Hy. discriminate.
  - exists st'. split; [exact Hrun|]. split; [exact Hgone|].
    apply Hone.
    + vm_compute. reflexivity.
    + apply (bool_decide_unpack _). vm_compute. exact I.
    + apply (bool_decide_unpack _). vm_compute. exact I.
    + intros a Ha Hne.
      assert (Eh : heap Gc_run.st = [0; 1]) by (vm_compute; reflexivity).
      rewrite Eh in Ha. apply list_elem_of_In in Ha.
      destruct Ha as [<-|[<-|[]]]; [done|].
      exists "y", Gc_run.by_. split; [done|]. split; [|reflexivity].
      vm_compute. reflexivity.
Defined.

(** C5, as stated: collection is enabled and the only handle is freed, but
    with metrics disabled the counter stays where it was. *)
Lemma gc_counter_needs_metrics :
  enable_gc (cfg Gc_run.st_quiet) = true /\
  env Gc_run.st_quiet = {[ "x" := Gc_run.bx ]} /\
  heap Gc_run.st_quiet = [0] /\
  exists st',
    exec_statements [Free "x"; Gc] Gc_run.st_quiet = (Ok tt, st') /\
    heap st' = [] /\
    gc_collected (metrics st') = gc_collected (metrics Gc_run.st_quiet) /\
    gc_collected (metrics st') <> gc_collected (metrics Gc_run.st_quiet) + 1.
Proof.
  split; [vm_compute; reflexivity|].
  split; [vm_compute; reflexivity|].
  split; [vm_compute; reflexivity|].
  eexists. split; [vm_compute; reflexivity|].
  split; [vm_compute; reflexivity|].
  split; [vm_compute; reflexivity|].
  vm_compute. discriminate.
Qed.
(** * Further properties of the linked table *)

(** ** The subclass order *)

Lemma Chain_split T c l t :
  Chain T c l -> t ∈ l ->
  exists l1 l2, l = l1 ++ t :: l2 /\ Chain T (Some (name t)) (t :: l2).
Proof.
  intros H. induction H as [|h t' l Hg Hc IH]; intros Hin.
  - by apply elem_of_nil in Hin.
  - apply elem_of_cons in Hin as [->|Hin].
    + exists [], l. split; [done|].
      rewrite (get_type_name _ _ _ Hg). by econstructor.
    + destruct (IH Hin) as (l1 & l2 & -> & Hc2).
      exists (t' :: l1), l2. done.
Qed.

Section order.
Variables T0 T : list ClassDef.
Hypothesis L : Linked T0 T.

(** A positive answer of [is_subclass_of] puts the other class on the
    base chain. *)
Lemma subclass_on_chain na a nb b :
  get_type T na = Some a -> get_type T nb = Some b ->
  is_subclass_of T a b = Ok true ->
  is_interface a = false /\ is_interface b = false /\
  exists la, Chain T (Some na) (a :: la) /\ length (a :: la) <= length T /\ b ∈ a :: la.
Proof.
  intros Ha Hb H.
  destruct (is_interface a) eqn:Hia; [by unfold is_subclass_of in H; rewrite Hia in H|].
  destruct (class_chain T0 T L na a Ha Hia) as (la & Hl & _ & Hlen & _).
  rewrite (is_subclass_of_spec T na a (a :: la) b Ha Hia Hl Hlen) in H.
  injection H as H. apply andb_true_iff in H as [Hib Hin].
  apply negb_true_iff in Hib. apply bool_decide_eq_true_1 in Hin.
  split; [done|]. split; [done|]. exists la. split; [done|]. split; [done|].
  by eapply (name_in_chain T).
Qed.

Lemma on_chain_subclass na a la b :
  get_type T na = Some a -> is_interface a = false ->
  Chain T (Some na) (a :: la) -> length (a :: la) <= length T ->
  b ∈ a :: la -> is_interface b = false ->
  is_subclass_of T a b = Ok true.
Proof.
  intros Ha Hia Hl Hlen Hin Hib.
  rewrite (is_subclass_of_spec T na a (a :: la) b Ha Hia Hl Hlen), Hib.
  cbn [negb andb]. f_equal. apply bool_decide_eq_true_2.
  apply list_elem_of_fmap. eauto.
Qed.

Lemma subclass_total na a nb b :
  get_type T na = Some a -> get_type T nb = Some b ->
  exists r, is_subclass_of T a b = Ok r.
Proof.
  intros Ha Hb. destruct (is_interface a) eqn:Hia.
  - exists false. unfold is_subclass_of. by rewrite Hia.
  - destruct (class_chain T0 T L na a Ha Hia) as (la & Hl & _ & Hlen & _).
    rewrite (is_subclass_of_spec T na a (a :: la) b Ha Hia Hl Hlen). eauto.
Qed.

Lemma subclass_refl na a :
  get_type T na = Some a -> is_interface a = false -> is_subclass_of T a a = Ok true.
Proof.
  intros Ha Hia.
  destruct (class_chain T0 T L na a Ha Hia) as (la & Hl & _ & Hlen & _).
  eapply on_chain_subclass; try done. apply list_elem_of_here.
Qed.

Lemma subclass_trans na a nb b nc c :
  get_type T na = Some a -> get_type T nb = Some b -> get_type T nc = Some c ->
  is_subclass_of T a b = Ok true -> is_subclass_of T b c = Ok true ->
  is_subclass_of T a c = Ok true.
Proof.
  intros Ha Hb Hc Hab Hbc.
  destruct (subclass_on_chain _ _ _ _ Ha Hb Hab) as (Hia & _ & la & Hla & Hlen & Hin).
  destruct (subclass_on_chain _ _ _ _ Hb Hc Hbc) as (_ & Hic & lb & Hlb & _ & Hin').
  destruct (Chain_split _ _ _ _ Hla Hin) as (l1 & l2 & E & Hb2).
  rewrite <- (get_type_name _ _ _ Hb) in Hlb.
  rewrite (Chain_fun _ _ _ _ Hlb Hb2) in Hin'.
  eapply on_chain_subclass; try done. rewrite E.
  apply elem_of_app. by right.
Qed.

Lemma subclass_antisym na a nb b :
  get_type T na = Some a -> get_type T nb = Some b ->
  is_subclass_of T a b = Ok true -> is_subclass_of T b a = Ok true -> a = b.
Proof.
  intros Ha Hb Hab Hba.
  destruct (subclass_on_chain _ _ _ _ Ha Hb Hab) as (_ & _ & la & Hla & _ & Hin).
  destruct (subclass_on_chain _ _ _ _ Hb Ha Hba) as (_ & _ & lb & Hlb & _ & Hin').
  destruct (Chain_split _ _ _ _ Hla Hin) as (l1 & l2 & E & Hb2).
  destruct (Chain_split _ _ _ _ Hlb Hin') as (l3 & l4 & E' & Ha2).
  rewrite <- (get_type_name _ _ _ Hb) in Hlb.
  rewrite <- (get_type_name _ _ _ Ha) in Hla.
  pose proof (Chain_fun _ _ _ _ Hlb Hb2) as E1.
  pose proof (Chain_fun _ _ _ _ Hla Ha2) as E2.
  assert (length l1 = 0).
  { apply (f_equal length) in E, E', E1, E2.
    rewrite ?length_app in *. simpl in *. lia. }
  destruct l1; [|done]. simpl in E. by injection E.
Qed.
End order.

(** On a linked table [is_subclass_of] always returns, and it is a
    partial order on the classes: reflexive, transitive and
    antisymmetric; it never relates an interface. *)
Theorem subclass_order T0 T na a nb b nc c :
  declarations T0 -> _resolve_and_link T0 = Ok T ->
  get_type T na = Some a -> get_type T nb = Some b -> get_type T nc = Some c ->
  (exists r, is_subclass_of T a b = Ok r) /\
  (is_subclass_of T a a = Ok (negb (is_interface a))) /\
  (is_subclass_of T a b = Ok true -> is_subclass_of T b c = Ok true ->
   is_subclass_of T a c = Ok true) /\
  (is_subclass_of T a b = Ok true -> is_subclass_of T b a = Ok true -> a = b) /\
  (is_subclass_of T a b = Ok true -> is_interface a = false /\ is_interface b = false).
Proof.
  intros (Hnd & HC & _) Hlink Ha Hb Hc.
  pose proof (link_Linked _ _ Hnd HC Hlink) as L.
  split; [by eapply subclass_total|].
  split.
  { destruct (is_interface a) eqn:Hia.
    - unfold is_subclass_of. by rewrite Hia.
    - by eapply subclass_refl. }
  split; [intros; by eapply (subclass_trans T0 T L na a nb b nc c)|].
  split; [intros; by eapply (subclass_antisym T0 T L na a nb b)|].
  intros H. destruct (subclass_on_chain T0 T L _ _ _ _ Ha Hb H) as (? & ? & _). done.
Qed.

Lemma subclass_order_witness :
  is_subclass_of Linked_example.T (Linked_example.class_of "C")
    (Linked_example.class_of "A") = Ok true /\
  is_subclass_of Linked_example.T (Linked_example.class_of "A")
    (Linked_example.class_of "C") <> Ok true.
Proof.
  destruct (subclass_order Examples.table Linked_example.T
              "C" (Linked_example.class_of "C")
              "B" (Linked_example.class_of "B")
              "A" (Linked_example.class_of "A")
              Linked_example.table_declarations Linked_example.table_links
              eq_refl eq_refl eq_refl) as (_ & _ & Htrans & _ & _).
  split.
  - apply Htrans; vm_compute; reflexivity.
  - vm_compute. discriminate.
Defined.

(** ** Interfaces and methods along the subclass order *)

Section inherited.
Variables T0 T : list ClassDef.
Hypothesis L : Linked T0 T.

Lemma implements_chain n c l i :
  get_type T n = Some c -> is_interface c = false ->
  Chain T (Some n) l -> length l <= length T ->
  implements_interface T c i =
  Ok (is_interface i && bool_decide (name i ∈ concat (map interfaces l))).
Proof.
  intros Hg Hi Hl Hlen. unfold implements_interface, all_interfaces.
  destruct (is_interface i); [|done]. cbn [negb andb]. rewrite Hi.
  rewrite (get_type_name _ _ _ Hg).
  rewrite (all_interfaces_loop_chain T l) by (done || unfold chain_fuel; lia).
  done.
Qed.

Lemma implements_iff nd d i :
  get_type T nd = Some d -> is_interface d = false ->
  implements_interface T d i = Ok true <->
  is_interface i = true /\
  exists na a, get_type T na = Some a /\ is_subclass_of T d a = Ok true /\
    name i ∈ interfaces_names a.
Proof.
  intros Hd Hid.
  destruct (class_chain T0 T L nd d Hd Hid) as (l & Hl & _ & Hlen & HF).
  rewrite (implements_chain nd d (d :: l) i Hd Hid Hl Hlen).
  split.
  - intros [= H]. apply andb_true_iff in H as [Hi Hin]. split; [done|].
    apply bool_decide_eq_true_1 in Hin.
    apply list_elem_of_In in Hin.
    change (In (name i) (concat (map interfaces (d :: l)))) in Hin.
    apply in_concat in Hin as (ifs & His & Hin).
    apply in_map_iff in His as (a & <- & Ha).
    apply list_elem_of_In in Ha, Hin.
    pose proof (proj1 (Forall_forall _ _) HF a Ha) as [Hia Hga].
    exists (name a), a. split; [done|].
    split; [by eapply (on_chain_subclass T nd d l a)|].
    by rewrite <- (proj1 (lk_interfaces _ _ L _ _ Hga Hia)).
  - intros (Hi & na & a & Ha & Hsub & Hin). rewrite Hi. cbn [andb]. f_equal.
    destruct (subclass_on_chain T0 T L _ _ _ _ Hd Ha Hsub)
      as (_ & Hia & l' & Hl' & _ & Hal).
    rewrite (Chain_fun _ _ _ _ Hl' Hl) in Hal.
    apply bool_decide_eq_true_2. apply list_elem_of_In, in_concat.
    exists (interfaces a). split.
    + apply in_map_iff. exists a. split; [done|]. by apply list_elem_of_In.
    + apply list_elem_of_In.
      by rewrite (proj1 (lk_interfaces _ _ L _ _ Ha Hia)).
Qed.

Lemma lookup_method_own n d m toks :
  get_type T n = Some d -> is_interface d = false ->
  dict_get (methods d) m = Some toks -> lookup_method T d m = Ok (Some toks).
Proof.
  intros Hd Hid Hm.
  destruct (class_chain T0 T L n d Hd Hid) as (l & Hl & _ & Hlen & _).
  rewrite (lookup_method_class T0 T n d (d :: l) m L Hd Hid Hl Hlen).
  by rewrite first_decl_cons, Hm.
Qed.

Lemma lookup_method_base n d m :
  get_type T n = Some d -> is_interface d = false ->
  dict_get (methods d) m = None ->
  lookup_method T d m =
  match base d with
  | None => Ok None
  | Some nb => match get_type T nb with
               | Some b => lookup_method T b m
               | None => Err Dangling
               end
  end.
Proof.
  intros Hd Hid Hm.
  destruct (class_chain T0 T L n d Hd Hid) as (l & Hl & Hbl & Hlen & _).
  rewrite (lookup_method_class T0 T n d (d :: l) m L Hd Hid Hl Hlen).
  rewrite first_decl_cons, Hm.
  destruct (base d) as [nb|] eqn:Hb.
  - destruct (lk_base _ _ L n d nb Hd Hb) as (b & Hgb & Hib). rewrite Hgb.
    symmetry. apply (lookup_method_class T0 T nb b l m L Hgb Hib Hbl).
    simpl in Hlen. lia.
  - inversion Hbl. done.
Qed.

Lemma lookup_method_down nd d nb b m toks :
  get_type T nd = Some d -> get_type T nb = Some b ->
  is_subclass_of T d b = Ok true ->
  lookup_method T b m = Ok (Some toks) ->
  exists toks', lookup_method T d m = Ok (Some toks').
Proof.
  intros Hd Hb Hsub Hm.
  destruct (subclass_on_chain T0 T L _ _ _ _ Hd Hb Hsub)
    as (Hid & Hib & l & Hl & Hlen & Hin).
  destruct (Chain_split _ _ _ _ Hl Hin) as (l1 & l2 & E & Hb2).
  rewrite (get_type_name _ _ _ Hb) in Hb2.
  assert (Hlen2 : length (b :: l2) <= length T).
  { apply (f_equal length) in E. rewrite length_app in E. simpl in *. lia. }
  rewrite (lookup_method_class T0 T nb b (b :: l2) m L Hb Hib Hb2 Hlen2) in Hm.
  injection Hm as Hm.
  rewrite (lookup_method_class T0 T nd d (d :: l) m L Hd Hid Hl Hlen).
  destruct (first_decl (d :: l) m) as [toks'|] eqn:Hf; [eauto|].
  exfalso. apply first_decl_Some in Hm as (t & Ht & Hgt).
  rewrite first_decl_None in Hf. rewrite (Hf t) in Hgt; [done|].
  rewrite E. apply elem_of_app. by right.
Qed.
End inherited.

(** A class implements an interface exactly when it, or one of its
    ancestors, lists the interface; so a subclass implements every
    interface its base implements. *)
Theorem implements_declared T0 T nd d ni i :
  declarations T0 -> _resolve_and_link T0 = Ok T ->
  get_type T nd = Some d -> is_interface d = false -> get_type T ni = Some i ->
  (implements_interface T d i = Ok true <->
   is_interface i = true /\
   exists na a, get_type T na = Some a /\ is_subclass_of T d a = Ok true /\
     name i ∈ interfaces_names a) /\
  (forall nb b, get_type T nb = Some b -> is_subclass_of T d b = Ok true ->
     implements_interface T b i = Ok true -> implements_interface T d i = Ok true).
Proof.
  intros (Hnd & HC & _) Hlink Hd Hid Hi.
  pose proof (link_Linked _ _ Hnd HC Hlink) as L.
  split; [by apply (implements_iff T0 T L nd)|].
  intros nb b Hb Hsub Himpl.
  destruct (subclass_on_chain T0 T L _ _ _ _ Hd Hb Hsub) as (_ & Hib & _).
  apply (implements_iff T0 T L nb b i Hb Hib) in Himpl as (Hii & na & a & Ha & Hba & Hin).
  apply (implements_iff T0 T L nd d i Hd Hid). split; [done|].
  exists na, a. split; [done|]. split; [|done].
  by eapply (subclass_trans T0 T L nd d nb b na a).
Qed.

Lemma implements_declared_witness :
  implements_interface Linked_example.T (Linked_example.class_of "C")
    (Linked_example.class_of "I") = Ok true.
Proof.
  destruct (implements_declared Examples.table Linked_example.T
              "C" (Linked_example.class_of "C") "I" (Linked_example.class_of "I")
              Linked_example.table_declarations Linked_example.table_links
              eq_refl eq_refl eq_refl) as [_ Hinh].
  apply (Hinh "A" (Linked_example.class_of "A")); vm_compute; reflexivity.
Defined.

(** [lookup_method] on a class returns the class's own declaration when
    it has one and otherwise what its base returns; a method visible in a
    class is visible in every subclass. *)
Theorem lookup_method_inherited T0 T nd d m :
  declarations T0 -> _resolve_and_link T0 = Ok T ->
  get_type T nd = Some d -> is_interface d = false ->
  (forall toks, dict_get (methods d) m = Some toks ->
     lookup_method T d m = Ok (Some toks)) /\
  (dict_get (methods d) m = None ->
     match base d with
     | None => lookup_method T d m = Ok None
     | Some nb => exists b, get_type T nb = Some b /\
                   lookup_method T d m = lookup_method T b m
     end) /\
  (forall nb b toks, get_type T nb = Some b -> is_subclass_of T d b = Ok true ->
     lookup_method T b m = Ok (Some toks) ->
     exists toks', lookup_method T d m = Ok (Some toks')).
Proof.
  intros (Hnd & HC & _) Hlink Hd Hid.
  pose proof (link_Linked _ _ Hnd HC Hlink) as L.
  split; [intros toks; by apply (lookup_method_own T0 T L nd)|].
  split.
  - intros Hm. rewrite (lookup_method_base T0 T L nd d m Hd Hid Hm).
    destruct (base d) as [nb|] eqn:Hb; [|done].
    destruct (lk_base _ _ L nd d nb Hd Hb) as (b & Hgb & _).
    exists b. by rewrite Hgb.
  - intros nb b toks Hb Hsub Hm.
    by eapply (lookup_method_down T0 T L nd d nb b).
Qed.

Lemma lookup_method_inherited_witness :
  lookup_method Linked_example.T (Linked_example.class_of "C") "get" =
    Ok (Some ["z"]) /\
  exists toks, lookup_method Linked_example.T (Linked_example.class_of "C") "show" =
    Ok (Some toks).
Proof.
  destruct (lookup_method_inherited Examples.table Linked_example.T
              "C" (Linked_example.class_of "C") "show"
              Linked_example.table_declarations Linked_example.table_links
              eq_refl eq_refl) as (_ & _ & Hdown).
  destruct (lookup_method_inherited Examples.table Linked_example.T
              "C" (Linked_example.class_of "C") "get"
              Linked_example.table_declarations Linked_example.table_links
              eq_refl eq_refl) as (Hown & _ & _).
  split.
  - apply Hown. vm_compute. reflexivity.
  - apply (Hdown "A" (Linked_example.class_of "A") ["x"; "1"]);
      vm_compute; reflexivity.
Defined.

(** ** What a successful link says about the declarations *)

Lemma Chain_nodup T c l : Chain T c l -> NoDup (map name l).
Proof.
  intros H. induction H as [|h t l Hg Hc IH]; simpl; constructor; [|done].
  intros Hin. apply list_elem_of_fmap in Hin as (t' & Hn & Hin).
  destruct (Chain_split _ _ _ _ Hc Hin) as (l1 & l2 & E & Hc2).
  assert (Hc1 : Chain T (Some (name t')) (t :: l)).
  { rewrite <- Hn, (get_type_name _ _ _ Hg). by econstructor. }
  pose proof (Chain_fun _ _ _ _ Hc1 Hc2) as E2.
  apply (f_equal length) in E, E2. rewrite length_app in E. simpl in *. lia.
Qed.

(** A table that links is well formed: the base of a class is a class
    of the table, the interfaces it lists are interfaces of the table,
    its base chain ends without meeting a class twice, and none of its
    fields is a field of its base. *)
Theorem link_validates T0 T n t0 :
  declarations T0 -> _resolve_and_link T0 = Ok T ->
  get_type T0 n = Some t0 -> is_interface t0 = false ->
  (forall b, base_name t0 = Some b ->
     exists bt0, get_type T0 b = Some bt0 /\ is_interface bt0 = false) /\
  (forall i, i ∈ interfaces_names t0 ->
     exists it0, get_type T0 i = Some it0 /\ is_interface it0 = true) /\
  (exists t l, Chain T (Some n) (t :: l) /\ base t = base_name t0 /\
     NoDup (map name (t :: l)) /\ length (t :: l) <= length T0) /\
  (forall b bt f, base_name t0 = Some b -> get_type T b = Some bt ->
     f ∈ fields t0 -> f ∉ all_fields bt).
Proof.
  intros (Hnd & HC & _) Hlink H0 Hi0.
  pose proof (link_Linked _ _ Hnd HC Hlink) as L.
  assert (Hback : forall m t, get_type T m = Some t ->
            exists t', get_type T0 m = Some t' /\ is_interface t' = is_interface t).
  { intros m t Hg. destruct (lk_decl _ _ L m t Hg) as (t' & Hg' & E & _). eauto. }
  destruct (get_type_same_names T T0 n t0 (lk_names _ _ L) H0) as (t & Hg).
  destruct (lk_decl _ _ L n t Hg) as (t0' & H0' & Ei & Ef & Em & Eb & Eis).
  assert (t0' = t0) as -> by congruence.
  assert (Hi : is_interface t = false) by congruence.
  pose proof (lk_base_name _ _ L n t Hg) as Hbn. rewrite Hi, Eb in Hbn.
  split; [|split; [|split]].
  - intros b Hb. rewrite <- Hbn in Hb.
    destruct (lk_base _ _ L n t b Hg Hb) as (bt & Hgb & Hib).
    destruct (Hback _ _ Hgb) as (bt0 & ? & ?). exists bt0. split; congruence.
  - intros i Hin. destruct (lk_interfaces _ _ L n t Hg Hi) as [E HF].
    rewrite E, Eis in HF.
    destruct (proj1 (Forall_forall _ _) HF i Hin) as (it & Hgi & Hii).
    destruct (Hback _ _ Hgi) as (it0 & ? & ?). exists it0. split; congruence.
  - destruct (class_chain T0 T L n t Hg Hi) as (l & Hl & _ & Hlen & _).
    exists t, l. split; [done|]. split; [done|].
    split; [by eapply Chain_nodup|].
    replace (length T0) with (length T); [done|].
    rewrite <- (length_map name T), <- (length_map name T0).
    f_equal. apply (lk_names _ _ L).
  - intros b bt f Hb Hgb Hf. rewrite <- Hbn in Hb. rewrite <- Ef in Hf.
    by eapply (lk_fields _ _ L n t b bt f).
Qed.

Lemma link_validates_witness :
  (exists bt0, get_type Examples.table "B" = Some bt0 /\ is_interface bt0 = false) /\
  "z" ∉ all_fields (Linked_example.class_of "B").
Proof.
  destruct (link_validates Examples.table Linked_example.T "C" Examples.decl_C
              Linked_example.table_declarations Linked_example.table_links
              eq_refl eq_refl) as (Hbase & _ & _ & Hfields).
  split.
  - apply Hbase. reflexivity.
  - apply (Hfields "B" (Linked_example.class_of "B") "z").
    + reflexivity.
    + vm_compute. reflexivity.
    + apply (bool_decide_unpack _). vm_compute. exact I.
Defined.

(** * Literals and plans *)

(** ** Printing and reading integers *)

Lemma digits_to_end_uint d :
  digits_to_end true (NilEmpty.string_of_uint d) = true.
Proof. induction d; simpl; done. Qed.

Lemma digits_value_acc d : forall acc,
  digits_value (Z.pos acc) (NilEmpty.string_of_uint d) = Z.pos (Pos.of_uint_acc d acc).
Proof.
  induction d; intros acc; cbn [NilEmpty.string_of_uint digits_value Pos.of_uint_acc];
    try done;
    match goal with
    | |- context [is_digit ?c] => change (is_digit c) with true; cbv iota
    end;
    match goal with
    | |- digits_value ?z _ = Z.pos (Pos.of_uint_acc _ ?p) =>
        replace z with (Z.pos p) by (simpl; lia)
    end; apply IHd.
Qed.

Lemma digits_value_uint d :
  digits_value 0 (NilEmpty.string_of_uint d) = Z.of_N (Pos.of_uint d).
Proof.
  induction d; cbn [NilEmpty.string_of_uint digits_value Pos.of_uint]; try done;
    match goal with
    | |- context [is_digit ?c] => change (is_digit c) with true; cbv iota
    end;
    try exact IHd;
    match goal with
    | |- digits_value ?z _ = _ =>
        match eval vm_compute in z with
        | Z.pos ?p => change z with (Z.pos p)
        end
    end; rewrite digits_value_acc; done.
Qed.

Lemma uint_string_head d :
  d <> Decimal.Nil ->
  exists a s, NilEmpty.string_of_uint d = String a s /\ is_digit a = true /\
    a <> "-"%char.
Proof.
  intros Hd. destruct d; [done|..]; simpl; eexists _, _; split; try done.
Qed.

Lemma to_uint_not_nil p : Pos.to_uint p <> Decimal.Nil.
Proof.
  intros H. pose proof (DecimalPos.Unsigned.of_to p) as E. by rewrite H in E.
Qed.

Lemma int_of_uint d :
  d <> Decimal.Nil ->
  is_int (NilEmpty.string_of_uint d) = true /\
  int (NilEmpty.string_of_uint d) = Z.of_N (Pos.of_uint d).
Proof.
  intros Hd. destruct (uint_string_head d Hd) as (a & s & E & Ha & Hm).
  pose proof (digits_value_uint d) as Hv.
  pose proof (digits_to_end_uint d) as He. rewrite E in Hv, He |- *.
  assert (Hi : is_int (String a s) = digits_to_end false (String a s)).
  { unfold is_int. destruct a as [[] [] [] [] [] [] [] []]; try done. }
  assert (Hn : int (String a s) = digits_value 0 (String a s)).
  { unfold int. destruct a as [[] [] [] [] [] [] [] []]; try done. }
  rewrite Hi, Hn. split; [|done].
  simpl in He |- *. by rewrite Ha in He |- *.
Qed.

(** What [str] prints for an integer is accepted by [is_int] and read
    back by [int] as the same integer; as a method token it compiles to
    the literal. *)
Theorem literal_round_trip (z : Z) (runtime : ClassDef) (method_name : string) :
  is_int (str_Z z) = true /\ int (str_Z z) = z /\
  _compile_plan runtime method_name [str_Z z] = Ok [(false, z)] /\
  forall vals, run_plan vals [(false, z)] = Ok [z].
Proof.
  assert (H : is_int (str_Z z) = true /\ int (str_Z z) = z).
  { unfold str_Z. destruct z as [|p|p]; [done|..].
    - cbn [Z.to_int NilZero.string_of_int].
      pose proof (to_uint_not_nil p) as Hd.
      replace (NilZero.string_of_uint (Pos.to_uint p))
        with (NilEmpty.string_of_uint (Pos.to_uint p))
        by (by destruct (Pos.to_uint p)).
      destruct (int_of_uint _ Hd) as [Hi Hv]. split; [done|].
      by rewrite Hv, DecimalPos.Unsigned.of_to.
    - cbn [Z.to_int NilZero.string_of_int].
      pose proof (to_uint_not_nil p) as Hd.
      replace (NilZero.string_of_uint (Pos.to_uint p))
        with (NilEmpty.string_of_uint (Pos.to_uint p))
        by (by destruct (Pos.to_uint p)).
      destruct (uint_string_head _ Hd) as (a & s & E & Ha & Hm).
      pose proof (digits_value_uint (Pos.to_uint p)) as Hv.
      pose proof (digits_to_end_uint (Pos.to_uint p)) as He.
      rewrite DecimalPos.Unsigned.of_to in Hv.
      unfold is_int, int. rewrite E in Hv, He |- *. split.
      + simpl in He |- *. by rewrite Ha in He |- *.
      + rewrite Hv. done. }
  destruct H as [Hi Hv]. split; [done|]. split; [done|]. split.
  - simpl. by rewrite Hi, Hv.
  - done.
Qed.

(** ** Field indices and compiled plans *)

Lemma index_fold_lookup (l : list string) : forall i (m : gmap string nat) f k,
  foldl (fun m p => <[p.2 := p.1]> m) m (enumerate_from i l) !! f = Some k ->
  m !! f = Some k \/ (i <= k /\ l !! (k - i) = Some f).
Proof.
  induction l as [|x l IH]; intros i m f k; simpl; [by left|].
  intros H. apply IH in H as [H|[Hle H]].
  - destruct (decide (x = f)) as [->|Hne].
    + rewrite lookup_insert_eq in H. injection H as <-. right.
      split; [done|]. by rewrite Nat.sub_diag.
    + rewrite lookup_insert_ne in H by done. by left.
  - right. split; [lia|]. replace (k - i) with (S (k - S i)) by lia. done.
Qed.

Lemma index_fold_in (l : list string) : forall i (m : gmap string nat) f,
  f ∈ l -> is_Some (foldl (fun m p => <[p.2 := p.1]> m) m (enumerate_from i l) !! f).
Proof.
  induction l as [|x l IH]; intros i m f Hin; simpl.
  - by apply elem_of_nil in Hin.
  - destruct (decide (f ∈ l)) as [Hl|Hl]; [by apply IH|].
    apply elem_of_cons in Hin as [->|Hin]; [|done].
    rewrite index_fold_notin by done. rewrite lookup_insert_eq. eauto.
Qed.

Lemma index_dict_lookup l f k : index_dict l !! f = Some k -> l !! k = Some f.
Proof.
  intros H. apply index_fold_lookup in H as [H|[_ H]].
  - by rewrite lookup_empty in H.
  - by rewrite Nat.sub_0_r in H.
Qed.

Lemma index_dict_in l f : f ∈ l -> is_Some (index_dict l !! f).
Proof. apply index_fold_in. Qed.

(** The outcome of compiling a token sequence against a class. *)
Definition compiles_to (rt : ClassDef) (tok : string) (op : bool * Z) : Prop :=
  if is_int tok then op = (false, int tok)
  else exists i, op = (true, Z.of_nat i) /\ all_fields rt !! i = Some tok /\
         _field_index rt !! tok = Some i.

Lemma compile_plan_Ok rt mn toks p :
  _field_index rt = index_dict (all_fields rt) ->
  _compile_plan rt mn toks = Ok p -> Forall2 (compiles_to rt) toks p.
Proof.
  intros Hidx. revert p. induction toks as [|tok toks IH]; intros p; simpl.
  - intros [= <-]. constructor.
  - destruct (is_int tok) eqn:Hi.
    + simpl. destruct (_compile_plan rt mn toks) as [p1|]; simpl; [|done].
      intros [= <-]. constructor; [|by apply IH].
      unfold compiles_to. by rewrite Hi.
    + destruct (_field_index rt !! tok) as [i|] eqn:Hf; simpl; [|done].
      destruct (_compile_plan rt mn toks) as [p1|]; simpl; [|done].
      intros [= <-]. constructor; [|by apply IH].
      unfold compiles_to. rewrite Hi. exists i. split; [done|]. split; [|done].
      apply index_dict_lookup. by rewrite <- Hidx.
Qed.

(** On a linked table, compiling a token sequence against a class fails
    at the first token that is neither an integer nor a field of the
    class, with an error naming that token and the method; otherwise it
    gives one operation per token, a literal for an integer and for a
    field the position of that field in the layout of the class. *)
Theorem compile_plan_outcome T0 T n rt mn toks :
  declarations T0 -> _resolve_and_link T0 = Ok T -> get_type T n = Some rt ->
  match find (fun tok => negb (is_int tok) && bool_decide (tok ∉ all_fields rt)) toks with
  | Some tok => _compile_plan rt mn toks = Err (UnknownFieldInMethod tok mn)
  | None => exists p, _compile_plan rt mn toks = Ok p /\
              Forall2 (compiles_to rt) toks p
  end.
Proof.
  intros (Hnd & HC & _) Hlink Hg.
  pose proof (link_Linked _ _ Hnd HC Hlink) as L.
  destruct (lk_layout _ _ L n rt Hg) as [_ Hidx].
  induction toks as [|tok toks IH]; simpl.
  - exists []. split; [done | constructor].
  - destruct (is_int tok) eqn:Hi; cbn [negb andb].
    + destruct (find _ toks) as [bad|].
      * by rewrite IH.
      * destruct IH as (p & -> & HF). simpl. eexists. split; [done|].
        constructor; [|done]. unfold compiles_to. by rewrite Hi.
    + destruct (decide (tok ∈ all_fields rt)) as [Hin|Hin].
      * rewrite bool_decide_eq_false_2 by (intros H; by apply H).
        destruct (index_dict_in _ _ Hin) as [i Hf]. rewrite <- Hidx in Hf.
        rewrite Hf. simpl.
        destruct (find _ toks) as [bad|].
        -- by rewrite IH.
        -- destruct IH as (p & -> & HF). simpl. eexists. split; [done|].
           constructor; [|done]. unfold compiles_to. rewrite Hi.
           exists i. split; [done|]. split; [|done].
           apply index_dict_lookup. by rewrite <- Hidx.
      * rewrite bool_decide_eq_true_2 by done.
        destruct (_field_index rt !! tok) as [i|] eqn:Hf; [|done].
        exfalso. apply Hin. rewrite Hidx in Hf. by eapply index_dict_elem.
Qed.

Lemma compile_plan_outcome_witness :
  _compile_plan (Linked_example.class_of "B") "show" ["y"; "5"; "q"; "r"] =
    Err (UnknownFieldInMethod "q" "show").
Proof.
  exact (compile_plan_outcome Examples.table Linked_example.T "B"
           (Linked_example.class_of "B") "show" ["y"; "5"; "q"; "r"]
           Linked_example.table_declarations Linked_example.table_links eq_refl).
Defined.

(** * What a method lookup counts *)

(** The metrics after a walk of [steps] hops with [fails] failed probes
    that found ([found = 1]) or did not find ([found = 0]) the method. *)
Definition walked (mt : Metrics) (steps fails found : nat) : Metrics :=
  mkMetrics (resolve_calls mt) (resolve_time_ns mt) (resolve_steps mt)
    (cache_hits mt) (cache_misses mt) (vtable_uses mt) (itable_uses mt)
    (class_jumps mt + steps + found) (class_probes mt + fails + found)
    (resolve_fails mt + fails) (gc_runs mt) (gc_collected mt).

Definition found_bit {A} (r : option A) : nat :=
  match r with Some _ => 1 | None => 0 end.

(** The number of method names the classes of [l] declare. *)
Definition names_of (l : list ClassDef) : nat :=
  sum_list (map (fun c => length (dict_keys (methods c))) l).

Ltac metrics_eq :=
  unfold walked, probe, probe_fail, jump, found_bit; simpl; f_equal; lia.

Lemma walked_0 mt : walked mt 0 0 0 = mt.
Proof. destruct mt; metrics_eq. Qed.

(** The inner loop over names that are all different from [m]: every
    name is one probe and one failure. *)
Lemma probe_methods_miss keys m : forall mt,
  m ∉ keys ->
  probe_methods keys m mt =
    (false,
     mkMetrics (resolve_calls mt) (resolve_time_ns mt) (resolve_steps mt)
       (cache_hits mt) (cache_misses mt) (vtable_uses mt) (itable_uses mt)
       (class_jumps mt) (class_probes mt + length keys)
       (resolve_fails mt + length keys) (gc_runs mt) (gc_collected mt)).
Proof.
  induction keys as [|k keys IH]; intros mt Hni; simpl.
  - f_equal. destruct mt; metrics_eq.
  - apply not_elem_of_cons in Hni as [Hne Hni].
    rewrite decide_False by congruence. rewrite (IH _ Hni).
    f_equal. metrics_eq.
Qed.

(** The inner loop stops at [m]: the names in front of it are one probe
    and one failure each, [m] itself is one probe. *)
Lemma probe_methods_hit here m after : forall mt,
  m ∉ here ->
  probe_methods (here ++ m :: after) m mt =
    (true,
     mkMetrics (resolve_calls mt) (resolve_time_ns mt) (resolve_steps mt)
       (cache_hits mt) (cache_misses mt) (vtable_uses mt) (itable_uses mt)
       (class_jumps mt) (class_probes mt + length here + 1)
       (resolve_fails mt + length here) (gc_runs mt) (gc_collected mt)).
Proof.
  induction here as [|k here IH]; intros mt Hni; simpl.
  - rewrite decide_True by done. f_equal. destruct mt; metrics_eq.
  - apply not_elem_of_cons in Hni as [Hne Hni].
    rewrite decide_False by congruence. rewrite (IH _ Hni).
    f_equal. metrics_eq.
Qed.

Lemma walk_steps_shift l m : forall s, walk_steps l m s = s + walk_steps l m 0.
Proof.
  induction l as [|t l IH]; intros s; simpl; [lia|].
  destruct (dict_mem (methods t) m); [lia|].
  rewrite (IH (S s)), (IH 1). lia.
Qed.

(** The walk over a chain: the classes in front of the first one that
    declares [m] are walked past, with all their names compared in vain;
    in the declaring class the names in front of [m] are. *)
Lemma walk_metrics_counts l m : forall mt,
  exists here,
    walk_metrics l m mt =
      walked mt (walk_steps l m 0)
        (names_of (take (walk_steps l m 0) l) + length here)
        (found_bit (first_decl l m)) /\
    (forall c, c ∈ take (walk_steps l m 0) l -> m ∉ dict_keys (methods c)) /\
    match first_decl l m with
    | Some toks =>
        exists d after,
          l !! walk_steps l m 0 = Some d /\
          dict_get (methods d) m = Some toks /\
          dict_keys (methods d) = here ++ m :: after /\ m ∉ here
    | None => walk_steps l m 0 = length l /\ here = []
    end.
Proof.
  induction l as [|t l IH]; intros mt.
  - exists []. simpl. split; [by rewrite walked_0|]. split; [|done].
    intros c Hc. by apply elem_of_nil in Hc.
  - cbn [walk_metrics walk_steps]. rewrite first_decl_cons. unfold dict_mem.
    destruct (dict_get (methods t) m) as [toks|] eqn:Hd.
    + assert (Hin : m ∈ dict_keys (methods t)) by (apply dict_get_keys; eauto).
      apply list_elem_of_split_l in Hin as (here & after & Hk & Hni).
      exists here. rewrite Hk, (probe_methods_hit here m after _ Hni). simpl.
      split; [unfold names_of; metrics_eq|].
      split; [intros c Hc; by apply elem_of_nil in Hc|].
      exists t, after. done.
    + assert (Hni : m ∉ dict_keys (methods t)).
      { intros Hin. apply dict_get_keys in Hin as [x Hx]. congruence. }
      rewrite (probe_methods_miss _ m _ Hni). cbn [fst snd].
      match goal with |- context [walk_metrics l m ?a] =>
        destruct (IH a) as (here & E & Hskip & Hfound) end.
      exists here. rewrite (walk_steps_shift l m 1). cbn [Nat.add take].
      split; [|split].
      * rewrite E. unfold names_of. cbn [map sum_list].
        fold (names_of (take (walk_steps l m 0) l)).
        metrics_eq.
      * intros c [->|Hc]%elem_of_cons; [done|by apply Hskip].
      * destruct (first_decl l m) as [toks|]; [|simpl; naive_solver lia].
        destruct Hfound as (d & after & Hl & Hg & Hk & Hn).
        exists d, after. done.
Qed.

(** In every state of a run, [_lookup_with_steps] from a type of the
    table returns what [lookup_method] returns for that type, with the
    number of base hops to the first class of the chain that declares
    the method (to the end of the chain when there is none).  It changes
    three counters only, also when metrics are disabled: one class jump
    per class visited, one probe per method name compared, one failure
    per name that did not match.  The names compared in vain are all the
    names of the classes walked past and, in the declaring class, the
    names in front of the method. *)
Theorem lookup_with_steps_counts T0 T st n t m :
  declarations T0 -> _resolve_and_link T0 = Ok T -> reachable T st ->
  get_type (classes st) n = Some t ->
  exists r steps l here,
    _lookup_with_steps n m st =
      (Ok (r, steps),
       set_metrics st
         (walked (metrics st) steps
            (names_of (take steps l) + length here) (found_bit r))) /\
    lookup_method (classes st) t m = Ok r /\
    Chain (classes st) (Some n) l /\
    (forall c, c ∈ take steps l -> m ∉ dict_keys (methods c)) /\
    match r with
    | Some toks =>
        exists d after,
          l !! steps = Some d /\ dict_get (methods d) m = Some toks /\
          dict_keys (methods d) = here ++ m :: after /\ m ∉ here
    | None => steps = length l /\ here = []
    end.
Proof.
  intros HD Hlink Hr Hg.
  pose proof (reachable_Inv _ _ _ HD Hlink Hr) as I.
  destruct HD as (Hnd & HC & Hkeys).
  pose proof (link_Linked _ _ Hnd HC Hlink) as L.
  pose proof (Inv_Linked T0 T L st I) as L'.
  assert (Hch : exists l, Chain (classes st) (Some n) l /\
                  length l <= length (classes st) /\
                  lookup_method (classes st) t m = Ok (first_decl l m)).
  { destruct (is_interface t) eqn:Hi.
    - exists [t]. split; [by eapply (interface_chain T0 T L)|]. split.
      + apply get_type_elem in Hg. destruct (classes st); simpl; [|lia].
        by apply elem_of_nil in Hg.
      + unfold lookup_method. rewrite Hi, first_decl_cons.
        by destruct (dict_get (methods t) m).
    - destruct (state_chain T0 T L st n t I Hg Hi) as (l & Hl & Hlen & _).
      exists (t :: l). split; [done|]. split; [done|].
      by apply (lookup_method_class T0 (classes st) n). }
  destruct Hch as (l & Hl & Hlen & Hlm).
  destruct (walk_metrics_counts l m (metrics st)) as (here & Hw & Hskip & Hfound).
  exists (first_decl l m), (walk_steps l m 0), l, here.
  split; [|done].
  rewrite (lookup_with_steps_chain l n m st Hl Hlen). by rewrite Hw.
Qed.

Lemma lookup_with_steps_counts_witness :
  exists r steps l here,
    _lookup_with_steps "C" "show" (Runs.after Runs.slow Runs.prog) =
      (Ok (r, steps),
       set_metrics (Runs.after Runs.slow Runs.prog)
         (walked (metrics (Runs.after Runs.slow Runs.prog)) steps
            (names_of (take steps l) + length here) (found_bit r))) /\
    lookup_method (classes (Runs.after Runs.slow Runs.prog))
      (Linked_example.class_of "C") "show" = Ok r /\
    Chain (classes (Runs.after Runs.slow Runs.prog)) (Some "C") l /\
    (forall c, c ∈ take steps l -> "show" ∉ dict_keys (methods c)) /\
    match r with
    | Some toks =>
        exists d after,
          l !! steps = Some d /\ dict_get (methods d) "show" = Some toks /\
          dict_keys (methods d) = here ++ "show" :: after /\ "show" ∉ here
    | None => steps = length l /\ here = []
    end.
Proof.
  apply (lookup_with_steps_counts Examples.table Linked_example.T
           (Runs.after Runs.slow Runs.prog) "C" (Linked_example.class_of "C") "show").
  - exact Linked_example.table_declarations.
  - exact Linked_example.table_links.
  - apply Runs.after_reachable. vm_compute. reflexivity.
  - vm_compute. reflexivity.
Defined.

(** * What a statement does to the interpreter *)

(** The effect of a statement that ends normally on the names, the
    objects, the heap and the output. *)
Definition effect (s : Stmt) (st st' : Interpreter) : Prop :=
  match s with
  | LetNew x c args =>
      exists cd, get_type (classes st) c = Some cd /\ is_interface cd = false /\
        length (all_fields cd) = length args /\
        objects st' = objects st ++ [mkInstance (name cd) args] /\
        heap st' = heap st ++ [length (objects st)] /\
        env st' = <[x := mkVarBinding (length (objects st)) (name cd)]> (env st) /\
        stdout st' = stdout st
  | LetClone x src =>
      exists b i, env st !! src = Some b /\ objects st !! inst b = Some i /\
        objects st' = objects st ++ [mkInstance (cls i) (values i)] /\
        heap st' = heap st ++ [length (objects st)] /\
        env st' = <[x := mkVarBinding (length (objects st)) (view_cls b)]> (env st) /\
        stdout st' = stdout st
  | LetCast x target src =>
      exists b i tg rt, env st !! src = Some b /\
        get_type (classes st) target = Some tg /\
        objects st !! inst b = Some i /\ get_type (classes st) (cls i) = Some rt /\
        (if is_interface tg then implements_interface (classes st) rt tg
         else is_subclass_of (classes st) rt tg) = Ok true /\
        env st' = <[x := mkVarBinding (inst b) (name tg)]> (env st) /\
        objects st' = objects st /\ heap st' = heap st /\ stdout st' = stdout st
  | LetAlias x src =>
      exists b, env st !! src = Some b /\
        env st' = <[x := mkVarBinding (inst b) (view_cls b)]> (env st) /\
        objects st' = objects st /\ heap st' = heap st /\ stdout st' = stdout st
  | FieldAssign x f v =>
      exists b i c idx, env st !! x = Some b /\ objects st !! inst b = Some i /\
        get_type (classes st) (cls i) = Some c /\ _field_index c !! f = Some idx /\
        idx < length (values i) /\
        objects st' =
          <[inst b := mkInstance (cls i) (<[idx := v]> (values i))]> (objects st) /\
        env st' = env st /\ heap st' = heap st /\ stdout st' = stdout st
  | Call x m | VCall x m =>
      exists b p s1 i vs, env st !! x = Some b /\
        _resolve_call_plan b m (match s with VCall _ _ => true | _ => false end) st
          = (Ok p, s1) /\
        objects st !! inst b = Some i /\ run_plan (values i) p = Ok vs /\
        stdout st' = stdout st ++ [Line (join_values vs)] /\
        env st' = env st /\ objects st' = objects st /\ heap st' = heap st
  | Is x t =>
      (exists ans : bool,
         stdout st' = stdout st ++ [Line (if ans then "IS" else "ISN'T")]) /\
      env st' = env st /\ objects st' = objects st /\ heap st' = heap st
  | Free x =>
      is_Some (env st !! x) /\ env st' = delete x (env st) /\
      objects st' = objects st /\ heap st' = heap st /\ stdout st' = stdout st
  | Gc =>
      heap st' = (if enable_gc (cfg st)
                  then filter (fun a => a ∈ roots (env st)) (heap st)
                  else heap st) /\
      env st' = env st /\ objects st' = objects st /\ stdout st' = stdout st
  end.

Section effects.
Variables T0 T : list ClassDef.
Hypothesis L : Linked T0 T.
Hypothesis Hkeys : Forall (fun t => NoDup (dict_keys (methods t))) T0.

Lemma get_binding_Ok x st b st' :
  _get_binding x st = (Ok b, st') -> env st !! x = Some b /\ st' = st.
Proof.
  unfold _get_binding. intros H.
  mbind H as st0 s2 H2. apply get_Ok in H2 as [-> ->].
  destruct (env st !! x) as [b'|]; [|done]. by apply ret_Ok in H as [-> ->].
Qed.

Lemma exec_call_effect st x m dynamic st' :
  Inv T st -> _exec_call x m dynamic st = (Ok tt, st') ->
  cfg st' = cfg st /\
  exists b p s1 i vs, env st !! x = Some b /\
    _resolve_call_plan b m dynamic st = (Ok p, s1) /\
    objects st !! inst b = Some i /\ run_plan (values i) p = Ok vs /\
    stdout st' = stdout st ++ [Line (join_values vs)] /\
    env st' = env st /\ objects st' = objects st /\ heap st' = heap st.
Proof.
  intros I H.
  destruct (exec_call_Ok _ _ _ _ _ H) as (b & p & s1 & i & vs & Hx & Hres & Hobj & Hrun & ->).
  destruct (resolve_spec T0 T L Hkeys _ _ _ _ _ _ _ I Hx Hres) as (_ & Hfr & _).
  destruct Hfr as (Ecfg & Eenv & Eobj & Eout & Eheap). simpl.
  split; [done|]. exists b, p, s1, i, vs. rewrite Eobj in Hobj.
  rewrite Eout. done.
Qed.

Lemma exec_effect st s st' :
  Inv T st -> _exec_statement s st = (Ok tt, st') ->
  cfg st' = cfg st /\ effect s st st'.
Proof.
  intros I H. destruct s as [x c args|x src|x target src|x src|x f v|x m|x m|x t|x|];
    cbn [_exec_statement] in H.
  - (* new *)
    mbind H as a s1 H1. unfold _instantiate in H1.
    mbind H1 as st0 s2 H2. apply get_Ok in H2 as [-> ->].
    destruct (get_type (classes st) c) as [cd|] eqn:Hc; [|done].
    destruct (is_interface cd) eqn:Hi; [done|].
    destruct (bool_decide (length (all_fields cd) = length args)) eqn:Hlen; [|done].
    apply bool_decide_eq_true_1 in Hlen. cbn [negb] in H1.
    mbind H1 as a' s3 H3. unfold allocate in H3. injection H3 as <- <-.
    mbind H1 as u s4 H4. apply modify_Ok in H4. apply ret_Ok in H1 as [-> ->].
    mbind H as i s5 H5. apply deref_object_Ok in H5 as [Hobj ->].
    unfold bind_name in H. apply modify_Ok in H. subst st' s4.
    simpl in Hobj. rewrite lookup_app_r, Nat.sub_diag in Hobj by done.
    injection Hobj as <-.
    split; [done|]. exists cd. done.
  - (* clone *)
    mbind H as b s1 H1. apply get_binding_Ok in H1 as [Hsrc ->].
    mbind H as a s3 H3. unfold _clone in H3.
    mbind H3 as i s4 H4. apply deref_object_Ok in H4 as [Hobj ->].
    mbind H3 as a' s5 H5. unfold allocate in H5. injection H5 as <- <-.
    mbind H3 as u s6 H6. apply modify_Ok in H6. apply ret_Ok in H3 as [-> ->].
    unfold bind_name in H. apply modify_Ok in H. subst st' s6.
    split; [done|]. exists b, i. done.
  - (* cast *)
    mbind H as b s1 H1. apply get_binding_Ok in H1 as [Hsrc ->].
    mbind H as b2 s3 H3. unfold _cast_binding in H3.
    mbind H3 as st0 s4 H4. apply get_Ok in H4 as [-> ->].
    destruct (get_type (classes st) target) as [tg|] eqn:Htg; [|done].
    mbind H3 as i s5 H5. apply deref_object_Ok in H5 as [Hobj ->].
    mbind H3 as rt s6 H6. apply deref_class_Ok in H6 as [Hrt ->].
    unfold bind_name in H. apply modify_Ok in H. subst st'.
    assert (Hb2 : b2 = mkVarBinding (inst b) (name tg) /\ s3 = st /\
              (if is_interface tg then implements_interface (classes st) rt tg
               else is_subclass_of (classes st) rt tg) = Ok true).
    { destruct (is_interface tg).
      - mbind H3 as impl s7 H7. apply lift_Ok in H7 as [Himpl ->].
        destruct impl; [|done]. by apply ret_Ok in H3 as [-> ->].
      - mbind H3 as sub s7 H7. apply lift_Ok in H7 as [Hsub ->].
        destruct sub; [|done]. by apply ret_Ok in H3 as [-> ->]. }
    destruct Hb2 as (-> & -> & Hchk).
    split; [done|]. exists b, i, tg, rt. done.
  - (* alias *)
    mbind H as b s1 H1. apply get_binding_Ok in H1 as [Hsrc ->].
    unfold bind_name in H. apply modify_Ok in H. subst st'.
    split; [done|]. exists b. done.
  - (* field assignment *)
    unfold _exec_field_assign in H.
    mbind H as b s1 H1. apply get_binding_Ok in H1 as [Hx ->].
    mbind H as i s3 H3. apply deref_object_Ok in H3 as [Hobj ->].
    mbind H as c s4 H4. apply deref_class_Ok in H4 as [Hc ->].
    destruct (_field_index c !! f) as [idx|] eqn:Hf; [|done].
    mbind H as vs s5 H5. apply lift_Ok in H5 as [Hst ->].
    apply store_at_Ok in Hst as [Hlt ->].
    apply modify_Ok in H. subst st'.
    split; [done|]. exists b, i, c, idx. done.
  - (* call *) by apply exec_call_effect.
  - (* vcall *) by apply exec_call_effect.
  - (* is *)
    destruct (exec_is_spec T0 T L st x t I) as (ans & Heq & _). rewrite Heq in H.
    injection H as <-. split; [done|]. split; [by exists ans | done].
  - (* free *)
    unfold _exec_free in H.
    mbind H as st0 s1 H1. apply get_Ok in H1 as [-> ->].
    destruct (env st !! x) as [b|] eqn:Hx; [|done].
    apply modify_Ok in H. subst st'.
    split; [done|]. split; [by rewrite Hx | done].
  - (* gc *)
    mbind H as st0 s1 H1. apply get_Ok in H1 as [-> ->].
    cbn [effect]. destruct (enable_gc (cfg st)) eqn:Hgc.
    + unfold _gc_collect in H.
      mbind H as st0 s2 H2. apply get_Ok in H2 as [-> ->].
      mbind H as u s3 H3. apply modify_Ok in H3. apply when_metrics_core in H.
      apply core_fields in H as (? & ? & ? & ? & ? & ? & ? & ?). subst s3.
      simpl in *. split; [congruence|]. repeat split; congruence.
    + apply ret_Ok in H as [_ ->]. done.
Qed.
End effects.

(** * Bindings, objects and the heap in a run *)

(** ** The checks of the type table do not see the plan caches *)

Lemma agree_None T T' n : agree T T' -> get_type T' n = None -> get_type T n = None.
Proof.
  intros [Hn _] H. apply get_type_None. rewrite <- Hn. by apply get_type_None.
Qed.

Lemma subclass_loop_agree T T' o : agree T T' -> forall fuel c,
  is_subclass_of_loop T' fuel c o = is_subclass_of_loop T fuel c o.
Proof.
  intros Ha fuel. induction fuel as [|fuel IH]; intros [h|]; simpl; try done.
  unfold deref. destruct (get_type T' h) as [t'|] eqn:Hg.
  - destruct (proj2 Ha _ _ Hg) as (t & -> & Hc). simpl.
    destruct (cached_static _ _ Hc) as (-> & _ & -> & _).
    destruct (decide (name t = o)); [done | apply IH].
  - by rewrite (agree_None _ _ _ Ha Hg).
Qed.

Lemma interfaces_loop_agree T T' : agree T T' -> forall fuel c out,
  all_interfaces_loop T' fuel c out = all_interfaces_loop T fuel c out.
Proof.
  intros Ha fuel. induction fuel as [|fuel IH]; intros [h|] out; simpl; try done.
  unfold deref. destruct (get_type T' h) as [t'|] eqn:Hg.
  - destruct (proj2 Ha _ _ Hg) as (t & -> & Hc). simpl.
    destruct (cached_static _ _ Hc) as (_ & _ & -> & -> & _). apply IH.
  - by rewrite (agree_None _ _ _ Ha Hg).
Qed.

Lemma subclass_agree T T' a a' b b' :
  agree T T' -> cached a a' -> cached b b' ->
  is_subclass_of T' a' b' = is_subclass_of T a b.
Proof.
  intros Ha Hca Hcb. unfold is_subclass_of, chain_fuel.
  destruct (cached_static _ _ Hca) as (-> & -> & _).
  destruct (cached_static _ _ Hcb) as (-> & -> & _).
  rewrite (agree_length _ _ Ha). destruct (_ || _); [done|].
  by apply subclass_loop_agree.
Qed.

Lemma implements_agree T T' a a' b b' :
  agree T T' -> cached a a' -> cached b b' ->
  implements_interface T' a' b' = implements_interface T a b.
Proof.
  intros Ha Hca Hcb. unfold implements_interface, all_interfaces, chain_fuel.
  destruct (cached_static _ _ Hca) as (-> & -> & _).
  destruct (cached_static _ _ Hcb) as (-> & -> & _).
  rewrite (agree_length _ _ Ha). destruct (negb _); [done|].
  destruct (is_interface a); [done|].
  by rewrite (interfaces_loop_agree _ _ Ha).
Qed.

(** ** Conformance *)

(** The check of a cast: the runtime class is a subclass of the class
    [v], or implements the interface [v]. *)
Definition conforms (T : list ClassDef) (rt v : ClassDef) : Prop :=
  (if is_interface v then implements_interface T rt v
   else is_subclass_of T rt v) = Ok true.

Lemma conforms_agree T T' rt rt' v v' :
  agree T T' -> cached rt rt' -> cached v v' ->
  (if is_interface v' then implements_interface T' rt' v'
   else is_subclass_of T' rt' v') = Ok true -> conforms T rt v.
Proof.
  intros Ha Hcr Hcv H. unfold conforms.
  destruct (cached_static _ _ Hcv) as (_ & Hi & _). rewrite Hi in H.
  destruct (is_interface v).
  - by rewrite <- (implements_agree _ _ _ _ _ _ Ha Hcr Hcv).
  - by rewrite <- (subclass_agree _ _ _ _ _ _ Ha Hcr Hcv).
Qed.

Record Sound (T : list ClassDef) (st : Interpreter) : Prop := {
  snd_objects : forall a i, objects st !! a = Some i ->
    exists rt, get_type T (cls i) = Some rt /\ is_interface rt = false /\
      length (values i) = length (all_fields rt);
  snd_env : forall x b, env st !! x = Some b ->
    inst b ∈ heap st /\
    exists i rt v, objects st !! inst b = Some i /\
      get_type T (cls i) = Some rt /\ get_type T (view_cls b) = Some v /\
      conforms T rt v;
  snd_nodup : NoDup (heap st);
  snd_heap : forall a, a ∈ heap st -> a < length (objects st)
}.

Lemma Sound_new T config clk : Sound T (new_Interpreter T config clk).
Proof.
  split; simpl.
  - intros a i H. by rewrite lookup_nil in H.
  - intros x b H. by rewrite lookup_empty in H.
  - constructor.
  - intros a H. by apply elem_of_nil in H.
Qed.

Section sound.
Variables T0 T : list ClassDef.
Hypothesis L : Linked T0 T.
Hypothesis Hkeys : Forall (fun t => NoDup (dict_keys (methods t))) T0.

Lemma Sound_allocate st st' x i rt v :
  Sound T st ->
  objects st' = objects st ++ [i] -> heap st' = heap st ++ [length (objects st)] ->
  env st' = <[x := mkVarBinding (length (objects st)) (name v)]> (env st) ->
  get_type T (cls i) = Some rt -> is_interface rt = false ->
  length (values i) = length (all_fields rt) ->
  get_type T (name v) = Some v -> conforms T rt v ->
  Sound T st'.
Proof.
  intros [S1 S2 S3 S4] Eo Eh Ee Hrt Hi Hlen Hv Hc. split.
  - intros a j. rewrite Eo. intros H.
    apply lookup_app_Some in H as [H|[_ H]]; [by eapply S1|].
    destruct (a - length (objects st)); [|done].
    injection H as <-. eauto.
  - intros y b. rewrite Ee, Eh, Eo.
    destruct (decide (y = x)) as [->|Hne].
    + rewrite lookup_insert_eq. intros [= <-]. simpl. split.
      * apply elem_of_app. right. apply list_elem_of_here.
      * exists i, rt, v. rewrite lookup_app_r, Nat.sub_diag by done. done.
    + rewrite lookup_insert_ne by done. intros H.
      destruct (S2 _ _ H) as (Hin & j & rt' & v' & Hobj & ?).
      split; [apply elem_of_app; by left|].
      exists j, rt', v'. split; [|done]. rewrite lookup_app_l; [done|].
      by eapply lookup_lt_Some.
  - rewrite Eh. apply NoDup_app. split; [done|]. split.
    + intros a Ha [->|H]%elem_of_cons; [|by apply elem_of_nil in H].
      apply S4 in Ha. lia.
    + apply NoDup_singleton.
  - intros a. rewrite Eh, Eo, length_app. simpl.
    intros [Ha|[->|H]%elem_of_cons]%elem_of_app.
    + apply S4 in Ha. lia.
    + lia.
    + by apply elem_of_nil in H.
Qed.

Lemma Sound_bind st st' x b i rt v :
  Sound T st -> objects st' = objects st -> heap st' = heap st ->
  env st' = <[x := b]> (env st) ->
  inst b ∈ heap st -> objects st !! inst b = Some i ->
  get_type T (cls i) = Some rt -> get_type T (view_cls b) = Some v ->
  conforms T rt v -> Sound T st'.
Proof.
  intros [S1 S2 S3 S4] Eo Eh Ee Hin Hobj Hrt Hv Hc.
  split; rewrite ?Eo, ?Eh, ?Ee; try done.
  intros y b'. destruct (decide (y = x)) as [->|Hne].
  - rewrite lookup_insert_eq. intros [= <-]. split; [done|]. eauto 10.
  - rewrite lookup_insert_ne by done. apply S2.
Qed.

(** Every statement that ends normally keeps bindings, objects and
    heap sound. *)
Lemma exec_Sound st s st' :
  Inv T st -> Sound T st -> _exec_statement s st = (Ok tt, st') -> Sound T st'.
Proof.
  intros I S H. pose proof (inv_agree _ _ I) as Ha.
  destruct (exec_effect T0 T L Hkeys st s st' I H) as [_ He].
  destruct s as [x c args|x src|x target src|x src|x f v|x m|x m|x t|x|];
    cbn [effect] in He.
  - destruct He as (cd & Hc & Hi & Hlen & Eo & Eh & Ee & _).
    destruct (proj2 Ha _ _ Hc) as (cd0 & Hc0 & Hcc).
    destruct (cached_static _ _ Hcc)
      as (Hn & Hi' & _ & _ & _ & _ & _ & _ & Haf & _).
    rewrite Hn in Eo, Ee.
    pose proof (get_type_name _ _ _ Hc0) as Hn0.
    eapply (Sound_allocate st st' x _ cd0 cd0); try done.
    + simpl. by rewrite Hn0.
    + congruence.
    + simpl. congruence.
    + by rewrite Hn0.
    + unfold conforms. rewrite <- Hi', Hi.
      eapply (subclass_refl T0 T L); [done | congruence].
  - destruct He as (b & i & Hsrc & Hobj & Eo & Eh & Ee & _).
    destruct (snd_env _ _ S _ _ Hsrc) as (_ & i' & rt & v & Hobj' & Hrt & Hv & Hc).
    assert (i' = i) as -> by congruence.
    destruct (snd_objects _ _ S _ _ Hobj) as (rt' & Hrt' & Hi & Hlen).
    assert (rt' = rt) as -> by congruence.
    pose proof (get_type_name _ _ _ Hv) as Hnv. rewrite <- Hnv in Ee, Hv.
    by eapply (Sound_allocate st st' x _ rt v).
  - destruct He as (b & i & tg & rt & Hsrc & Htg & Hobj & Hrt & Hchk & Ee & Eo & Eh & _).
    destruct (snd_env _ _ S _ _ Hsrc) as (Hin & i' & rt0 & v & Hobj' & Hrt0 & _).
    assert (i' = i) as -> by congruence.
    destruct (proj2 Ha _ _ Htg) as (tg0 & Htg0 & Hct).
    destruct (proj2 Ha _ _ Hrt) as (rt0' & Hrt0' & Hcr).
    assert (rt0' = rt0) as -> by congruence.
    eapply (Sound_bind st st' x _ i rt0 tg0); try done.
    + simpl. by rewrite (get_type_name _ _ _ Htg).
    + by eapply conforms_agree.
  - destruct He as (b & Hsrc & Ee & Eo & Eh & _).
    destruct (snd_env _ _ S _ _ Hsrc) as (Hin & i & rt & v & Hobj & Hrt & Hv & Hc).
    by eapply (Sound_bind st st' x _ i rt v).
  - destruct He as (b & i & c & idx & Hx & Hobj & Hc & Hf & Hlt & Eo & Ee & Eh & _).
    destruct S as [S1 S2 S3 S4]. split; rewrite ?Eo, ?Ee, ?Eh; try done.
    + intros a j Hj. destruct (decide (a = inst b)) as [->|Hne].
      * rewrite list_lookup_insert_eq in Hj by (by eapply lookup_lt_Some).
        injection Hj as <-. simpl. rewrite length_insert. by eapply S1.
      * rewrite list_lookup_insert_ne in Hj by done. by eapply S1.
    + intros y b' Hy.
      destruct (S2 _ _ Hy) as (Hin & j & rt & vw & Hobj' & Hrt & Hv & Hcf).
      split; [done|].
      destruct (decide (inst b' = inst b)) as [E|Hne].
      * rewrite E in Hobj' |- *. assert (j = i) as -> by congruence.
        exists (mkInstance (cls i) (<[idx := v]> (values i))), rt, vw.
        split; [|done]. apply list_lookup_insert_eq. by eapply lookup_lt_Some.
      * exists j, rt, vw. split; [|done]. by rewrite list_lookup_insert_ne.
    + intros a. rewrite length_insert. apply S4.
  - destruct He as (b & p & s1 & i & vs & _ & _ & _ & _ & _ & Ee & Eo & Eh).
    destruct S as [S1 S2 S3 S4]. split; rewrite ?Eo, ?Ee, ?Eh; done.
  - destruct He as (b & p & s1 & i & vs & _ & _ & _ & _ & _ & Ee & Eo & Eh).
    destruct S as [S1 S2 S3 S4]. split; rewrite ?Eo, ?Ee, ?Eh; done.
  - destruct He as (_ & Ee & Eo & Eh).
    destruct S as [S1 S2 S3 S4]. split; rewrite ?Eo, ?Ee, ?Eh; done.
  - destruct He as (_ & Ee & Eo & Eh & _).
    destruct S as [S1 S2 S3 S4]. split; rewrite ?Eo, ?Ee, ?Eh; try done.
    intros y b Hy. apply lookup_delete_Some in Hy as [_ Hy]. by apply (S2 y).
  - destruct He as (Eh & Ee & Eo & _).
    destruct S as [S1 S2 S3 S4]. split; rewrite ?Eo, ?Ee, ?Eh; try done.
    + intros y b Hy. destruct (S2 _ _ Hy) as (Hin & Hrest). split; [|done].
      destruct (enable_gc (cfg st)); [|done].
      apply list_elem_of_filter. split; [|done].
      apply elem_of_roots. eauto.
    + destruct (enable_gc (cfg st)); [|done]. by apply NoDup_filter.
    + intros a Hin. apply S4. destruct (enable_gc (cfg st)); [|done].
      by apply list_elem_of_filter in Hin as [_ Hin].
Qed.
End sound.

Lemma reachable_Sound T0 T st :
  declarations T0 -> _resolve_and_link T0 = Ok T -> reachable T st -> Sound T st.
Proof.
  intros HD Hlink Hr. induction Hr as [config clk|st s st' Hr IH H].
  - apply Sound_new.
  - pose proof (reachable_Inv _ _ _ HD Hlink Hr) as I.
    destruct HD as (Hnd & HC & Hkeys).
    pose proof (link_Linked _ _ Hnd HC Hlink) as L.
    by eapply (exec_Sound T0 T L Hkeys st s st').
Qed.

(** In every state of a run over a linked table, a bound name refers to
    an object of the store that is on the heap; the object belongs to a
    class of the table and holds one value per field of that class; and
    the class is a subclass of the view of the binding, or implements it
    when the view is an interface. *)
Theorem bindings_conform T0 T st x b :
  declarations T0 -> _resolve_and_link T0 = Ok T -> reachable T st ->
  env st !! x = Some b ->
  inst b ∈ heap st /\
  exists i rt v,
    objects st !! inst b = Some i /\
    get_type T (cls i) = Some rt /\ is_interface rt = false /\
    length (values i) = length (all_fields rt) /\
    get_type T (view_cls b) = Some v /\
    (if is_interface v then implements_interface T rt v
     else is_subclass_of T rt v) = Ok true.
Proof.
  intros HD Hlink Hr Hx.
  pose proof (reachable_Sound _ _ _ HD Hlink Hr) as S.
  destruct (snd_env _ _ S _ _ Hx) as (Hin & i & rt & v & Hobj & Hrt & Hv & Hc).
  destruct (snd_objects _ _ S _ _ Hobj) as (rt' & Hrt' & Hi & Hlen).
  assert (rt' = rt) as -> by congruence.
  split; [done|]. exists i, rt, v. done.
Qed.

Lemma bindings_conform_witness :
  0 ∈ heap (Runs.after Runs.fast Runs.prog) /\
  exists i rt v,
    objects (Runs.after Runs.fast Runs.prog) !! 0 = Some i /\
    get_type Linked_example.T (cls i) = Some rt /\ is_interface rt = false /\
    length (values i) = length (all_fields rt) /\
    get_type Linked_example.T "I" = Some v /\
    (if is_interface v then implements_interface Linked_example.T rt v
     else is_subclass_of Linked_example.T rt v) = Ok true.
Proof.
  apply (bindings_conform Examples.table Linked_example.T
           (Runs.after Runs.fast Runs.prog) "i" (mkVarBinding 0 "I")).
  - exact Linked_example.table_declarations.
  - exact Linked_example.table_links.
  - apply Runs.after_reachable. vm_compute. reflexivity.
  - vm_compute. reflexivity.
Defined.

(** ** Collection *)

Lemma exec_gc st :
  _exec_statement Gc st =
  (Ok tt,
   if enable_gc (cfg st)
   then (if enable_metrics (cfg st)
         then set_metrics
                (set_heap st (filter (fun a => a ∈ roots (env st)) (heap st)))
                (gc_ran (length (heap st) -
                         length (filter (fun a => a ∈ roots (env st)) (heap st)))
                   (metrics st))
         else set_heap st (filter (fun a => a ∈ roots (env st)) (heap st)))
   else st).
Proof.
  unfold _exec_statement, _gc_collect. munfold.
  destruct (enable_gc (cfg st)); [|done]. simpl.
  by destruct (enable_metrics (cfg st)).
Qed.

(** The [gc] statement never fails.  With collection enabled, in a
    state of a run, the heap after it holds exactly the objects that some
    name refers to, each once; names and objects are untouched.  With
    collection disabled the statement does nothing. *)
Theorem gc_keeps_bound T0 T st :
  declarations T0 -> _resolve_and_link T0 = Ok T -> reachable T st ->
  exists st',
    _exec_statement Gc st = (Ok tt, st') /\
    env st' = env st /\ objects st' = objects st /\ stdout st' = stdout st /\
    NoDup (heap st') /\
    (if enable_gc (cfg st)
     then forall a, a ∈ heap st' <-> exists x b, env st !! x = Some b /\ inst b = a
     else st' = st).
Proof.
  intros HD Hlink Hr.
  pose proof (reachable_Sound _ _ _ HD Hlink Hr) as S.
  rewrite exec_gc. eexists. split; [done|].
  destruct (enable_gc (cfg st)).
  - assert (E : forall s, s = (if enable_metrics (cfg st)
         then set_metrics
                (set_heap st (filter (fun a => a ∈ roots (env st)) (heap st)))
                (gc_ran (length (heap st) -
                         length (filter (fun a => a ∈ roots (env st)) (heap st)))
                   (metrics st))
         else set_heap st (filter (fun a => a ∈ roots (env st)) (heap st))) ->
         env s = env st /\ objects s = objects st /\ stdout s = stdout st /\
         heap s = filter (fun a => a ∈ roots (env st)) (heap st)).
    { intros s ->. by destruct (enable_metrics (cfg st)). }
    destruct (E _ eq_refl) as (-> & -> & -> & ->).
    do 3 (split; [done|]). split; [apply NoDup_filter, (snd_nodup _ _ S)|].
    intros a. rewrite list_elem_of_filter, elem_of_roots. split.
    + intros [(x & b & Hx & Hb) _]. eauto.
    + intros (x & b & Hx & <-). split; [eauto|].
      by destruct (snd_env _ _ S _ _ Hx) as [Hin _].
  - do 3 (split; [done|]). split; [apply (snd_nodup _ _ S) | done].
Qed.

Lemma gc_keeps_bound_witness :
  exists st',
    _exec_statement Gc (Runs.after Runs.fast Gc_run.prog) = (Ok tt, st') /\
    env st' = env (Runs.after Runs.fast Gc_run.prog) /\
    objects st' = objects (Runs.after Runs.fast Gc_run.prog) /\
    stdout st' = stdout (Runs.after Runs.fast Gc_run.prog) /\
    NoDup (heap st') /\
    (forall a, a ∈ heap st' <->
       exists x b, env (Runs.after Runs.fast Gc_run.prog) !! x = Some b /\ inst b = a).
Proof.
  apply (gc_keeps_bound Examples.table Linked_example.T
           (Runs.after Runs.fast Gc_run.prog)).
  - exact Linked_example.table_declarations.
  - exact Linked_example.table_links.
  - apply Runs.after_reachable. vm_compute. reflexivity.
Defined.

(** A second collection right after a collection removes nothing: the
    heap stays as the first one left it and the collected counter does
    not move. *)
Theorem gc_twice st :
  exists st1 st2,
    _exec_statement Gc st = (Ok tt, st1) /\
    _exec_statement Gc st1 = (Ok tt, st2) /\
    heap st2 = heap st1 /\ env st2 = env st /\
    gc_collected (metrics st2) = gc_collected (metrics st1).
Proof.
  rewrite exec_gc. eexists _, _. split; [done|]. rewrite exec_gc.
  split; [done|].
  destruct (enable_gc (cfg st)) eqn:Hgc; [|by rewrite Hgc].
  set (h := filter (fun a => a ∈ roots (env st)) (heap st)).
  assert (Hh : filter (fun a => a ∈ roots (env st)) h = h).
  { unfold h. induction (heap st) as [|a l IH]; [done|].
    rewrite filter_cons. destruct (decide (a ∈ roots (env st))) as [Ha|Ha].
    - rewrite filter_cons, decide_True by done. by rewrite IH.
    - done. }
  destruct (enable_metrics (cfg st)) eqn:Hm; simpl; rewrite Hgc, ?Hm; simpl;
    fold h; rewrite Hh; simpl; repeat split; try done.
  rewrite Nat.sub_diag. lia.
Qed.

(** ** Casts and the [is] test *)

Lemma bind_eval {A B} (c : M A) (k : A -> M B) st r st1 :
  c st = (r, st1) ->
  bind c k st = match r with Ok a => k a st1 | Err e => (Err e, st1) end.
Proof. unfold bind. by intros ->. Qed.

Lemma get_binding_eval x st b : env st !! x = Some b -> _get_binding x st = (Ok b, st).
Proof. intros H. unfold _get_binding. munfold. by rewrite H. Qed.

Section cast_is.
Variables T0 T : list ClassDef.
Hypothesis L : Linked T0 T.

Lemma cast_is_same st x y t b :
  Inv T st -> env st !! x = Some b ->
  exists ans : bool,
    _exec_statement (Is x t) st =
      (Ok tt, set_stdout st (stdout st ++ [Line (if ans then "IS" else "ISN'T")])) /\
    (ans = true ->
     _exec_statement (LetCast y t x) st =
       (Ok tt, set_env st (<[y := mkVarBinding (inst b) t]> (env st)))) /\
    (ans = false ->
     exists i e, objects st !! inst b = Some i /\
       _exec_statement (LetCast y t x) st = (Err e, st) /\
       (e = UnknownType t \/ e = CannotCast (cls i) t \/
        e = CannotCastToInterface (cls i) t)).
Proof.
  intros I Hx.
  destruct (binding_class T0 T L st x b I Hx)
    as (i & rt & l & Hobj & Hrt & Hir & Hl & Hlen & _).
  pose proof (get_type_name _ _ _ Hrt) as Hnr.
  destruct (get_type (classes st) t) as [tg|] eqn:Htg.
  - pose proof (is_check st (cls i) rt l tg Hrt Hir Hl Hlen) as Hchk.
    pose proof (get_type_name _ _ _ Htg) as Hnt.
    exists (is_answer (rt :: l) tg). split; [|split].
    + unfold _exec_statement, _exec_is. munfold. rewrite Hx, Htg, Hobj.
      unfold deref. rewrite Hrt. simpl. by rewrite Hchk.
    + intros Hans. unfold _exec_statement, _get_binding, _cast_binding. munfold.
      rewrite Hx. simpl. rewrite Htg, Hobj. unfold deref. rewrite Hrt. simpl.
      rewrite Hans in Hchk.
      destruct (is_interface tg); rewrite Hchk; simpl; by rewrite Hnt.
    + intros Hans. rewrite Hans in Hchk.
      assert (Hc : _cast_binding b t st =
        (Err (if is_interface tg then CannotCastToInterface (cls i) t
              else CannotCast (cls i) t), st)).
      { unfold _cast_binding. munfold. rewrite Htg, Hobj. unfold deref.
        rewrite Hrt. simpl.
        destruct (is_interface tg); rewrite Hchk; simpl; by rewrite Hnt, Hnr. }
      exists i, (if is_interface tg then CannotCastToInterface (cls i) t
                 else CannotCast (cls i) t).
      split; [done|]. split.
      * cbn [_exec_statement].
        rewrite (bind_eval _ _ _ _ _ (get_binding_eval _ _ _ Hx)).
        by rewrite (bind_eval _ _ _ _ _ Hc).
      * destruct (is_interface tg); auto.
  - exists false. split; [|split].
    + unfold _exec_statement, _exec_is. munfold. by rewrite Hx, Htg.
    + done.
    + intros _. exists i, (UnknownType t). split; [done|]. split; [|auto].
      unfold _exec_statement, _get_binding, _cast_binding. munfold.
      rewrite Hx. simpl. by rewrite Htg.
Qed.
End cast_is.

(** ** Field assignment, clones and aliases *)

Section assign.
Variables T0 T : list ClassDef.
Hypothesis L : Linked T0 T.

Lemma field_assign_eval st x f v b i c :
  env st !! x = Some b -> objects st !! inst b = Some i ->
  get_type (classes st) (cls i) = Some c ->
  _exec_statement (FieldAssign x f v) st =
  match _field_index c !! f with
  | None => (Err (UnknownFieldOfInstance f (name c)), st)
  | Some k =>
      if decide (k < length (values i))
      then (Ok tt, set_objects st
              (<[inst b := mkInstance (cls i) (<[k := v]> (values i))]> (objects st)))
      else (Err IndexError, st)
  end.
Proof.
  intros Hx Hobj Hc. cbn [_exec_statement]. unfold _exec_field_assign.
  rewrite (bind_eval _ _ _ _ _ (get_binding_eval _ _ _ Hx)).
  munfold. rewrite Hobj. unfold deref. rewrite Hc.
  destruct (_field_index c !! f) as [k|]; [|done].
  unfold store_at. by destruct (decide (k < length (values i))).
Qed.

Lemma field_assign_sound st x f v b :
  Inv T st -> Sound T st -> env st !! x = Some b ->
  exists i rt,
    objects st !! inst b = Some i /\ get_type T (cls i) = Some rt /\
    match _field_index rt !! f with
    | Some k =>
        all_fields rt !! k = Some f /\ k < length (values i) /\
        _exec_statement (FieldAssign x f v) st =
          (Ok tt, set_objects st
             (<[inst b := mkInstance (cls i) (<[k := v]> (values i))]> (objects st)))
    | None =>
        f ∉ all_fields rt /\
        _exec_statement (FieldAssign x f v) st =
          (Err (UnknownFieldOfInstance f (cls i)), st)
    end.
Proof.
  intros I S Hx.
  destruct (snd_env _ _ S _ _ Hx) as (_ & i & rt & vw & Hobj & Hrt & _).
  destruct (snd_objects _ _ S _ _ Hobj) as (rt' & Hrt' & Hi & Hlen).
  assert (rt' = rt) as -> by congruence.
  destruct (agree_back _ _ _ _ (inv_agree _ _ I) Hrt) as (c & Hc & Hcc).
  destruct (cached_static _ _ Hcc) as (Hn & _ & _ & _ & _ & Hidx & _).
  destruct (lk_layout _ _ L _ _ Hrt) as [_ Hdict].
  exists i, rt. split; [done|]. split; [done|].
  rewrite (field_assign_eval st x f v b i c Hx Hobj Hc), Hidx, Hn.
  rewrite (get_type_name _ _ _ Hrt).
  destruct (_field_index rt !! f) as [k|] eqn:Hf.
  - rewrite Hdict in Hf. apply index_dict_lookup in Hf.
    assert (Hk : k < length (values i)).
    { rewrite Hlen. by eapply lookup_lt_Some. }
    rewrite decide_True by done. done.
  - split; [|done]. intros Hin. apply index_dict_in in Hin as [k Hk].
    rewrite <- Hdict in Hk. congruence.
Qed.
End assign.



Lemma clone_eval st x y b i :
  env st !! x = Some b -> objects st !! inst b = Some i ->
  _exec_statement (LetClone y x) st =
  (Ok tt,
   set_env (set_heap (set_objects st (objects st ++ [mkInstance (cls i) (values i)]))
              (heap st ++ [length (objects st)]))
     (<[y := mkVarBinding (length (objects st)) (view_cls b)]> (env st))).
Proof.
  intros Hx Hobj. cbn [_exec_statement].
  rewrite (bind_eval _ _ _ _ _ (get_binding_eval _ _ _ Hx)).
  unfold _clone. munfold. by rewrite Hobj.
Qed.





(** * What the interpreter's methods leave alone *)

(** [keeps proj c]: whatever [c] returns, a result or a failure, the
    part [proj] of the interpreter is as before. *)
Definition keeps {A B} (proj : Interpreter -> B) (c : M A) : Prop :=
  forall st r st', c st = (r, st') -> proj st' = proj st.

Section keeps.
Context {B : Type} (proj : Interpreter -> B).

Lemma keeps_ret {A} (a : A) : keeps proj (ret a).
Proof. by intros st r st' [= _ <-]. Qed.

Lemma keeps_raise {A} e : keeps proj (raise (A := A) e).
Proof. by intros st r st' [= _ <-]. Qed.

Lemma keeps_lift {A} (x : Res A) : keeps proj (lift x).
Proof. by intros st r st' [= _ <-]. Qed.

Lemma keeps_get : keeps proj get.
Proof. by intros st r st' [= _ <-]. Qed.

Lemma keeps_deref_class h : keeps proj (deref_class h).
Proof. by intros st r st' [= _ <-]. Qed.

Lemma keeps_deref_object a : keeps proj (deref_object a).
Proof. by intros st r st' [= _ <-]. Qed.

Lemma keeps_bind {A C} (c : M A) (k : A -> M C) :
  keeps proj c -> (forall a, keeps proj (k a)) -> keeps proj (bind c k).
Proof.
  intros Hc Hk st r st'. unfold bind.
  destruct (c st) as [[a|e] st1] eqn:E.
  - intros H. rewrite (Hk a _ _ _ H). by eapply Hc.
  - intros [= _ <-]. by eapply Hc.
Qed.

Lemma keeps_modify f : (forall st, proj (f st) = proj st) -> keeps proj (modify f).
Proof. intros Hf st r st' [= _ <-]. apply Hf. Qed.

Lemma keeps_get_binding x : keeps proj (_get_binding x).
Proof.
  unfold _get_binding. apply keeps_bind; [apply keeps_get|]. intros st0.
  destruct (env st0 !! x); [apply keeps_ret | apply keeps_raise].
Qed.
End keeps.

(** One step of a proof that a method keeps a part of the state. *)
Ltac keeps_step :=
  match goal with
  | |- keeps _ (bind _ _) => apply keeps_bind; [|intros ?]
  | |- keeps _ (ret _) => apply keeps_ret
  | |- keeps _ (raise _) => apply keeps_raise
  | |- keeps _ (lift _) => apply keeps_lift
  | |- keeps _ get => apply keeps_get
  | |- keeps _ (deref_class _) => apply keeps_deref_class
  | |- keeps _ (deref_object _) => apply keeps_deref_object
  | |- keeps _ (_get_binding _) => apply keeps_get_binding
  | |- keeps _ (match ?x with _ => _ end) => destruct x
  end.

(** ** The walk counters *)

(** [m'] differs from [m] in the three counters of the walk at most. *)
Definition walk_only (m m' : Metrics) : Prop :=
  resolve_calls m' = resolve_calls m /\ resolve_time_ns m' = resolve_time_ns m /\
  resolve_steps m' = resolve_steps m /\ cache_hits m' = cache_hits m /\
  cache_misses m' = cache_misses m /\ vtable_uses m' = vtable_uses m /\
  itable_uses m' = itable_uses m /\ gc_runs m' = gc_runs m /\
  gc_collected m' = gc_collected m.

Lemma walk_only_refl m : walk_only m m.
Proof. by repeat split. Qed.

Lemma walk_only_trans m1 m2 m3 : walk_only m1 m2 -> walk_only m2 m3 -> walk_only m1 m3.
Proof. unfold walk_only. intros H1 H2. repeat split; naive_solver congruence. Qed.

Lemma probe_walk_only keys m : forall mt, walk_only mt (probe_methods keys m mt).2.
Proof.
  induction keys as [|k keys IH]; intros mt; simpl; [apply walk_only_refl|].
  destruct (decide (k = m)); [by repeat split|].
  eapply walk_only_trans; [|apply IH]. by repeat split.
Qed.

Lemma set_metrics_same st : set_metrics st (metrics st) = st.
Proof. by destruct st. Qed.

Lemma lookup_loop_walk fuel : forall c m steps st r st',
  _lookup_with_steps_loop fuel c m steps st = (r, st') ->
  exists m', st' = set_metrics st m' /\ walk_only (metrics st) m'.
Proof.
  induction fuel as [|fuel IH]; intros c m steps st r st'; destruct c as [h|]; simpl;
    try (intros [= _ <-]; exists (metrics st);
         split; [by rewrite set_metrics_same | apply walk_only_refl]).
  unfold bind, deref_class. destruct (deref (classes st) h) as [t|];
    [|intros [= _ <-]; exists (metrics st);
      split; [by rewrite set_metrics_same | apply walk_only_refl]].
  unfold count, modify, get. simpl.
  pose proof (probe_walk_only (dict_keys (methods t)) m (jump (metrics st))) as Hw.
  assert (Hj : walk_only (metrics st)
                 (probe_methods (dict_keys (methods t)) m (jump (metrics st))).2).
  { eapply walk_only_trans; [|exact Hw]. by repeat split. }
  destruct (probe_methods _ _ _).1.
  - destruct (dict_get (methods t) m); intros [= _ <-]; eauto.
  - intros H. apply IH in H as (m' & -> & Hw'). simpl in Hw'.
    exists m'. split; [done|]. by eapply walk_only_trans.
Qed.

(** ** Parts of the state a resolution cannot change *)

(** A part of the state that does not depend on the walk counters, on
    the guarded counters and the clock, nor on the plan caches of the
    classes. *)
Record Insensitive {B} (proj : Interpreter -> B) : Prop := {
  ins_walk : forall st m', walk_only (metrics st) m' ->
    proj (set_metrics st m') = proj st;
  ins_when : forall f, keeps proj (when_metrics f);
  ins_start : keeps proj start_timer;
  ins_stop : forall s f, keeps proj (stop_timer s f);
  ins_classes : forall st c, proj (set_classes st c) = proj st
}.

Section keeps_walk.
Context {B : Type} (proj : Interpreter -> B).
Hypothesis Hins : Insensitive proj.

Lemma keeps_lookup start m : keeps proj (_lookup_with_steps start m).
Proof.
  intros st r st'. unfold _lookup_with_steps, bind, get. intros H.
  apply lookup_loop_walk in H as (m' & -> & Hw). by apply (ins_walk _ Hins).
Qed.

Lemma keeps_lookup_tokens view runtime m dynamic :
  keeps proj (lookup_tokens view runtime m dynamic).
Proof.
  unfold lookup_tokens.
  repeat (keeps_step || apply keeps_lookup).
Qed.

Lemma keeps_build_itable runtime iface slots : forall plans,
  keeps proj (build_itable runtime iface slots plans).
Proof.
  induction slots as [|[m slot] slots IH]; intros plans; simpl.
  - apply keeps_ret.
  - repeat (keeps_step || apply keeps_lookup || apply (ins_when _ Hins)).
    apply IH.
Qed.

Lemma keeps_vtable_plan runtime slot : keeps proj (_vtable_plan runtime slot).
Proof.
  unfold _vtable_plan.
  repeat (keeps_step || apply (ins_when _ Hins) || apply (ins_start _ Hins)
          || apply (ins_stop _ Hins)
          || (apply keeps_modify; intros; apply (ins_classes _ Hins))).
Qed.

Lemma keeps_itable_plan runtime iface m : keeps proj (_itable_plan runtime iface m).
Proof.
  unfold _itable_plan.
  repeat (keeps_step || apply (ins_when _ Hins) || apply (ins_start _ Hins)
          || apply (ins_stop _ Hins) || apply keeps_build_itable
          || (apply keeps_modify; intros; apply (ins_classes _ Hins))).
Qed.

Lemma keeps_cast_binding b t : keeps proj (_cast_binding b t).
Proof. unfold _cast_binding. repeat keeps_step. Qed.

Lemma keeps_resolve b m dynamic :
  (forall st c, proj (set_plan_cache st c) = proj st) ->
  keeps proj (_resolve_call_plan b m dynamic).
Proof.
  intros Hpc. unfold _resolve_call_plan.
  repeat (keeps_step || apply (ins_when _ Hins) || apply (ins_start _ Hins)
          || apply (ins_stop _ Hins) || apply keeps_lookup_tokens
          || apply keeps_vtable_plan || apply keeps_itable_plan
          || (apply keeps_modify; intros; apply Hpc)).
Qed.
End keeps_walk.

(** ** Names, objects, heap and output *)

Definition user_state (st : Interpreter) :=
  (cfg st, env st, objects st, heap st, stdout st).

Ltac ins_fun :=
  intros ? ? ?;
  unfold when_metrics, start_timer, stop_timer, perf_counter_ns, bind, count, modify;
  repeat match goal with
  | |- context [if ?x then _ else _] => destruct x eqn:?
  end; intros [= _ <-]; simpl; rewrite ?Nat.add_0_r; try done.

Lemma user_state_insensitive : Insensitive user_state.
Proof. split; try done; intros; ins_fun. Qed.

Lemma resolve_user_state b m dynamic st r st' :
  _resolve_call_plan b m dynamic st = (r, st') ->
  cfg st' = cfg st /\ env st' = env st /\ objects st' = objects st /\
  heap st' = heap st /\ stdout st' = stdout st.
Proof.
  intros H.
  pose proof (keeps_resolve user_state user_state_insensitive b m dynamic
                (fun _ _ => eq_refl) st r st' H) as E.
  unfold user_state in E. by injection E.
Qed.

(** Resolving a call, whether it returns a plan or fails, changes
    neither the configuration nor the names, the objects, the heap or
    the output: it only fills caches and counts. *)
Theorem resolution_has_no_visible_effect b m dynamic st r st' :
  _resolve_call_plan b m dynamic st = (r, st') ->
  cfg st' = cfg st /\ env st' = env st /\ objects st' = objects st /\
  heap st' = heap st /\ stdout st' = stdout st.
Proof.
  intros H.
  assert (K : keeps user_state (_resolve_call_plan b m dynamic)).
  { apply keeps_resolve; [apply user_state_insensitive | done]. }
  apply K in H. unfold user_state in H. by injection H.
Qed.

Lemma resolution_has_no_visible_effect_witness :
  env (_resolve_call_plan (mkVarBinding 0 "A") "nope" true
         (Runs.after Runs.fast Runs.prog)).2 = env (Runs.after Runs.fast Runs.prog) /\
  heap (_resolve_call_plan (mkVarBinding 0 "A") "nope" true
         (Runs.after Runs.fast Runs.prog)).2 = heap (Runs.after Runs.fast Runs.prog).
Proof.
  destruct (resolution_has_no_visible_effect (mkVarBinding 0 "A") "nope" true
              (Runs.after Runs.fast Runs.prog)
              (_resolve_call_plan (mkVarBinding 0 "A") "nope" true
                 (Runs.after Runs.fast Runs.prog)).1
              (_resolve_call_plan (mkVarBinding 0 "A") "nope" true
                 (Runs.after Runs.fast Runs.prog)).2)
    as (_ & He & _ & Hh & _).
  - vm_compute. reflexivity.
  - split; [exact He | exact Hh].
Defined.

(** ** Parts of the state no statement can change *)

Record Internal {B} (proj : Interpreter -> B) : Prop := {
  int_ins : Insensitive proj;
  int_env : forall st e, proj (set_env st e) = proj st;
  int_objects : forall st o, proj (set_objects st o) = proj st;
  int_heap : forall st h, proj (set_heap st h) = proj st;
  int_stdout : forall st o, proj (set_stdout st o) = proj st
}.

Definition is_call (s : Stmt) : bool :=
  match s with Call _ _ | VCall _ _ => true | _ => false end.

Section keeps_exec.
Context {B : Type} (proj : Interpreter -> B).
Hypothesis Hint : Internal proj.

Lemma keeps_allocate i : keeps proj (allocate i).
Proof. intros st r st' [= _ <-]. apply (int_objects _ Hint). Qed.

Lemma keeps_bind_name x b : keeps proj (bind_name x b).
Proof. apply keeps_modify. intros. apply (int_env _ Hint). Qed.

Lemma keeps_print l : keeps proj (print l).
Proof. apply keeps_modify. intros. apply (int_stdout _ Hint). Qed.

Lemma keeps_exec_statement s :
  (is_call s = true -> forall b m d, keeps proj (_resolve_call_plan b m d)) ->
  keeps proj (_exec_statement s).
Proof.
  intros Hres. pose proof (int_ins _ Hint) as Hins.
  destruct s; cbn [_exec_statement];
    unfold _instantiate, _clone, _exec_field_assign, _exec_call, _exec_is,
      _exec_free, _gc_collect;
    repeat (keeps_step || apply keeps_allocate || apply keeps_bind_name
            || apply keeps_print || apply (ins_when _ Hins)
            || apply keeps_cast_binding
            || (by apply Hres)
            || (apply keeps_modify; intros;
                first [apply (int_heap _ Hint) | apply (int_env _ Hint)
                      | apply (int_objects _ Hint)])).
Qed.
End keeps_exec.

(** ** With metrics disabled *)

Definition guarded (m : Metrics) :=
  (resolve_calls m, resolve_time_ns m, resolve_steps m, cache_hits m,
   cache_misses m, vtable_uses m, itable_uses m, gc_runs m, gc_collected m).

Definition quiet_state (st : Interpreter) :=
  (cfg st,
   if enable_metrics (cfg st) then None
   else Some (guarded (metrics st), clock_reads st)).

Lemma quiet_state_internal : Internal quiet_state.
Proof.
  split; try done. split; try done.
  - intros st m' (H1 & H2 & H3 & H4 & H5 & H6 & H7 & H8 & H9).
    unfold quiet_state, guarded. simpl.
    destruct (enable_metrics (cfg st)); [done|]. congruence.
  - intros f st r st'. unfold when_metrics, quiet_state.
    destruct (enable_metrics (cfg st)) eqn:E; intros [= _ <-]; simpl; by rewrite E.
  - intros st r st'. unfold start_timer, perf_counter_ns, quiet_state.
    destruct (enable_metrics (cfg st)) eqn:E; intros [= _ <-]; simpl; by rewrite E.
  - intros s f st r st'. unfold stop_timer, perf_counter_ns, bind, count, modify,
      quiet_state.
    destruct (enable_metrics (cfg st)) eqn:E; intros [= _ <-]; simpl; by rewrite E.
Qed.

(** In a run with metrics disabled the guarded counters stay at zero
    and the clock is never read; only the three counters of the walk up
    the base chain move. *)
Theorem metrics_disabled_counts_nothing T st :
  reachable T st -> enable_metrics (cfg st) = false ->
  resolve_calls (metrics st) = 0 /\ resolve_time_ns (metrics st) = 0%Z /\
  resolve_steps (metrics st) = 0 /\ cache_hits (metrics st) = 0 /\
  cache_misses (metrics st) = 0 /\ vtable_uses (metrics st) = 0 /\
  itable_uses (metrics st) = 0 /\ gc_runs (metrics st) = 0 /\
  gc_collected (metrics st) = 0 /\ clock_reads st = 0.
Proof.
  intros Hr Hm.
  assert (H : quiet_state st =
            (cfg st, if enable_metrics (cfg st) then None
                     else Some (guarded new_Metrics, 0))).
  { clear Hm. induction Hr as [config clk|st s st' Hr IH H]; [done|].
    assert (E : quiet_state st' = quiet_state st).
    { apply (keeps_exec_statement quiet_state quiet_state_internal s) in H; [done|].
      intros _ b m d.
      apply keeps_resolve; [apply (int_ins _ quiet_state_internal) | done]. }
    rewrite E, IH. apply (f_equal fst) in E. simpl in E. by rewrite E. }
  unfold quiet_state in H. rewrite Hm in H. apply (f_equal snd) in H.
  simpl in H. unfold guarded in H. by injection H.
Qed.

Lemma metrics_disabled_counts_nothing_witness :
  resolve_calls (metrics (Runs.after default_Config (Runs.prog ++ [VCall "a" "get"]))) = 0 /\
  class_jumps (metrics (Runs.after default_Config (Runs.prog ++ [VCall "a" "get"]))) <> 0.
Proof.
  destruct (metrics_disabled_counts_nothing Linked_example.T
              (Runs.after default_Config (Runs.prog ++ [VCall "a" "get"])))
    as (H & _).
  - apply Runs.after_reachable. vm_compute. reflexivity.
  - vm_compute. reflexivity.
  - split; [exact H|]. vm_compute. discriminate.
Defined.

(** ** Failures *)

(** [safe proj c]: when [c] fails, the part [proj] of the interpreter is
    as before. *)
Definition safe {A B} (proj : Interpreter -> B) (c : M A) : Prop :=
  forall st e st', c st = (Err e, st') -> proj st' = proj st.

Section safe.
Context {B : Type} (proj : Interpreter -> B).

Lemma safe_keeps {A} (c : M A) : keeps proj c -> safe proj c.
Proof. intros H st e st'. apply H. Qed.

Lemma safe_bind {A C} (c : M A) (k : A -> M C) :
  keeps proj c -> (forall a, safe proj (k a)) -> safe proj (bind c k).
Proof.
  intros Hc Hk st e st'. unfold bind.
  destruct (c st) as [[a|e'] st1] eqn:E.
  - intros H. rewrite (Hk a _ _ _ H). by eapply Hc.
  - intros [= _ <-]. by eapply Hc.
Qed.

Lemma safe_modify f : safe proj (modify f).
Proof. by intros st e st' [=]. Qed.

Lemma safe_ret {A} (a : A) : safe proj (ret a).
Proof. by intros st e st' [=]. Qed.
End safe.

Lemma safe_exec_statement s : safe user_state (_exec_statement s).
Proof.
  pose proof user_state_insensitive as Hins.
  destruct s as [x c args|x src|x target src|x src|x f v|x m|x m|x t|x|];
    cbn [_exec_statement].
  - (* new: every check precedes the allocation *)
    intros st e st'. unfold _instantiate. munfold.
    destruct (get_type (classes st) c) as [cd|]; [|by intros [= _ <-]].
    destruct (is_interface cd); [by intros [= _ <-]|].
    destruct (negb _); [by intros [= _ <-]|].
    simpl. by rewrite lookup_app_r, Nat.sub_diag.
  - (* clone *)
    apply safe_bind; [apply keeps_get_binding|]. intros b st e st'.
    unfold _clone. munfold.
    destruct (objects st !! inst b); [|by intros [= _ <-]]. done.
  - (* cast *)
    apply safe_bind; [apply keeps_get_binding|]. intros b.
    apply safe_bind; [apply keeps_cast_binding|]. intros b'. apply safe_modify.
  - (* alias *)
    apply safe_bind; [apply keeps_get_binding|]. intros b. apply safe_modify.
  - (* field assignment *)
    unfold _exec_field_assign.
    apply safe_bind; [apply keeps_get_binding|]. intros b.
    apply safe_bind; [apply keeps_deref_object|]. intros i.
    apply safe_bind; [apply keeps_deref_class|]. intros cd.
    destruct (_field_index cd !! f); [|apply safe_keeps, keeps_raise].
    apply safe_bind; [apply keeps_lift|]. intros vs. apply safe_modify.
  - (* call *)
    unfold _exec_call.
    apply safe_bind; [apply keeps_get_binding|]. intros b.
    apply safe_bind; [by apply keeps_resolve|]. intros p.
    apply safe_bind; [apply keeps_deref_object|]. intros i.
    apply safe_bind; [apply keeps_lift|]. intros vs. apply safe_modify.
  - (* vcall *)
    unfold _exec_call.
    apply safe_bind; [apply keeps_get_binding|]. intros b.
    apply safe_bind; [by apply keeps_resolve|]. intros p.
    apply safe_bind; [apply keeps_deref_object|]. intros i.
    apply safe_bind; [apply keeps_lift|]. intros vs. apply safe_modify.
  - (* is *)
    unfold _exec_is. apply safe_bind; [apply keeps_get|]. intros st0.
    destruct (env st0 !! x); [|apply safe_modify].
    destruct (get_type (classes st0) t); [|apply safe_modify].
    apply safe_bind; [apply keeps_deref_object|]. intros i.
    apply safe_bind; [apply keeps_deref_class|]. intros cd.
    apply safe_bind; [apply keeps_lift|]. intros r. apply safe_modify.
  - (* free *)
    unfold _exec_free. apply safe_bind; [apply keeps_get|]. intros st0.
    destruct (env st0 !! x); [apply safe_modify | apply safe_keeps, keeps_raise].
  - (* gc *)
    intros st e st'. unfold _gc_collect. munfold.
    destruct (enable_gc (cfg st)); [|done]. simpl.
    by destruct (enable_metrics (cfg st)).
Qed.

(** A statement that fails leaves the configuration, the names, the
    objects, the heap and the output as they were before it: what a
    failed statement may have changed is counters and caches only. *)
Theorem failed_statement_changes_nothing s st e st' :
  _exec_statement s st = (Err e, st') ->
  cfg st' = cfg st /\ env st' = env st /\ objects st' = objects st /\
  heap st' = heap st /\ stdout st' = stdout st.
Proof.
  intros H. pose proof (safe_exec_statement s st e st' H) as E.
  unfold user_state in E. by injection E.
Qed.

Lemma failed_statement_changes_nothing_witness :
  exists st',
    _exec_statement (VCall "i" "dflt") (Runs.after Runs.fast Runs.prog) =
      (Err (ItableMissing "C" "I" "dflt"), st') /\
    env st' = env (Runs.after Runs.fast Runs.prog) /\
    heap st' = heap (Runs.after Runs.fast Runs.prog) /\
    metrics st' <> metrics (Runs.after Runs.fast Runs.prog).
Proof.
  exists (_exec_statement (VCall "i" "dflt") (Runs.after Runs.fast Runs.prog)).2.
  assert (H : _exec_statement (VCall "i" "dflt") (Runs.after Runs.fast Runs.prog) =
    (Err (ItableMissing "C" "I" "dflt"),
     (_exec_statement (VCall "i" "dflt") (Runs.after Runs.fast Runs.prog)).2))
    by (vm_compute; reflexivity).
  split; [exact H|].
  destruct (failed_statement_changes_nothing _ _ _ _ H) as (_ & He & _ & Hh & _).
  split; [exact He|]. split; [exact Hh|]. vm_compute. discriminate.
Defined.

(** * What a call resolves to *)

Lemma plan_cache_insensitive : Insensitive _plan_cache.
Proof. split; try done; intros; ins_fun. Qed.

Lemma plan_cache_internal : Internal _plan_cache.
Proof. split; [apply plan_cache_insensitive | done..]. Qed.

(** The token sequence a call takes: for a virtual call the nearest
    declaration above the runtime class; for a static call through a
    class the nearest declaration above the view; for a static call
    through an interface the interface's own tokens when it has some,
    and otherwise the nearest declaration above the runtime class. *)
Definition call_tokens (vt : ClassDef) (lv lr : list ClassDef) (m : string)
    (dynamic : bool) : option (list string) :=
  if dynamic then first_decl lr m
  else if is_interface vt
  then match dict_get (methods vt) m with
       | Some (tok :: toks) => Some (tok :: toks)
       | _ => first_decl lr m
       end
  else first_decl lv m.

(** [p] is the plan of the call of [m] on an object of class [r] seen
    as [v]: the tokens of the call compiled against the layout of [r]. *)
Definition call_plan (T : list ClassDef) (dynamic : bool) (v r m : string)
    (p : MethodPlan) : Prop :=
  exists vt rt lv lr toks,
    get_type T v = Some vt /\ get_type T r = Some rt /\
    Chain T (Some v) lv /\ Chain T (Some r) lr /\
    call_tokens vt lv lr m dynamic = Some toks /\
    _compile_plan rt m toks = Ok p.

Lemma call_plan_fun T dynamic v r m p1 p2 :
  call_plan T dynamic v r m p1 -> call_plan T dynamic v r m p2 -> p1 = p2.
Proof.
  intros (vt1 & rt1 & lv1 & lr1 & toks1 & Hv1 & Hr1 & Hlv1 & Hlr1 & Ht1 & Hc1)
         (vt2 & rt2 & lv2 & lr2 & toks2 & Hv2 & Hr2 & Hlv2 & Hlr2 & Ht2 & Hc2).
  assert (vt2 = vt1) as -> by congruence.
  assert (rt2 = rt1) as -> by congruence.
  rewrite (Chain_fun _ _ _ _ Hlv2 Hlv1), (Chain_fun _ _ _ _ Hlr2 Hlr1) in Ht2.
  congruence.
Qed.

Lemma call_tokens_cached vt vt' lv lv' lr lr' m dynamic :
  cached vt vt' -> Forall2 cached lv lv' -> Forall2 cached lr lr' ->
  call_tokens vt' lv' lr' m dynamic = call_tokens vt lv lr m dynamic.
Proof.
  intros Hc Hv Hr. unfold call_tokens.
  destruct (cached_static _ _ Hc) as (_ & -> & _ & _ & -> & _).
  by rewrite (first_decl_cached _ _ m Hv), (first_decl_cached _ _ m Hr).
Qed.

(** The plan cache holds plans of calls. *)
Definition Cached (T : list ClassDef) (st : Interpreter) : Prop :=
  forall mode v r m p, _plan_cache st !! (mode, v, r, m) = Some p ->
    exists dynamic : bool,
      mode = (if dynamic then "dyn" else "static") /\ call_plan T dynamic v r m p.

Section call_plans.
Variables T0 T : list ClassDef.
Hypothesis L : Linked T0 T.
Hypothesis Hkeys : Forall (fun t => NoDup (dict_keys (methods t))) T0.

(** Every type of the table has a chain: a class its base chain, an
    interface itself. *)
Lemma type_chain n t : get_type T n = Some t -> exists l, Chain T (Some n) l.
Proof.
  intros Hg. destruct (is_interface t) eqn:Hi.
  - exists [t]. econstructor; [done|].
    rewrite (lk_base_name _ _ L _ _ Hg), Hi. constructor.
  - destruct (class_chain T0 T L n t Hg Hi) as (l & Hl & _). eauto.
Qed.

Lemma dyn_call_plan v vt r m p :
  get_type T v = Some vt -> dyn_plan T r m p -> call_plan T true v r m p.
Proof.
  intros Hv (rt & lr & toks & Hr & Hlr & Hf & Hc).
  destruct (type_chain v vt Hv) as [lv Hlv].
  exists vt, rt, lv, lr, toks. done.
Qed.

(** The shape of a successful resolution: the fast path leaves the plan
    cache alone; the fallback returns a cached plan, or compiles the
    tokens it looked up and stores the plan when the cache is enabled. *)
Lemma resolve_cache_shape st b m dynamic p st' :
  _resolve_call_plan b m dynamic st = (Ok p, st') ->
  exists i view rt,
    objects st !! inst b = Some i /\
    get_type (classes st) (view_cls b) = Some view /\
    get_type (classes st) (cls i) = Some rt /\
    ((dynamic && enable_vtable (cfg st) = true /\
      _plan_cache st' = _plan_cache st) \/
     (dynamic && enable_vtable (cfg st) = false /\ enable_cache (cfg st) = true /\
      _plan_cache st !! cache_key dynamic view rt m = Some p /\
      _plan_cache st' = _plan_cache st) \/
     (dynamic && enable_vtable (cfg st) = false /\
      (exists s7 r s8 toks, core s7 = core st /\
         lookup_tokens view rt m dynamic s7 = (Ok r, s8) /\
         r.1 = Some toks /\ _compile_plan rt m toks = Ok p) /\
      _plan_cache st' =
        if enable_cache (cfg st)
        then <[cache_key dynamic view rt m := p]> (_plan_cache st)
        else _plan_cache st)).
Proof.
  intros H. unfold _resolve_call_plan in H.
  mbind H as i s1 H1. apply deref_object_Ok in H1 as [Hi ->].
  mbind H as view s2 H2. apply deref_class_Ok in H2 as [Hview ->].
  mbind H as rt s3 H3. apply deref_class_Ok in H3 as [Hrt ->].
  mbind H as st0 s4 H4. apply get_Ok in H4 as [-> ->].
  mbind H as visible s5 H5. apply lift_Ok in H5 as [Hvis ->].
  destruct visible as [vt|]; [|done].
  exists i, view, rt. do 3 (split; [done|]).
  destruct (dynamic && enable_vtable (cfg st)) eqn:Hfast.
  - left. split; [done|].
    match type of H with
    | ?c st = _ => assert (K : keeps _plan_cache c)
    end.
    { pose proof plan_cache_insensitive as Hins.
      repeat (keeps_step || apply (ins_when _ Hins)
              || apply (keeps_vtable_plan _ Hins)
              || apply (keeps_itable_plan _ Hins)). }
    by apply K in H.
  - right. destruct (enable_cache (cfg st)) eqn:Hcache.
    + destruct (_plan_cache st !! cache_key dynamic view rt m) as [plan|] eqn:Hhit.
      * left. mbind H as u s6 H6. apply when_metrics_core in H6.
        apply ret_Ok in H as [-> ->].
        pose proof (core_fields _ _ H6) as (_ & _ & _ & Epc & _).
        done.
      * right. split; [done|].
        mbind H as u s6 H6. apply when_metrics_core in H6.
        mbind H as start s7 H7. apply start_timer_core in H7.
        mbind H as r s8 H8. pose proof (lookup_tokens_core _ _ _ _ _ _ _ H8) as H8c.
        destruct r.1 as [tokens|] eqn:Hr1; [|done].
        mbind H as plan s9 H9. apply lift_Ok in H9 as [Hcomp ->].
        mbind H as u10 s10 H10. apply stop_timer_core in H10.
        mbind H as u11 s11 H11. apply modify_Ok in H11.
        apply ret_Ok in H as [-> ->].
        assert (Hc7 : core s7 = core st) by congruence.
        assert (Hc : core s10 = core st) by congruence.
        pose proof (core_fields _ _ Hc) as (_ & _ & _ & Epc & _).
        split; [exists s7, r, s8, tokens; done|].
        subst s11. simpl. by rewrite Epc.
    + right. split; [done|].
      mbind H as u s6 H6. apply when_metrics_core in H6.
      mbind H as start s7 H7. apply start_timer_core in H7.
      mbind H as r s8 H8. pose proof (lookup_tokens_core _ _ _ _ _ _ _ H8) as H8c.
      destruct r.1 as [tokens|] eqn:Hr1; [|done].
      mbind H as plan s9 H9. apply lift_Ok in H9 as [Hcomp ->].
      mbind H as u10 s10 H10. apply stop_timer_core in H10.
      mbind H as u11 s11 H11. apply ret_Ok in H11 as [_ ->].
      apply ret_Ok in H as [-> ->].
      assert (Hc7 : core s7 = core st) by congruence.
      assert (Hc : core s10 = core st) by congruence.
      pose proof (core_fields _ _ Hc) as (_ & _ & _ & Epc & _).
      split; [exists s7, r, s8, tokens; done|]. done.
Qed.

(** The tokens the fallback looks up for a static call. *)
Lemma lookup_tokens_static st nv view nr rt m r st' :
  Inv T st ->
  get_type (classes st) nv = Some view ->
  get_type (classes st) nr = Some rt -> is_interface rt = false ->
  lookup_tokens view rt m false st = (Ok r, st') ->
  exists lv lr, Chain (classes st) (Some nv) lv /\ Chain (classes st) (Some nr) lr /\
    r.1 = call_tokens view lv lr m false.
Proof.
  intros I Hv Hr Hir H.
  destruct (state_chain T0 T L _ _ _ I Hr Hir) as (lr & Hlr & Hlenr & _).
  destruct (is_interface view) eqn:Hiv.
  - assert (Himpl : implements_interface (classes st) rt view = Ok true).
    { unfold lookup_tokens in H. cbn [negb] in H. rewrite Hiv in H.
      mbind H as st0 s1 H1. apply get_Ok in H1 as [-> ->].
      mbind H as impl s2 H2. apply lift_Ok in H2 as [Himpl ->].
      by destruct impl. }
    destruct (lookup_tokens_static_interface T0 T L st nv view nr rt m
                I Hv Hiv Hr Hir Himpl) as (l & Hl & Heq).
    rewrite Heq in H.
    exists [view], l. split; [by eapply (interface_chain T0 T L)|]. split; [done|].
    unfold call_tokens. rewrite Hiv.
    destruct (dict_get (methods view) m) as [[|tok toks]|]; by injection H as <- _.
  - destruct (state_chain T0 T L _ _ _ I Hv Hiv) as (lv & Hlv & Hlenv & _).
    exists (view :: lv), (rt :: lr). split; [done|]. split; [done|].
    unfold lookup_tokens in H. cbn [negb] in H. rewrite Hiv in H.
    rewrite (get_type_name _ _ _ Hv) in H.
    rewrite (lookup_with_steps_chain (view :: lv) nv m st Hlv Hlenv) in H.
    injection H as <- _. unfold call_tokens. by rewrite Hiv.
Qed.

(** A successful resolution returns the plan of the call and keeps the
    plan cache a cache of plans of calls. *)
Lemma resolve_call_plan_spec st x b m dynamic p st' :
  Inv T st -> Cached T st -> env st !! x = Some b ->
  _resolve_call_plan b m dynamic st = (Ok p, st') ->
  exists i, objects st !! inst b = Some i /\
    call_plan T dynamic (view_cls b) (cls i) m p /\ Cached T st'.
Proof.
  intros I C Hx H.
  destruct (inv_env _ _ I _ _ Hx) as (i & rt0 & Hobj & Hrt0 & Hirt0 & [vt0 Hvt0]).
  destruct (resolve_cache_shape _ _ _ _ _ _ H)
    as (i' & view & rt & Hobj' & Hview & Hrt & Hshape).
  assert (i' = i) as -> by congruence.
  destruct (proj2 (inv_agree _ _ I) _ _ Hrt) as (rt0' & Hrt0' & Hcr).
  assert (rt0' = rt0) as -> by congruence.
  destruct (proj2 (inv_agree _ _ I) _ _ Hview) as (vt0' & Hvt0' & Hcv).
  assert (vt0' = vt0) as -> by congruence.
  pose proof (get_type_name _ _ _ Hrt) as Hnr.
  pose proof (get_type_name _ _ _ Hview) as Hnv.
  assert (Hir : is_interface rt = false).
  { by destruct (cached_static _ _ Hcr) as (_ & -> & _). }
  exists i. split; [done|].
  assert (Hplan : call_plan T dynamic (view_cls b) (cls i) m p).
  { destruct dynamic.
    - destruct (resolve_spec T0 T L Hkeys _ _ _ _ _ _ _ I Hx H) as (_ & _ & Hd).
      destruct (Hd eq_refl) as (i2 & Hobj2 & Hdyn).
      assert (i2 = i) as -> by congruence. by eapply dyn_call_plan.
    - destruct Hshape as [[Hf _]|[(_ & _ & Hhit & _)|(_ & Hmiss & _)]]; [done|..].
      + unfold cache_key in Hhit. rewrite Hnv, Hnr in Hhit.
        destruct (C _ _ _ _ _ Hhit) as ([] & Hmode & Hp); [done|exact Hp].
      + destruct Hmiss as (s7 & r & s8 & toks & Hc7 & Hlt & Hr1 & Hcomp).
        pose proof (core_fields _ _ Hc7) as (Ecl7 & _).
        pose proof (Inv_core _ _ _ Hc7 I) as I7.
        rewrite <- Ecl7 in Hview, Hrt.
        destruct (lookup_tokens_static s7 _ view _ rt m r s8 I7 Hview Hrt Hir Hlt)
          as (lv & lr & Hlv & Hlr & Htok).
        destruct (agree_chain_back _ _ _ _ (inv_agree _ _ I7) Hlv) as (lv0 & Hlv0 & HFv).
        destruct (agree_chain_back _ _ _ _ (inv_agree _ _ I7) Hlr) as (lr0 & Hlr0 & HFr).
        exists vt0, rt0, lv0, lr0, toks. do 4 (split; [done|]). split.
        * rewrite <- (call_tokens_cached vt0 view lv0 lv lr0 lr m false Hcv HFv HFr).
          congruence.
        * by rewrite <- (compile_plan_cached _ _ _ _ Hcr). }
  split; [exact Hplan|].
  assert (Hkeep : _plan_cache st' = _plan_cache st \/
            _plan_cache st' =
              <[cache_key dynamic view rt m := p]> (_plan_cache st)).
  { destruct Hshape as [[_ E]|[(_ & _ & _ & E)|(_ & _ & E)]]; auto.
    destruct (enable_cache (cfg st)); auto. }
  destruct Hkeep as [E|E]; intros mode v r m' p' Hc; rewrite E in Hc; [by apply C|].
  destruct (decide ((mode, v, r, m') = cache_key dynamic view rt m)) as [Ek|Hne].
  - rewrite Ek, lookup_insert_eq in Hc. injection Hc as <-.
    unfold cache_key in Ek. injection Ek as -> -> -> ->.
    exists dynamic. split; [done|]. by rewrite Hnv, Hnr.
  - rewrite lookup_insert_ne in Hc by done. by apply C.
Qed.

Lemma exec_Cached st s st' :
  Inv T st -> Cached T st -> _exec_statement s st = (Ok tt, st') -> Cached T st'.
Proof.
  intros I C H. destruct (is_call s) eqn:Hs.
  - assert (exists x m dynamic, _exec_call x m dynamic st = (Ok tt, st'))
      as (x & m & dynamic & Hcall).
    { destruct s; try done; cbn [_exec_statement] in H; eauto. }
    destruct (exec_call_Ok _ _ _ _ _ Hcall)
      as (b & p & s1 & i & vs & Hx & Hres & _ & _ & ->).
    destruct (resolve_call_plan_spec _ _ _ _ _ _ _ I C Hx Hres) as (_ & _ & _ & C1).
    exact C1.
  - assert (E : _plan_cache st' = _plan_cache st).
    { apply (keeps_exec_statement _plan_cache plan_cache_internal s) in H; [done|].
      by rewrite Hs. }
    intros mode v r m p. rewrite E. apply C.
Qed.
End call_plans.

Lemma reachable_Cached T0 T st :
  declarations T0 -> _resolve_and_link T0 = Ok T -> reachable T st -> Cached T st.
Proof.
  intros HD Hlink Hr. induction Hr as [config clk|st s st' Hr IH H].
  - intros mode v r m p Hc. simpl in Hc. by rewrite lookup_empty in Hc.
  - pose proof (reachable_Inv _ _ _ HD Hlink Hr) as I.
    destruct HD as (Hnd & HC & Hkeys).
    pose proof (link_Linked _ _ Hnd HC Hlink) as L.
    by eapply (exec_Cached T0 T L Hkeys st s st').
Qed.

(** ** Running a plan *)

Lemma run_plan_in_range vals p :
  Forall (fun op : bool * Z => op.1 = true -> (0 <= op.2 < Z.of_nat (length vals))%Z) p ->
  exists vs, run_plan vals p = Ok vs /\ length vs = length p.
Proof.
  induction 1 as [|[is_field v] p Hop HF (vs & IH & Hlen)].
  - exists []. done.
  - cbn [run_plan]. rewrite IH. destruct is_field.
    + specialize (Hop eq_refl). simpl in Hop.
      rewrite decide_True by lia. unfold index.
      destruct (lookup_lt_is_Some_2 vals (Z.to_nat v)) as [x Hx]; [lia|].
      rewrite Hx. simpl. exists (x :: vs). simpl. by rewrite Hlen.
    + simpl. exists (v :: vs). simpl. by rewrite Hlen.
Qed.

Lemma compiled_in_range rt mn toks p n :
  _field_index rt = index_dict (all_fields rt) ->
  _compile_plan rt mn toks = Ok p -> n = length (all_fields rt) ->
  Forall (fun op : bool * Z => op.1 = true -> (0 <= op.2 < Z.of_nat n)%Z) p.
Proof.
  intros Hidx Hc ->. apply (compile_plan_Ok _ _ _ _ Hidx) in Hc.
  induction Hc as [|tok op toks p Hop HF IH]; constructor; [|done].
  unfold compiles_to in Hop. destruct (is_int tok).
  - subst op. done.
  - destruct Hop as (i & -> & Hi & _). intros _. simpl.
    apply lookup_lt_Some in Hi. lia.
Qed.

(** In a state of a run, a successful call, static or virtual, prints
    the values of the plan of the call: the plan that the view, the
    runtime class, the method and the kind of call determine.  So two
    calls of the same kind on objects of the same class with the same
    values, under the same view, print the same line whatever the
    settings of cache, vtable and metrics are and whatever ran before. *)
Theorem call_output_is_determined
    T0 T st1 st2 x1 x2 b1 b2 i1 i2 m dynamic st1' st2' :
  declarations T0 -> _resolve_and_link T0 = Ok T ->
  reachable T st1 -> reachable T st2 ->
  env st1 !! x1 = Some b1 -> env st2 !! x2 = Some b2 ->
  view_cls b1 = view_cls b2 ->
  objects st1 !! inst b1 = Some i1 -> objects st2 !! inst b2 = Some i2 ->
  cls i1 = cls i2 -> values i1 = values i2 ->
  _exec_call x1 m dynamic st1 = (Ok tt, st1') ->
  _exec_call x2 m dynamic st2 = (Ok tt, st2') ->
  exists p vs,
    call_plan T dynamic (view_cls b1) (cls i1) m p /\
    run_plan (values i1) p = Ok vs /\
    stdout st1' = stdout st1 ++ [Line (join_values vs)] /\
    stdout st2' = stdout st2 ++ [Line (join_values vs)].
Proof.
  intros HD Hlink Hr1 Hr2 Hx1 Hx2 Hv Ho1 Ho2 Hc Hvals H1 H2.
  pose proof (reachable_Inv _ _ _ HD Hlink Hr1) as I1.
  pose proof (reachable_Inv _ _ _ HD Hlink Hr2) as I2.
  pose proof (reachable_Cached _ _ _ HD Hlink Hr1) as C1.
  pose proof (reachable_Cached _ _ _ HD Hlink Hr2) as C2.
  destruct HD as (Hnd & HC & Hkeys).
  pose proof (link_Linked _ _ Hnd HC Hlink) as L.
  destruct (exec_call_Ok _ _ _ _ _ H1)
    as (b1' & p1 & s1 & j1 & vs1 & Hx1' & Hres1 & Hj1 & Hrun1 & ->).
  destruct (exec_call_Ok _ _ _ _ _ H2)
    as (b2' & p2 & s2 & j2 & vs2 & Hx2' & Hres2 & Hj2 & Hrun2 & ->).
  assert (b1' = b1) as -> by congruence.
  assert (b2' = b2) as -> by congruence.
  destruct (resolve_user_state _ _ _ _ _ _ Hres1)
    as (_ & _ & Eo1 & _ & Es1).
  destruct (resolve_user_state _ _ _ _ _ _ Hres2)
    as (_ & _ & Eo2 & _ & Es2).
  rewrite Eo1 in Hj1. rewrite Eo2 in Hj2.
  assert (j1 = i1) as -> by congruence.
  assert (j2 = i2) as -> by congruence.
  destruct (resolve_call_plan_spec T0 T L Hkeys _ _ _ _ _ _ _ I1 C1 Hx1 Hres1)
    as (k1 & Hk1 & Hp1 & _).
  destruct (resolve_call_plan_spec T0 T L Hkeys _ _ _ _ _ _ _ I2 C2 Hx2 Hres2)
    as (k2 & Hk2 & Hp2 & _).
  assert (k1 = i1) as -> by congruence.
  assert (k2 = i2) as -> by congruence.
  rewrite <- Hv, <- Hc in Hp2.
  pose proof (call_plan_fun _ _ _ _ _ _ _ Hp2 Hp1) as ->.
  rewrite <- Hvals in Hrun2. assert (vs2 = vs1) as -> by congruence.
  exists p1, vs1. simpl. rewrite Es1, Es2. done.
Qed.

Lemma call_output_is_determined_witness :
  exists p vs,
    call_plan Linked_example.T false "A" "C" "show" p /\
    run_plan [1; 2; 3]%Z p = Ok vs /\
    stdout (Runs.after Runs.fast (Runs.prog ++ [Call "a" "show"])) =
      stdout (Runs.after Runs.fast Runs.prog) ++ [Line (join_values vs)] /\
    stdout (Runs.after default_Config (Runs.prog ++ [Call "a" "show"; Call "a" "show"])) =
      stdout (Runs.after default_Config (Runs.prog ++ [Call "a" "show"])) ++
        [Line (join_values vs)].
Proof.
  apply (call_output_is_determined Examples.table Linked_example.T
           (Runs.after Runs.fast Runs.prog)
           (Runs.after default_Config (Runs.prog ++ [Call "a" "show"]))
           "a" "a" (mkVarBinding 0 "A") (mkVarBinding 0 "A")
           (mkInstance "C" [1; 2; 3]%Z) (mkInstance "C" [1; 2; 3]%Z) "show" false).
  - exact Linked_example.table_declarations.
  - exact Linked_example.table_links.
  - apply Runs.after_reachable. vm_compute. reflexivity.
  - apply Runs.after_reachable. vm_compute. reflexivity.
  - vm_compute. reflexivity.
  - vm_compute. reflexivity.
  - vm_compute. reflexivity.
  - vm_compute. reflexivity.
  - vm_compute. reflexivity.
  - vm_compute. reflexivity.
  - vm_compute. reflexivity.
  - vm_compute. reflexivity.
  - vm_compute. reflexivity.
Defined.

(** In a state of a run, once the plan of a call on a bound name is
    resolved, the call prints: every field position of the plan is
    within the values of the object, so running the plan cannot fail.  A
    call fails only while it is resolved. *)
Theorem resolved_call_prints T0 T st x b m dynamic p s1 :
  declarations T0 -> _resolve_and_link T0 = Ok T -> reachable T st ->
  env st !! x = Some b ->
  _resolve_call_plan b m dynamic st = (Ok p, s1) ->
  exists i vs,
    objects st !! inst b = Some i /\
    run_plan (values i) p = Ok vs /\ length vs = length p /\
    _exec_call x m dynamic st =
      (Ok tt, set_stdout s1 (stdout s1 ++ [Line (join_values vs)])).
Proof.
  intros HD Hlink Hr Hx Hres.
  pose proof (reachable_Inv _ _ _ HD Hlink Hr) as I.
  pose proof (reachable_Cached _ _ _ HD Hlink Hr) as C.
  pose proof (reachable_Sound _ _ _ HD Hlink Hr) as S.
  destruct HD as (Hnd & HC & Hkeys).
  pose proof (link_Linked _ _ Hnd HC Hlink) as L.
  destruct (resolve_call_plan_spec T0 T L Hkeys _ _ _ _ _ _ _ I C Hx Hres)
    as (i & Hobj & Hp & _).
  destruct Hp as (vt & rt & lv & lr & toks & _ & Hrt & _ & _ & _ & Hcomp).
  destruct (snd_objects _ _ S _ _ Hobj) as (rt' & Hrt' & _ & Hlen).
  assert (rt' = rt) as -> by congruence.
  destruct (lk_layout _ _ L _ _ Hrt) as [_ Hidx].
  destruct (run_plan_in_range (values i) p) as (vs & Hrun & Hlv).
  { by eapply compiled_in_range. }
  exists i, vs. do 3 (split; [done|]).
  destruct (resolve_user_state _ _ _ _ _ _ Hres) as (_ & _ & Eo & _).
  unfold _exec_call.
  rewrite (bind_eval _ _ _ _ _ (get_binding_eval _ _ _ Hx)).
  rewrite (bind_eval _ _ _ _ _ Hres). munfold. rewrite Eo, Hobj, Hrun. done.
Qed.

Lemma resolved_call_prints_witness :
  exists i vs,
    objects (Runs.after Runs.slow Runs.prog) !! 0 = Some i /\
    run_plan (values i) Cached_run.plan = Ok vs /\
    length vs = length Cached_run.plan /\
    _exec_call "a" "get" true (Runs.after Runs.slow Runs.prog) =
      (Ok tt, set_stdout Cached_run.first.2
                (stdout Cached_run.first.2 ++ [Line (join_values vs)])).
Proof.
  apply (resolved_call_prints Examples.table Linked_example.T
           (Runs.after Runs.slow Runs.prog) "a" (mkVarBinding 0 "A") "get" true
           Cached_run.plan Cached_run.first.2).
  - exact Linked_example.table_declarations.
  - exact Linked_example.table_links.
  - apply Runs.after_reachable. vm_compute. reflexivity.
  - vm_compute. reflexivity.
  - vm_compute. reflexivity.
Defined.

(** * Calls through a class view *)

Lemma lookup_method_loop_agree T T' m : agree T T' -> forall fuel c,
  lookup_method_loop T' fuel c m = lookup_method_loop T fuel c m.
Proof.
  intros Ha fuel. induction fuel as [|fuel IH]; intros [h|]; simpl; try done.
  unfold deref. destruct (get_type T' h) as [t'|] eqn:Hg.
  - destruct (proj2 Ha _ _ Hg) as (t & -> & Hc). simpl.
    destruct (cached_static _ _ Hc) as (_ & _ & -> & _ & -> & _).
    destruct (dict_mem (methods t) m); [done | apply IH].
  - by rewrite (agree_None _ _ _ Ha Hg).
Qed.

Lemma lookup_method_agree T T' a a' m :
  agree T T' -> cached a a' -> lookup_method T' a' m = lookup_method T a m.
Proof.
  intros Ha Hc. unfold lookup_method, chain_fuel.
  destruct (cached_static _ _ Hc) as (-> & -> & _ & _ & -> & _).
  rewrite (agree_length _ _ Ha). destruct (is_interface a); [done|].
  by apply lookup_method_loop_agree.
Qed.

(** Method bodies that mention integer literals and fields of their own
    class only. *)
Definition bodies_ok (T : list ClassDef) : bool :=
  forallb (fun t =>
    is_interface t ||
    forallb (fun mt : string * list string =>
      forallb (fun tok => is_int tok || bool_decide (tok ∈ all_fields t)) mt.2)
      (methods t)) T.

Lemma bodies_ok_tok T n d m toks tok :
  bodies_ok T = true -> get_type T n = Some d -> is_interface d = false ->
  dict_get (methods d) m = Some toks -> tok ∈ toks ->
  is_int tok = true \/ tok ∈ all_fields d.
Proof.
  intros Hb Hg Hi Hm Hin. unfold bodies_ok in Hb.
  rewrite forallb_forall in Hb. apply get_type_elem in Hg.
  specialize (Hb d (proj1 (list_elem_of_In _ _) Hg)). rewrite Hi in Hb.
  cbn [orb] in Hb. rewrite forallb_forall in Hb.
  assert (Hmt : (m, toks) ∈ methods d).
  { clear Hb. induction (methods d) as [|[k v] l IH]; [done|]. simpl in Hm.
    destruct (decide (m = k)) as [->|Hne].
    - injection Hm as ->. apply list_elem_of_here.
    - apply list_elem_of_further. by apply IH. }
  specialize (Hb _ (proj1 (list_elem_of_In _ _) Hmt)). simpl in Hb.
  rewrite forallb_forall in Hb.
  specialize (Hb _ (proj1 (list_elem_of_In _ _) Hin)).
  apply orb_true_iff in Hb as [Hb|Hb]; [by left|].
  right. by apply bool_decide_eq_true_1 in Hb.
Qed.

Lemma compile_total rt mn toks :
  Forall (fun tok => is_int tok = true \/ is_Some (_field_index rt !! tok)) toks ->
  exists p, _compile_plan rt mn toks = Ok p.
Proof.
  induction 1 as [|tok toks Hok HF (p & IH)]; [by exists []|].
  simpl. rewrite IH. destruct (is_int tok) eqn:Hi; [simpl; eauto|].
  destruct Hok as [?|[i Hf]]; [done|]. rewrite Hf. simpl. eauto.
Qed.

Lemma bind_inv {A B} (c : M A) (k : A -> M B) st r st' :
  bind c k st = (r, st') ->
  (exists a st1, c st = (Ok a, st1) /\ k a st1 = (r, st')) \/
  (exists e, c st = (Err e, st') /\ r = Err e).
Proof.
  unfold bind. destruct (c st) as [[a|e] st1]; [eauto|].
  intros [= <- <-]. eauto.
Qed.

Lemma when_metrics_Err f st e st' : when_metrics f st <> (Err e, st').
Proof. unfold when_metrics. by destruct (enable_metrics (cfg st)). Qed.

Lemma start_timer_Err st e st' : start_timer st <> (Err e, st').
Proof. unfold start_timer, perf_counter_ns. by destruct (enable_metrics (cfg st)). Qed.

Lemma stop_timer_Err s f st e st' : stop_timer s f st <> (Err e, st').
Proof.
  unfold stop_timer, perf_counter_ns, bind, count, modify.
  by destruct (enable_metrics (cfg st)).
Qed.

(** Bodies mention literals and own fields only, as a property of the
    table. *)
Definition Bodies (T : list ClassDef) : Prop :=
  forall n d m toks tok,
    get_type T n = Some d -> is_interface d = false ->
    dict_get (methods d) m = Some toks -> tok ∈ toks ->
    is_int tok = true \/ tok ∈ all_fields d.

Lemma Bodies_agree T T' : agree T T' -> Bodies T -> Bodies T'.
Proof.
  intros Ha HB n d' m toks tok Hg Hi Hm Hin.
  destruct (proj2 Ha _ _ Hg) as (d & Hd & Hc).
  destruct (cached_static _ _ Hc)
    as (_ & Hi' & _ & _ & Hm' & _ & _ & _ & Haf & _).
  rewrite Haf. rewrite Hm' in Hm. rewrite Hi' in Hi. by eapply HB.
Qed.

Lemma eval_Ok {A B} (c : M A) (k : A -> M B) st a st1 :
  c st = (Ok a, st1) -> bind c k st = k a st1.
Proof. unfold bind. by intros ->. Qed.

Section progress.
Variables T0 T : list ClassDef.
Hypothesis L : Linked T0 T.
Hypothesis Hkeys : Forall (fun t => NoDup (dict_keys (methods t))) T0.
Hypothesis HB : Bodies T.

(** A declaration made along the base chain of a class compiles against
    the layout of the class. *)
Lemma chain_compiles n rt lr d m mn toks :
  get_type T n = Some rt -> is_interface rt = false ->
  Chain T (Some n) (rt :: lr) -> d ∈ rt :: lr ->
  dict_get (methods d) m = Some toks ->
  exists p, _compile_plan rt mn toks = Ok p.
Proof.
  intros Hg Hi Hl Hd Hm. apply compile_total.
  assert (HF : Forall (fun t => is_interface t = false /\
                          get_type T (name t) = Some t) (rt :: lr)).
  { eapply (Chain_classes T0 T L); [exact Hl|]. intros ? ? [= <-] ?. congruence. }
  pose proof (proj1 (Forall_forall _ _) HF d Hd) as [Hid Hgd].
  apply Forall_forall. intros tok Hin.
  destruct (HB _ d m toks tok Hgd Hid Hm Hin) as [?|Hfield]; [by left|].
  right. destruct (lk_layout _ _ L _ _ Hgd) as [_ Hidx].
  destruct (index_dict_in _ _ Hfield) as [i Hi']. rewrite <- Hidx in Hi'.
  exists i. by eapply (field_index_chain T0 T L (Some n) (rt :: lr) Hl HF rt d).
Qed.

(** The facts about a class view of an object that a resolution uses:
    the view is on the chain of the runtime class, the method is found
    from the view and from the runtime class, and both declarations
    compile against the runtime class. *)
Lemma class_view_facts nr rt nv view m vtoks :
  get_type T nr = Some rt -> get_type T nv = Some view ->
  is_subclass_of T rt view = Ok true ->
  lookup_method T view m = Ok (Some vtoks) ->
  exists lr lv rtoks slot,
    Chain T (Some nr) (rt :: lr) /\ length (rt :: lr) <= length T /\
    Chain T (Some nv) (view :: lv) /\ length (view :: lv) <= length T /\
    first_decl (view :: lv) m = Some vtoks /\
    first_decl (rt :: lr) m = Some rtoks /\
    (forall mn, exists p, _compile_plan rt mn vtoks = Ok p) /\
    (forall mn, exists p, _compile_plan rt mn rtoks = Ok p) /\
    (dict_get (method_slot view) m = Some slot) /\
    (slot < length (vtable_tokens rt)) /\
    (vtable_tokens rt !! slot = Some rtoks).
Proof.
  intros Hrt Hview Hsub Hvis.
  destruct (subclass_on_chain T0 T L _ _ _ _ Hrt Hview Hsub)
    as (Hir & Hiv & lr & Hlr & Hlenr & Hin).
  destruct (Chain_split _ _ _ _ Hlr Hin) as (l1 & lv & E & Hlv).
  rewrite (get_type_name _ _ _ Hview) in Hlv.
  assert (Hlenv : length (view :: lv) <= length T).
  { apply (f_equal length) in E. rewrite length_app in E. simpl in *. lia. }
  rewrite (lookup_method_class T0 T nv view (view :: lv) m L Hview Hiv Hlv Hlenv) in Hvis.
  injection Hvis as Hvis.
  assert (HFr : Forall (fun t => is_interface t = false /\
                          get_type T (name t) = Some t) (rt :: lr)).
  { eapply (Chain_classes T0 T L); [exact Hlr|]. intros ? ? [= <-] ?. congruence. }
  assert (HFv : Forall (fun t => is_interface t = false /\
                          get_type T (name t) = Some t) (view :: lv)).
  { eapply (Chain_classes T0 T L); [exact Hlv|]. intros ? ? [= <-] ?. congruence. }
  destruct (first_decl (rt :: lr) m) as [rtoks|] eqn:Hfr.
  2:{ exfalso. apply first_decl_Some in Hvis as (d & Hd & Hm).
      rewrite first_decl_None in Hfr. rewrite (Hfr d) in Hm; [done|].
      rewrite E. apply elem_of_app. by right. }
  destruct (vtable_chain T0 T L Hkeys _ _ Hlr HFr rt eq_refl)
    as ([Hrange _] & Htoks & _ & Hanc).
  destruct (vtable_chain T0 T L Hkeys _ _ Hlv HFv view eq_refl)
    as (_ & _ & Hnone & _).
  destruct (dict_get (method_slot view) m) as [slot|] eqn:Hslot.
  2:{ apply Hnone in Hslot. congruence. }
  destruct (Hanc view Hin) as [_ Hkeep].
  pose proof (Hkeep _ _ Hslot) as Hslotr.
  pose proof (Htoks m) as Ht. unfold tokens_at in Ht. rewrite Hslotr, Hfr in Ht.
  exists lr, lv, rtoks, slot. do 6 (split; [done|]).
  split.
  { intros mn. apply first_decl_Some in Hvis as (d & Hd & Hm).
    eapply (chain_compiles nr rt lr d); try done.
    rewrite E. apply elem_of_app. by right. }
  split.
  { intros mn. apply first_decl_Some in Hfr as (d & Hd & Hm).
    by eapply (chain_compiles nr rt lr d). }
  split; [done|]. split; [by eapply Hrange | done].
Qed.
End progress.

Lemma deref_class_eval h st t :
  get_type (classes st) h = Some t -> deref_class h st = (Ok t, st).
Proof. intros H. unfold deref_class, deref. by rewrite H. Qed.

Lemma deref_object_eval a st i :
  objects st !! a = Some i -> deref_object a st = (Ok i, st).
Proof. intros H. unfold deref_object. by rewrite H. Qed.

Lemma vtable_plan_total st n rt slot toks :
  get_type (classes st) n = Some rt ->
  slot < length (vtable_tokens rt) ->
  length (_vtable_plans rt) = length (vtable_tokens rt) ->
  vtable_tokens rt !! slot = Some toks ->
  (forall mn, exists p, _compile_plan rt mn toks = Ok p) ->
  forall e st', _vtable_plan n slot st <> (Err e, st').
Proof.
  intros Hg Hlt Hlen Htok Hall e st'.
  destruct (lookup_lt_is_Some_2 (_vtable_plans rt) slot) as [cached Hc]; [lia|].
  unfold _vtable_plan.
  rewrite (eval_Ok _ _ _ _ _ (deref_class_eval _ _ _ Hg)).
  remember ("<slot " +:+ str_nat slot +:+ ">") as mn eqn:Emn.
  destruct (Hall mn) as [p Hp].
  unfold index, store_at. munfold. unfold start_timer, stop_timer, perf_counter_ns.
  rewrite Hc. munfold.
  destruct cached as [plan|]; destruct (enable_metrics (cfg st)) eqn:Hm; simpl;
    rewrite ?Hm, ?Htok; simpl; rewrite ?Hp; simpl;
    rewrite ?decide_True by lia; simpl; rewrite ?Hm; done.
Qed.

Section progress_run.
Variables T0 T : list ClassDef.
Hypothesis L : Linked T0 T.
Hypothesis Hkeys : Forall (fun t => NoDup (dict_keys (methods t))) T0.
Hypothesis HB : Bodies T.

(** Through a class view, the resolution of a visible method cannot
    fail. *)
Lemma resolve_class_view_total st x b v m dynamic vtoks :
  Inv T st -> Sound T st -> env st !! x = Some b ->
  get_type T (view_cls b) = Some v -> is_interface v = false ->
  lookup_method T v m = Ok (Some vtoks) ->
  forall e st', _resolve_call_plan b m dynamic st <> (Err e, st').
Proof.
  intros I S Hx Hv Hiv Hvis e st' H.
  destruct (snd_env _ _ S _ _ Hx) as (_ & i & rt0 & v' & Hobj & Hrt0 & Hv' & Hconf).
  assert (v' = v) as -> by congruence.
  unfold conforms in Hconf. rewrite Hiv in Hconf.
  pose proof (inv_agree _ _ I) as Ha.
  destruct (agree_back _ _ _ _ Ha Hrt0) as (rt & Hrt & Hcr).
  destruct (agree_back _ _ _ _ Ha Hv) as (view & Hview & Hcv).
  pose proof (Inv_Linked T0 T L st I) as L'.
  pose proof (Bodies_agree _ _ Ha HB) as HB'.
  assert (Hsub : is_subclass_of (classes st) rt view = Ok true)
    by (by rewrite (subclass_agree _ _ _ _ _ _ Ha Hcr Hcv)).
  assert (Hvis' : lookup_method (classes st) view m = Ok (Some vtoks))
    by (by rewrite (lookup_method_agree _ _ _ _ m Ha Hcv)).
  destruct (class_view_facts T0 (classes st) L' Hkeys HB' _ rt _ view m vtoks
              Hrt Hview Hsub Hvis')
    as (lr & lv & rtoks & slot & Hlr & Hlenr & Hlv & Hlenv & Hfv & Hfr &
        Hpv & Hpr & Hslot & Hslt & Htok).
  assert (Hiv' : is_interface view = false).
  { by destruct (cached_static _ _ Hcv) as (_ & -> & _). }
  assert (Hir : is_interface rt = false).
  { destruct (subclass_on_chain T0 _ L' _ _ _ _ Hrt Hview Hsub) as (? & _). done. }
  pose proof (get_type_name _ _ _ Hrt) as Hnr.
  pose proof (get_type_name _ _ _ Hview) as Hnv.
  unfold _resolve_call_plan in H.
  rewrite (eval_Ok _ _ _ _ _ (deref_object_eval _ _ _ Hobj)) in H.
  rewrite (eval_Ok _ _ _ _ _ (deref_class_eval _ _ _ Hview)) in H.
  rewrite (eval_Ok _ _ _ _ _ (deref_class_eval _ _ _ Hrt)) in H.
  rewrite (eval_Ok get _ st st st eq_refl) in H.
  rewrite Hvis' in H.
  rewrite (eval_Ok (lift (Ok (Some vtoks))) _ st _ st eq_refl) in H.
  destruct (dynamic && enable_vtable (cfg st)) eqn:Hfast.
  - rewrite Hiv', Hsub in H.
    rewrite (eval_Ok (lift (Ok true)) _ st _ st eq_refl) in H.
    cbn [negb andb] in H. rewrite Hslot in H.
    apply bind_inv in H as [(plan & s1 & H1 & H)|(e1 & H1 & _)].
    + apply bind_inv in H as [(u & s2 & H2 & H)|(e2 & H2 & _)]; [done|].
      by apply when_metrics_Err in H2.
    + rewrite Hnr in H1. revert H1.
      apply (vtable_plan_total st (cls i) rt slot rtoks); try done.
      by destruct (lk_vtable _ _ L' _ _ Hrt Hir) as [_ ?].
  - destruct (if enable_cache (cfg st)
              then _plan_cache st !! cache_key dynamic view rt m
              else None) as [plan|].
    + apply bind_inv in H as [(u & s1 & H1 & H)|(e1 & H1 & _)]; [done|].
      by apply when_metrics_Err in H1.
    + apply bind_inv in H as [(u & s6 & H6 & H)|(e1 & H1 & _)];
        [|by apply when_metrics_Err in H1].
      apply when_metrics_core in H6.
      apply bind_inv in H as [(start & s7 & H7 & H)|(e1 & H1 & _)];
        [|by apply start_timer_Err in H1].
      apply start_timer_core in H7.
      assert (Hc7 : core s7 = core st) by congruence.
      pose proof (core_fields _ _ Hc7) as (Ecl7 & _).
      assert (Hlk : exists toks steps s8,
                lookup_tokens view rt m dynamic s7 = (Ok (Some toks, steps), s8) /\
                exists p, _compile_plan rt m toks = Ok p).
      { rewrite <- Ecl7 in Hlv, Hlr, Hlenv, Hlenr.
        destruct dynamic.
        - exists rtoks. eexists _, _. split; [|apply Hpr].
          unfold lookup_tokens. cbn [negb]. rewrite Hiv'.
          rewrite (eval_Ok (ret tt) _ s7 tt s7 eq_refl).
          rewrite Hnr.
          rewrite (lookup_with_steps_chain (rt :: lr) (cls i) m s7 Hlr Hlenr).
          by rewrite Hfr.
        - exists vtoks. eexists _, _. split; [|apply Hpv].
          unfold lookup_tokens. cbn [negb]. rewrite Hiv', Hnv.
          rewrite (lookup_with_steps_chain (view :: lv) _ m s7 Hlv Hlenv).
          by rewrite Hfv. }
      destruct Hlk as (toks & steps & s8 & Hlk & p & Hp).
      rewrite (eval_Ok _ _ _ _ _ Hlk) in H. cbn [fst snd] in H.
      rewrite Hp in H.
      rewrite (eval_Ok (lift (Ok p)) _ s8 _ s8 eq_refl) in H.
      apply bind_inv in H as [(u10 & s10 & H10 & H)|(e1 & H1 & _)];
        [|by apply stop_timer_Err in H1].
      apply bind_inv in H as [(u11 & s11 & H11 & H)|(e1 & H1 & _)]; [done|].
      by destruct (enable_cache (cfg st)).
Qed.
End progress_run.



(** * The fast path on a second call *)

Lemma cached_sym t t' : cached t t' -> cached t' t.
Proof.
  intros [E Hl]. split; [|done]. rewrite E at 1. destruct t; done.
Qed.

Lemma vtable_plan_hit n slot st rt p :
  get_type (classes st) n = Some rt ->
  _vtable_plans rt !! slot = Some (Some p) ->
  _vtable_plan n slot st =
    (Ok p, if enable_metrics (cfg st) then set_metrics st (hit (metrics st)) else st).
Proof.
  intros Hg Hp. unfold _vtable_plan.
  rewrite (eval_Ok _ _ _ _ _ (deref_class_eval _ _ _ Hg)).
  unfold index. rewrite Hp. munfold. by destruct (enable_metrics (cfg st)).
Qed.

Lemma vtable_plan_again n slot st p st1 :
  _vtable_plan n slot st = (Ok p, st1) ->
  exists rt rt1,
    get_type (classes st) n = Some rt /\ get_type (classes st1) n = Some rt1 /\
    _vtable_plans rt1 !! slot = Some (Some p) /\
    agree (classes st) (classes st1).
Proof.
  intros H. unfold _vtable_plan in H.
  mbind H as rt s1 H1. apply deref_class_Ok in H1 as [Hg ->].
  mbind H as cached s2 H2. apply lift_Ok in H2 as [Hc ->].
  apply index_Ok in Hc.
  destruct cached as [plan|].
  - mbind H as u s3 H3. apply when_metrics_core in H3.
    apply ret_Ok in H as [<- Es]. subst s3.
    pose proof (core_fields _ _ H3) as (Ecl & _).
    exists rt, rt. rewrite Ecl. do 3 (split; [done|]). apply agree_refl.
  - mbind H as u s3 H3. apply when_metrics_core in H3.
    mbind H as start s4 H4. apply start_timer_core in H4.
    mbind H as toks s5 H5. apply lift_Ok in H5 as [_ ->].
    mbind H as plan s6 H6. apply lift_Ok in H6 as [_ ->].
    mbind H as plans s7 H7. apply lift_Ok in H7 as [Hst ->].
    apply store_at_Ok in Hst as [Hlt ->].
    mbind H as u8 s8 H8. apply modify_Ok in H8.
    mbind H as u9 s9 H9. apply stop_timer_core in H9.
    apply ret_Ok in H as [<- Es]. subst s9.
    assert (Hc4 : core s4 = core st) by congruence.
    pose proof (core_fields _ _ Hc4) as (Ecl4 & _).
    pose proof (core_fields _ _ H9) as (Ecl9 & _).
    assert (Ecl : classes st1 =
      put_type (classes st)
        (set_vtable_plans rt (<[slot := Some p]> (_vtable_plans rt)))).
    { rewrite Ecl9. subst s8. simpl. by rewrite Ecl4. }
    pose proof (get_type_name _ _ _ Hg) as Hn.
    exists rt, (set_vtable_plans rt (<[slot := Some p]> (_vtable_plans rt))).
    split; [done|]. rewrite Ecl. split; [|split].
    + rewrite get_put, Hg. rewrite decide_True; [done|]. by setters.
    + setters. by rewrite list_lookup_insert_eq.
    + eapply agree_put; [apply agree_refl | exact Hg |].
      split; setters; [by destruct rt | by rewrite length_insert].
Qed.

Lemma itable_plan_hit r iface m st rt ifc cache slot p :
  get_type (classes st) r = Some rt -> get_type (classes st) iface = Some ifc ->
  _itable_plans rt !! name ifc = Some cache ->
  dict_get (method_slot ifc) m = Some slot -> cache !! slot = Some (Some p) ->
  _itable_plan r iface m st =
    (Ok p, if enable_metrics (cfg st) then set_metrics st (hit (metrics st)) else st).
Proof.
  intros Hr Hi Hc Hs Hp. unfold _itable_plan.
  rewrite (eval_Ok _ _ _ _ _ (deref_class_eval _ _ _ Hr)).
  rewrite (eval_Ok _ _ _ _ _ (deref_class_eval _ _ _ Hi)).
  rewrite Hc, Hs. unfold index. munfold.
  destruct (enable_metrics (cfg st)); simpl; by rewrite Hp.
Qed.

Section fast_again.
Variables T0 T : list ClassDef.
Hypothesis L : Linked T0 T.
Hypothesis Hkeys : Forall (fun t => NoDup (dict_keys (methods t))) T0.

Lemma itable_plan_again r iface m st rt ifc p st1 :
  Inv T st ->
  get_type (classes st) r = Some rt -> is_interface rt = false ->
  get_type (classes st) iface = Some ifc -> is_interface ifc = true ->
  _itable_plan r iface m st = (Ok p, st1) ->
  exists rt1 cache slot,
    get_type (classes st1) r = Some rt1 /\
    get_type (classes st1) iface = Some ifc /\
    _itable_plans rt1 !! name ifc = Some cache /\
    dict_get (method_slot ifc) m = Some slot /\
    cache !! slot = Some (Some p) /\
    agree (classes st) (classes st1).
Proof.
  intros I Hr Hir Hi Hii H. unfold _itable_plan in H.
  mbind H as rt' s1 H1. apply deref_class_Ok in H1 as [Hr' ->].
  assert (rt' = rt) as -> by congruence.
  mbind H as ifc' s2 H2. apply deref_class_Ok in H2 as [Hi' ->].
  assert (ifc' = ifc) as -> by congruence.
  mbind H as cache s3 H3.
  mbind H as slot s4 H4.
  destruct (dict_get (method_slot ifc) m) as [slot'|] eqn:Hslot; [|done].
  apply ret_Ok in H4 as [-> ->].
  mbind H as entry s5 H5. apply lift_Ok in H5 as [He ->]. apply index_Ok in He.
  destruct entry as [plan|]; [|done]. apply ret_Ok in H as [<- Es]. subst s3.
  destruct (_itable_plans rt !! name ifc) as [c0|] eqn:Hit.
  - mbind H3 as u s6 H6. apply when_metrics_core in H6.
    apply ret_Ok in H3 as [<- Es]. subst s6.
    pose proof (core_fields _ _ H6) as (Ecl & _).
    exists rt, cache, slot'. rewrite Ecl. do 5 (split; [done|]). apply agree_refl.
  - mbind H3 as u s6 H6. apply when_metrics_core in H6.
    mbind H3 as start s7 H7. apply start_timer_core in H7.
    assert (Hc7 : core s7 = core st) by congruence.
    pose proof (core_fields _ _ Hc7) as (Ecl7 & _).
    pose proof (Inv_core _ _ _ Hc7 I) as I7.
    mbind H3 as plans s8 H8.
    assert (Hr7 : get_type (classes s7) r = Some rt) by congruence.
    assert (Hi7 : get_type (classes s7) iface = Some ifc) by congruence.
    pose proof (interface_slots_nodup T0 T L Hkeys _ _ _ I7 Hi7 Hii) as Hnd.
    destruct (build_itable_spec T0 T L _ _ _ _ _ _ _ _ I7 Hr7 Hir Hnd H8)
      as (Hc8 & _).
    pose proof (core_fields _ _ Hc8) as (Ecl8 & _).
    mbind H3 as rt2 s9 H9. apply deref_class_Ok in H9 as [Hr9 ->].
    assert (rt2 = rt) as -> by congruence.
    mbind H3 as u10 s10 H10. apply modify_Ok in H10.
    mbind H3 as u11 s11 H11. apply stop_timer_core in H11.
    apply ret_Ok in H3 as [<- Es]. subst s11.
    pose proof (core_fields _ _ H11) as (Ecl11 & _).
    assert (Ecl : classes st1 =
      put_type (classes st)
        (set_itable_plans rt (<[name ifc := cache]> (_itable_plans rt)))).
    { rewrite Ecl11. subst s10. simpl. by rewrite Ecl8, Ecl7. }
    pose proof (get_type_name _ _ _ Hr) as Hn.
    pose proof (get_type_name _ _ _ Hi) as Hni.
    exists (set_itable_plans rt (<[name ifc := cache]> (_itable_plans rt))),
      cache, slot'.
    rewrite Ecl. split; [|split; [|split; [|split; [done|split; [done|]]]]].
    + rewrite get_put, Hr. rewrite decide_True; [done|]. by setters.
    + rewrite get_put_ne; [done|]. setters. intros E. congruence.
    + setters. apply lookup_insert_eq.
    + eapply agree_put; [apply agree_refl | exact Hr |].
      split; setters; [by destruct rt | done].
Qed.
End fast_again.

(** In a state of a run with the vtable enabled, when a virtual call has
    been resolved, resolving it again takes the plan from the vtable or
    itable of the runtime class: the same plan is returned, nothing is
    looked up or compiled, the clock is not read, and the only counters
    that move, when metrics are on, are the cache hits and the uses of
    the table. *)
Theorem fast_path_second_call T0 T st x b v m p st1 :
  declarations T0 -> _resolve_and_link T0 = Ok T -> reachable T st ->
  env st !! x = Some b -> get_type T (view_cls b) = Some v ->
  enable_vtable (cfg st) = true ->
  _resolve_call_plan b m true st = (Ok p, st1) ->
  exists st2,
    _resolve_call_plan b m true st1 = (Ok p, st2) /\
    classes st2 = classes st1 /\ _plan_cache st2 = _plan_cache st1 /\
    clock_reads st2 = clock_reads st1 /\
    metrics st2 =
      (if enable_metrics (cfg st1)
       then (if is_interface v then itable_use else vtable_use) (hit (metrics st1))
       else metrics st1).
Proof.
  intros HD Hlink Hr Hx Hv Hvt H.
  pose proof (reachable_Inv _ _ _ HD Hlink Hr) as I.
  destruct HD as (Hnd & HC & Hkeys).
  pose proof (link_Linked _ _ Hnd HC Hlink) as L.
  destruct (resolve_user_state _ _ _ _ _ _ H) as (Ecfg & _ & Eobj & _).
  pose proof H as H0. unfold _resolve_call_plan in H.
  destruct (inv_env _ _ I _ _ Hx) as (i0 & rt0 & Hobj & Hrt0 & Hirt0 & _).
  mbind H as i s1 H1. apply deref_object_Ok in H1 as [Hi ->].
  assert (i = i0) as -> by congruence.
  mbind H as view s2 H2. apply deref_class_Ok in H2 as [Hview ->].
  mbind H as rt s3 H3. apply deref_class_Ok in H3 as [Hrt ->].
  destruct (proj2 (inv_agree _ _ I) _ _ Hrt) as (rt0' & Hrt0' & Hcr).
  assert (rt0' = rt0) as -> by congruence.
  destruct (proj2 (inv_agree _ _ I) _ _ Hview) as (v' & Hv' & Hcv).
  assert (v' = v) as -> by congruence.
  assert (Hir : is_interface rt = false).
  { by destruct (cached_static _ _ Hcr) as (_ & -> & _). }
  assert (Hiv : is_interface view = is_interface v).
  { by destruct (cached_static _ _ Hcv) as (_ & -> & _). }
  pose proof (get_type_name _ _ _ Hrt) as Hnr.
  pose proof (get_type_name _ _ _ Hview) as Hnv.
  mbind H as st0 s4 H4. apply get_Ok in H4 as [-> ->].
  mbind H as visible s5 H5. apply lift_Ok in H5 as [Hvis ->].
  destruct visible as [vtoks|]; [|done].
  rewrite Hvt in H. cbn [andb] in H. rewrite <- Hiv.
  assert (Hstart : forall view1 rt1,
    get_type (classes st1) (view_cls b) = Some view1 -> cached view view1 ->
    get_type (classes st1) (cls i0) = Some rt1 ->
    agree (classes st) (classes st1) ->
    _resolve_call_plan b m true st1 =
      (if is_interface view1
       then (impl <- lift (implements_interface (classes st1) rt1 view1);;
             if negb impl then raise (NotImplementing (name rt1) (name view1))
             else (plan <- _itable_plan (name rt1) (name view1) m;;
                   when_metrics itable_use;;; ret plan))
       else (sub <- lift (is_subclass_of (classes st1) rt1 view1);;
             if negb sub && negb (bool_decide (name rt1 = name view1))
             then raise (NotSubclass (name rt1) (name view1))
             else match dict_get (method_slot view1) m with
                  | None => raise (NoSlot m (name view1))
                  | Some slot => (plan <- _vtable_plan (name rt1) slot;;
                                  when_metrics vtable_use;;; ret plan)
                  end))%M st1).
  { intros view1 rt1 Hview1 Hcv1 Hrt1 Ha.
    unfold _resolve_call_plan.
    rewrite <- Eobj in Hobj.
    rewrite (eval_Ok _ _ _ _ _ (deref_object_eval _ _ _ Hobj)).
    rewrite (eval_Ok _ _ _ _ _ (deref_class_eval _ _ _ Hview1)).
    rewrite (eval_Ok _ _ _ _ _ (deref_class_eval _ _ _ Hrt1)).
    rewrite (eval_Ok get _ st1 st1 st1 eq_refl).
    rewrite (lookup_method_agree _ _ _ _ m Ha Hcv1), Hvis.
    rewrite (eval_Ok (lift (Ok (Some vtoks))) _ st1 _ st1 eq_refl).
    by rewrite Ecfg, Hvt. }
  destruct (is_interface view) eqn:Hivw.
  - mbind H as impl s6 H6. apply lift_Ok in H6 as [Himpl ->].
    destruct impl; [|done]. cbn [negb] in H.
    mbind H as plan s7 H7. rewrite Hnr, Hnv in H7.
    destruct (itable_plan_again T0 T L Hkeys _ _ _ _ rt view _ _ I Hrt Hir Hview Hivw H7)
      as (rt1 & cache & slot & Hrt1 & Hview1 & Hcache & Hslot & Hp & Ha).
    mbind H as u s8 H8. apply when_metrics_core in H8.
    apply ret_Ok in H as [<- Es]. subst s8.
    pose proof (core_fields _ _ H8) as (Ecl8 & _).
    rewrite <- Ecl8 in Hrt1, Hview1, Ha.
    destruct (proj2 Ha _ _ Hrt1) as (rt' & Hrt' & Hcr1).
    assert (rt' = rt) as -> by congruence.
    pose proof (get_type_name _ _ _ Hrt1) as Hnr1.
    exists (if enable_metrics (cfg st1)
            then set_metrics st1 (itable_use (hit (metrics st1))) else st1).
    split.
    + rewrite (Hstart view rt1 Hview1 (cached_refl _) Hrt1 Ha).
      rewrite Hivw.
      rewrite (implements_agree _ _ _ _ _ _ Ha Hcr1 (cached_refl view)), Himpl.
      rewrite (eval_Ok (lift (Ok true)) _ st1 _ st1 eq_refl). cbn [negb].
      rewrite Hnr1, Hnv.
      rewrite (eval_Ok _ _ _ _ _
                 (itable_plan_hit _ _ m st1 rt1 view cache slot p
                    Hrt1 Hview1 Hcache Hslot Hp)).
      unfold when_metrics, bind, ret.
      destruct (enable_metrics (cfg st1)) eqn:Hm; simpl; rewrite ?Hm; reflexivity.
    + by destruct (enable_metrics (cfg st1)).
  - mbind H as sub s6 H6. apply lift_Ok in H6 as [Hsub ->].
    destruct (negb sub && negb (bool_decide (name rt = name view))) eqn:Hchk; [done|].
    destruct (dict_get (method_slot view) m) as [slot|] eqn:Hslot; [|done].
    mbind H as plan s7 H7. rewrite Hnr in H7.
    destruct (vtable_plan_again _ _ _ _ _ H7) as (rt' & rt1 & Hrt' & Hrt1 & Hp & Ha).
    assert (rt' = rt) as -> by congruence.
    mbind H as u s8 H8. apply when_metrics_core in H8.
    apply ret_Ok in H as [<- Es]. subst s8.
    pose proof (core_fields _ _ H8) as (Ecl8 & _).
    rewrite <- Ecl8 in Hrt1, Ha.
    destruct (proj2 Ha _ _ Hrt1) as (rt' & Hrt'' & Hcr1).
    assert (rt' = rt) as -> by congruence.
    destruct (agree_back _ _ _ _ Ha Hview) as (view1 & Hview1 & Hcv1).
    destruct (cached_static _ _ Hcv1) as (Hn1 & Hi1 & _ & _ & _ & _ & Hms & _).
    destruct (cached_static _ _ Hcr1) as (Hnr1 & _).
    pose proof (get_type_name _ _ _ Hrt1) as Hnr1'.
    exists (if enable_metrics (cfg st1)
            then set_metrics st1 (vtable_use (hit (metrics st1))) else st1).
    split.
    + rewrite (Hstart view1 rt1 Hview1 Hcv1 Hrt1 Ha).
      rewrite Hi1, Hivw.
      rewrite (subclass_agree _ _ _ _ _ _ Ha Hcr1 Hcv1), Hsub.
      rewrite (eval_Ok (lift (Ok sub)) _ st1 _ st1 eq_refl).
      rewrite Hnr1, Hn1, Hchk, Hms, Hslot. rewrite <- Hnr1, Hnr1'.
      rewrite (eval_Ok _ _ _ _ _ (vtable_plan_hit _ _ st1 rt1 p Hrt1 Hp)).
      unfold when_metrics, bind, ret.
      destruct (enable_metrics (cfg st1)) eqn:Hm; simpl; rewrite ?Hm; reflexivity.
    + by destruct (enable_metrics (cfg st1)).
Qed.

Lemma fast_path_second_call_witness :
  exists st2,
    _resolve_call_plan (mkVarBinding 0 "A") "get" true
      (_resolve_call_plan (mkVarBinding 0 "A") "get" true
         (Runs.after Runs.fast Runs.prog)).2 =
      (Ok [(true, 2%Z)], st2) /\
    resolve_calls (metrics st2) = 1 /\ cache_hits (metrics st2) = 1 /\
    vtable_uses (metrics st2) = 2.
Proof.
  destruct (fast_path_second_call Examples.table Linked_example.T
              (Runs.after Runs.fast Runs.prog) "a" (mkVarBinding 0 "A")
              (Linked_example.class_of "A") "get" [(true, 2%Z)]
              (_resolve_call_plan (mkVarBinding 0 "A") "get" true
                 (Runs.after Runs.fast Runs.prog)).2)
    as (st2 & H2 & _ & _ & _ & Hm).
  - exact Linked_example.table_declarations.
  - exact Linked_example.table_links.
  - apply Runs.after_reachable. vm_compute. reflexivity.
  - vm_compute. reflexivity.
  - vm_compute. reflexivity.
  - vm_compute. reflexivity.
  - vm_compute. reflexivity.
  - exists st2. split; [exact H2|]. rewrite Hm. clear. vm_compute. repeat split.
Defined.

(** * Itables are built whole *)

Lemma enumerate_from_snd {A} (l : list A) i : map snd (enumerate_from i l) = l.
Proof. revert i. induction l as [|y l IH]; intros i; simpl; [done|]. by rewrite IH. Qed.

Lemma enumerate_dict_keys keys : NoDup keys -> map fst (enumerate_dict keys) = keys.
Proof.
  intros Hnd. unfold enumerate_dict.
  rewrite enumerate_fold; [|done|intros k _; apply not_elem_of_nil]. simpl.
  rewrite map_map. simpl. apply enumerate_from_snd.
Qed.

Lemma bind_Err_eval {A B} (c : M A) (k : A -> M B) st e st1 :
  c st = (Err e, st1) -> bind c k st = (Err e, st1).
Proof. unfold bind. by intros ->. Qed.

Lemma find_pointwise {A} (f g : A -> bool) l :
  (forall x, f x = g x) -> find f l = find g l.
Proof. intros E. induction l as [|x l IH]; simpl; [done|]. by rewrite E, IH. Qed.

(** A statement other than a call leaves the type table alone. *)
Lemma keeps_classes_statement s :
  is_call s = false -> keeps classes (_exec_statement s).
Proof.
  intros Hs. destruct s; try done; cbn [_exec_statement];
    unfold _instantiate, _clone, _exec_field_assign, _exec_is, _exec_free,
      _gc_collect, bind_name, print;
    repeat (keeps_step || apply keeps_cast_binding
            || (apply keeps_modify; intros; reflexivity)
            || (intros ? ? ? [= _ <-]; reflexivity)
            || (intros ? ? ? Hw; apply when_metrics_core in Hw;
                by apply core_fields in Hw as (? & _))).
Qed.

(** Every itable stored in a class has a plan in the slot of every
    method of its interface. *)
Definition Filled (st : Interpreter) : Prop :=
  forall n t i cache ifc m s,
    get_type (classes st) n = Some t -> _itable_plans t !! i = Some cache ->
    get_type (classes st) i = Some ifc -> dict_get (method_slot ifc) m = Some s ->
    exists p, cache !! s = Some (Some p).

Lemma Filled_classes st st' : classes st' = classes st -> Filled st -> Filled st'.
Proof. intros E F. unfold Filled. rewrite E. exact F. Qed.

Lemma Filled_put st n rt rt' :
  Filled st -> get_type (classes st) n = Some rt ->
  name rt' = name rt -> method_slot rt' = method_slot rt ->
  (forall i cache, _itable_plans rt' !! i = Some cache ->
     _itable_plans rt !! i = Some cache \/
     forall ifc m s, get_type (classes st) i = Some ifc ->
       dict_get (method_slot ifc) m = Some s -> exists p, cache !! s = Some (Some p)) ->
  Filled (set_classes st (put_type (classes st) rt')).
Proof.
  intros F Hg Hn Hms Hnew n' t i cache ifc m s Hg' Hit Hgi Hs. simpl in Hg', Hgi.
  pose proof (get_type_name _ _ _ Hg) as Hname.
  assert (exists ifc0, get_type (classes st) i = Some ifc0 /\
            method_slot ifc = method_slot ifc0) as (ifc0 & Hgi0 & Ems).
  { rewrite get_put in Hgi. destruct (get_type (classes st) i) as [ifc0|] eqn:E; [|done].
    exists ifc0. split; [done|]. case_decide as Hd.
    - injection Hgi as <-. rewrite Hd, Hn, Hname in E. congruence.
    - by injection Hgi as <-. }
  rewrite Ems in Hs.
  rewrite get_put in Hg'. destruct (get_type (classes st) n') as [t0|] eqn:E'; [|done].
  case_decide as Hd.
  - injection Hg' as <-. destruct (Hnew _ _ Hit) as [Hold|Hnw].
    + by eapply (F n rt i cache ifc0 m s).
    + by eapply Hnw.
  - injection Hg' as <-. by eapply (F n' t0 i cache ifc0 m s).
Qed.

Lemma vtable_plan_Filled st runtime slot p st' :
  Filled st -> _vtable_plan runtime slot st = (Ok p, st') -> Filled st'.
Proof.
  intros F H. unfold _vtable_plan in H.
  mbind H as rt s1 H1. apply deref_class_Ok in H1 as [Hg ->].
  mbind H as entry s2 H2. apply lift_Ok in H2 as [Hidx ->].
  destruct entry as [plan|].
  - mbind H as u s3 H3. apply when_metrics_core in H3. apply ret_Ok in H as [-> ->].
    apply core_fields in H3 as (E & _). by eapply Filled_classes.
  - mbind H as u3 s3 H3. apply when_metrics_core in H3.
    mbind H as start s4 H4. apply start_timer_core in H4.
    mbind H as toks s5 H5. apply lift_Ok in H5 as [Htok ->].
    mbind H as plan s6 H6. apply lift_Ok in H6 as [Hcomp ->].
    mbind H as plans s7 H7. apply lift_Ok in H7 as [Hst ->].
    mbind H as u8 s8 H8. apply modify_Ok in H8.
    mbind H as u9 s9 H9. apply stop_timer_core in H9.
    apply ret_Ok in H as [-> ->].
    assert (Hc : core s4 = core st) by congruence.
    pose proof (core_fields _ _ Hc) as (Ecl & _).
    pose proof (core_fields _ _ H9) as (Ecl9 & _).
    apply (Filled_classes s8); [done|]. subst s8.
    apply (Filled_put s4 runtime rt).
    + by eapply Filled_classes.
    + by rewrite Ecl.
    + by destruct rt.
    + by destruct rt.
    + intros i cache Hi. left. by destruct rt.
Qed.

Section itables.
Variables T0 T : list ClassDef.
Hypothesis L : Linked T0 T.
Hypothesis Hkeys : Forall (fun t => NoDup (dict_keys (methods t))) T0.

Lemma itable_plan_Filled st runtime rt iface ifc m p st' :
  Inv T st -> Filled st ->
  get_type (classes st) runtime = Some rt -> is_interface rt = false ->
  get_type (classes st) iface = Some ifc -> is_interface ifc = true ->
  _itable_plan runtime iface m st = (Ok p, st') -> Filled st'.
Proof.
  intros I F Hg Hi Hgi Hii H. unfold _itable_plan in H.
  mbind H as rt1 s1 H1. apply deref_class_Ok in H1 as [Hg1 ->].
  assert (rt1 = rt) as -> by congruence.
  mbind H as ifc1 s2 H2. apply deref_class_Ok in H2 as [Hg2 ->].
  assert (ifc1 = ifc) as -> by congruence.
  pose proof (get_type_name _ _ _ Hgi) as Hname.
  mbind H as cache s3 H3.
  assert (F3 : Filled s3).
  { destruct (_itable_plans rt !! name ifc) as [cache0|] eqn:Hit.
    - mbind H3 as u s4 H4. apply when_metrics_core in H4.
      apply ret_Ok in H3 as [-> ->]. apply core_fields in H4 as (E & _).
      by eapply Filled_classes.
    - mbind H3 as u s4 H4. apply when_metrics_core in H4.
      mbind H3 as start s5 H5. apply start_timer_core in H5.
      assert (Hc5 : core s5 = core st) by congruence.
      pose proof (core_fields _ _ Hc5) as (Ecl5 & _).
      mbind H3 as plans s6 H6.
      apply (build_itable_spec T0 T L runtime rt) in H6 as (Hc6 & Hlen & Hin & _);
        [|by eapply Inv_core|by rewrite Ecl5|done
         |by eapply (interface_slots_nodup T0 T L Hkeys st iface ifc)].
      assert (Hc6' : core s6 = core st) by congruence.
      pose proof (core_fields _ _ Hc6') as (Ecl6 & _).
      mbind H3 as rt' s7 H7. apply deref_class_Ok in H7 as [Hg7 ->].
      rewrite Ecl6, Hg in Hg7. injection Hg7 as <-.
      mbind H3 as u8 s8 H8. apply modify_Ok in H8.
      mbind H3 as u9 s9 H9. apply stop_timer_core in H9.
      apply ret_Ok in H3 as [-> ->].
      pose proof (core_fields _ _ H9) as (Ecl9 & _).
      apply (Filled_classes s8); [done|]. subst s8.
      apply (Filled_put s6 runtime rt).
      + by eapply Filled_classes.
      + by rewrite Ecl6.
      + by destruct rt.
      + by destruct rt.
      + intros i cache' Hi'.
        assert (Hi2 : <[name ifc := plans]> (_itable_plans rt) !! i = Some cache')
          by (by destruct rt).
        destruct (decide (i = name ifc)) as [->|Hne].
        * rewrite lookup_insert_eq in Hi2. injection Hi2 as <-. right.
          intros ifc' m' s Hgi' Hs. rewrite Ecl6, Hname, Hgi in Hgi'.
          injection Hgi' as <-.
          destruct (Hin m' s (dict_get_elem _ _ _ Hs)) as (p2 & Hp2 & _). eauto.
        * rewrite lookup_insert_ne in Hi2 by done. by left. }
  mbind H as slot s4 H4.
  destruct (dict_get (method_slot ifc) m) as [slot'|] eqn:Hslot; [|done].
  apply ret_Ok in H4 as [-> ->].
  mbind H as entry s5 H5. apply lift_Ok in H5 as [Hidx ->].
  destruct entry as [plan|]; [|done]. by apply ret_Ok in H as [-> ->].
Qed.

Lemma resolve_Filled st x b m dynamic p st' :
  Inv T st -> Filled st -> env st !! x = Some b ->
  _resolve_call_plan b m dynamic st = (Ok p, st') -> Filled st'.
Proof.
  intros I F Hx H.
  destruct (dynamic && enable_vtable (cfg st)) eqn:Hfast.
  2:{ destruct (resolve_fallback _ _ _ _ _ _ Hfast H)
        as (? & ? & ? & ? & _ & _ & _ & _ & Ecl & _).
      by eapply Filled_classes. }
  unfold _resolve_call_plan in H.
  destruct (inv_env _ _ I _ _ Hx) as (i0 & rt0 & Hobj & Hrt0 & Hirt0 & _).
  mbind H as i s1 H1. apply deref_object_Ok in H1 as [Hi ->].
  assert (i = i0) as -> by congruence.
  mbind H as view s2 H2. apply deref_class_Ok in H2 as [Hview ->].
  mbind H as rt s3 H3. apply deref_class_Ok in H3 as [Hrt ->].
  destruct (proj2 (inv_agree _ _ I) _ _ Hrt) as (rt0' & Hrt0' & Hcr).
  assert (rt0' = rt0) as -> by congruence.
  assert (Hir : is_interface rt = false).
  { by destruct (cached_static _ _ Hcr) as (_ & -> & _). }
  pose proof (get_type_name _ _ _ Hrt) as Hname.
  mbind H as st0 s4 H4. apply get_Ok in H4 as [-> ->].
  mbind H as visible s5 H5. apply lift_Ok in H5 as [Hvis ->].
  destruct visible as [vtoks|]; [|done].
  rewrite Hfast in H.
  destruct (is_interface view) eqn:Hiv.
  - mbind H as impl s6 H6. apply lift_Ok in H6 as [Himpl ->].
    destruct impl; [|done]. simpl in H.
    mbind H as plan s7 H7. rewrite Hname in H7.
    pose proof (get_type_name _ _ _ Hview) as Hvname. rewrite Hvname in H7.
    apply (itable_plan_Filled _ _ rt _ view) in H7; try done.
    mbind H as u s8 H8. apply when_metrics_core in H8.
    apply ret_Ok in H as [-> ->]. apply core_fields in H8 as (E & _).
    by eapply Filled_classes.
  - mbind H as sub s6 H6. apply lift_Ok in H6 as [Hsub ->].
    destruct (negb sub && negb (bool_decide (name rt = name view))) eqn:Hchk; [done|].
    destruct (dict_get (method_slot view) m) as [slot|] eqn:Hslot; [|done].
    mbind H as plan s7 H7.
    apply vtable_plan_Filled in H7; [|done].
    mbind H as u s8 H8. apply when_metrics_core in H8.
    apply ret_Ok in H as [-> ->]. apply core_fields in H8 as (E & _).
    by eapply Filled_classes.
Qed.

Lemma exec_Filled st s st' :
  Inv T st -> Filled st -> _exec_statement s st = (Ok tt, st') -> Filled st'.
Proof.
  intros I F H. destruct (is_call s) eqn:Hs.
  - assert (exists x m dynamic, _exec_call x m dynamic st = (Ok tt, st'))
      as (x & m & dynamic & Hcall).
    { destruct s; try done; cbn [_exec_statement] in H; eauto. }
    destruct (exec_call_Ok _ _ _ _ _ Hcall)
      as (b & p & s1 & i & vs & Hx & Hres & _ & _ & ->).
    apply (Filled_classes s1); [done|]. by eapply resolve_Filled.
  - apply (Filled_classes st); [|done]. by eapply (keeps_classes_statement s).
Qed.

(** An itable stored for a class and an interface witnesses a
    declaration of every method of the interface along the chain of the
    class. *)
Lemma itable_built_declared st runtime rt lr iface ifc cache m :
  Inv T st -> Filled st ->
  get_type (classes st) runtime = Some rt ->
  Chain (classes st) (Some runtime) (rt :: lr) ->
  get_type (classes st) iface = Some ifc -> is_interface ifc = true ->
  _itable_plans rt !! iface = Some cache ->
  m ∈ dict_keys (methods ifc) ->
  is_Some (first_decl (rt :: lr) m).
Proof.
  intros I F Hg Hl Hgi Hii Hit Hm.
  pose proof (Inv_Linked T0 T L st I) as L'.
  assert (Hs : is_Some (dict_get (method_slot ifc) m)).
  { apply dict_get_keys. rewrite (lk_slots _ _ L' _ _ Hgi Hii).
    unfold dict_keys. rewrite enumerate_dict_keys; [exact Hm|].
    by eapply (methods_nodup _ _ L'). }
  destruct Hs as [s Hs].
  destruct (F _ _ _ _ _ _ _ Hg Hit Hgi Hs) as [p Hp].
  destruct (proj2 (inv_agree _ _ I) _ _ Hgi) as (ifc0 & Hgi0 & Hci).
  destruct (cached_static _ _ Hci) as (_ & _ & _ & _ & _ & _ & Hslots & _).
  rewrite Hslots in Hs.
  destruct (inv_itable _ _ I _ _ _ _ _ _ _ _ Hg Hit Hgi0 Hs Hp)
    as (rt0 & l0 & toks & Hg0 & Hl0 & Hf & _).
  destruct (agree_chain _ _ _ _ (inv_agree _ _ I) Hl0) as (l' & Hl' & HF).
  rewrite (Chain_fun _ _ _ _ Hl Hl'), (first_decl_cached _ _ m HF). eauto.
Qed.

(** The first method of an interface, in declaration order, that has no
    declaration along the chain [l]. *)
Definition first_missing (l : list ClassDef) (keys : list string) : option string :=
  find (fun k => match first_decl l k with None => true | Some _ => false end) keys.

(** Building an itable stops at the first method without a declaration. *)
Lemma build_itable_missing C r rt lr iname m1 : forall slots plans st,
  classes st = C -> Linked T0 C -> Bodies C ->
  get_type C r = Some rt -> is_interface rt = false ->
  Chain C (Some r) (rt :: lr) -> length (rt :: lr) <= length C ->
  first_missing (rt :: lr) (map fst slots) = Some m1 ->
  Forall (fun ms : string * nat => ms.2 < length plans) slots ->
  exists st', build_itable r iname slots plans st =
                (Err (ItableMissing r iname m1), st').
Proof.
  intros slots. induction slots as [|[k s] slots IH];
    intros plans st HC LC BC Hr Hir Hl Hlen Hmiss Hrange; [done|].
  apply Forall_cons in Hrange as [Hs Hrange]. simpl in Hs.
  cbn [build_itable].
  assert (Hl' : Chain (classes st) (Some r) (rt :: lr)) by (by rewrite HC).
  assert (Hlen' : length (rt :: lr) <= length (classes st)) by (by rewrite HC).
  rewrite (eval_Ok _ _ _ _ _ (lookup_with_steps_chain (rt :: lr) r k st Hl' Hlen')).
  cbn [fst snd]. unfold first_missing in Hmiss. cbn [map find fst] in Hmiss.
  destruct (first_decl (rt :: lr) k) as [toks|] eqn:Hf.
  - set (st1 := set_metrics st (walk_metrics (rt :: lr) k (metrics st))).
    assert (Hr1 : get_type (classes st1) r = Some rt) by (simpl; by rewrite HC).
    rewrite (eval_Ok _ _ _ _ _ (deref_class_eval _ _ _ Hr1)).
    apply first_decl_Some in Hf as (d & Hd & Hm).
    destruct (chain_compiles T0 C LC BC r rt lr d k k toks Hr Hir Hl Hd Hm) as [p Hp].
    rewrite Hp. rewrite (eval_Ok (lift (Ok p)) _ st1 _ st1 eq_refl).
    unfold store_at. rewrite decide_True by done.
    rewrite (eval_Ok (lift (Ok (<[s := Some p]> plans))) _ st1 _ st1 eq_refl).
    destruct (when_metrics (add_steps (walk_steps (rt :: lr) k 0)) st1)
      as [[u|e] st2] eqn:Hw; [|by apply when_metrics_Err in Hw].
    rewrite (eval_Ok _ _ _ _ _ Hw).
    apply when_metrics_core in Hw.
    pose proof (core_fields _ _ Hw) as (Ecl & _).
    apply IH; try done.
    + by rewrite Ecl.
    + eapply Forall_impl; [exact Hrange|]. intros ms Hms.
      by rewrite length_insert.
  - injection Hmiss as <-. eexists. reflexivity.
Qed.

Lemma itable_plan_missing st runtime rt lr iface ifc m m1 :
  Inv T st -> Filled st ->
  get_type (classes st) runtime = Some rt -> is_interface rt = false ->
  get_type (classes st) iface = Some ifc -> is_interface ifc = true ->
  Chain (classes st) (Some runtime) (rt :: lr) ->
  length (rt :: lr) <= length (classes st) ->
  Bodies (classes st) ->
  first_missing (rt :: lr) (dict_keys (methods ifc)) = Some m1 ->
  exists st', _itable_plan runtime iface m st =
                (Err (ItableMissing runtime iface m1), st').
Proof.
  intros I F Hg Hi Hgi Hii Hl Hlen HB' Hmiss.
  pose proof (Inv_Linked T0 T L st I) as L'.
  pose proof (get_type_name _ _ _ Hgi) as Hname.
  pose proof (find_some _ _ Hmiss) as [Hin Hnone].
  apply list_elem_of_In in Hin.
  unfold _itable_plan.
  rewrite (eval_Ok _ _ _ _ _ (deref_class_eval _ _ _ Hg)).
  rewrite (eval_Ok _ _ _ _ _ (deref_class_eval _ _ _ Hgi)).
  rewrite Hname.
  destruct (_itable_plans rt !! iface) as [cache|] eqn:Hit.
  { exfalso.
    destruct (itable_built_declared st runtime rt lr iface ifc cache m1)
      as [t Ht]; try done.
    by rewrite Ht in Hnone. }
  destruct (when_metrics miss st) as [[u|e] s4] eqn:H4;
    [|by apply when_metrics_Err in H4].
  pose proof (when_metrics_core _ _ _ _ H4) as Hc4.
  destruct (start_timer s4) as [[start|e] s5] eqn:H5;
    [|by apply start_timer_Err in H5].
  pose proof (start_timer_core _ _ _ H5) as Hc5.
  assert (Ecl : classes s5 = classes st).
  { apply core_fields in Hc4 as (E4 & _). apply core_fields in Hc5 as (E5 & _).
    congruence. }
  assert (Hnd : NoDup (dict_keys (methods ifc))) by (by eapply (methods_nodup _ _ L')).
  destruct (build_itable_missing (classes st) runtime rt lr iface m1
              (method_slot ifc) (replicate (length (method_slot ifc)) None) s5)
    as [st' Hb]; try done.
  { rewrite (lk_slots _ _ L' _ _ Hgi Hii). by rewrite enumerate_dict_keys. }
  { rewrite length_replicate, (lk_slots _ _ L' _ _ Hgi Hii).
    apply Forall_forall. intros [k s] Hks. simpl.
    destruct (enumerate_dict_spec _ Hnd) as (Hlen' & Hsp & _).
    rewrite Hlen'. eapply lookup_lt_Some. by apply Hsp. }
  exists st'. apply bind_Err_eval.
  rewrite (eval_Ok _ _ _ _ _ H4). rewrite (eval_Ok _ _ _ _ _ H5).
  by apply bind_Err_eval.
Qed.
End itables.

Lemma reachable_Filled T0 T st :
  declarations T0 -> _resolve_and_link T0 = Ok T -> reachable T st -> Filled st.
Proof.
  intros HD Hlink Hr. induction Hr as [config clk|st s st' Hr IH H].
  - destruct HD as (Hnd & HC & _).
    destruct (link_Linked_caches _ _ Hnd HC Hlink) as [_ Hce].
    intros n t i cache ifc m s Hg Hit. simpl in Hg. destruct (Hce _ _ Hg) as [E _].
    rewrite E in Hit. by rewrite lookup_empty in Hit.
  - pose proof (reachable_Inv _ _ _ HD Hlink Hr) as I.
    destruct HD as (Hnd & HC & Hkeys).
    pose proof (link_Linked _ _ Hnd HC Hlink) as L.
    by eapply (exec_Filled T0 T L Hkeys st s st').
Qed.

(** The first method among [keys] that a lookup from the class [rt] does
    not find. *)
Definition first_undeclared (T : list ClassDef) (rt : ClassDef)
    (keys : list string) : option string :=
  find (fun k => match lookup_method T rt k with Ok None => true | _ => false end)
       keys.



(** * Virtual calls through an interface view *)

Section interface_progress.
Variables T0 T : list ClassDef.
Hypothesis L : Linked T0 T.
Hypothesis Hkeys : Forall (fun t => NoDup (dict_keys (methods t))) T0.

(** Building an itable cannot fail when every method has a declaration
    along the chain of the class. *)
Lemma build_itable_total C r rt lr iname : forall slots plans st,
  classes st = C -> Linked T0 C -> Bodies C ->
  get_type C r = Some rt -> is_interface rt = false ->
  Chain C (Some r) (rt :: lr) -> length (rt :: lr) <= length C ->
  first_missing (rt :: lr) (map fst slots) = None ->
  Forall (fun ms : string * nat => ms.2 < length plans) slots ->
  forall e st', build_itable r iname slots plans st <> (Err e, st').
Proof.
  intros slots. induction slots as [|[k s] slots IH];
    intros plans st HC LC BC Hr Hir Hl Hlen Hmiss Hrange e st'; [done|].
  apply Forall_cons in Hrange as [Hs Hrange]. simpl in Hs.
  cbn [build_itable].
  assert (Hl' : Chain (classes st) (Some r) (rt :: lr)) by (by rewrite HC).
  assert (Hlen' : length (rt :: lr) <= length (classes st)) by (by rewrite HC).
  rewrite (eval_Ok _ _ _ _ _ (lookup_with_steps_chain (rt :: lr) r k st Hl' Hlen')).
  cbn [fst snd]. unfold first_missing in Hmiss. cbn [map find fst] in Hmiss.
  destruct (first_decl (rt :: lr) k) as [toks|] eqn:Hf; [|done].
  set (st1 := set_metrics st (walk_metrics (rt :: lr) k (metrics st))).
  assert (Hr1 : get_type (classes st1) r = Some rt) by (simpl; by rewrite HC).
  rewrite (eval_Ok _ _ _ _ _ (deref_class_eval _ _ _ Hr1)).
  apply first_decl_Some in Hf as (d & Hd & Hm).
  destruct (chain_compiles T0 C LC BC r rt lr d k k toks Hr Hir Hl Hd Hm) as [p Hp].
  rewrite Hp. rewrite (eval_Ok (lift (Ok p)) _ st1 _ st1 eq_refl).
  unfold store_at. rewrite decide_True by done.
  rewrite (eval_Ok (lift (Ok (<[s := Some p]> plans))) _ st1 _ st1 eq_refl).
  destruct (when_metrics (add_steps (walk_steps (rt :: lr) k 0)) st1)
    as [[u|e'] st2] eqn:Hw; [|by apply when_metrics_Err in Hw].
  rewrite (eval_Ok _ _ _ _ _ Hw).
  apply when_metrics_core in Hw.
  pose proof (core_fields _ _ Hw) as (Ecl & _).
  apply IH; try done.
  - by rewrite Ecl.
  - eapply Forall_impl; [exact Hrange|]. intros ms Hms.
    by rewrite length_insert.
Qed.

Lemma itable_plan_total st runtime rt lr iface ifc m :
  Inv T st -> Filled st ->
  get_type (classes st) runtime = Some rt -> is_interface rt = false ->
  get_type (classes st) iface = Some ifc -> is_interface ifc = true ->
  Chain (classes st) (Some runtime) (rt :: lr) ->
  length (rt :: lr) <= length (classes st) ->
  Bodies (classes st) ->
  first_missing (rt :: lr) (dict_keys (methods ifc)) = None ->
  m ∈ dict_keys (methods ifc) ->
  forall e st', _itable_plan runtime iface m st <> (Err e, st').
Proof.
  intros I F Hg Hi Hgi Hii Hl Hlen HB' Hmiss Hm e st' H.
  pose proof (Inv_Linked T0 T L st I) as L'.
  pose proof (get_type_name _ _ _ Hgi) as Hname.
  assert (Hnd : NoDup (dict_keys (methods ifc))) by (by eapply (methods_nodup _ _ L')).
  assert (Hs : is_Some (dict_get (method_slot ifc) m)).
  { apply dict_get_keys. rewrite (lk_slots _ _ L' _ _ Hgi Hii).
    unfold dict_keys. by rewrite enumerate_dict_keys. }
  destruct Hs as [s Hs].
  unfold _itable_plan in H.
  rewrite (eval_Ok _ _ _ _ _ (deref_class_eval _ _ _ Hg)) in H.
  rewrite (eval_Ok _ _ _ _ _ (deref_class_eval _ _ _ Hgi)) in H.
  rewrite Hname, Hs in H.
  apply bind_inv in H as [(cache & s3 & H3 & H)|(e3 & H3 & _)].
  - assert (Hfull : exists p, cache !! s = Some (Some p)).
    { destruct (_itable_plans rt !! iface) as [cache0|] eqn:Hit.
      - mbind H3 as u s4 H4. apply ret_Ok in H3 as [-> ->].
        by eapply (F runtime rt iface cache0 ifc m s).
      - mbind H3 as u s4 H4. apply when_metrics_core in H4.
        mbind H3 as start s5 H5. apply start_timer_core in H5.
        assert (Hc5 : core s5 = core st) by congruence.
        pose proof (core_fields _ _ Hc5) as (Ecl5 & _).
        mbind H3 as plans s6 H6.
        apply (build_itable_spec T0 T L runtime rt) in H6 as (Hc6 & _ & Hin & _);
          [|by eapply Inv_core|by rewrite Ecl5|done
           |by eapply (interface_slots_nodup T0 T L Hkeys st iface ifc)].
        mbind H3 as rt' s7 H7. mbind H3 as u8 s8 H8. mbind H3 as u9 s9 H9.
        apply ret_Ok in H3 as [-> ->].
        destruct (Hin m s (dict_get_elem _ _ _ Hs)) as (p2 & Hp2 & _). eauto. }
    destruct Hfull as [p Hp].
    rewrite (eval_Ok (ret s) _ s3 s s3 eq_refl) in H.
    unfold index in H. rewrite Hp in H.
    by rewrite (eval_Ok (lift (Ok (Some p))) _ s3 _ s3 eq_refl) in H.
  - destruct (_itable_plans rt !! iface) as [cache0|] eqn:Hit.
    + apply bind_inv in H3 as [(u & s4 & H4 & H3)|(e4 & H4 & _)]; [done|].
      by apply when_metrics_Err in H4.
    + apply bind_inv in H3 as [(u & s4 & H4 & H3)|(e4 & H4 & _)];
        [|by apply when_metrics_Err in H4].
      apply when_metrics_core in H4.
      apply bind_inv in H3 as [(start & s5 & H5 & H3)|(e5 & H5 & _)];
        [|by apply start_timer_Err in H5].
      apply start_timer_core in H5.
      assert (Hc5 : core s5 = core st) by congruence.
      pose proof (core_fields _ _ Hc5) as (Ecl5 & _).
      apply bind_inv in H3 as [(plans & s6 & H6 & H3)|(e6 & H6 & _)].
      * pose proof H6 as H6'.
        apply (build_itable_spec T0 T L runtime rt) in H6' as (Hc6 & _);
          [|by eapply Inv_core|by rewrite Ecl5|done
           |by eapply (interface_slots_nodup T0 T L Hkeys st iface ifc)].
        assert (Hc6' : core s6 = core st) by congruence.
        pose proof (core_fields _ _ Hc6') as (Ecl6 & _).
        rewrite <- Ecl6 in Hg.
        rewrite (eval_Ok _ _ _ _ _ (deref_class_eval _ _ _ Hg)) in H3.
        apply bind_inv in H3 as [(u8 & s8 & H8 & H3)|(e8 & H8 & _)]; [|done].
        apply bind_inv in H3 as [(u9 & s9 & H9 & H3)|(e9 & H9 & _)]; [done|].
        by apply stop_timer_Err in H9.
      * revert H6.
        apply (build_itable_total (classes st) runtime rt lr); try done.
        { rewrite (lk_slots _ _ L' _ _ Hgi Hii). by rewrite enumerate_dict_keys. }
        { rewrite length_replicate, (lk_slots _ _ L' _ _ Hgi Hii).
          apply Forall_forall. intros [k s'] Hks. simpl.
          destruct (enumerate_dict_spec _ Hnd) as (Hlen' & Hsp & _).
          rewrite Hlen'. eapply lookup_lt_Some. by apply Hsp. }
Qed.

(** The resolution of a virtual call through an interface view cannot
    fail when the declarations it needs are there: on the vtable path a
    declaration of every method of the interface, on the fallback path
    a declaration of the method called. *)
Lemma resolve_interface_view_total st b i rt lr view m vtoks :
  Inv T st -> Filled st -> Bodies (classes st) ->
  objects st !! inst b = Some i ->
  get_type (classes st) (cls i) = Some rt -> is_interface rt = false ->
  get_type (classes st) (view_cls b) = Some view -> is_interface view = true ->
  Chain (classes st) (Some (cls i)) (rt :: lr) ->
  length (rt :: lr) <= length (classes st) ->
  implements_interface (classes st) rt view = Ok true ->
  lookup_method (classes st) view m = Ok (Some vtoks) ->
  (if enable_vtable (cfg st)
   then first_missing (rt :: lr) (dict_keys (methods view)) = None
   else first_missing (rt :: lr) [m] = None) ->
  forall e st', _resolve_call_plan b m true st <> (Err e, st').
Proof.
  intros I F HB' Hobj Hrt Hir Hview Hiv Hlr Hlen Himpl Hvis Hdecl e st' H.
  pose proof (get_type_name _ _ _ Hrt) as Hnr.
  pose proof (get_type_name _ _ _ Hview) as Hnv.
  assert (Hm : m ∈ dict_keys (methods view)).
  { apply dict_get_keys. unfold lookup_method in Hvis. rewrite Hiv in Hvis.
    injection Hvis as ->. eauto. }
  unfold _resolve_call_plan in H.
  rewrite (eval_Ok _ _ _ _ _ (deref_object_eval _ _ _ Hobj)) in H.
  rewrite (eval_Ok _ _ _ _ _ (deref_class_eval _ _ _ Hview)) in H.
  rewrite (eval_Ok _ _ _ _ _ (deref_class_eval _ _ _ Hrt)) in H.
  rewrite (eval_Ok get _ st st st eq_refl) in H.
  rewrite Hvis in H.
  rewrite (eval_Ok (lift (Ok (Some vtoks))) _ st _ st eq_refl) in H.
  cbn [andb] in H.
  destruct (enable_vtable (cfg st)) eqn:Hvt.
  - rewrite Hiv, Himpl in H.
    rewrite (eval_Ok (lift (Ok true)) _ st _ st eq_refl) in H.
    cbn [negb] in H. rewrite Hnr, Hnv in H.
    apply bind_inv in H as [(plan & s1 & H1 & H)|(e1 & H1 & _)].
    + apply bind_inv in H as [(u & s2 & H2 & H)|(e2 & H2 & _)]; [done|].
      by apply when_metrics_Err in H2.
    + revert H1. by apply (itable_plan_total st (cls i) rt lr (view_cls b) view m).
  - unfold first_missing in Hdecl. cbn [find] in Hdecl.
    destruct (first_decl (rt :: lr) m) as [rtoks|] eqn:Hfr; [|done].
    destruct (if enable_cache (cfg st)
              then _plan_cache st !! cache_key true view rt m
              else None) as [plan|].
    + apply bind_inv in H as [(u & s1 & H1 & H)|(e1 & H1 & _)]; [done|].
      by apply when_metrics_Err in H1.
    + apply bind_inv in H as [(u & s6 & H6 & H)|(e1 & H1 & _)];
        [|by apply when_metrics_Err in H1].
      apply when_metrics_core in H6.
      apply bind_inv in H as [(start & s7 & H7 & H)|(e1 & H1 & _)];
        [|by apply start_timer_Err in H1].
      apply start_timer_core in H7.
      assert (Hc7 : core s7 = core st) by congruence.
      pose proof (core_fields _ _ Hc7) as (Ecl7 & _).
      assert (Hlk : exists steps s8,
                lookup_tokens view rt m true s7 = (Ok (Some rtoks, steps), s8)).
      { rewrite <- Ecl7 in Hlr, Hlen, Himpl.
        eexists _, _. unfold lookup_tokens. cbn [negb]. rewrite Hiv.
        unfold bind, get, lift, ret. cbv beta iota. rewrite Himpl. cbn [negb].
        rewrite Hnr.
        rewrite (lookup_with_steps_chain (rt :: lr) (cls i) m s7 Hlr Hlen).
        by rewrite Hfr. }
      destruct Hlk as (steps & s8 & Hlk).
      apply first_decl_Some in Hfr as (d & Hd & Hdm).
      destruct (chain_compiles T0 (classes st) (Inv_Linked T0 T L st I) HB'
                  (cls i) rt lr d m m rtoks Hrt Hir Hlr Hd Hdm) as [p Hp].
      rewrite (eval_Ok _ _ _ _ _ Hlk) in H. cbn [fst snd] in H.
      rewrite Hp in H.
      rewrite (eval_Ok (lift (Ok p)) _ s8 _ s8 eq_refl) in H.
      apply bind_inv in H as [(u10 & s10 & H10 & H)|(e1 & H1 & _)];
        [|by apply stop_timer_Err in H1].
      apply bind_inv in H as [(u11 & s11 & H11 & H)|(e1 & H1 & _)]; [done|].
      by destruct (enable_cache (cfg st)).
Qed.
End interface_progress.



(** * lang_types.py: [ClassDef.visible_method_names] *)

(** The loop of [visible_method_names]: [out.update(c.methods.keys())]
    along the base chain. *)
Fixpoint visible_method_names_loop (tbl : list ClassDef) (fuel : nat)
    (c : option string) (out : gset string) : Res (gset string) :=
  match c with
  | None => Ok out
  | Some h =>
      match fuel with
      | O => Err Diverges
      | S fuel' =>
          (t <- deref tbl h;;
           visible_method_names_loop tbl fuel' (base t)
             (out ∪ list_to_set (dict_keys (methods t))))%res
      end
  end.

Definition visible_method_names (tbl : list ClassDef) (self : ClassDef)
    : Res (gset string) :=
  if is_interface self then Ok (list_to_set (dict_keys (methods self)))
  else visible_method_names_loop tbl (chain_fuel tbl) (Some (name self)) ∅.

Lemma visible_method_names_loop_chain T l c fuel : forall out,
  Chain T c l -> length l <= fuel ->
  exists vis, visible_method_names_loop T fuel c out = Ok vis /\
    forall m, m ∈ vis <-> m ∈ out \/ exists t, t ∈ l /\ m ∈ dict_keys (methods t).
Proof.
  intros out H. revert fuel out.
  induction H as [|h t l Hg Hc IH]; intros fuel out Hf.
  - exists out. split; [by destruct fuel|]. intros m. split; [by left|].
    intros [?|(t & Ht & _)]; [done|]. by apply elem_of_nil in Ht.
  - destruct fuel as [|fuel]; simpl in *; [lia|].
    unfold deref. rewrite Hg. simpl.
    destruct (IH fuel (out ∪ list_to_set (dict_keys (methods t)))) as (vis & -> & Hvis);
      [lia|].
    exists vis. split; [done|]. intros m. rewrite Hvis, elem_of_union, elem_of_list_to_set.
    split.
    + intros [[?|?]|(t' & Ht' & ?)]; [by left|right..].
      * exists t. split; [apply list_elem_of_here | done].
      * exists t'. split; [by apply list_elem_of_further | done].
    + intros [?|(t' & Ht' & ?)]; [by left; left|].
      apply elem_of_cons in Ht' as [->|Ht']; [by left; right|].
      right. eauto.
Qed.

Lemma first_decl_is_Some l m :
  is_Some (first_decl l m) <-> exists t, t ∈ l /\ m ∈ dict_keys (methods t).
Proof.
  split.
  - intros [toks H]. apply first_decl_Some in H as (t & Ht & Hm).
    exists t. split; [done|]. apply dict_get_keys. eauto.
  - intros (t & Ht & Hm). apply dict_get_keys in Hm as [toks Hm].
    destruct (first_decl l m) as [toks'|] eqn:E; [eauto|].
    rewrite first_decl_None in E. rewrite (E t Ht) in Hm. done.
Qed.

(** After a successful link, [visible_method_names] of a type returns
    exactly the names that [lookup_method] finds from it: the names the
    visibility check of a call through a view of that type lets pass. *)
Theorem visible_names_are_found T0 T n c :
  declarations T0 -> _resolve_and_link T0 = Ok T -> get_type T n = Some c ->
  exists vis, visible_method_names T c = Ok vis /\
    forall m, m ∈ vis <-> exists toks, lookup_method T c m = Ok (Some toks).
Proof.
  intros (Hnd & HC & Hkeys) Hlink Hg.
  pose proof (link_Linked _ _ Hnd HC Hlink) as L.
  unfold visible_method_names. destruct (is_interface c) eqn:Hi.
  - eexists. split; [done|]. intros m. rewrite elem_of_list_to_set, <- dict_get_keys.
    unfold lookup_method. rewrite Hi. split.
    + intros [toks ->]. eauto.
    + intros (toks & [= ->]). eauto.
  - destruct (class_chain T0 T L n c Hg Hi) as (l & Hl & _ & Hlen & _).
    rewrite (get_type_name _ _ _ Hg).
    destruct (visible_method_names_loop_chain T (c :: l) (Some n) (chain_fuel T) ∅ Hl)
      as (vis & Hvis & Hin); [unfold chain_fuel; lia|].
    exists vis. split; [done|]. intros m.
    rewrite (lookup_method_class T0 T n c (c :: l) m L Hg Hi Hl Hlen).
    rewrite Hin, <- first_decl_is_Some. split.
    + intros [?|[toks ->]]; [set_solver | eauto].
    + intros (toks & [= ->]). right. eauto.
Qed.

Lemma visible_names_are_found_witness :
  exists vis, visible_method_names Linked_example.T (Linked_example.class_of "C") = Ok vis /\
    forall m, m ∈ vis <->
      exists toks, lookup_method Linked_example.T (Linked_example.class_of "C") m
                   = Ok (Some toks).
Proof.
  apply (visible_names_are_found Examples.table Linked_example.T "C").
  - exact Linked_example.table_declarations.
  - exact Linked_example.table_links.
  - vm_compute. reflexivity.
Defined.

(** * The visibility check of a call *)



(** * What the plan cache holds *)

(** In a state of a run the plan cache holds an entry only when the
    cache is enabled, the mode of its key is ["static"] or ["dyn"], and a
    ["dyn"] entry exists only when the vtable path is disabled: with the
    cache disabled nothing is ever stored, and with the vtable path
    enabled a virtual call never reaches the cache. *)
Theorem plan_cache_discipline T st mode v r m p :
  reachable T st -> _plan_cache st !! (mode, v, r, m) = Some p ->
  enable_cache (cfg st) = true /\
  (mode = "static" \/ (mode = "dyn" /\ enable_vtable (cfg st) = false)).
Proof.
  intros Hr. revert mode v r m p.
  induction Hr as [config clk|st s st' Hr IH H]; intros mode v r m p Hc.
  { simpl in Hc. by rewrite lookup_empty in Hc. }
  assert (Ecfg : cfg st' = cfg st).
  { assert (E : quiet_state st' = quiet_state st).
    { apply (keeps_exec_statement quiet_state quiet_state_internal s) in H; [done|].
      intros _ b0 m0 d.
      apply keeps_resolve; [apply (int_ins _ quiet_state_internal) | done]. }
    by apply (f_equal fst) in E. }
  rewrite Ecfg. destruct (is_call s) eqn:Hs.
  - assert (exists x m0 dynamic, _exec_call x m0 dynamic st = (Ok tt, st'))
      as (x & m0 & dynamic & Hcall).
    { destruct s; try done; cbn [_exec_statement] in H; eauto. }
    destruct (exec_call_Ok _ _ _ _ _ Hcall)
      as (b & p0 & s1 & i & vs & Hx & Hres & _ & _ & ->).
    simpl in Hc.
    destruct (resolve_cache_shape _ _ _ _ _ _ Hres)
      as (i' & view & rt & _ & _ & _ & Hshape).
    destruct Hshape as [[_ E]|[(_ & _ & _ & E)|(Hslow & _ & E)]];
      try (rewrite E in Hc; by eapply IH).
    rewrite E in Hc. destruct (enable_cache (cfg st)) eqn:Hec; [|by eapply IH].
    destruct (decide ((mode, v, r, m) = cache_key dynamic view rt m0)) as [Hk|Hk].
    + split; [done|]. unfold cache_key in Hk. injection Hk as -> _ _ _.
      destruct dynamic; [right|by left]. split; [done|]. exact Hslow.
    + rewrite lookup_insert_ne in Hc by done. by eapply IH.
  - assert (E : _plan_cache st' = _plan_cache st).
    { apply (keeps_exec_statement _plan_cache plan_cache_internal s) in H; [done|].
      by rewrite Hs. }
    rewrite E in Hc. by eapply IH.
Qed.

Lemma plan_cache_discipline_witness :
  enable_cache (cfg (Runs.after Runs.slow (Runs.prog ++ [VCall "a" "get"]))) = true /\
  (("dyn" : string) = "static" \/
   (("dyn" : string) = "dyn" /\
    enable_vtable (cfg (Runs.after Runs.slow (Runs.prog ++ [VCall "a" "get"]))) = false)).
Proof.
  apply (plan_cache_discipline Linked_example.T
           (Runs.after Runs.slow (Runs.prog ++ [VCall "a" "get"]))
           "dyn" "A" "C" "get" Cached_run.plan).
  - apply Runs.after_reachable. vm_compute. reflexivity.
  - vm_compute. reflexivity.
Defined.

(** * The settings do not change what a program prints *)

(** What a program can observe of a state: the names, the objects and
    the lines printed. *)
Definition same_view (st1 st2 : Interpreter) : Prop :=
  env st1 = env st2 /\ objects st1 = objects st2 /\ stdout st1 = stdout st2.

Section transparent.
Variables T0 T : list ClassDef.
Hypothesis L : Linked T0 T.
Hypothesis Hkeys : Forall (fun t => NoDup (dict_keys (methods t))) T0.

Lemma agree_None_back T' n : agree T T' -> get_type T n = None -> get_type T' n = None.
Proof.
  intros Ha Hn. destruct (get_type T' n) as [t'|] eqn:E; [|done].
  destruct (proj2 Ha _ _ E) as (t & Ht & _). congruence.
Qed.

Lemma is_transparent st1 st2 x tn st1' st2' :
  Inv T st1 -> Inv T st2 -> same_view st1 st2 ->
  _exec_is x tn st1 = (Ok tt, st1') -> _exec_is x tn st2 = (Ok tt, st2') ->
  same_view st1' st2'.
Proof.
  intros I1 I2 (Ee & Eo & Es) H1 H2.
  pose proof (inv_agree _ _ I1) as Ha1. pose proof (inv_agree _ _ I2) as Ha2.
  unfold _exec_is in H1, H2.
  rewrite (eval_Ok get _ st1 st1 st1 eq_refl) in H1.
  rewrite (eval_Ok get _ st2 st2 st2 eq_refl) in H2.
  rewrite Ee in H1.
  assert (Hout : forall l,
            print l st1 = (Ok tt, st1') -> print l st2 = (Ok tt, st2') ->
            same_view st1' st2').
  { intros l [= <-] [= <-]. unfold same_view. simpl. by rewrite Ee, Eo, Es. }
  destruct (env st2 !! x) as [b|] eqn:Hx.
  2:{ destruct (get_type (classes st1) tn), (get_type (classes st2) tn);
        by eapply Hout. }
  destruct (get_type T tn) as [t|] eqn:Ht.
  2:{ rewrite (agree_None_back _ _ Ha1 Ht) in H1.
      rewrite (agree_None_back _ _ Ha2 Ht) in H2. by eapply Hout. }
  destruct (agree_back _ _ _ _ Ha1 Ht) as (t1 & Ht1 & Hc1).
  destruct (agree_back _ _ _ _ Ha2 Ht) as (t2 & Ht2 & Hc2).
  rewrite Ht1 in H1. rewrite Ht2 in H2.
  destruct (inv_env _ _ I2 _ _ Hx) as (i & rt & Hobj & Hrt & _ & _).
  destruct (agree_back _ _ _ _ Ha1 Hrt) as (r1 & Hr1 & Hcr1).
  destruct (agree_back _ _ _ _ Ha2 Hrt) as (r2 & Hr2 & Hcr2).
  rewrite <- Eo in Hobj.
  rewrite (eval_Ok _ _ _ _ _ (deref_object_eval _ _ _ Hobj)) in H1.
  rewrite Eo in Hobj.
  rewrite (eval_Ok _ _ _ _ _ (deref_object_eval _ _ _ Hobj)) in H2.
  rewrite (eval_Ok _ _ _ _ _ (deref_class_eval _ _ _ Hr1)) in H1.
  rewrite (eval_Ok _ _ _ _ _ (deref_class_eval _ _ _ Hr2)) in H2.
  destruct (cached_static _ _ Hc1) as (_ & Hi1 & _).
  destruct (cached_static _ _ Hc2) as (_ & Hi2 & _).
  rewrite Hi1, (implements_agree _ _ _ _ _ _ Ha1 Hcr1 Hc1),
    (subclass_agree _ _ _ _ _ _ Ha1 Hcr1 Hc1) in H1.
  rewrite Hi2, (implements_agree _ _ _ _ _ _ Ha2 Hcr2 Hc2),
    (subclass_agree _ _ _ _ _ _ Ha2 Hcr2 Hc2) in H2.
  destruct (if is_interface t then implements_interface T rt t
            else is_subclass_of T rt t) as [r|e]; [|done].
  rewrite (eval_Ok (lift (Ok r)) _ st1 _ st1 eq_refl) in H1.
  rewrite (eval_Ok (lift (Ok r)) _ st2 _ st2 eq_refl) in H2.
  by eapply Hout.
Qed.

(** A statement that ends normally in two states of runs with the same
    names, objects and output leaves them with the same names, objects
    and output. *)
Lemma step_transparent st1 st2 s st1' st2' :
  Inv T st1 -> Inv T st2 -> Cached T st1 -> Cached T st2 ->
  same_view st1 st2 ->
  _exec_statement s st1 = (Ok tt, st1') -> _exec_statement s st2 = (Ok tt, st2') ->
  same_view st1' st2'.
Proof.
  intros I1 I2 C1 C2 Hsame H1 H2.
  assert (Hcase : (exists x t, s = Is x t) \/ forall x t, s <> Is x t)
    by (destruct s; eauto; by right).
  destruct Hcase as [(x & t & ->)|Hnis].
  { cbn [_exec_statement] in H1, H2.
    exact (is_transparent st1 st2 x t st1' st2' I1 I2 Hsame H1 H2). }
  destruct Hsame as (Ee & Eo & Es).
  pose proof (inv_agree _ _ I1) as Ha1. pose proof (inv_agree _ _ I2) as Ha2.
  destruct (exec_effect T0 T L Hkeys _ _ _ I1 H1) as [_ F1].
  destruct (exec_effect T0 T L Hkeys _ _ _ I2 H2) as [_ F2].
  unfold same_view.
  destruct s as [x c args|x src|x target src|x src|x f v|x m|x m|x t|x|];
    cbn [effect] in F1, F2.
  - destruct F1 as (cd1 & Hc1 & _ & _ & -> & _ & -> & ->).
    destruct F2 as (cd2 & Hc2 & _ & _ & -> & _ & -> & ->).
    rewrite (get_type_name _ _ _ Hc1), (get_type_name _ _ _ Hc2).
    by rewrite Ee, Eo, Es.
  - destruct F1 as (b1 & i1 & Hb1 & Hi1 & -> & _ & -> & ->).
    destruct F2 as (b2 & i2 & Hb2 & Hi2 & -> & _ & -> & ->).
    rewrite Ee in Hb1. assert (b1 = b2) as -> by congruence.
    rewrite Eo in Hi1. assert (i1 = i2) as -> by congruence.
    by rewrite Ee, Eo, Es.
  - destruct F1 as (b1 & i1 & tg1 & rt1 & Hb1 & Htg1 & _ & _ & _ & -> & -> & _ & ->).
    destruct F2 as (b2 & i2 & tg2 & rt2 & Hb2 & Htg2 & _ & _ & _ & -> & -> & _ & ->).
    rewrite Ee in Hb1. assert (b1 = b2) as -> by congruence.
    rewrite (get_type_name _ _ _ Htg1), (get_type_name _ _ _ Htg2).
    by rewrite Ee.
  - destruct F1 as (b1 & Hb1 & -> & -> & _ & ->).
    destruct F2 as (b2 & Hb2 & -> & -> & _ & ->).
    rewrite Ee in Hb1. assert (b1 = b2) as -> by congruence.
    by rewrite Ee.
  - destruct F1 as (b1 & i1 & c1 & k1 & Hb1 & Hi1 & Hc1 & Hk1 & _ & -> & -> & _ & ->).
    destruct F2 as (b2 & i2 & c2 & k2 & Hb2 & Hi2 & Hc2 & Hk2 & _ & -> & -> & _ & ->).
    rewrite Ee in Hb1. assert (b1 = b2) as -> by congruence.
    rewrite Eo in Hi1. assert (i1 = i2) as -> by congruence.
    destruct (proj2 Ha1 _ _ Hc1) as (c & Hc & Hcc1).
    destruct (proj2 Ha2 _ _ Hc2) as (c' & Hc' & Hcc2).
    assert (c' = c) as -> by congruence.
    destruct (cached_static _ _ Hcc1) as (_ & _ & _ & _ & _ & Hf1 & _).
    destruct (cached_static _ _ Hcc2) as (_ & _ & _ & _ & _ & Hf2 & _).
    rewrite Hf1 in Hk1. rewrite Hf2 in Hk2. assert (k1 = k2) as -> by congruence.
    by rewrite Eo.
  - destruct F1 as (b1 & p1 & s1 & i1 & vs1 & Hb1 & Hres1 & Hi1 & Hrun1 & -> & -> & -> & _).
    destruct F2 as (b2 & p2 & s2 & i2 & vs2 & Hb2 & Hres2 & Hi2 & Hrun2 & -> & -> & -> & _).
    destruct (resolve_call_plan_spec T0 T L Hkeys _ _ _ _ _ _ _ I1 C1 Hb1 Hres1)
      as (j1 & Hj1 & Hp1 & _).
    destruct (resolve_call_plan_spec T0 T L Hkeys _ _ _ _ _ _ _ I2 C2 Hb2 Hres2)
      as (j2 & Hj2 & Hp2 & _).
    rewrite Ee in Hb1. assert (b1 = b2) as -> by congruence.
    rewrite Eo in Hi1, Hj1.
    assert (i1 = i2) as -> by congruence.
    assert (j1 = i2) as -> by congruence.
    assert (j2 = i2) as -> by congruence.
    pose proof (call_plan_fun _ _ _ _ _ _ _ Hp1 Hp2) as ->.
    assert (vs1 = vs2) as -> by congruence.
    by rewrite Es.
  - destruct F1 as (b1 & p1 & s1 & i1 & vs1 & Hb1 & Hres1 & Hi1 & Hrun1 & -> & -> & -> & _).
    destruct F2 as (b2 & p2 & s2 & i2 & vs2 & Hb2 & Hres2 & Hi2 & Hrun2 & -> & -> & -> & _).
    destruct (resolve_call_plan_spec T0 T L Hkeys _ _ _ _ _ _ _ I1 C1 Hb1 Hres1)
      as (j1 & Hj1 & Hp1 & _).
    destruct (resolve_call_plan_spec T0 T L Hkeys _ _ _ _ _ _ _ I2 C2 Hb2 Hres2)
      as (j2 & Hj2 & Hp2 & _).
    rewrite Ee in Hb1. assert (b1 = b2) as -> by congruence.
    rewrite Eo in Hi1, Hj1.
    assert (i1 = i2) as -> by congruence.
    assert (j1 = i2) as -> by congruence.
    assert (j2 = i2) as -> by congruence.
    pose proof (call_plan_fun _ _ _ _ _ _ _ Hp1 Hp2) as ->.
    assert (vs1 = vs2) as -> by congruence.
    by rewrite Es.
  - by destruct (Hnis x t).
  - destruct F1 as (_ & -> & -> & _ & ->). destruct F2 as (_ & -> & -> & _ & ->).
    by rewrite Ee.
  - destruct F1 as (_ & -> & -> & ->). destruct F2 as (_ & -> & -> & ->). done.
Qed.
End transparent.

(** * The failures of a run *)

(** The errors the interpreter raises about the program it runs, as
    opposed to the built-in exceptions, the internal consistency checks
    of the dispatch, and the failures of the linker. *)
Definition user_error (e : Error) : bool :=
  match e with
  | UnknownVariable _ | UnknownClass _ | UnknownType _
  | CannotInstantiateInterface | ArityError _ _ _
  | MethodNotInView _ _ | MethodNotResolved _
  | UnknownFieldInMethod _ _ | UnknownFieldOfInstance _ _
  | ItableMissing _ _ _ | CannotCastToInterface _ _ | CannotCast _ _ => true
  | _ => false
  end.

Lemma compile_plan_Err rt mn toks e :
  _compile_plan rt mn toks = Err e -> user_error e = true.
Proof.
  induction toks as [|tok toks IH]; simpl; [done|].
  destruct (is_int tok); simpl.
  - destruct (_compile_plan rt mn toks); simpl; [done|]. intros [= <-]. by apply IH.
  - destruct (_field_index rt !! tok); simpl; [|by intros [= <-]].
    destruct (_compile_plan rt mn toks); simpl; [done|]. intros [= <-]. by apply IH.
Qed.

Lemma lift_Err {A} (r : Res A) st e st' : lift r st = (Err e, st') -> r = Err e.
Proof. unfold lift. by intros [= ->]. Qed.

Section failures.
Variables T0 T : list ClassDef.
Hypothesis L : Linked T0 T.
Hypothesis Hkeys : Forall (fun t => NoDup (dict_keys (methods t))) T0.

(** What a state of a run knows of a bound name. *)
Lemma binding_facts st x b :
  Inv T st -> Sound T st -> env st !! x = Some b ->
  exists i rt lr view,
    objects st !! inst b = Some i /\
    get_type (classes st) (cls i) = Some rt /\ is_interface rt = false /\
    Chain (classes st) (Some (cls i)) (rt :: lr) /\
    length (rt :: lr) <= length (classes st) /\
    get_type (classes st) (view_cls b) = Some view /\
    (if is_interface view then implements_interface (classes st) rt view
     else is_subclass_of (classes st) rt view) = Ok true /\
    length (values i) = length (all_fields rt) /\
    _field_index rt = index_dict (all_fields rt).
Proof.
  intros I S Hx.
  destruct (snd_env _ _ S _ _ Hx) as (_ & i & rt0 & v0 & Hobj & Hrt0 & Hv0 & Hconf).
  destruct (snd_objects _ _ S _ _ Hobj) as (rt0' & Hrt0' & Hi0 & Hlen).
  assert (rt0' = rt0) as -> by congruence.
  pose proof (inv_agree _ _ I) as Ha.
  destruct (agree_back _ _ _ _ Ha Hrt0) as (rt & Hrt & Hcr).
  destruct (agree_back _ _ _ _ Ha Hv0) as (view & Hview & Hcv).
  destruct (cached_static _ _ Hcr)
    as (_ & Hir & _ & _ & _ & Hfi & _ & _ & Haf & _).
  rewrite Hi0 in Hir.
  destruct (state_chain T0 T L st _ _ I Hrt Hir) as (lr & Hlr & Hlenr & _).
  exists i, rt, lr, view. do 6 (split; [done|]). split; [|split].
  - destruct (cached_static _ _ Hcv) as (_ & -> & _).
    rewrite (implements_agree _ _ _ _ _ _ Ha Hcr Hcv),
      (subclass_agree _ _ _ _ _ _ Ha Hcr Hcv). exact Hconf.
  - by rewrite Haf.
  - rewrite Hfi, Haf. by destruct (lk_layout _ _ L _ _ Hrt0).
Qed.

Lemma build_itable_errors C r rt lr iname : forall slots plans st e st',
  classes st = C -> get_type C r = Some rt ->
  Chain C (Some r) (rt :: lr) -> length (rt :: lr) <= length C ->
  Forall (fun ms : string * nat => ms.2 < length plans) slots ->
  build_itable r iname slots plans st = (Err e, st') -> user_error e = true.
Proof.
  intros slots. induction slots as [|[k s] slots IH];
    intros plans st e st' HC Hr Hl Hlen Hrange H; [done|].
  apply Forall_cons in Hrange as [Hs Hrange]. simpl in Hs.
  cbn [build_itable] in H.
  assert (Hl' : Chain (classes st) (Some r) (rt :: lr)) by (by rewrite HC).
  assert (Hlen' : length (rt :: lr) <= length (classes st)) by (by rewrite HC).
  rewrite (eval_Ok _ _ _ _ _ (lookup_with_steps_chain (rt :: lr) r k st Hl' Hlen')) in H.
  cbn [fst snd] in H.
  destruct (first_decl (rt :: lr) k) as [toks|]; [|by injection H as <- _].
  set (st1 := set_metrics st (walk_metrics (rt :: lr) k (metrics st))) in *.
  assert (Hr1 : get_type (classes st1) r = Some rt) by (simpl; by rewrite HC).
  rewrite (eval_Ok _ _ _ _ _ (deref_class_eval _ _ _ Hr1)) in H.
  destruct (_compile_plan rt k toks) as [p|e0] eqn:Hp.
  2:{ apply bind_inv in H as [(? & ? & H0 & _)|(e1 & H0 & [= <-])]; [done|].
      injection H0 as <- _. by eapply compile_plan_Err. }
  rewrite (eval_Ok (lift (Ok p)) _ st1 _ st1 eq_refl) in H.
  unfold store_at in H. rewrite decide_True in H by done.
  rewrite (eval_Ok (lift (Ok (<[s := Some p]> plans))) _ st1 _ st1 eq_refl) in H.
  destruct (when_metrics (add_steps (walk_steps (rt :: lr) k 0)) st1)
    as [[u|e'] st2] eqn:Hw; [|by apply when_metrics_Err in Hw].
  rewrite (eval_Ok _ _ _ _ _ Hw) in H.
  apply when_metrics_core in Hw.
  pose proof (core_fields _ _ Hw) as (Ecl & _).
  eapply (IH _ st2); [..|exact H]; try done.
  - by rewrite Ecl.
  - eapply Forall_impl; [exact Hrange|]. intros ms Hms.
    by rewrite length_insert.
Qed.

Lemma itable_plan_errors st runtime rt lr iface ifc m e st' :
  Inv T st -> Filled st ->
  get_type (classes st) runtime = Some rt -> is_interface rt = false ->
  get_type (classes st) iface = Some ifc -> is_interface ifc = true ->
  Chain (classes st) (Some runtime) (rt :: lr) ->
  length (rt :: lr) <= length (classes st) ->
  m ∈ dict_keys (methods ifc) ->
  _itable_plan runtime iface m st = (Err e, st') -> user_error e = true.
Proof.
  intros I F Hg Hi Hgi Hii Hl Hlen Hm H.
  pose proof (Inv_Linked T0 T L st I) as L'.
  pose proof (get_type_name _ _ _ Hgi) as Hname.
  assert (Hnd : NoDup (dict_keys (methods ifc))) by (by eapply (methods_nodup _ _ L')).
  assert (Hs : is_Some (dict_get (method_slot ifc) m)).
  { apply dict_get_keys. rewrite (lk_slots _ _ L' _ _ Hgi Hii).
    unfold dict_keys. by rewrite enumerate_dict_keys. }
  destruct Hs as [s Hs].
  unfold _itable_plan in H.
  rewrite (eval_Ok _ _ _ _ _ (deref_class_eval _ _ _ Hg)) in H.
  rewrite (eval_Ok _ _ _ _ _ (deref_class_eval _ _ _ Hgi)) in H.
  rewrite Hname, Hs in H.
  apply bind_inv in H as [(cache & s3 & H3 & H)|(e3 & H3 & [= <-])].
  - exfalso.
    assert (Hfull : exists p, cache !! s = Some (Some p)).
    { destruct (_itable_plans rt !! iface) as [cache0|] eqn:Hit.
      - mbind H3 as u s4 H4. apply ret_Ok in H3 as [-> ->].
        by eapply (F runtime rt iface cache0 ifc m s).
      - mbind H3 as u s4 H4. apply when_metrics_core in H4.
        mbind H3 as start s5 H5. apply start_timer_core in H5.
        assert (Hc5 : core s5 = core st) by congruence.
        pose proof (core_fields _ _ Hc5) as (Ecl5 & _).
        mbind H3 as plans s6 H6.
        apply (build_itable_spec T0 T L runtime rt) in H6 as (Hc6 & _ & Hin & _);
          [|by eapply Inv_core|by rewrite Ecl5|done
           |by eapply (interface_slots_nodup T0 T L Hkeys st iface ifc)].
        mbind H3 as rt' s7 H7. mbind H3 as u8 s8 H8. mbind H3 as u9 s9 H9.
        apply ret_Ok in H3 as [-> ->].
        destruct (Hin m s (dict_get_elem _ _ _ Hs)) as (p2 & Hp2 & _). eauto. }
    destruct Hfull as [p Hp].
    rewrite (eval_Ok (ret s) _ s3 s s3 eq_refl) in H.
    unfold index in H. rewrite Hp in H.
    by rewrite (eval_Ok (lift (Ok (Some p))) _ s3 _ s3 eq_refl) in H.
  - destruct (_itable_plans rt !! iface) as [cache0|] eqn:Hit.
    + apply bind_inv in H3 as [(u & s4 & H4 & H3)|(e4 & H4 & _)]; [done|].
      by apply when_metrics_Err in H4.
    + apply bind_inv in H3 as [(u & s4 & H4 & H3)|(e4 & H4 & _)];
        [|by apply when_metrics_Err in H4].
      apply when_metrics_core in H4.
      apply bind_inv in H3 as [(start & s5 & H5 & H3)|(e5 & H5 & _)];
        [|by apply start_timer_Err in H5].
      apply start_timer_core in H5.
      assert (Hc5 : core s5 = core st) by congruence.
      pose proof (core_fields _ _ Hc5) as (Ecl5 & _).
      apply bind_inv in H3 as [(plans & s6 & H6 & H3)|(e6 & H6 & [= <-])].
      * exfalso. pose proof H6 as H6'.
        apply (build_itable_spec T0 T L runtime rt) in H6' as (Hc6 & _);
          [|by eapply Inv_core|by rewrite Ecl5|done
           |by eapply (interface_slots_nodup T0 T L Hkeys st iface ifc)].
        assert (Hc6' : core s6 = core st) by congruence.
        pose proof (core_fields _ _ Hc6') as (Ecl6 & _).
        rewrite <- Ecl6 in Hg.
        rewrite (eval_Ok _ _ _ _ _ (deref_class_eval _ _ _ Hg)) in H3.
        apply bind_inv in H3 as [(u8 & s8 & H8 & H3)|(e8 & H8 & _)]; [|done].
        apply bind_inv in H3 as [(u9 & s9 & H9 & H3)|(e9 & H9 & _)]; [done|].
        by apply stop_timer_Err in H9.
      * eapply (build_itable_errors (classes st) runtime rt lr); [..|exact H6];
          try done.
        rewrite length_replicate, (lk_slots _ _ L' _ _ Hgi Hii).
        apply Forall_forall. intros [k s'] Hks. simpl.
        destruct (enumerate_dict_spec _ Hnd) as (Hlen' & Hsp & _).
        rewrite Hlen'. eapply lookup_lt_Some. by apply Hsp.
Qed.

Lemma vtable_plan_errors st n rt slot toks e st' :
  get_type (classes st) n = Some rt ->
  slot < length (vtable_tokens rt) ->
  length (_vtable_plans rt) = length (vtable_tokens rt) ->
  vtable_tokens rt !! slot = Some toks ->
  _vtable_plan n slot st = (Err e, st') -> user_error e = true.
Proof.
  intros Hg Hlt Hlen Htok.
  destruct (lookup_lt_is_Some_2 (_vtable_plans rt) slot) as [cached Hc]; [lia|].
  unfold _vtable_plan.
  rewrite (eval_Ok _ _ _ _ _ (deref_class_eval _ _ _ Hg)).
  remember ("<slot " +:+ str_nat slot +:+ ">") as mn eqn:Emn.
  pose proof (compile_plan_Err rt mn toks) as Hce.
  unfold index, store_at. munfold. unfold start_timer, stop_timer, perf_counter_ns.
  rewrite Hc. munfold.
  destruct cached as [plan|]; destruct (enable_metrics (cfg st)) eqn:Hm; simpl;
    rewrite ?Hm, ?Htok; simpl; try done;
    destruct (_compile_plan rt mn toks) as [p|e0]; simpl;
    rewrite ?decide_True by lia; simpl; rewrite ?Hm; try done;
    intros [= <- _]; by apply Hce.
Qed.
End failures.

Section view_slots.
Variables T0 T : list ClassDef.
Hypothesis L : Linked T0 T.
Hypothesis Hkeys : Forall (fun t => NoDup (dict_keys (methods t))) T0.

(** A method found from a class has a slot, and the vtable of every
    subclass holds the tokens of the nearest declaration there. *)
Lemma class_view_slots nr rt nv view m vtoks :
  get_type T nr = Some rt -> get_type T nv = Some view ->
  is_subclass_of T rt view = Ok true ->
  lookup_method T view m = Ok (Some vtoks) ->
  exists slot rtoks,
    dict_get (method_slot view) m = Some slot /\
    slot < length (vtable_tokens rt) /\
    vtable_tokens rt !! slot = Some rtoks.
Proof.
  intros Hrt Hview Hsub Hvis.
  destruct (subclass_on_chain T0 T L _ _ _ _ Hrt Hview Hsub)
    as (Hir & Hiv & lr & Hlr & Hlenr & Hin).
  destruct (Chain_split _ _ _ _ Hlr Hin) as (l1 & lv & E & Hlv).
  rewrite (get_type_name _ _ _ Hview) in Hlv.
  assert (Hlenv : length (view :: lv) <= length T).
  { apply (f_equal length) in E. rewrite length_app in E. simpl in *. lia. }
  rewrite (lookup_method_class T0 T nv view (view :: lv) m L Hview Hiv Hlv Hlenv) in Hvis.
  injection Hvis as Hvis.
  assert (HFr : Forall (fun t => is_interface t = false /\
                          get_type T (name t) = Some t) (rt :: lr)).
  { eapply (Chain_classes T0 T L); [exact Hlr|]. intros ? ? [= <-] ?. congruence. }
  assert (HFv : Forall (fun t => is_interface t = false /\
                          get_type T (name t) = Some t) (view :: lv)).
  { eapply (Chain_classes T0 T L); [exact Hlv|]. intros ? ? [= <-] ?. congruence. }
  destruct (first_decl (rt :: lr) m) as [rtoks|] eqn:Hfr.
  2:{ exfalso. apply first_decl_Some in Hvis as (d & Hd & Hm).
      rewrite first_decl_None in Hfr. rewrite (Hfr d) in Hm; [done|].
      rewrite E. apply elem_of_app. by right. }
  destruct (vtable_chain T0 T L Hkeys _ _ Hlr HFr rt eq_refl)
    as ([Hrange _] & Htoks & _ & Hanc).
  destruct (vtable_chain T0 T L Hkeys _ _ Hlv HFv view eq_refl)
    as (_ & _ & Hnone & _).
  destruct (dict_get (method_slot view) m) as [slot|] eqn:Hslot.
  2:{ apply Hnone in Hslot. congruence. }
  destruct (Hanc view Hin) as [_ Hkeep].
  pose proof (Hkeep _ _ Hslot) as Hslotr.
  pose proof (Htoks m) as Ht. unfold tokens_at in Ht. rewrite Hslotr, Hfr in Ht.
  exists slot, rtoks. split; [done|]. split; [by eapply Hrange | done].
Qed.

End view_slots.

Section failures_resolve.
Variables T0 T : list ClassDef.
Hypothesis L : Linked T0 T.
Hypothesis Hkeys : Forall (fun t => NoDup (dict_keys (methods t))) T0.

Lemma lookup_with_steps_total n t m st e st' :
  Linked T0 (classes st) -> get_type (classes st) n = Some t ->
  _lookup_with_steps n m st <> (Err e, st').
Proof.
  intros L' Hg.
  assert (exists l, Chain (classes st) (Some n) l /\ length l <= length (classes st))
    as (l & Hl & Hlen).
  { destruct (is_interface t) eqn:Hi.
    - exists [t]. split.
      + econstructor; [done|]. rewrite (lk_base_name _ _ L' _ _ Hg), Hi. constructor.
      + apply get_type_elem in Hg. destruct (classes st); [by apply elem_of_nil in Hg|].
        simpl. lia.
    - destruct (class_chain T0 _ L' n t Hg Hi) as (l & Hl & _ & Hlen & _). eauto. }
  by rewrite (lookup_with_steps_chain l n m st Hl Hlen).
Qed.

Lemma lookup_tokens_total view rt m dynamic st e st' :
  Linked T0 (classes st) ->
  get_type (classes st) (name view) = Some view ->
  get_type (classes st) (name rt) = Some rt ->
  (is_interface view = true -> implements_interface (classes st) rt view = Ok true) ->
  lookup_tokens view rt m dynamic st <> (Err e, st').
Proof.
  intros L' Hv Hr Himpl H. unfold lookup_tokens in H.
  assert (Hstep : forall n t s e' s', get_type (classes st) n = Some t ->
            core s = core st -> _lookup_with_steps n m s <> (Err e', s')).
  { intros n t s e' s' Hg Hc. pose proof (core_fields _ _ Hc) as (Ecl & _).
    apply (lookup_with_steps_total n t); by rewrite Ecl. }
  destruct dynamic; cbn [negb] in H.
  - apply bind_inv in H as [(u & s1 & H1 & H)|(e1 & H1 & _)].
    + assert (Hc1 : core s1 = core st).
      { destruct (is_interface view); [|by injection H1 as _ <-].
        rewrite (eval_Ok get _ st st st eq_refl) in H1.
        destruct (implements_interface (classes st) rt view) as [[]|]; simpl in H1;
          by injection H1 as _ <-. }
      revert H. by apply (Hstep _ rt).
    + destruct (is_interface view); [|done].
      rewrite (eval_Ok get _ st st st eq_refl), (Himpl eq_refl) in H1. done.
  - destruct (is_interface view).
    + rewrite (eval_Ok get _ st st st eq_refl), (Himpl eq_refl) in H.
      rewrite (eval_Ok (lift (Ok true)) _ st _ st eq_refl) in H. cbn [negb] in H.
      apply bind_inv in H as [(r & s1 & H1 & H)|(e1 & H1 & _)].
      * apply lookup_with_steps_core in H1.
        destruct r.1 as [[|tok toks]|]; try done; revert H; by apply (Hstep _ rt).
      * revert H1. by apply (Hstep _ view).
    + revert H. by apply (Hstep _ view).
Qed.

(** The failures of a resolution. *)
Lemma resolve_errors st x b m dynamic e st' :
  Inv T st -> Sound T st -> Filled st -> env st !! x = Some b ->
  _resolve_call_plan b m dynamic st = (Err e, st') -> user_error e = true.
Proof.
  intros I S F Hx H.
  destruct (binding_facts T0 T L st x b I S Hx)
    as (i & rt & lr & view & Hobj & Hrt & Hir & Hlr & Hlen & Hview & Hconf & _).
  pose proof (Inv_Linked T0 T L st I) as L'.
  pose proof (get_type_name _ _ _ Hrt) as Hnr.
  pose proof (get_type_name _ _ _ Hview) as Hnv.
  unfold _resolve_call_plan in H.
  rewrite (eval_Ok _ _ _ _ _ (deref_object_eval _ _ _ Hobj)) in H.
  rewrite (eval_Ok _ _ _ _ _ (deref_class_eval _ _ _ Hview)) in H.
  rewrite (eval_Ok _ _ _ _ _ (deref_class_eval _ _ _ Hrt)) in H.
  rewrite (eval_Ok get _ st st st eq_refl) in H.
  assert (Hvis : exists r, lookup_method (classes st) view m = Ok r).
  { destruct (is_interface view) eqn:Hiv.
    - unfold lookup_method. rewrite Hiv. eauto.
    - destruct (class_chain T0 _ L' _ _ Hview Hiv) as (lv & Hlv & _ & Hlenv & _).
      rewrite (lookup_method_class T0 _ _ view (view :: lv) m L' Hview Hiv Hlv Hlenv).
      eauto. }
  destruct Hvis as [vis Hvis]. rewrite Hvis in H.
  rewrite (eval_Ok (lift (Ok vis)) _ st _ st eq_refl) in H.
  destruct vis as [vtoks|]; [|by injection H as <- _].
  destruct (dynamic && enable_vtable (cfg st)) eqn:Hfast.
  - destruct (is_interface view) eqn:Hiv.
    + rewrite Hconf in H.
      rewrite (eval_Ok (lift (Ok true)) _ st _ st eq_refl) in H.
      cbn [negb] in H. rewrite Hnr, Hnv in H.
      apply bind_inv in H as [(plan & s1 & H1 & H)|(e1 & H1 & [= <-])].
      * apply bind_inv in H as [(u & s2 & H2 & H)|(e2 & H2 & _)]; [done|].
        by apply when_metrics_Err in H2.
      * eapply (itable_plan_errors T0 T L Hkeys st (cls i) rt lr (view_cls b) view m);
          [..|exact H1]; try done.
        apply dict_get_keys. unfold lookup_method in Hvis. rewrite Hiv in Hvis.
        injection Hvis as ->. eauto.
    + rewrite Hconf in H.
      rewrite (eval_Ok (lift (Ok true)) _ st _ st eq_refl) in H.
      cbn [negb andb] in H.
      destruct (class_view_slots T0 (classes st) L' Hkeys (cls i) rt (view_cls b)
                  view m vtoks Hrt Hview Hconf Hvis)
        as (slot & rtoks & Hslot & Hlt & Htok).
      rewrite Hslot, Hnr in H.
      apply bind_inv in H as [(plan & s1 & H1 & H)|(e1 & H1 & [= <-])].
      * apply bind_inv in H as [(u & s2 & H2 & H)|(e2 & H2 & _)]; [done|].
        by apply when_metrics_Err in H2.
      * eapply (vtable_plan_errors st (cls i) rt slot rtoks); [..|exact H1]; try done.
        by destruct (lk_vtable _ _ L' _ _ Hrt Hir) as [_ ?].
  - destruct (if enable_cache (cfg st)
              then _plan_cache st !! cache_key dynamic view rt m
              else None) as [plan|].
    + apply bind_inv in H as [(u & s1 & H1 & H)|(e1 & H1 & _)]; [done|].
      by apply when_metrics_Err in H1.
    + apply bind_inv in H as [(u & s6 & H6 & H)|(e1 & H1 & _)];
        [|by apply when_metrics_Err in H1].
      apply when_metrics_core in H6.
      apply bind_inv in H as [(start & s7 & H7 & H)|(e1 & H1 & _)];
        [|by apply start_timer_Err in H1].
      apply start_timer_core in H7.
      assert (Hc7 : core s7 = core st) by congruence.
      pose proof (core_fields _ _ Hc7) as (Ecl7 & _).
      apply bind_inv in H as [(r & s8 & H8 & H)|(e1 & H1 & _)].
      2:{ exfalso. revert H1. apply lookup_tokens_total; rewrite ?Ecl7, ?Hnr, ?Hnv;
            try done.
          intros Hiv. by rewrite Hiv in Hconf. }
      destruct r.1 as [toks|]; [|by injection H as <- _].
      apply bind_inv in H as [(p & s9 & H9 & H)|(e1 & H1 & [= <-])].
      * exfalso.
        apply bind_inv in H as [(u10 & s10 & H10 & H)|(e1 & H1 & _)];
          [|by apply stop_timer_Err in H1].
        apply bind_inv in H as [(u11 & s11 & H11 & H)|(e1 & H1 & _)]; [done|].
        by destruct (enable_cache (cfg st)).
      * apply lift_Err in H1. by eapply compile_plan_Err.
Qed.
End failures_resolve.

Section failures_exec.
Variables T0 T : list ClassDef.
Hypothesis L : Linked T0 T.
Hypothesis Hkeys : Forall (fun t => NoDup (dict_keys (methods t))) T0.

Lemma exec_call_errors st x m dynamic e st' :
  Inv T st -> Sound T st -> Filled st -> Cached T st ->
  _exec_call x m dynamic st = (Err e, st') -> user_error e = true.
Proof.
  intros I S F C H. unfold _exec_call in H.
  apply bind_inv in H as [(b & s1 & H1 & H)|(e1 & H1 & [= <-])].
  2:{ unfold _get_binding in H1. rewrite (eval_Ok get _ st st st eq_refl) in H1.
      destruct (env st !! x); [done|]. by injection H1 as <- _. }
  apply get_binding_Ok in H1 as [Hx ->].
  apply bind_inv in H as [(p & s2 & H2 & H)|(e2 & H2 & [= <-])].
  2:{ by eapply (resolve_errors T0 T L Hkeys st x b m dynamic). }
  exfalso.
  destruct (resolve_call_plan_spec T0 T L Hkeys _ _ _ _ _ _ _ I C Hx H2)
    as (i & Hobj & Hp & _).
  destruct Hp as (vt & rt & lv & lr & toks & _ & Hrt & _ & _ & _ & Hcomp).
  destruct (snd_objects _ _ S _ _ Hobj) as (rt' & Hrt' & _ & Hlen).
  assert (rt' = rt) as -> by congruence.
  destruct (lk_layout _ _ L _ _ Hrt) as [_ Hidx].
  destruct (run_plan_in_range (values i) p) as (vs & Hrun & _).
  { by eapply compiled_in_range. }
  destruct (resolve_user_state _ _ _ _ _ _ H2) as (_ & _ & Eo & _).
  rewrite <- Eo in Hobj.
  rewrite (eval_Ok _ _ _ _ _ (deref_object_eval _ _ _ Hobj)) in H.
  rewrite Hrun in H.
  by rewrite (eval_Ok (lift (Ok vs)) _ s2 _ s2 eq_refl) in H.
Qed.

Lemma exec_errors st s e st' :
  Inv T st -> Sound T st -> Filled st -> Cached T st ->
  _exec_statement s st = (Err e, st') -> user_error e = true.
Proof.
  intros I S F C H.
  destruct s as [x c args|x src|x target src|x src|x f v|x m|x m|x t|x|];
    cbn [_exec_statement] in H.
  - (* new *)
    unfold _instantiate in H. revert H. munfold.
    destruct (get_type (classes st) c) as [cd|]; [|by intros [= <- _]].
    destruct (is_interface cd); [by intros [= <- _]|].
    destruct (negb _); [by intros [= <- _]|]. simpl.
    rewrite lookup_app_r, Nat.sub_diag by done. done.
  - (* clone *)
    apply bind_inv in H as [(b & s1 & H1 & H)|(e1 & H1 & [= <-])].
    2:{ unfold _get_binding in H1. rewrite (eval_Ok get _ st st st eq_refl) in H1.
        destruct (env st !! src); [done|]. by injection H1 as <- _. }
    apply get_binding_Ok in H1 as [Hx ->]. exfalso.
    destruct (inv_env _ _ I _ _ Hx) as (i & rt & Hobj & _).
    revert H. unfold _clone. munfold. by rewrite Hobj.
  - (* cast *)
    apply bind_inv in H as [(b & s1 & H1 & H)|(e1 & H1 & [= <-])].
    2:{ unfold _get_binding in H1. rewrite (eval_Ok get _ st st st eq_refl) in H1.
        destruct (env st !! src); [done|]. by injection H1 as <- _. }
    apply get_binding_Ok in H1 as [Hx ->].
    destruct (binding_facts T0 T L st src b I S Hx)
      as (i & rt & lr & view & Hobj & Hrt & Hir & Hlr & Hlen & _).
    apply bind_inv in H as [(b2 & s2 & H2 & H)|(e2 & H2 & [= <-])]; [done|].
    revert H2. unfold _cast_binding. munfold.
    destruct (get_type (classes st) target) as [tg|]; [|by intros [= <- _]].
    rewrite Hobj. unfold deref. rewrite Hrt.
    pose proof (is_check st (cls i) rt lr tg Hrt Hir Hlr Hlen) as Hchk.
    destruct (is_interface tg); rewrite Hchk; simpl;
      destruct (is_answer (rt :: lr) tg); simpl; try done; by intros [= <- _].
  - (* alias *)
    apply bind_inv in H as [(b & s1 & H1 & H)|(e1 & H1 & [= <-])]; [done|].
    unfold _get_binding in H1. rewrite (eval_Ok get _ st st st eq_refl) in H1.
    destruct (env st !! src); [done|]. by injection H1 as <- _.
  - (* field assignment *)
    pose proof H as H0. unfold _exec_field_assign in H.
    apply bind_inv in H as [(b & s1 & H1 & H)|(e1 & H1 & [= <-])].
    2:{ unfold _get_binding in H1. rewrite (eval_Ok get _ st st st eq_refl) in H1.
        destruct (env st !! x); [done|]. by injection H1 as <- _. }
    apply get_binding_Ok in H1 as [Hx ->].
    destruct (field_assign_sound T0 T L st x f v b I S Hx) as (i & rt & _ & _ & Hout).
    destruct (_field_index rt !! f).
    + destruct Hout as (_ & _ & Hout). cbn [_exec_statement] in Hout. congruence.
    + destruct Hout as (_ & Hout). cbn [_exec_statement] in Hout.
      rewrite Hout in H0. by injection H0 as <- _.
  - by eapply exec_call_errors.
  - by eapply exec_call_errors.
  - destruct (exec_is_spec T0 T L st x t I) as (ans & Hans & _). congruence.
  - revert H. unfold _exec_free. munfold.
    destruct (env st !! x); [done|]. by intros [= <- _].
  - revert H. unfold _gc_collect. munfold.
    destruct (enable_gc (cfg st)); simpl; [|done].
    by destruct (enable_metrics (cfg st)).
Qed.
End failures_exec.

(** A statement of a run over a linked table fails only with one of the
    errors the interpreter raises about the program: never with a
    built-in [KeyError], [IndexError] or [TypeError], never with one of
    the internal checks of the dispatch (a missing slot, a runtime class
    that is not a subclass of the view or does not implement it), and
    never because a walk up the base chain does not end. *)
Theorem failures_are_user_errors T0 T st s e st' :
  declarations T0 -> _resolve_and_link T0 = Ok T -> reachable T st ->
  _exec_statement s st = (Err e, st') -> user_error e = true.
Proof.
  intros HD Hlink Hr H.
  pose proof (reachable_Inv _ _ _ HD Hlink Hr) as I.
  pose proof (reachable_Cached _ _ _ HD Hlink Hr) as C.
  pose proof (reachable_Sound _ _ _ HD Hlink Hr) as S.
  pose proof (reachable_Filled _ _ _ HD Hlink Hr) as F.
  destruct HD as (Hnd & HC & Hkeys).
  pose proof (link_Linked _ _ Hnd HC Hlink) as L.
  by eapply (exec_errors T0 T L Hkeys st s).
Qed.

Lemma failures_are_user_errors_witness :
  exists e,
    (_exec_statement (VCall "i" "dflt") (Runs.after Runs.slow Runs.prog)).1 = Err e /\
    user_error e = true.
Proof.
  exists (MethodNotResolved "dflt").
  split; [vm_compute; reflexivity|].
  apply (failures_are_user_errors Examples.table Linked_example.T
           (Runs.after Runs.slow Runs.prog) (VCall "i" "dflt")
           (MethodNotResolved "dflt")
           (_exec_statement (VCall "i" "dflt") (Runs.after Runs.slow Runs.prog)).2).
  - exact Linked_example.table_declarations.
  - exact Linked_example.table_links.
  - apply Runs.after_reachable. vm_compute. reflexivity.
  - vm_compute. reflexivity.
Defined.

(** * The linker accepts every well-formed table *)

(** ** Passes over the table *)

Section for_types_runs.
Variable body : list ClassDef -> ClassDef -> Res (list ClassDef).
Variable f : ClassDef -> ClassDef.
Hypothesis f_name : forall t, name (f t) = name t.
Hypothesis body_put : forall tbl t tbl',
  get_type tbl (name t) = Some t -> body tbl t = Ok tbl' -> tbl' = put_type tbl (f t).

Lemma for_types_runs_app suf : forall opre,
  NoDup (type_names (opre ++ suf)) ->
  (forall i t, suf !! i = Some t ->
     exists r, body (map f (opre ++ take i suf) ++ drop i suf) t = Ok r) ->
  for_types body (type_names suf) (map f opre ++ suf) = Ok (map f (opre ++ suf)).
Proof.
  induction suf as [|t suf IH]; intros opre Hnd Hb; simpl.
  - by rewrite !app_nil_r.
  - assert (Hni : name t ∉ type_names (map f opre)).
    { rewrite (type_names_map_f f f_name). unfold type_names in Hnd.
      rewrite map_app in Hnd. apply NoDup_app in Hnd as (_ & Hd & _).
      intros Hin. apply (Hd _ Hin). simpl. apply list_elem_of_here. }
    unfold deref. rewrite (get_type_app _ _ _ Hni). simpl.
    destruct (Hb 0 t eq_refl) as [r Hr].
    rewrite take_0, drop_0, app_nil_r in Hr. rewrite Hr. simpl.
    pose proof (body_put _ _ _ (get_type_app _ _ _ Hni) Hr) as ->.
    rewrite (put_type_app _ t) by (auto using f_name).
    replace (map f opre ++ f t :: suf) with (map f (opre ++ [t]) ++ suf)
      by (rewrite map_app; simpl; by rewrite <- app_assoc).
    rewrite IH.
    + by rewrite <- app_assoc.
    + by rewrite <- app_assoc.
    + intros i t' Hi. destruct (Hb (S i) t' Hi) as [r' Hr']. exists r'.
      simpl in Hr'. by rewrite <- app_assoc.
Qed.

Lemma for_types_runs tbl :
  NoDup (type_names tbl) ->
  (forall i t, tbl !! i = Some t ->
     exists r, body (map f (take i tbl) ++ drop i tbl) t = Ok r) ->
  for_types body (type_names tbl) tbl = Ok (map f tbl).
Proof. intros Hnd Hb. by apply (for_types_runs_app tbl []). Qed.
End for_types_runs.

(** ** The cycle check on a chain that ends *)

Lemma has_cycle_loop_chain tbl : forall fuel slow fast ls lf k,
  Chain tbl slow ls -> Chain tbl fast lf -> lf = drop k ls -> length lf <= fuel ->
  has_cycle_loop tbl fuel slow fast = Ok false.
Proof.
  induction fuel as [|fuel IH]; intros slow fast ls lf k Hs Hf Hk Hlen.
  - destruct lf; [|simpl in Hlen; lia]. by inversion Hf.
  - destruct Hf as [|f ft lf1 Hgf Hcf]; [done|].
    simpl. unfold deref. rewrite Hgf. simpl.
    destruct (base ft) as [fb|] eqn:Hb; [|done].
    inversion Hcf as [|fb' fbt lf2 Hgfb Hcfb]; subst.
    destruct Hs as [|s st ls1 Hgs Hcs]; [by rewrite drop_nil in Hk|].
    rewrite Hgs, Hgfb. simpl.
    destruct (decide (base st = base fbt)) as [E|NE].
    + exfalso. rewrite E in Hcs. pose proof (Chain_fun _ _ _ _ Hcs Hcfb) as ->.
      apply (f_equal length) in Hk. rewrite length_drop in Hk. simpl in Hk. lia.
    + apply (IH _ _ ls1 lf2 (S k)); [done|done| |simpl in Hlen; lia].
      change (drop (S k) ls1) with (drop (S (S k)) (st :: ls1)).
      replace (S (S k)) with (k + 2) by lia.
      by rewrite <- drop_drop, <- Hk.
Qed.

Lemma has_cycle_chain tbl t l :
  Chain tbl (Some (name t)) l -> length l <= chain_fuel tbl ->
  has_cycle tbl t = Ok false.
Proof.
  intros Hl Hlen. unfold has_cycle.
  by apply (has_cycle_loop_chain tbl _ _ _ l l 0).
Qed.

(** ** The topological loops *)

Section topo_total.
Variable g : list ClassDef -> ClassDef -> Res ClassDef.
Variable process : list ClassDef -> ClassDef -> Res (list ClassDef).
Variable stuck : Error.
Hypothesis process_eq : forall tbl t,
  process tbl t = (t' <- g tbl t;; Ok (put_type tbl t'))%res.
Hypothesis g_skel : forall tbl t t', g tbl t = Ok t' ->
  name t' = name t /\ is_interface t' = is_interface t /\ base t' = base t.
Hypothesis g_local : forall tbl1 tbl2 t,
  (forall b, base t = Some b -> get_type tbl1 b = get_type tbl2 b) ->
  g tbl1 t = g tbl2 t.

Variable T0 : list ClassDef.
Hypothesis T0_nodup : NoDup (type_names T0).

(** What the processing of a class establishes, and needs of its base. *)
Variable Q : ClassDef -> Prop.
Hypothesis g_ok : forall tbl t,
  (forall b, base t = Some b -> exists bt, get_type tbl b = Some bt /\ Q bt) ->
  exists t', g tbl t = Ok t' /\ Q t'.
Hypothesis bases_classes : forall n t b,
  get_type T0 n = Some t -> is_interface t = false -> base t = Some b ->
  exists bt, get_type T0 b = Some bt /\ is_interface bt = false.
Hypothesis chains : forall n t,
  get_type T0 n = Some t -> is_interface t = false -> exists l, Chain T0 (Some n) l.

Lemma done_Q tbl done rem :
  TopoInv g T0 tbl done rem ->
  forall l n t, Chain T0 (Some n) l -> n ∈ done -> get_type tbl n = Some t -> Q t.
Proof.
  intros Inv l. induction l as [|t0 l IH]; intros n t Hl Hn Hg; [by inversion Hl|].
  inversion Hl as [|n' t0' l' Hg0 Hc]; subst.
  destruct (ti_point _ _ _ _ _ Inv n t0 Hg0) as (t' & Hg' & _ & Hrel).
  rewrite decide_True in Hrel by done.
  assert (t' = t) as -> by congruence.
  destruct (g_ok tbl t0) as (t'' & Hg'' & HQ); [|congruence].
  intros b Hb. pose proof (ti_base _ _ _ _ _ Inv n t0 b Hn Hg0 Hb) as Hbd.
  rewrite Hb in Hc. inversion Hc as [|b' bt0 l'' Hgb Hcb]; subst.
  destruct (ti_point _ _ _ _ _ Inv b bt0 Hgb) as (bt & Hgbt & _).
  exists bt. split; [done|]. eapply (IH b); [|done|done]. by econstructor.
Qed.

(** A class of the table whose base, if any, is done. *)
Definition ready_in (done : gset string) (n : string) : Prop :=
  exists t0, get_type T0 n = Some t0 /\
    (base t0 = None \/ exists b, base t0 = Some b /\ b ∈ done).

Lemma rem_class tbl done rem n :
  TopoInv g T0 tbl done rem -> n ∈ rem ->
  exists t0, get_type T0 n = Some t0 /\ is_interface t0 = false /\
    get_type tbl n = Some t0.
Proof.
  intros Inv Hn.
  assert (Hc : n ∈ class_names T0) by (apply (ti_classes _ _ _ _ _ Inv); set_solver).
  apply elem_class_names in Hc as (t0 & Hin & Hi & <-).
  pose proof (elem_get_type _ _ T0_nodup Hin) as Hg0.
  exists t0. split; [done|]. split; [done|].
  destruct (ti_point _ _ _ _ _ Inv _ t0 Hg0) as (t & Hg & _ & Hrel).
  rewrite decide_False in Hrel; [congruence|].
  pose proof (ti_disj _ _ _ _ _ Inv). set_solver.
Qed.

Lemma topo_pass_cons n rest tbl done rem prog :
  topo_pass process (n :: rest) tbl done rem prog =
  (r <- topo_pass process [n] tbl done rem prog;;
   topo_pass process rest r.1.1.1 r.1.1.2 r.1.2 r.2)%res.
Proof.
  simpl. destruct (deref tbl n) as [t|]; simpl; [|done].
  destruct (match base t with
            | Some b => (bt <- deref tbl b;; Ok (bool_decide (name bt ∈ done)))%res
            | None => Ok true
            end) as [[]|]; simpl; [|done..].
  by destruct (process tbl t).
Qed.

(** One class of a pass: it is skipped when it is not ready and
    processed when it is. *)
Lemma topo_single n tbl done rem prog :
  TopoInv g T0 tbl done rem -> n ∈ rem ->
  (topo_pass process [n] tbl done rem prog = Ok (tbl, done, rem, prog) /\
   ~ ready_in done n) \/
  exists tbl', topo_pass process [n] tbl done rem prog =
                 Ok (tbl', {[n]} ∪ done, rem ∖ {[n]}, true).
Proof.
  intros Inv Hn.
  destruct (rem_class _ _ _ _ Inv Hn) as (t0 & Hg0 & Hi0 & Hg).
  simpl. unfold deref. rewrite Hg. simpl.
  destruct (base t0) as [b|] eqn:Hb.
  - destruct (bases_classes _ _ _ Hg0 Hi0 Hb) as (bt0 & Hgb0 & Hib0).
    destruct (ti_point _ _ _ _ _ Inv b bt0 Hgb0) as (bt & Hgbt & _).
    rewrite Hgbt. simpl. rewrite (get_type_name _ _ _ Hgbt).
    destruct (bool_decide (b ∈ done)) eqn:Hd.
    + apply bool_decide_eq_true in Hd. right.
      rewrite process_eq.
      destruct (g_ok tbl t0) as (t' & -> & _); [|simpl; eauto].
      intros b' Hb'. assert (b' = b) as -> by congruence.
      exists bt. split; [done|].
      destruct (chains _ _ Hgb0 Hib0) as [l Hl].
      by eapply (done_Q _ _ _ Inv l b).
    + apply bool_decide_eq_false in Hd. left. split; [done|].
      intros (t0' & Hg0' & [Hnone|(b' & Hb' & Hbd)]); congruence.
  - right. rewrite process_eq.
    destruct (g_ok tbl t0) as (t' & -> & _); [|simpl; eauto].
    intros b' Hb'. congruence.
Qed.

Lemma topo_pass_total snapshot : forall tbl done rem prog,
  TopoInv g T0 tbl done rem -> NoDup snapshot -> (forall n, n ∈ snapshot -> n ∈ rem) ->
  exists r, topo_pass process snapshot tbl done rem prog = Ok r.
Proof.
  induction snapshot as [|n rest IH]; intros tbl done rem prog Inv Hnd Hsub.
  - simpl. eauto.
  - apply NoDup_cons in Hnd as [Hni Hnd].
    rewrite topo_pass_cons.
    assert (Hn : n ∈ rem) by (apply Hsub; set_solver).
    destruct (topo_single n tbl done rem prog Inv Hn) as [[E _]|[tbl' E]];
      rewrite E; simpl.
    + apply IH; [done|done|]. intros m Hm. apply Hsub. set_solver.
    + apply (topo_pass_inv g process process_eq g_skel g_local T0 T0_nodup [n])
        in E as (Inv' & _); [| done | apply NoDup_singleton | set_solver].
      apply IH; [done|done|]. intros m Hm.
      apply elem_of_difference. split; [apply Hsub; set_solver|]. set_solver.
Qed.

Lemma topo_pass_progress snapshot : forall tbl done rem prog tbl' done' rem' prog',
  TopoInv g T0 tbl done rem -> NoDup snapshot -> (forall n, n ∈ snapshot -> n ∈ rem) ->
  (exists n, n ∈ snapshot /\ ready_in done n) ->
  topo_pass process snapshot tbl done rem prog = Ok (tbl', done', rem', prog') ->
  prog' = true.
Proof.
  induction snapshot as [|n rest IH];
    intros tbl done rem prog tbl' done' rem' prog' Inv Hnd Hsub (m & Hm & Hready) H.
  - by apply elem_of_nil in Hm.
  - apply NoDup_cons in Hnd as [Hni Hnd].
    rewrite topo_pass_cons in H.
    assert (Hn : n ∈ rem) by (apply Hsub; set_solver).
    destruct (topo_single n tbl done rem prog Inv Hn) as [[E Hnr]|[tbl1 E]];
      rewrite E in H; simpl in H.
    + apply (IH _ _ _ _ _ _ _ _ Inv Hnd) in H; [done| |].
      * intros k Hk. apply Hsub. set_solver.
      * exists m. split; [|done]. apply elem_of_cons in Hm as [->|Hm]; done.
    + apply (topo_pass_inv g process process_eq g_skel g_local T0 T0_nodup [n])
        in E as (Inv' & _); [| done | apply NoDup_singleton | set_solver].
      apply (topo_pass_inv g process process_eq g_skel g_local T0 T0_nodup rest)
        in H as (_ & [Hp|[Hp _]] & _); try done.
      intros k Hk. apply elem_of_difference. split; [apply Hsub; set_solver|].
      set_solver.
Qed.

Lemma exists_ready tbl done rem :
  TopoInv g T0 tbl done rem ->
  forall l n, Chain T0 (Some n) l -> n ∈ rem -> exists m, m ∈ rem /\ ready_in done m.
Proof.
  intros Inv l. induction l as [|t0 l IH]; intros n Hl Hn; [by inversion Hl|].
  inversion Hl as [|n' t0' l' Hg0 Hc]; subst.
  destruct (rem_class _ _ _ _ Inv Hn) as (t0' & Hg0' & Hi0 & _).
  assert (t0' = t0) as -> by congruence.
  destruct (base t0) as [b|] eqn:Hb.
  - destruct (bases_classes _ _ _ Hg0 Hi0 Hb) as (bt0 & Hgb0 & Hib0).
    assert (Hbc : b ∈ done ∪ rem).
    { apply (ti_cover _ _ _ _ _ Inv). by apply (class_names_get _ _ _ T0_nodup Hgb0). }
    apply elem_of_union in Hbc as [Hbd|Hbr].
    + exists n. split; [done|]. exists t0. split; [done|]. right. eauto.
    + by apply (IH b).
  - exists n. split; [done|]. exists t0. split; [done|]. by left.
Qed.

Lemma topo_loop_total fuel : forall tbl done rem,
  TopoInv g T0 tbl done rem -> size rem <= fuel ->
  exists T', topo_loop process stuck fuel tbl done rem = Ok T'.
Proof.
  induction fuel as [|fuel IH]; intros tbl done rem Inv Hsize; simpl.
  - assert (rem = ∅) as -> by (apply leibniz_equiv, size_empty_iff; lia).
    rewrite decide_True by done. eauto.
  - destruct (decide (rem = ∅)) as [->|Hne]; [eauto|].
    destruct (topo_pass_total (elements rem) tbl done rem false Inv)
      as [[[[tbl1 done1] rem1] prog1] Hpass].
    { apply NoDup_elements. }
    { intros n. by rewrite elem_of_elements. }
    rewrite Hpass. simpl.
    assert (prog1 = true) as ->.
    { eapply (topo_pass_progress (elements rem)); [exact Inv| | | |exact Hpass].
      - apply NoDup_elements.
      - intros n. by rewrite elem_of_elements.
      - apply set_choose_L in Hne as [n Hn].
        destruct (rem_class _ _ _ _ Inv Hn) as (t0 & Hg0 & Hi0 & _).
        destruct (chains _ _ Hg0 Hi0) as [l Hl].
        destruct (exists_ready _ _ _ Inv l n Hl Hn) as (m & Hm & Hr).
        exists m. by rewrite elem_of_elements. }
    apply (topo_pass_inv g process process_eq g_skel g_local T0 T0_nodup)
      in Hpass as (Inv1 & _ & Hlt & _);
      [| done | apply NoDup_elements | intros n; by rewrite elem_of_elements].
    apply IH; [done|]. specialize (Hlt eq_refl eq_refl). lia.
Qed.

Lemma topo_loop_runs :
  exists T', topo_loop process stuck (size (class_names T0)) T0 ∅ (class_names T0) = Ok T'.
Proof.
  apply topo_loop_total; [|done].
  by apply (TopoInv_init g process process_eq g_skel g_local).
Qed.
End topo_total.

(** ** Well-formed declarations *)

(** The declared ancestors of a type: the walk along [base_name]. *)
Inductive Ancestors (T0 : list ClassDef) : option string -> list ClassDef -> Prop :=
  | Ancestors_nil : Ancestors T0 None []
  | Ancestors_cons h t l :
      get_type T0 h = Some t -> Ancestors T0 (base_name t) l ->
      Ancestors T0 (Some h) (t :: l).

(** The base a class names is a class of the table, the interfaces it
    lists are interfaces of the table, the walk along the declared bases
    ends, and no class declares a field that one of its ancestors
    declares. *)
Record well_formed (T0 : list ClassDef) : Prop := {
  wf_base : forall n t b, get_type T0 n = Some t -> is_interface t = false ->
    base_name t = Some b ->
    exists bt, get_type T0 b = Some bt /\ is_interface bt = false;
  wf_interfaces : forall n t i, get_type T0 n = Some t -> is_interface t = false ->
    i ∈ interfaces_names t ->
    exists it, get_type T0 i = Some it /\ is_interface it = true;
  wf_acyclic : forall n t, get_type T0 n = Some t -> is_interface t = false ->
    exists l, Ancestors T0 (Some n) l;
  wf_fields : forall n t l a f, get_type T0 n = Some t -> is_interface t = false ->
    Ancestors T0 (base_name t) l -> a ∈ l -> f ∈ fields a -> f ∉ fields t
}.

(** ** Tables that rewrite the declarations type by type *)

Definition Rel (R : ClassDef -> ClassDef -> Prop) (T0 tbl : list ClassDef) : Prop :=
  type_names tbl = type_names T0 /\
  forall n t0, get_type T0 n = Some t0 -> exists t, get_type tbl n = Some t /\ R t t0.

Lemma get_type_mid_fwd (f : ClassDef -> ClassDef) l1 l2 n y :
  (forall t, name (f t) = name t) ->
  get_type (l1 ++ l2) n = Some y ->
  exists x, get_type (map f l1 ++ l2) n = Some x /\ (x = y \/ x = f y).
Proof.
  intros Hf. induction l1 as [|t l1 IH]; simpl.
  - eauto.
  - rewrite Hf. destruct (decide (n = name t)).
    + intros [= <-]. eauto.
    + exact IH.
Qed.

Lemma Rel_mid R T0 tbl f i :
  (forall t, name (f t) = name t) -> (forall t t0, R t t0 -> R (f t) t0) ->
  Rel R T0 tbl -> Rel R T0 (map f (take i tbl) ++ drop i tbl).
Proof.
  intros Hf HR [Hn Hp]. split.
  - unfold type_names in *. rewrite map_app, map_map.
    rewrite (map_ext _ name) by (intros; apply Hf).
    by rewrite <- map_app, take_drop.
  - intros n t0 H0. destruct (Hp n t0 H0) as (t & Hg & Ht).
    rewrite <- (take_drop i tbl) in Hg.
    destruct (get_type_mid_fwd f _ _ _ _ Hf Hg) as (x & Hx & [->| ->]); eauto.
Qed.

Lemma Rel_map R T0 tbl f :
  (forall t, name (f t) = name t) -> (forall t t0, R t t0 -> R (f t) t0) ->
  Rel R T0 tbl -> Rel R T0 (map f tbl).
Proof.
  intros Hf HR H. pose proof (Rel_mid R T0 tbl f (length tbl) Hf HR H) as H'.
  by rewrite firstn_all, drop_all, app_nil_r in H'.
Qed.

Lemma Rel_back R T0 tbl n t :
  NoDup (type_names T0) -> Rel R T0 tbl -> get_type tbl n = Some t ->
  exists t0, get_type T0 n = Some t0 /\ R t t0.
Proof.
  intros Hnd [Hn Hp] Hg.
  destruct (get_type_same_names T0 tbl n t (eq_sym Hn) Hg) as [t0 H0].
  destruct (Hp n t0 H0) as (t' & Hg' & HR). exists t0. split; [done|]. congruence.
Qed.

Lemma Rel_weaken (R R' : ClassDef -> ClassDef -> Prop) T0 tbl :
  (forall t t0, R t t0 -> R' t t0) -> Rel R T0 tbl -> Rel R' T0 tbl.
Proof.
  intros HR [Hn Hp]. split; [done|]. intros n t0 H0.
  destruct (Hp n t0 H0) as (t & ? & ?). eauto.
Qed.

(** The declaration of a type is kept. *)
Definition same_decl (t t0 : ClassDef) : Prop :=
  name t = name t0 /\ is_interface t = is_interface t0 /\
  base_name t = base_name t0 /\ interfaces_names t = interfaces_names t0 /\
  fields t = fields t0 /\ methods t = methods t0.

(** The declaration is kept and the base is linked. *)
Definition based (t t0 : ClassDef) : Prop :=
  same_decl t t0 /\ base t = (if is_interface t0 then None else base_name t0).

Lemma chain_length tbl c l : Chain tbl c l -> length l <= length tbl.
Proof.
  intros H. pose proof (Chain_nodup _ _ _ H) as Hnd.
  rewrite <- (length_map name l), <- (length_map name tbl).
  apply submseteq_length, NoDup_submseteq; [done|].
  intros x Hx. apply list_elem_of_fmap in Hx as (t & -> & Ht).
  destruct (Chain_elem _ _ _ _ H Ht) as (_ & _ & Hg & _).
  by apply get_type_Some_names in Hg.
Qed.

Section stages.
Variable T0 : list ClassDef.
Hypothesis Hnd : NoDup (type_names T0).
Hypothesis HC : Forall constructed T0.
Hypothesis WF : well_formed T0.

Lemma ancestors_classes c l :
  Ancestors T0 c l ->
  (forall n t, c = Some n -> get_type T0 n = Some t -> is_interface t = false) ->
  Forall (fun t => is_interface t = false) l.
Proof.
  intros H. induction H as [|h t l Hg Ha IH]; intros Hc; [constructor|].
  pose proof (Hc h t eq_refl Hg) as Hi. constructor; [done|].
  apply IH. intros n bt Hb Hgb.
  destruct (wf_base _ WF h t n Hg Hi Hb) as (bt' & Hgb' & Hib). congruence.
Qed.

(** In a table with linked bases the declared ancestors are the chain. *)
Lemma ancestors_chain tbl c l0 :
  Rel based T0 tbl -> Ancestors T0 c l0 ->
  Forall (fun t => is_interface t = false) l0 ->
  exists l, Chain tbl c l /\ Forall2 same_decl l l0.
Proof.
  intros [_ Hp] H. induction H as [|h t0 l0 Hg Ha IH]; intros HF.
  - exists []. split; constructor.
  - apply Forall_cons in HF as [Hi HF].
    destruct (IH HF) as (l & Hl & H2).
    destruct (Hp h t0 Hg) as (t & Hgt & Hd & Hb). rewrite Hi in Hb.
    exists (t :: l). split; [|by constructor].
    econstructor; [done|]. by rewrite Hb.
Qed.

Lemma class_chain_in tbl n t :
  Rel based T0 tbl -> get_type tbl n = Some t -> is_interface t = false ->
  exists l, Chain tbl (Some n) l /\ length l <= length tbl.
Proof.
  intros HR Hg Hi.
  destruct (Rel_back _ _ _ _ _ Hnd HR Hg) as (t0 & H0 & (Hd & _)).
  destruct Hd as (_ & Hi0 & _). rewrite Hi in Hi0.
  destruct (wf_acyclic _ WF n t0 H0 (eq_sym Hi0)) as [l0 Hl0].
  destruct (ancestors_chain tbl _ _ HR Hl0) as (l & Hl & _).
  { apply (ancestors_classes _ _ Hl0). intros ? ? [= <-] ?. congruence. }
  exists l. split; [done|]. by eapply chain_length.
Qed.

Lemma bases_in tbl n t b :
  Rel based T0 tbl -> get_type tbl n = Some t -> is_interface t = false ->
  base t = Some b -> exists bt, get_type tbl b = Some bt /\ is_interface bt = false.
Proof.
  intros HR Hg Hi Hb.
  destruct (Rel_back _ _ _ _ _ Hnd HR Hg) as (t0 & H0 & ((_ & Hi0 & _) & Hb0)).
  rewrite Hi in Hi0. rewrite <- Hi0, Hb in Hb0.
  destruct (wf_base _ WF n t0 b H0 (eq_sym Hi0) (eq_sym Hb0)) as (bt0 & Hgb0 & Hib0).
  destruct (proj2 HR b bt0 Hgb0) as (bt & Hgb & ((_ & Hib & _) & _)).
  exists bt. split; [done|]. congruence.
Qed.

Lemma elem_lookup_get (tbl : list ClassDef) i t :
  NoDup (type_names tbl) -> tbl !! i = Some t -> get_type tbl (name t) = Some t.
Proof. intros Hn Hi. apply elem_get_type; [done|]. by eapply list_elem_of_lookup_2. Qed.

(** *** Steps 1 and 2 *)

Lemma same_decl_refl t : same_decl t t.
Proof. by repeat split. Qed.

Lemma same_decl_linked_base t t0 : same_decl t t0 -> same_decl (linked_base t) t0.
Proof.
  intros (? & ? & ? & ? & ? & ?). unfold same_decl, linked_base.
  destruct (is_interface t) eqn:E1, (base_name t) eqn:E2; simpl;
    repeat split; congruence.
Qed.

Lemma same_decl_linked_interfaces t t0 :
  same_decl t t0 -> same_decl (linked_interfaces t) t0.
Proof.
  intros (? & ? & ? & ? & ? & ?). unfold same_decl, linked_interfaces.
  destruct (is_interface t) eqn:E1; simpl; repeat split; congruence.
Qed.

Lemma Rel_refl R : (forall t, R t t) -> Rel R T0 T0.
Proof. intros HR. split; [done|]. eauto. Qed.

Lemma step1 : for_types link_base (type_names T0) T0 = Ok (map linked_base T0).
Proof.
  apply (for_types_runs link_base linked_base linked_base_name link_base_put);
    [done|].
  intros i t Hi. pose proof (elem_lookup_get _ _ _ Hnd Hi) as Hg.
  pose proof (Rel_mid same_decl T0 T0 linked_base i linked_base_name
                same_decl_linked_base (Rel_refl _ same_decl_refl)) as HR.
  unfold link_base. destruct (is_interface t) eqn:Hit; [eauto|].
  destruct (base_name t) as [b|] eqn:Hb; [|eauto].
  destruct (wf_base _ WF _ t b Hg Hit Hb) as (bt0 & Hgb0 & Hib0).
  destruct (proj2 HR b bt0 Hgb0) as (bt & -> & (_ & Hib & _)).
  rewrite Hib, Hib0. eauto.
Qed.

Lemma based_linked_base t0 : constructed t0 -> based (linked_base t0) t0.
Proof.
  intros Hc. split; [apply same_decl_linked_base, same_decl_refl|].
  pose proof (constructed_base _ Hc) as Hb.
  unfold linked_base. destruct (is_interface t0); [done|].
  by destruct (base_name t0).
Qed.

Lemma Rel_T1 : Rel based T0 (map linked_base T0).
Proof.
  split; [apply (type_names_map_f linked_base linked_base_name)|].
  intros n t0 H0. exists (linked_base t0). split.
  - by rewrite (get_type_map linked_base _ _ linked_base_name), H0.
  - apply based_linked_base. eapply Forall_forall; [exact HC|].
    by eapply get_type_elem.
Qed.

Lemma resolve_interfaces_total tbl c inames : forall acc,
  Forall (fun i => exists it, get_type tbl i = Some it /\ is_interface it = true)
    inames ->
  exists r, resolve_interfaces tbl c inames acc = Ok r.
Proof.
  induction inames as [|i inames IH]; intros acc HF; simpl; [eauto|].
  apply Forall_cons in HF as [(it & -> & ->) HF]. simpl. by apply IH.
Qed.

Lemma based_linked_interfaces t t0 : based t t0 -> based (linked_interfaces t) t0.
Proof.
  intros [Hd Hb]. split; [by apply same_decl_linked_interfaces|].
  unfold linked_interfaces. by destruct (is_interface t).
Qed.

Lemma step2 tbl :
  Rel based T0 tbl -> 
  for_types link_interfaces (type_names tbl) tbl = Ok (map linked_interfaces tbl).
Proof.
  intros HR. pose proof (proj1 HR) as Hn.
  assert (Hnd' : NoDup (type_names tbl)) by (by rewrite Hn).
  apply (for_types_runs link_interfaces linked_interfaces linked_interfaces_name
           link_interfaces_put); [done|].
  intros i t Hi. pose proof (elem_lookup_get _ _ _ Hnd' Hi) as Hg.
  pose proof (Rel_mid based T0 tbl linked_interfaces i linked_interfaces_name
                based_linked_interfaces HR) as HRm.
  unfold link_interfaces. destruct (is_interface t) eqn:Hit; [eauto|].
  destruct (Rel_back _ _ _ _ _ Hnd HR Hg) as (t0 & H0 & ((_ & Hi0 & _ & Hin & _) & _)).
  destruct (resolve_interfaces_total
              (map linked_interfaces (take i tbl) ++ drop i tbl) (name t)
              (interfaces_names t) []) as [r ->]; [|simpl; eauto].
  apply Forall_forall. intros iname Hiname. rewrite Hin in Hiname.
  destruct (wf_interfaces _ WF _ t0 iname H0) as (it0 & Hgi0 & Hii0);
    [congruence|done|].
  destruct (proj2 HRm iname it0 Hgi0) as (it & Hgi & ((_ & Hii & _) & _)).
  exists it. split; [done|]. congruence.
Qed.

(** *** Step 3 *)

Lemma step3 tbl :
  Rel based T0 tbl -> for_types check_cycle (type_names tbl) tbl = Ok tbl.
Proof.
  intros HR. pose proof (proj1 HR) as Hn.
  assert (Hnd' : NoDup (type_names tbl)) by (by rewrite Hn).
  rewrite <- (map_id tbl) at 3.
  apply (for_types_runs check_cycle id id_name check_cycle_put); [done|].
  intros i t Hi. pose proof (elem_lookup_get _ _ _ Hnd' Hi) as Hg.
  rewrite map_id, take_drop.
  unfold check_cycle. destruct (is_interface t) eqn:Hit; [eauto|].
  destruct (class_chain_in tbl _ t HR Hg Hit) as (l & Hl & Hlen).
  rewrite (has_cycle_chain tbl t l Hl); [simpl; eauto|].
  unfold chain_fuel. lia.
Qed.

(** *** Step 4, interfaces *)

Lemma based_interface_layout t t0 : based t t0 -> based (interface_layout t) t0.
Proof.
  intros [Hd Hb]. unfold interface_layout. by destruct (is_interface t).
Qed.

Lemma step4a tbl :
  NoDup (type_names tbl) ->
  for_types layout_interface (type_names tbl) tbl = Ok (map interface_layout tbl).
Proof.
  intros Hnd'.
  apply (for_types_runs layout_interface interface_layout interface_layout_name
           layout_interface_put); [done|].
  intros i t Hi. unfold layout_interface, compute_layout.
  destruct (is_interface t); simpl; eauto.
Qed.
(** *** Step 4, classes *)

Lemma step4b tbl :
  Rel based T0 tbl ->
  exists T5, topo_loop layout_class LayoutStuck (size (class_names tbl)) tbl ∅
               (class_names tbl) = Ok T5.
Proof.
  intros HR. assert (Hnd' : NoDup (type_names tbl)) by (by rewrite (proj1 HR)).
  apply (topo_loop_runs compute_layout layout_class LayoutStuck (fun _ _ => eq_refl)
           compute_layout_skel compute_layout_local tbl Hnd' (fun _ => True)).
  - intros tbl' t Hb. unfold compute_layout.
    destruct (is_interface t); simpl; [eauto|].
    destruct (base t) as [b|]; [|simpl; eauto].
    destruct (Hb b eq_refl) as (bt & Hg & _). unfold deref. rewrite Hg. simpl. eauto.
  - intros n t b. by apply bases_in.
  - intros n t Hg Hi. destruct (class_chain_in tbl n t HR Hg Hi) as (l & Hl & _). eauto.
Qed.

Lemma based_set_layout t t0 allf idx : based t t0 -> based (set_layout t allf idx) t0.
Proof. intros [Hd Hb]. done. Qed.

(** The table after step 4: bases linked, and the layout of a class is
    the layout of its base followed by its own fields. *)
Lemma after_layouts tbl T5 :
  Rel based T0 tbl ->
  topo_loop layout_class LayoutStuck (size (class_names tbl)) tbl ∅
    (class_names tbl) = Ok T5 ->
  Rel based T0 T5 /\
  forall n t, get_type T5 n = Some t -> is_interface t = false ->
    all_fields t = base_all_fields T5 t ++ fields t.
Proof.
  intros HR H. assert (Hnd' : NoDup (type_names tbl)) by (by rewrite (proj1 HR)).
  apply (topo_loop_spec compute_layout layout_class LayoutStuck (fun _ _ => eq_refl)
           compute_layout_skel compute_layout_local tbl Hnd') in H
    as (Hn & Hp & _).
  assert (Hpoint : forall n t4, get_type tbl n = Some t4 ->
            exists t5, get_type T5 n = Some t5 /\
              (is_interface t4 = true /\ t5 = t4 \/
               is_interface t4 = false /\
               t5 = set_layout t4 (base_all_fields T5 t4 ++ fields t4)
                      (index_dict (base_all_fields T5 t4 ++ fields t4)))).
  { intros n t4 Hg. destruct (Hp n t4 Hg) as (t5 & Hg5 & _ & Hrel).
    exists t5. split; [done|]. destruct (is_interface t4) eqn:Hi; [by left|right].
    split; [done|]. by destruct (compute_layout_Ok _ _ _ Hrel Hi). }
  split; [split|].
  - by rewrite Hn, (proj1 HR).
  - intros n t0 H0. destruct (proj2 HR n t0 H0) as (t4 & Hg4 & Hb4).
    destruct (Hpoint n t4 Hg4) as (t5 & Hg5 & [[_ ->]|[_ ->]]); [eauto|].
    exists (set_layout t4 (base_all_fields T5 t4 ++ fields t4)
              (index_dict (base_all_fields T5 t4 ++ fields t4))).
    split; [done|]. by apply based_set_layout.
  - intros n t Hg Hi.
    destruct (get_type_same_names tbl T5 n t (eq_sym Hn) Hg) as [t4 Hg4].
    destruct (Hpoint n t4 Hg4) as (t5 & Hg5 & [[Hi4 ->]|[_ ->]]).
    + assert (t = t4) as -> by congruence. congruence.
    + assert (t = set_layout t4 (base_all_fields T5 t4 ++ fields t4)
                    (index_dict (base_all_fields T5 t4 ++ fields t4))) as ->
        by congruence.
      done.
Qed.

(** *** Step 5 *)

Lemma find_none_all {A} (p : A -> bool) l :
  (forall x, x ∈ l -> p x = false) -> find p l = None.
Proof.
  induction l as [|x l IH]; intros H; simpl; [done|].
  rewrite (H x) by apply list_elem_of_here.
  apply IH. intros y Hy. apply H. by apply list_elem_of_further.
Qed.

Lemma all_fields_ancestors T5 f :
  Rel based T0 T5 ->
  (forall n t, get_type T5 n = Some t -> is_interface t = false ->
     all_fields t = base_all_fields T5 t ++ fields t) ->
  forall l0 b bt, Ancestors T0 (Some b) l0 ->
    Forall (fun t => is_interface t = false) l0 ->
    get_type T5 b = Some bt -> f ∈ all_fields bt ->
    exists a, a ∈ l0 /\ f ∈ fields a.
Proof.
  intros HR Hlay l0. induction l0 as [|a0 l0 IH]; intros b bt Ha HF Hg Hf;
    [by inversion Ha|].
  inversion Ha as [|b' a0' l0' Hg0 Hanc]; subst.
  apply Forall_cons in HF as [Hi0 HF].
  destruct (proj2 HR b a0 Hg0) as (bt' & Hg' & ((_ & Hi & _ & _ & Hfs & _) & Hb)).
  assert (bt' = bt) as -> by congruence.
  rewrite Hi0 in Hi, Hb.
  rewrite (Hlay b bt Hg Hi) in Hf. apply elem_of_app in Hf as [Hf|Hf].
  - unfold base_all_fields in Hf. rewrite Hb in Hf.
    destruct (base_name a0) as [b2|] eqn:Hb2; [|by apply elem_of_nil in Hf].
    destruct (get_type T5 b2) as [bt2|] eqn:Hg2; [|by apply elem_of_nil in Hf].
    destruct (IH b2 bt2 Hanc HF Hg2 Hf) as (a & Hin & Hfa).
    exists a. split; [by apply list_elem_of_further | done].
  - exists a0. split; [apply list_elem_of_here|]. by rewrite <- Hfs.
Qed.

Lemma step5 T5 :
  Rel based T0 T5 ->
  (forall n t, get_type T5 n = Some t -> is_interface t = false ->
     all_fields t = base_all_fields T5 t ++ fields t) ->
  for_types check_fields (type_names T5) T5 = Ok T5.
Proof.
  intros HR Hlay. pose proof (proj1 HR) as Hn.
  assert (Hnd' : NoDup (type_names T5)) by (by rewrite Hn).
  rewrite <- (map_id T5) at 3.
  apply (for_types_runs check_fields id id_name check_fields_put); [done|].
  intros i t Hi. pose proof (elem_lookup_get _ _ _ Hnd' Hi) as Hg.
  rewrite map_id, take_drop.
  unfold check_fields. destruct (is_interface t) eqn:Hit; [eauto|].
  destruct (base t) as [b|] eqn:Hb; [|eauto].
  destruct (bases_in T5 _ t b HR Hg Hit Hb) as (bt & Hgb & Hib).
  unfold deref. rewrite Hgb. simpl.
  rewrite find_none_all; [eauto|].
  intros f Hf. apply bool_decide_eq_false. intros Hin.
  destruct (Rel_back _ _ _ _ _ Hnd HR Hg)
    as (t0 & H0 & ((_ & Hi0 & _ & _ & Hfs & _) & Hb0)).
  rewrite Hit in Hi0. rewrite <- Hi0, Hb in Hb0.
  destruct (Rel_back _ _ _ _ _ Hnd HR Hgb) as (bt0 & Hgb0 & ((_ & Hib0 & _) & _)).
  rewrite Hib in Hib0.
  destruct (wf_acyclic _ WF b bt0 Hgb0 (eq_sym Hib0)) as [l0 Hl0].
  assert (HF : Forall (fun t => is_interface t = false) l0).
  { apply (ancestors_classes _ _ Hl0). intros ? ? [= <-] ?. congruence. }
  destruct (all_fields_ancestors T5 f HR Hlay l0 b bt Hl0 HF Hgb Hin)
    as (a & Ha & Hfa).
  rewrite Hb0 in Hl0.
  apply (wf_fields _ WF _ t0 l0 a f H0 (eq_sym Hi0) Hl0 Ha Hfa). by rewrite <- Hfs.
Qed.

(** *** Steps 6 and 7 *)

Lemma based_interface_slots t t0 : based t t0 -> based (interface_slots t) t0.
Proof. intros [Hd Hb]. unfold interface_slots. by destruct (is_interface t). Qed.

Lemma step6 tbl :
  NoDup (type_names tbl) ->
  for_types slots_interface (type_names tbl) tbl = Ok (map interface_slots tbl).
Proof.
  intros Hnd'.
  apply (for_types_runs slots_interface interface_slots interface_slots_name
           slots_interface_put); [done|].
  intros i t Hi. unfold slots_interface. destruct (is_interface t); eauto.
Qed.

(** Every slot of the map is a position of the table. *)
Definition slots_in_range (ms : list (string * nat)) (vt : list (list string)) : Prop :=
  forall m s, dict_get ms m = Some s -> s < length vt.

Lemma add_methods_total meths : forall ms vt,
  slots_in_range ms vt ->
  exists ms' vt', add_methods (ms, vt) meths = Ok (ms', vt') /\
    slots_in_range ms' vt'.
Proof.
  induction meths as [|[m toks] meths IH]; intros ms vt Hr; simpl; [eauto|].
  destruct (dict_get ms m) as [slot|] eqn:Hm.
  - rewrite decide_True by (by eapply Hr). simpl. apply IH.
    intros m' s' H'. rewrite length_insert. by eapply Hr.
  - simpl. apply IH. intros m' s' H'. rewrite dict_get_set in H'.
    rewrite length_app. simpl. destruct (decide (m' = m)).
    + injection H' as <-. lia.
    + apply Hr in H'. lia.
Qed.

Lemma step7 tbl :
  Rel based T0 tbl ->
  exists T8, topo_loop build_vtable VtableStuck (size (class_names tbl)) tbl ∅
               (class_names tbl) = Ok T8.
Proof.
  intros HR. assert (Hnd' : NoDup (type_names tbl)) by (by rewrite (proj1 HR)).
  apply (topo_loop_runs class_vtable build_vtable VtableStuck (fun _ _ => eq_refl)
           class_vtable_skel class_vtable_local tbl Hnd'
           (fun t => slots_in_range (method_slot t) (vtable_tokens t))).
  - intros tbl' t Hb. unfold class_vtable.
    assert (exists init, match base t with
              | Some b => (bt <- deref tbl' b;; Ok (method_slot bt, vtable_tokens bt))%res
              | None => Ok ([], [])
              end = Ok init /\ slots_in_range init.1 init.2) as (init & -> & Hinit).
    { destruct (base t) as [b|].
      - destruct (Hb b eq_refl) as (bt & Hg & HQ). unfold deref. rewrite Hg. simpl.
        eauto.
      - eexists. split; [done|]. intros m s H. done. }
    simpl. destruct init as [ms vt].
    destruct (add_methods_total (methods t) ms vt Hinit) as (ms' & vt' & -> & Hr').
    simpl. eauto.
  - intros n t b. by apply bases_in.
  - intros n t Hg Hi. destruct (class_chain_in tbl n t HR Hg Hi) as (l & Hl & _). eauto.
Qed.

(** *** The link *)

Lemma link_runs : exists T, _resolve_and_link T0 = Ok T.
Proof.
  pose proof Rel_T1 as R1.
  pose proof (step2 _ R1) as S2. rewrite (proj1 R1) in S2.
  pose proof (Rel_map based T0 _ linked_interfaces linked_interfaces_name
                based_linked_interfaces R1) as R2.
  pose proof (proj1 R2) as N2.
  pose proof (step3 _ R2) as S3. rewrite N2 in S3.
  assert (S4 := step4a (map linked_interfaces (map linked_base T0))).
  rewrite N2 in S4. specialize (S4 Hnd).
  pose proof (Rel_map based T0 _ interface_layout interface_layout_name
                based_interface_layout R2) as R4.
  destruct (step4b _ R4) as [T5 H5].
  destruct (after_layouts _ _ R4 H5) as [R5 Hlay].
  pose proof (proj1 R5) as N5.
  pose proof (step5 _ R5 Hlay) as S5. rewrite N5 in S5.
  assert (S6 := step6 T5). rewrite N5 in S6. specialize (S6 Hnd).
  pose proof (Rel_map based T0 _ interface_slots interface_slots_name
                based_interface_slots R5) as R7.
  destruct (step7 _ R7) as [T8 H8].
  exists T8. unfold _resolve_and_link.
  rewrite step1. cbn [res_bind]. rewrite S2. cbn [res_bind].
  rewrite S3. cbn [res_bind]. rewrite S4. cbn [res_bind].
  rewrite H5. cbn [res_bind]. rewrite S5. cbn [res_bind].
  rewrite S6. cbn [res_bind]. exact H8.
Qed.
End stages.

(** ** A table that links is well formed *)

Section links_back.
Variables T0 T : list ClassDef.
Hypothesis L : Linked T0 T.

Lemma linked_entry n t0 :
  get_type T0 n = Some t0 ->
  exists t, get_type T n = Some t /\ is_interface t = is_interface t0 /\
    fields t = fields t0 /\ base_name t = base_name t0 /\
    interfaces_names t = interfaces_names t0 /\
    base t = (if is_interface t0 then None else base_name t0).
Proof.
  intros H0.
  destruct (get_type_same_names T T0 n t0 (lk_names _ _ L) H0) as (t & Hg).
  destruct (lk_decl _ _ L n t Hg) as (t0' & H0' & Ei & Ef & _ & Eb & Eis).
  assert (t0' = t0) as -> by congruence.
  exists t. do 5 (split; [done|]).
  by rewrite (lk_base_name _ _ L n t Hg), Ei, Eb.
Qed.

Lemma chain_ancestors c l :
  Chain T c l -> Forall (fun t => is_interface t = false) l ->
  exists l0, Ancestors T0 c l0.
Proof.
  intros H. induction H as [|h t l Hg Hc IH]; intros HF.
  - exists []. constructor.
  - apply Forall_cons in HF as [Hi HF]. destruct (IH HF) as [l0 Hl0].
    destruct (lk_decl _ _ L h t Hg) as (t0 & H0 & _ & _ & _ & Eb & _).
    exists (t0 :: l0). econstructor; [done|].
    by rewrite (lk_base_name _ _ L h t Hg), Hi, Eb in Hl0.
Qed.

Lemma ancestor_fields f : forall l0 b bt a,
  Ancestors T0 (Some b) l0 -> get_type T b = Some bt -> is_interface bt = false ->
  a ∈ l0 -> f ∈ fields a -> f ∈ all_fields bt.
Proof.
  intros l0. induction l0 as [|a0 l0 IH]; intros b bt a Ha Hg Hi Hin Hf;
    [by apply elem_of_nil in Hin|].
  inversion Ha as [|b' a0' l0' H0 Hanc]; subst.
  destruct (linked_entry b a0 H0) as (bt' & Hg' & Ei & Ef & _ & _ & Eb).
  assert (bt' = bt) as -> by congruence.
  rewrite Hi in Ei. rewrite <- Ei in Eb.
  destruct (lk_layout _ _ L _ _ Hg) as [Hall _]. rewrite Hi in Hall.
  rewrite Hall. apply elem_of_app.
  apply elem_of_cons in Hin as [->|Hin]; [right; by rewrite Ef|left].
  destruct (base_name a0) as [b2|] eqn:Hb2;
    [|inversion Hanc; subst; by apply elem_of_nil in Hin].
  destruct (lk_base _ _ L b bt b2 Hg Eb) as (bt2 & Hg2 & Hi2).
  unfold base_all_fields. rewrite Eb, Hg2. by eapply (IH b2 bt2 a).
Qed.

Lemma links_well_formed : well_formed T0.
Proof.
  split.
  - intros n t0 b H0 Hi Hb.
    destruct (linked_entry n t0 H0) as (t & Hg & _ & _ & _ & _ & Eb).
    rewrite Hi, Hb in Eb.
    destruct (lk_base _ _ L n t b Hg Eb) as (bt & Hgb & Hib).
    destruct (lk_decl _ _ L b bt Hgb) as (bt0 & Hgb0 & Ei & _).
    exists bt0. split; congruence.
  - intros n t0 i H0 Hi Hin.
    destruct (linked_entry n t0 H0) as (t & Hg & Ei & _ & _ & Eis & _).
    destruct (lk_interfaces _ _ L n t Hg) as [E HF]; [congruence|].
    rewrite E, Eis in HF.
    destruct (proj1 (Forall_forall _ _) HF i Hin) as (it & Hgi & Hii).
    destruct (lk_decl _ _ L i it Hgi) as (it0 & Hgi0 & Eii & _).
    exists it0. split; congruence.
  - intros n t0 H0 Hi.
    destruct (linked_entry n t0 H0) as (t & Hg & Ei & _).
    assert (Hit : is_interface t = false) by congruence.
    destruct (class_chain T0 T L n t Hg Hit) as (l & Hl & _ & _ & HF).
    apply (chain_ancestors _ _ Hl).
    eapply Forall_impl; [exact HF|]. by intros ? [? _].
  - intros n t0 l0 a f H0 Hi Hanc Hin Hfa Hft.
    destruct (linked_entry n t0 H0) as (t & Hg & Ei & Ef & _ & _ & Eb).
    assert (Hit : is_interface t = false) by congruence.
    rewrite Hi in Eb.
    destruct (base_name t0) as [b|] eqn:Hb;
      [|inversion Hanc; subst; by apply elem_of_nil in Hin].
    destruct (lk_base _ _ L n t b Hg Eb) as (bt & Hgb & Hib).
    assert (Hfb : f ∈ all_fields bt) by (by eapply (ancestor_fields f l0 b bt a)).
    rewrite <- Ef in Hft.
    by apply (lk_fields _ _ L n t b bt f Hg Hit Eb Hgb Hft).
Qed.
End links_back.

(** The linker accepts exactly the well-formed tables of declarations:
    [_resolve_and_link] returns a table if and only if every class
    names a class of the table as its base and interfaces of the table
    as its interfaces, the walk along the declared bases of every class
    ends, and no class declares a field that one of its ancestors
    declares.  On a well-formed table the two "unexpected" errors of the
    linker and the built-in exceptions are never reached. *)
Theorem linker_accepts_well_formed T0 :
  declarations T0 -> (well_formed T0 <-> exists T, _resolve_and_link T0 = Ok T).
Proof.
  intros (Hnd & HC & _). split.
  - intros WF. by apply link_runs.
  - intros [T Hlink]. apply (links_well_formed T0 T). by apply link_Linked.
Qed.

Lemma linker_accepts_well_formed_witness :
  well_formed Examples.table /\
  ~ well_formed [new_ClassDef "A" false (Some "A") [] [] []].
Proof.
  split.
  - apply (linker_accepts_well_formed Examples.table Linked_example.table_declarations).
    exists Linked_example.T. exact Linked_example.table_links.
  - intros WF.
    apply (linker_accepts_well_formed [new_ClassDef "A" false (Some "A") [] [] []])
      in WF as [T HT].
    + vm_compute in HT. discriminate.
    + split; [|split].
      * apply (bool_decide_unpack _). vm_compute. exact I.
      * repeat constructor.
      * repeat constructor.
Defined.

(** * interpreter.py: statements as text

    [Interpreter._exec_statement] receives a statement as a string.  It
    chooses the handler by tests on the text, in a fixed order, and each
    handler splits its text itself before it does the work that
    [_exec_statement] above does on the parts.  Statement texts are
    ASCII strings. *)

Module Text.

(** ** The string methods used *)

(** [c.isspace()] *)
Definition isspace (c : ascii) : bool :=
  let n := nat_of_ascii c in
  ((9 <=? n)%nat && (n <=? 13)%nat) || ((28 <=? n)%nat && (n <=? 32)%nat).

Fixpoint lstrip (s : string) : string :=
  match s with
  | EmptyString => EmptyString
  | String c r => if isspace c then lstrip r else s
  end.

Fixpoint rstrip (s : string) : string :=
  match s with
  | EmptyString => EmptyString
  | String c r =>
      match rstrip r with
      | EmptyString => if isspace c then EmptyString else String c EmptyString
      | String d r' => String c (String d r')
      end
  end.

(** [s.strip()] *)
Definition strip (s : string) : string := rstrip (lstrip s).

(** [s.startswith(p)] *)
Fixpoint startswith (s p : string) {struct p} : bool :=
  match p with
  | EmptyString => true
  | String b p' =>
      match s with
      | EmptyString => false
      | String a s' => if decide (a = b) then startswith s' p' else false
      end
  end.

(** [s[n:]] *)
Fixpoint from (n : nat) (s : string) : string :=
  match n, s with
  | S n', String _ r => from n' r
  | _, _ => s
  end.

(** [s.split(sep, 1)] for a separator that is not empty: the text in
    front of the first occurrence of [sep] and the text behind it, or
    [None] when [sep] does not occur (the list then has one element). *)
Fixpoint split1 (s sep : string) : option (string * string) :=
  if startswith s sep then Some (EmptyString, from (String.length sep) s)
  else
    match s with
    | EmptyString => None
    | String c r =>
        match split1 r sep with
        | Some (a, b) => Some (String c a, b)
        | None => None
        end
    end.

(** [sep in s] *)
Definition contains (s sep : string) : bool :=
  match split1 s sep with Some _ => true | None => false end.

(** [s.split(sep, 1)[0]] *)
Definition before (s sep : string) : string :=
  match split1 s sep with Some (a, _) => a | None => s end.

(** [s.rsplit(c, 1)]: the text in front of the last [c], if there is one. *)
Fixpoint rsplit1 (s : string) (c : ascii) : option string :=
  match s with
  | EmptyString => None
  | String d r =>
      match rsplit1 r c with
      | Some a => Some (String d a)
      | None => if decide (d = c) then Some EmptyString else None
      end
  end.

(** [s.rsplit(c, 1)[0]] *)
Definition before_last (s : string) (c : ascii) : string :=
  match rsplit1 s c with Some a => a | None => s end.

(** [s.split(c)] *)
Fixpoint split (s : string) (c : ascii) : list string :=
  match s with
  | EmptyString => [EmptyString]
  | String d r =>
      if decide (d = c) then EmptyString :: split r c
      else match split r c with
           | h :: t => String d h :: t
           | [] => [String d EmptyString]
           end
  end.

(** [sorted] on strings: insertion in the order of the character codes. *)
Fixpoint insert_sorted (x : string) (l : list string) : list string :=
  match l with
  | [] => [x]
  | y :: l' => if String.leb x y then x :: l else y :: insert_sorted x l'
  end.

Definition sorted (l : list string) : list string := foldr insert_sorted [] l.

(** ** Outcomes

    A handler either returns or raises.  Besides the errors of the work
    itself there are those of the splitting: an unpacking of a split
    that found no separator, a token that is no integer literal, and a
    text that no rule takes. *)
Inductive Failure : Type :=
  | NotEnoughValues
  | OnlyIntArgs
  | OnlyIntInAssignment
  | UnknownStatement (stmt : string)
  | Raised (e : Error).

Inductive Outcome : Type :=
  | Done
  | Failed (f : Failure).

Definition Handler : Type := Interpreter -> Outcome * Interpreter.

Definition perform (m : M unit) : Handler :=
  fun st =>
    match m st with
    | (Ok _, st') => (Done, st')
    | (Err e, st') => (Failed (Raised e), st')
    end.

Definition fail (f : Failure) : Handler := fun st => (Failed f, st).

(** ** The handlers *)

(** The loop of [_exec_let] over [args_str.split(",")]; [None] when a
    token is no integer literal. *)
Fixpoint parse_args (toks : list string) : option (list Z) :=
  match toks with
  | [] => Some []
  | tok :: rest =>
      let tok := strip tok in
      if is_int tok
      then match parse_args rest with
           | Some args => Some (int tok :: args)
           | None => None
           end
      else None
  end.

Definition _exec_let (stmt : string) : Handler :=
  match split1 stmt "let" with
  | None => fail NotEnoughValues
  | Some (_, rest) =>
      match split1 rest "=" with
      | None => fail NotEnoughValues
      | Some (name_part, expr_part) =>
          let var_name := strip name_part in
          let expr := strip expr_part in
          if startswith expr "new " then
            let expr2 := strip (from 4 expr) in
            match split1 expr2 "(" with
            | None => fail NotEnoughValues
            | Some (cls_name, args_str) =>
                let cls_name := strip cls_name in
                let args_str := before_last args_str ")" in
                match (if bool_decide (strip args_str = EmptyString) then Some []
                       else parse_args (split args_str ",")) with
                | None => fail OnlyIntArgs
                | Some args => perform (_exec_statement (LetNew var_name cls_name args))
                end
            end
          else if startswith expr "clone " then
            perform (_exec_statement (LetClone var_name (strip (from 6 expr))))
          else if startswith expr "cast<" then
            match split1 (from 5 expr) ">" with
            | None => fail NotEnoughValues
            | Some (type_part, rest2) =>
                perform (_exec_statement (LetCast var_name (strip type_part) (strip rest2)))
            end
          else perform (_exec_statement (LetAlias var_name expr))
      end
  end.

Definition _exec_field_assign (stmt : string) : Handler :=
  match split1 stmt "=" with
  | None => fail NotEnoughValues
  | Some (lhs, rhs) =>
      let rhs := strip rhs in
      if negb (is_int rhs) then fail OnlyIntInAssignment
      else
        let value := int rhs in
        let obj_part := strip lhs in
        match split1 obj_part "." with
        | None => fail NotEnoughValues
        | Some (var_name, field_name) =>
            perform (_exec_field_assign (strip var_name) (strip field_name) value)
        end
  end.

Definition _exec_call (stmt : string) (dynamic : bool) : Handler :=
  let kw := if dynamic then "vcall" else "call" in
  match split1 stmt kw with
  | None => fail NotEnoughValues
  | Some (_, rest) =>
      let rest := strip rest in
      match split1 rest "." with
      | None => fail NotEnoughValues
      | Some (var_part, method_name) =>
          perform (_exec_call (strip var_part) (strip method_name) dynamic)
      end
  end.

Definition _exec_is (stmt : string) : Handler :=
  match split1 stmt " is " with
  | None => fail NotEnoughValues
  | Some (var_name, type_name) =>
      perform (_exec_is (strip var_name) (strip type_name))
  end.

(** The reflection statements, on the name they are given. *)
Definition typeof (x : string) : M unit :=
  (b <- _get_binding x;;
   view <- deref_class (view_cls b);;
   i <- deref_object (inst b);;
   rt <- deref_class (cls i);;
   print (Line ("VIEW " +:+ name view +:+ " RUNTIME " +:+ name rt)))%M.

Definition fieldsof (x : string) : M unit :=
  (b <- _get_binding x;;
   i <- deref_object (inst b);;
   rt <- deref_class (cls i);;
   print (Line (String.concat " " (all_fields rt))))%M.

Definition methodsof (x : string) : M unit :=
  (b <- _get_binding x;;
   view <- deref_class (view_cls b);;
   st <- get;;
   names <- lift (visible_method_names (classes st) view);;
   print (Line (String.concat " " (sorted (elements names)))))%M.

Definition interfacesof (x : string) : M unit :=
  (b <- _get_binding x;;
   i <- deref_object (inst b);;
   rt <- deref_class (cls i);;
   st <- get;;
   ifaces <- lift (all_interfaces (classes st) rt);;
   print (Line (String.concat " " (sorted (remove_dups ifaces)))))%M.

Definition _exec_typeof (stmt : string) : Handler :=
  match split1 stmt "typeof" with
  | None => fail NotEnoughValues
  | Some (_, name) => perform (typeof (strip name))
  end.

Definition _exec_fieldsof (stmt : string) : Handler :=
  match split1 stmt "fieldsof" with
  | None => fail NotEnoughValues
  | Some (_, name) => perform (fieldsof (strip name))
  end.

Definition _exec_methodsof (stmt : string) : Handler :=
  match split1 stmt "methodsof" with
  | None => fail NotEnoughValues
  | Some (_, name) => perform (methodsof (strip name))
  end.

Definition _exec_interfacesof (stmt : string) : Handler :=
  match split1 stmt "interfacesof" with
  | None => fail NotEnoughValues
  | Some (_, name) => perform (interfacesof (strip name))
  end.

Definition _exec_free (stmt : string) : Handler :=
  match split1 stmt "free" with
  | None => fail NotEnoughValues
  | Some (_, name) => perform (_exec_free (strip name))
  end.

(** ** The dispatcher *)

Definition _exec_statement (stmt : string) : Handler :=
  let stmt := strip (before stmt ";") in
  if bool_decide (stmt = EmptyString) then fun st => (Done, st)
  else if startswith stmt "let " then _exec_let stmt
  else if startswith stmt "call " then _exec_call stmt false
  else if startswith stmt "vcall " then _exec_call stmt true
  else if contains stmt "." && contains stmt "=" &&
          negb (startswith stmt "call ") && negb (startswith stmt "vcall ")
  then _exec_field_assign stmt
  else if contains stmt " is " then _exec_is stmt
  else if startswith stmt "typeof " then _exec_typeof stmt
  else if startswith stmt "fieldsof " then _exec_fieldsof stmt
  else if startswith stmt "methodsof " then _exec_methodsof stmt
  else if startswith stmt "interfacesof " then _exec_interfacesof stmt
  else if bool_decide (stmt = "gc")
  then perform (st <- get;; if enable_gc (cfg st) then _gc_collect else ret tt)%M
  else if startswith stmt "free " then _exec_free stmt
  else fail (UnknownStatement stmt).

(** The loop of [Interpreter.run]; a statement that raises ends it. *)
Fixpoint exec_statements (stmts : list string) : Handler :=
  fun st =>
    match stmts with
    | [] => (Done, st)
    | stmt :: rest =>
        match _exec_statement stmt st with
        | (Done, st') => exec_statements rest st'
        | (Failed f, st') => (Failed f, st')
        end
    end.

(** [Interpreter.run] *)
Definition run (stmts : list string) : Handler :=
  fun st =>
    match exec_statements stmts st with
    | (Done, st') =>
        (Done,
         if enable_metrics (cfg st')
         then set_stdout st' (stdout st' ++ Metrics_print (metrics st'))
         else st')
    | (Failed f, st') => (Failed f, st')
    end.

(** The states of a run over the linked table [T]. *)
Inductive reachable (T : list ClassDef) : Interpreter -> Prop :=
  | start config clk : reachable T (new_Interpreter T config clk)
  | step st stmt st' :
      reachable T st -> _exec_statement stmt st = (Done, st') -> reachable T st'.

End Text.

(** * Statements as text: how the dispatcher routes *)

Lemma perform_Done m st st' :
  Text.perform m st = (Text.Done, st') <-> m st = (Ok tt, st').
Proof.
  unfold Text.perform. destruct (m st) as [[[]|e] s]; split; congruence.
Qed.

Lemma perform_Failed m st f st' :
  Text.perform m st = (Text.Failed f, st') <->
  exists e, f = Text.Raised e /\ m st = (Err e, st').
Proof.
  unfold Text.perform. destruct (m st) as [[[]|e] s]; split.
  - done.
  - by intros (e & _ & ?).
  - intros [= <- <-]. eauto.
  - intros (e' & -> & [= -> ->]). done.
Qed.

(** The reflection statements. *)
Inductive Query : Type := Qtypeof | Qfieldsof | Qmethodsof | Qinterfacesof.

Definition query_work (q : Query) (x : string) : M unit :=
  match q with
  | Qtypeof => Text.typeof x
  | Qfieldsof => Text.fieldsof x
  | Qmethodsof => Text.methodsof x
  | Qinterfacesof => Text.interfacesof x
  end.

(** What a handler does once its text is split: the work of a split
    statement, or the work of a reflection statement. *)
Inductive Work : M unit -> Prop :=
  | work_stmt s : Work (_exec_statement s)
  | work_query q x : Work (query_work q x).

(** The failures of the splitting. *)
Definition splitting (f : Text.Failure) : bool :=
  match f with Text.Raised _ => false | _ => true end.

(** Every text is skipped, refused while it is split, or handed on as
    the work of a statement; which of these does not depend on the
    state. *)
Lemma dispatch stmt :
  Text._exec_statement stmt = (fun st => (Text.Done, st)) \/
  (exists f, splitting f = true /\ Text._exec_statement stmt = Text.fail f) \/
  (exists m, Work m /\ Text._exec_statement stmt = Text.perform m).
Proof.
  assert (Hfail : forall f h, splitting f = true -> h = Text.fail f ->
            h = (fun st => (Text.Done, st)) \/
            (exists f, splitting f = true /\ h = Text.fail f) \/
            (exists m, Work m /\ h = Text.perform m)) by eauto.
  assert (Hwork : forall m h, Work m -> h = Text.perform m ->
            h = (fun st => (Text.Done, st)) \/
            (exists f, splitting f = true /\ h = Text.fail f) \/
            (exists m, Work m /\ h = Text.perform m)) by eauto 6.
  unfold Text._exec_statement.
  set (s := Text.strip (Text.before stmt ";")). clearbody s.
  destruct (bool_decide (s = EmptyString)); [by left|].
  destruct (Text.startswith s "let ").
  { unfold Text._exec_let. repeat case_match; subst;
      first [ by eapply Hfail; [|reflexivity]
            | (eapply Hwork; [|reflexivity]; exact (work_stmt (LetNew _ _ _)))
            | (eapply Hwork; [|reflexivity]; exact (work_stmt (LetClone _ _)))
            | (eapply Hwork; [|reflexivity]; exact (work_stmt (LetCast _ _ _)))
            | (eapply Hwork; [|reflexivity]; exact (work_stmt (LetAlias _ _))) ]. }
  destruct (Text.startswith s "call ").
  { unfold Text._exec_call. repeat case_match; subst;
      first [ by eapply Hfail; [|reflexivity] | (eapply Hwork; [|reflexivity]; exact (work_stmt (Call _ _))) ]. }
  destruct (Text.startswith s "vcall ").
  { unfold Text._exec_call. repeat case_match; subst;
      first [ by eapply Hfail; [|reflexivity] | (eapply Hwork; [|reflexivity]; exact (work_stmt (VCall _ _))) ]. }
  cbn [negb andb]. rewrite !andb_true_r.
  destruct (Text.contains s "." && Text.contains s "=").
  { unfold Text._exec_field_assign. repeat case_match; subst;
      first [ by eapply Hfail; [|reflexivity] | (eapply Hwork; [|reflexivity]; exact (work_stmt (FieldAssign _ _ _))) ]. }
  destruct (Text.contains s " is ").
  { unfold Text._exec_is. repeat case_match; subst;
      first [ by eapply Hfail; [|reflexivity] | (eapply Hwork; [|reflexivity]; exact (work_stmt (Is _ _))) ]. }
  destruct (Text.startswith s "typeof ").
  { unfold Text._exec_typeof. repeat case_match; subst;
      first [ by eapply Hfail; [|reflexivity] | (eapply Hwork; [|reflexivity]; exact (work_query Qtypeof _)) ]. }
  destruct (Text.startswith s "fieldsof ").
  { unfold Text._exec_fieldsof. repeat case_match; subst;
      first [ by eapply Hfail; [|reflexivity] | (eapply Hwork; [|reflexivity]; exact (work_query Qfieldsof _)) ]. }
  destruct (Text.startswith s "methodsof ").
  { unfold Text._exec_methodsof. repeat case_match; subst;
      first [ by eapply Hfail; [|reflexivity] | (eapply Hwork; [|reflexivity]; exact (work_query Qmethodsof _)) ]. }
  destruct (Text.startswith s "interfacesof ").
  { unfold Text._exec_interfacesof. repeat case_match; subst;
      first [ by eapply Hfail; [|reflexivity] | (eapply Hwork; [|reflexivity]; exact (work_query Qinterfacesof _)) ]. }
  destruct (bool_decide (s = "gc")).
  { eapply Hwork; [|reflexivity]; exact (work_stmt Gc). }
  destruct (Text.startswith s "free ").
  { unfold Text._exec_free. repeat case_match; subst;
      first [ by eapply Hfail; [|reflexivity] | (eapply Hwork; [|reflexivity]; exact (work_stmt (Free _))) ]. }
  by eapply Hfail; [|reflexivity].
Qed.

(** * Statements as text: the invariants of a run *)

Lemma Inv_stdout T st o : Inv T st -> Inv T (set_stdout st o).
Proof. intros [I1 I2 I3 I4 I5]. by split. Qed.

Lemma Cached_stdout T st o : Cached T st -> Cached T (set_stdout st o).
Proof. intros C. exact C. Qed.

Lemma visible_loop_agree T T' : agree T T' -> forall fuel c out,
  visible_method_names_loop T' fuel c out = visible_method_names_loop T fuel c out.
Proof.
  intros Ha fuel. induction fuel as [|fuel IH]; intros [h|] out; simpl; try done.
  unfold deref. destruct (get_type T' h) as [t'|] eqn:Hg.
  - destruct (proj2 Ha _ _ Hg) as (t & -> & Hc). simpl.
    destruct (cached_static _ _ Hc) as (_ & _ & -> & _ & -> & _). apply IH.
  - by rewrite (agree_None _ _ _ Ha Hg).
Qed.

Lemma visible_agree T T' a a' :
  agree T T' -> cached a a' ->
  visible_method_names T' a' = visible_method_names T a.
Proof.
  intros Ha Hca. unfold visible_method_names, chain_fuel.
  destruct (cached_static _ _ Hca) as (-> & -> & _ & _ & -> & _).
  rewrite (agree_length _ _ Ha). destruct (is_interface a); [done|].
  by apply visible_loop_agree.
Qed.

Lemma all_interfaces_agree T T' a a' :
  agree T T' -> cached a a' ->
  all_interfaces T' a' = all_interfaces T a.
Proof.
  intros Ha Hca. unfold all_interfaces, chain_fuel.
  destruct (cached_static _ _ Hca) as (-> & -> & _).
  rewrite (agree_length _ _ Ha). destruct (is_interface a); [done|].
  by apply interfaces_loop_agree.
Qed.

(** What a reflection statement prints for a binding [b] of an object
    [i], read off the linked table. *)
Definition answer (T : list ClassDef) (q : Query) (b : VarBinding) (i : Instance)
    : Res string :=
  match q with
  | Qtypeof => Ok ("VIEW " +:+ view_cls b +:+ " RUNTIME " +:+ cls i)
  | Qfieldsof =>
      (rt <- deref T (cls i);; Ok (String.concat " " (all_fields rt)))%res
  | Qmethodsof =>
      (view <- deref T (view_cls b);;
       names <- visible_method_names T view;;
       Ok (String.concat " " (Text.sorted (elements names))))%res
  | Qinterfacesof =>
      (rt <- deref T (cls i);;
       ifaces <- all_interfaces T rt;;
       Ok (String.concat " " (Text.sorted (remove_dups ifaces))))%res
  end.

Section text_steps.
Variables T0 T : list ClassDef.
Hypothesis L : Linked T0 T.
Hypothesis Hkeys : Forall (fun t => NoDup (dict_keys (methods t))) T0.

(** A reflection statement on a bound name prints what the names, the
    objects and the linked table determine, and changes nothing else;
    on a name that is not bound it fails. *)
Lemma query_eval q x st :
  Inv T st ->
  query_work q x st =
  match env st !! x with
  | None => (Err (UnknownVariable x), st)
  | Some b =>
      match objects st !! inst b with
      | None => (Err Dangling, st)
      | Some i =>
          match answer T q b i with
          | Ok l => (Ok tt, set_stdout st (stdout st ++ [Line l]))
          | Err e => (Err e, st)
          end
      end
  end.
Proof.
  intros I. pose proof (inv_agree _ _ I) as Ha.
  destruct (env st !! x) as [b|] eqn:Hx.
  2:{ destruct q; unfold query_work, Text.typeof, Text.fieldsof, Text.methodsof,
        Text.interfacesof, _get_binding; munfold; by rewrite Hx. }
  destruct (inv_env _ _ I _ _ Hx) as (i & rt & Hobj & Hrt & Hir & [v Hv]).
  rewrite Hobj.
  destruct (agree_back _ _ _ _ Ha Hrt) as (rt' & Hrt' & Hcr).
  destruct (agree_back _ _ _ _ Ha Hv) as (v' & Hv' & Hcv).
  pose proof (get_type_name _ _ _ Hrt') as Hnr.
  pose proof (get_type_name _ _ _ Hv') as Hnv.
  destruct q; unfold query_work, answer, Text.typeof, Text.fieldsof, Text.methodsof,
    Text.interfacesof;
    rewrite (eval_Ok _ _ _ _ _ (get_binding_eval _ _ _ Hx)).
  - rewrite (eval_Ok _ _ _ _ _ (deref_class_eval _ _ _ Hv')).
    rewrite (eval_Ok _ _ _ _ _ (deref_object_eval _ _ _ Hobj)).
    rewrite (eval_Ok _ _ _ _ _ (deref_class_eval _ _ _ Hrt')).
    by rewrite Hnr, Hnv.
  - rewrite (eval_Ok _ _ _ _ _ (deref_object_eval _ _ _ Hobj)).
    rewrite (eval_Ok _ _ _ _ _ (deref_class_eval _ _ _ Hrt')).
    unfold deref. rewrite Hrt. cbn [res_bind].
    by destruct (cached_static _ _ Hcr) as (_ & _ & _ & _ & _ & _ & _ & _ & -> & _).
  - rewrite (eval_Ok _ _ _ _ _ (deref_class_eval _ _ _ Hv')).
    rewrite (eval_Ok get _ st st st eq_refl).
    unfold deref. rewrite Hv. cbn [res_bind].
    rewrite (visible_agree _ _ _ _ Ha Hcv).
    destruct (visible_method_names T v) as [names|e]; unfold bind, lift; done.
  - rewrite (eval_Ok _ _ _ _ _ (deref_object_eval _ _ _ Hobj)).
    rewrite (eval_Ok _ _ _ _ _ (deref_class_eval _ _ _ Hrt')).
    rewrite (eval_Ok get _ st st st eq_refl).
    unfold deref. rewrite Hrt. cbn [res_bind].
    rewrite (all_interfaces_agree _ _ _ _ Ha Hcr).
    destruct (all_interfaces T rt) as [ifaces|e]; unfold bind, lift; done.
Qed.

Lemma query_Ok q x st st' :
  Inv T st -> query_work q x st = (Ok tt, st') ->
  exists b i l, env st !! x = Some b /\ objects st !! inst b = Some i /\
    answer T q b i = Ok l /\ st' = set_stdout st (stdout st ++ [Line l]).
Proof.
  intros I H. rewrite (query_eval q x st I) in H.
  destruct (env st !! x) as [b|] eqn:Hx; [|done].
  destruct (objects st !! inst b) as [i|] eqn:Hi; [|done].
  destruct (answer T q b i) as [l|e] eqn:Ha; [|done].
  injection H as <-. exists b, i, l. done.
Qed.

Lemma work_Inv m st st' :
  Work m -> Inv T st -> m st = (Ok tt, st') -> Inv T st'.
Proof.
  intros [s|q x] I H.
  - by eapply (exec_Inv T0 T L Hkeys).
  - apply (query_Ok q x st st' I) in H as (b & i & l & _ & _ & _ & ->).
    by apply Inv_stdout.
Qed.

Lemma work_Cached m st st' :
  Work m -> Inv T st -> Cached T st -> m st = (Ok tt, st') -> Cached T st'.
Proof.
  intros [s|q x] I C H.
  - by eapply (exec_Cached T0 T L Hkeys).
  - apply (query_Ok q x st st' I) in H as (b & i & l & _ & _ & _ & ->).
    by apply Cached_stdout.
Qed.

Lemma text_step stmt st st' :
  Text._exec_statement stmt st = (Text.Done, st') ->
  st' = st \/ exists m, Work m /\ m st = (Ok tt, st').
Proof.
  intros H. destruct (dispatch stmt) as [E|[(f & _ & E)|(m & Hm & E)]]; rewrite E in H.
  - left. congruence.
  - done.
  - right. exists m. split; [done|]. by apply perform_Done.
Qed.

Lemma text_step_Inv stmt st st' :
  Inv T st -> Text._exec_statement stmt st = (Text.Done, st') -> Inv T st'.
Proof.
  intros I H. destruct (text_step _ _ _ H) as [->|(m & Hm & E)]; [done|].
  by eapply work_Inv.
Qed.

Lemma text_step_Cached stmt st st' :
  Inv T st -> Cached T st ->
  Text._exec_statement stmt st = (Text.Done, st') -> Cached T st'.
Proof.
  intros I C H. destruct (text_step _ _ _ H) as [->|(m & Hm & E)]; [done|].
  by eapply work_Cached.
Qed.
End text_steps.

Lemma text_reachable_Inv T0 T st :
  declarations T0 -> _resolve_and_link T0 = Ok T -> Text.reachable T st -> Inv T st.
Proof.
  intros (Hnd & HC & Hkeys) Hlink Hr.
  destruct (link_Linked_caches _ _ Hnd HC Hlink) as [L Hce].
  induction Hr as [config clk|st stmt st' Hr IH Hstep].
  - by apply Inv_new.
  - by eapply (text_step_Inv T0 T L Hkeys).
Qed.

Lemma text_reachable_Cached T0 T st :
  declarations T0 -> _resolve_and_link T0 = Ok T -> Text.reachable T st -> Cached T st.
Proof.
  intros HD Hlink Hr. induction Hr as [config clk|st stmt st' Hr IH H].
  - intros mode v r m p Hc. simpl in Hc. by rewrite lookup_empty in Hc.
  - pose proof (text_reachable_Inv _ _ _ HD Hlink Hr) as I.
    destruct HD as (Hnd & HC & Hkeys).
    pose proof (link_Linked _ _ Hnd HC Hlink) as L.
    by eapply (text_step_Cached T0 T L Hkeys stmt st st').
Qed.

Lemma text_reachable_exec T stmts : forall st st',
  Text.reachable T st -> Text.exec_statements stmts st = (Text.Done, st') ->
  Text.reachable T st'.
Proof.
  induction stmts as [|stmt stmts IH]; intros st st' Hr H; simpl in H.
  - by injection H as <-.
  - destruct (Text._exec_statement stmt st) as [[|f] s1] eqn:E; [|done].
    eapply IH; [|exact H]. eapply Text.step; [exact Hr | exact E].
Qed.

(** * The [is] statement *)

Module Texts.
(** The state a program of statement texts leaves over the linked
    example. *)
Definition after (config : Config) (prog : list string) : Interpreter :=
  (Text.exec_statements prog (new_Interpreter Linked_example.T config Runs.clk)).2.

Lemma after_texts_reachable config prog :
  (Text.exec_statements prog (new_Interpreter Linked_example.T config Runs.clk)).1
    = Text.Done ->
  Text.reachable Linked_example.T (after config prog).
Proof.
  intros H. apply (text_reachable_exec Linked_example.T prog
                     (new_Interpreter Linked_example.T config Runs.clk));
    [apply Text.start|].
  unfold after.
  by destruct (Text.exec_statements prog
                 (new_Interpreter Linked_example.T config Runs.clk)) as [r s];
    simpl in *; subst.
Qed.

Definition prog : list string :=
  ["let c = new C(1, 2, 3)"; "let a = cast<A> c"; "let i = cast<I> c"; "typeof i"].
End Texts.

(** A text that reaches the handler of [is] is split at its first
    [" is "] and the handler works on the stripped parts. *)
Lemma is_routed stmt s :
  s = Text.strip (Text.before stmt ";") ->
  Text.startswith s "let " = false ->
  Text.startswith s "call " = false ->
  Text.startswith s "vcall " = false ->
  Text.contains s "." && Text.contains s "=" = false ->
  Text.contains s " is " = true ->
  exists var_part type_part,
    Text.split1 s " is " = Some (var_part, type_part) /\
    Text._exec_statement stmt =
      Text.perform (_exec_is (Text.strip var_part) (Text.strip type_part)).
Proof.
  intros Hs Hlet Hcall Hvcall Hassign His.
  unfold Text.contains in His.
  destruct (Text.split1 s " is ") as [[var_part type_part]|] eqn:Hsplit; [|done].
  exists var_part, type_part. split; [done|].
  unfold Text._exec_statement. rewrite <- Hs.
  rewrite bool_decide_eq_false_2 by (intros ->; done).
  rewrite Hlet, Hcall, Hvcall. cbn [negb]. rewrite !andb_true_r, Hassign.
  unfold Text.contains. rewrite Hsplit.
  unfold Text._exec_is. by rewrite Hsplit.
Qed.

(** C9, as amended.  The dispatcher tests for [let], [call], [vcall]
    and for a field assignment before it tests for [is].  A text that
    reaches the handler of [is] (cut at its comment and stripped, it
    contains [" is "], does not start with ["let "], ["call "] or
    ["vcall "], and does not contain both ["."] and ["="]) ends normally
    in every state of a run and prints one line.  With the name and the
    type name the stripped texts in front of and behind the first
    [" is "]: the line is ["IS"] exactly when the name is bound, the
    type name is known, and the named type is a class on the base chain
    of the object's runtime class or an interface listed by a class on
    that chain; otherwise it is ["ISN'T"]. *)
Theorem is_never_fails T0 T st stmt s :
  declarations T0 -> _resolve_and_link T0 = Ok T -> Text.reachable T st ->
  s = Text.strip (Text.before stmt ";") ->
  Text.startswith s "let " = false ->
  Text.startswith s "call " = false ->
  Text.startswith s "vcall " = false ->
  Text.contains s "." && Text.contains s "=" = false ->
  Text.contains s " is " = true ->
  exists var_part type_part (ans : bool),
    Text.split1 s " is " = Some (var_part, type_part) /\
    Text._exec_statement stmt st =
      (Text.Done,
       set_stdout st (stdout st ++ [Line (if ans then "IS" else "ISN'T")])) /\
    (ans = true <->
     exists b t i rt l,
       env st !! Text.strip var_part = Some b /\
       get_type (classes st) (Text.strip type_part) = Some t /\
       objects st !! inst b = Some i /\ get_type (classes st) (cls i) = Some rt /\
       Chain (classes st) (Some (cls i)) l /\
       ((is_interface t = false /\ t ∈ l) \/
        (is_interface t = true /\ exists a, a ∈ l /\ name t ∈ interfaces a))) /\
    (env st !! Text.strip var_part = None \/
     get_type (classes st) (Text.strip type_part) = None -> ans = false).
Proof.
  intros HD Hlink Hr Hs Hlet Hcall Hvcall Hassign His.
  pose proof (text_reachable_Inv _ _ _ HD Hlink Hr) as I.
  destruct HD as (Hnd & HC & Hkeys).
  pose proof (link_Linked _ _ Hnd HC Hlink) as L.
  destruct (is_routed stmt s Hs Hlet Hcall Hvcall Hassign His)
    as (var_part & type_part & Hsplit & Hexec).
  destruct (exec_is_spec T0 T L st (Text.strip var_part) (Text.strip type_part) I)
    as (ans & Heq & Hans).
  exists var_part, type_part, ans. split; [done|]. split; [|split; [exact Hans|]].
  - rewrite Hexec. by apply perform_Done.
  - intros Hnone. destruct ans; [|done].
    destruct (proj1 Hans eq_refl) as (b & t & i & rt & l & Hb & Ht & _).
    destruct Hnone; congruence.
Qed.

Lemma is_never_fails_witness :
  exists var_part type_part (ans : bool),
    Text.split1 "i is  B" " is " = Some (var_part, type_part) /\
    Text._exec_statement " i is  B ; a class" (Texts.after Runs.fast Texts.prog) =
      (Text.Done,
       set_stdout (Texts.after Runs.fast Texts.prog)
         (stdout (Texts.after Runs.fast Texts.prog) ++
          [Line (if ans then "IS" else "ISN'T")])) /\
    (ans = true <->
     exists b t i rt l,
       env (Texts.after Runs.fast Texts.prog) !! Text.strip var_part = Some b /\
       get_type (classes (Texts.after Runs.fast Texts.prog)) (Text.strip type_part)
         = Some t /\
       objects (Texts.after Runs.fast Texts.prog) !! inst b = Some i /\
       get_type (classes (Texts.after Runs.fast Texts.prog)) (cls i) = Some rt /\
       Chain (classes (Texts.after Runs.fast Texts.prog)) (Some (cls i)) l /\
       ((is_interface t = false /\ t ∈ l) \/
        (is_interface t = true /\ exists a, a ∈ l /\ name t ∈ interfaces a))) /\
    (env (Texts.after Runs.fast Texts.prog) !! Text.strip var_part = None \/
     get_type (classes (Texts.after Runs.fast Texts.prog)) (Text.strip type_part)
       = None -> ans = false).
Proof.
  apply (is_never_fails Examples.table Linked_example.T
           (Texts.after Runs.fast Texts.prog) " i is  B ; a class" "i is  B").
  - exact Linked_example.table_declarations.
  - exact Linked_example.table_links.
  - apply Texts.after_texts_reachable. vm_compute. reflexivity.
  - vm_compute. reflexivity.
  - vm_compute. reflexivity.
  - vm_compute. reflexivity.
  - vm_compute. reflexivity.
  - vm_compute. reflexivity.
  - vm_compute. reflexivity.
Defined.

(** C9, as stated, fails.  After [let call = new A(1)] the name [call]
    is bound to an object of class [A], and [A] is a class of the table,
    so the claim has [call is A] report a positive result; the
    dispatcher takes the text for a call, whose handler finds no ["."]
    to split at and raises.  And [x is A.B=C], with names that are not
    known, is taken for a field assignment and raises where the claim
    has it report a negative result. *)
Lemma is_statement_can_fail :
  Text.reachable Linked_example.T
    (Texts.after default_Config ["let call = new A(1)"]) /\
  env (Texts.after default_Config ["let call = new A(1)"]) !! "call" =
    Some (mkVarBinding 0 "A") /\
  objects (Texts.after default_Config ["let call = new A(1)"]) !! 0 =
    Some (mkInstance "A" [1%Z]) /\
  (exists t, get_type (classes (Texts.after default_Config ["let call = new A(1)"])) "A"
             = Some t /\ is_interface t = false) /\
  Text._exec_statement "call is A"
    (Texts.after default_Config ["let call = new A(1)"]) =
  (Text.Failed Text.NotEnoughValues,
   Texts.after default_Config ["let call = new A(1)"]) /\
  env (Texts.after default_Config ["let call = new A(1)"]) !! "x" = None /\
  get_type (classes (Texts.after default_Config ["let call = new A(1)"])) "A.B=C"
    = None /\
  Text._exec_statement "x is A.B=C"
    (Texts.after default_Config ["let call = new A(1)"]) =
  (Text.Failed Text.OnlyIntInAssignment,
   Texts.after default_Config ["let call = new A(1)"]).
Proof.
  split; [apply Texts.after_texts_reachable; vm_compute; reflexivity|].
  split; [vm_compute; reflexivity|].
  split; [vm_compute; reflexivity|].
  split; [eexists; split; vm_compute; reflexivity|].
  split; [vm_compute; reflexivity|].
  split; [vm_compute; reflexivity|].
  split; [vm_compute; reflexivity|].
  vm_compute. reflexivity.
Qed.

(** * Names in statement texts *)

Fixpoint every (P : ascii -> bool) (s : string) : bool :=
  match s with
  | EmptyString => true
  | String c r => P c && every P r
  end.

(** The text has no character [c]. *)
Definition lacks (c : ascii) (s : string) : bool :=
  every (fun d => negb (bool_decide (d = c))) s.

(** A name as the grammar of statements has it: not empty, without
    white space and without the characters [;], [.], [=] and [>] that
    the dispatcher and the handlers look for. *)
Definition name_char (c : ascii) : bool :=
  negb (Text.isspace c) &&
  negb (bool_decide (c ∈ [";"%char; "."%char; "="%char; ">"%char])).

Definition is_name (s : string) : bool :=
  match s with
  | EmptyString => false
  | String _ _ => every name_char s
  end.

Lemma every_app P a b : every P (a +:+ b) = every P a && every P b.
Proof.
  induction a as [|c a IH]; simpl; [done|]. rewrite IH. by rewrite andb_assoc.
Qed.

Lemma every_impl (P Q : ascii -> bool) s :
  (forall c, P c = true -> Q c = true) -> every P s = true -> every Q s = true.
Proof.
  intros HPQ. induction s as [|c s IH]; simpl; [done|].
  intros [Hc Hs]%andb_true_iff. rewrite (HPQ _ Hc). by apply IH.
Qed.

Lemma name_facts s :
  is_name s = true ->
  s <> EmptyString /\ every (fun c => negb (Text.isspace c)) s = true /\
  lacks " " s = true /\ lacks ";" s = true /\ lacks "." s = true /\
  lacks "=" s = true /\ lacks ">" s = true.
Proof.
  intros H. split; [by destruct s|].
  assert (He : every name_char s = true) by (by destruct s).
  assert (Hl : forall c, name_char c = false -> lacks c s = true).
  { intros c Hc. unfold lacks. eapply every_impl; [|exact He].
    intros d Hd. apply negb_true_iff, bool_decide_eq_false. intros ->. congruence. }
  split.
  { eapply every_impl; [|exact He]. intros c.
    unfold name_char. by intros [Hw _]%andb_true_iff. }
  repeat split; by apply Hl.
Qed.

(** ** Splitting *)

Lemma startswith_app p r : Text.startswith (p +:+ r) p = true.
Proof. induction p as [|c p IH]; simpl; [by destruct r|]. by rewrite decide_True. Qed.

Lemma from_app p r : Text.from (String.length p) (p +:+ r) = r.
Proof. induction p as [|c p IH]; simpl; [by destruct r | done]. Qed.

Lemma split1_here sep r : Text.split1 (sep +:+ r) sep = Some (EmptyString, r).
Proof.
  destruct sep as [|c sep].
  - simpl. by destruct r.
  - change (Text.split1 (String c sep +:+ r) (String c sep)) with
      (if Text.startswith (String c sep +:+ r) (String c sep)
       then Some (EmptyString, Text.from (String.length (String c sep)) (String c sep +:+ r))
       else match Text.split1 (sep +:+ r) (String c sep) with
            | Some (a, b) => Some (String c a, b)
            | None => None
            end).
    by rewrite startswith_app, from_app.
Qed.

Lemma split1_cons_ne d r c sep :
  d <> c ->
  Text.split1 (String d r) (String c sep) =
  match Text.split1 r (String c sep) with
  | Some (a, b) => Some (String d a, b)
  | None => None
  end.
Proof. intros Hne. simpl. by rewrite decide_False. Qed.

(** The first occurrence of a separator is behind a text without the
    separator's first character. *)
Lemma split1_skip c sep a b :
  lacks c a = true ->
  Text.split1 (a +:+ String c sep +:+ b) (String c sep) = Some (a, b).
Proof.
  induction a as [|d a IH]; intros Ha.
  - exact (split1_here (String c sep) b).
  - simpl in Ha. apply andb_true_iff in Ha as [Hd Ha].
    apply negb_true_iff, bool_decide_eq_false in Hd.
    change (String d a +:+ String c sep +:+ b)
      with (String d (a +:+ String c sep +:+ b)).
    rewrite (split1_cons_ne _ _ _ _ Hd), (IH Ha). done.
Qed.

Lemma split1_absent c sep s :
  lacks c s = true -> Text.split1 s (String c sep) = None.
Proof.
  induction s as [|d s IH]; intros Hs; [done|].
  simpl in Hs. apply andb_true_iff in Hs as [Hd Hs].
  apply negb_true_iff, bool_decide_eq_false in Hd.
  by rewrite (split1_cons_ne _ _ _ _ Hd), (IH Hs).
Qed.

(** ** Stripping *)

Lemma rstrip_nospace s :
  every (fun c => negb (Text.isspace c)) s = true -> Text.rstrip s = s.
Proof.
  induction s as [|c s IH]; [done|]. cbn [Text.rstrip every].
  intros [Hc Hs]%andb_true_iff. rewrite (IH Hs).
  apply negb_true_iff in Hc. rewrite Hc. by destruct s.
Qed.

Lemma rstrip_app_keep u v :
  v <> EmptyString -> Text.rstrip v = v -> Text.rstrip (u +:+ v) = u +:+ v.
Proof.
  intros Hne Hv. induction u as [|c u IH]; [done|].
  change (String c u +:+ v) with (String c (u +:+ v)).
  cbn [Text.rstrip]. rewrite IH. destruct (u +:+ v) eqn:E; [|done].
  destruct u; simpl in E; [by subst | done].
Qed.

Lemma rstrip_app_drop u v :
  Text.rstrip v = EmptyString -> Text.rstrip (u +:+ v) = Text.rstrip u.
Proof.
  intros Hv. induction u as [|c u IH]; [done|].
  change (String c u +:+ v) with (String c (u +:+ v)).
  cbn [Text.rstrip]. by rewrite IH.
Qed.

Lemma strip_name s : is_name s = true -> Text.strip s = s.
Proof.
  intros H. destruct (name_facts s H) as (Hne & Hw & _).
  unfold Text.strip. destruct s as [|c s]; [done|].
  pose proof Hw as Hw'. cbn [every] in Hw. apply andb_true_iff in Hw as [Hc _].
  apply negb_true_iff in Hc. cbn [Text.lstrip]. rewrite Hc.
  by apply rstrip_nospace.
Qed.

(** A text that ends with a name is stripped on the right already. *)
Lemma rstrip_ends_name u s : is_name s = true -> Text.rstrip (u +:+ s) = u +:+ s.
Proof.
  intros H. destruct (name_facts s H) as (Hne & Hw & _).
  apply rstrip_app_keep; [done|]. by apply rstrip_nospace.
Qed.

Lemma lstrip_starts_name s r : is_name s = true -> Text.lstrip (s +:+ r) = s +:+ r.
Proof.
  intros H. destruct (name_facts s H) as (Hne & Hw & _).
  destruct s as [|c s]; [done|]. cbn [every] in Hw.
  apply andb_true_iff in Hw as [Hc _].
  apply negb_true_iff in Hc. change (String c s +:+ r) with (String c (s +:+ r)).
  cbn [Text.lstrip]. by rewrite Hc.
Qed.

(** ** Keywords *)

(** A text that starts with a name other than the keyword [k] does not
    start with [k] and a space. *)
Lemma startswith_keyword k : forall x r,
  lacks " " k = true -> lacks " " x = true ->
  Text.startswith (x +:+ String " " r) (k +:+ " ") = true -> x = k.
Proof.
  induction k as [|a k IH]; intros x r Hk Hx H.
  - destruct x as [|c x]; [done|]. simpl in H, Hx.
    apply andb_true_iff in Hx as [Hc _].
    apply negb_true_iff, bool_decide_eq_false in Hc.
    by rewrite decide_False in H.
  - simpl in Hk. apply andb_true_iff in Hk as [Ha Hk].
    apply negb_true_iff, bool_decide_eq_false in Ha.
    destruct x as [|c x]; simpl in H.
    + rewrite decide_False in H by congruence. done.
    + simpl in Hx. apply andb_true_iff in Hx as [_ Hx].
      destruct (decide (c = a)) as [->|]; [|done].
      f_equal. by apply (IH x r).
Qed.

Lemma not_keyword k x r :
  lacks " " k = true -> is_name x = true -> x <> k ->
  Text.startswith (x +:+ String " " r) (k +:+ " ") = false.
Proof.
  intros Hk Hx Hne. destruct (name_facts x Hx) as (_ & _ & Hsp & _).
  destruct (Text.startswith _ _) eqn:E; [|done].
  by apply startswith_keyword in E.
Qed.

(** ** The texts of [is] and of a cast *)

Lemma append_assoc a b c : (a +:+ b) +:+ c = a +:+ b +:+ c.
Proof.
  induction a as [|d a IH]; [done|].
  change (String d ((a +:+ b) +:+ c) = String d (a +:+ b +:+ c)). by rewrite IH.
Qed.

Lemma lacks_app c a b : lacks c (a +:+ b) = lacks c a && lacks c b.
Proof. apply every_app. Qed.

(** The text [x is t] with names [x] and [t], [x] none of the words
    [let], [call], [vcall], reaches the handler of [is] with these
    names. *)
Lemma is_text x t :
  is_name x = true -> is_name t = true ->
  x <> "let" -> x <> "call" -> x <> "vcall" ->
  Text._exec_statement (x +:+ " is " +:+ t) = Text.perform (_exec_is x t).
Proof.
  intros Hx Ht Hlet Hcall Hvcall.
  destruct (name_facts x Hx) as (Hxne & Hxw & Hxsp & Hxsemi & Hxdot & Hxeq & Hxgt).
  destruct (name_facts t Ht) as (Htne & Htw & Htsp & Htsemi & Htdot & Hteq & Htgt).
  set (s := x +:+ " is " +:+ t).
  assert (Hb : Text.before s ";" = s).
  { unfold Text.before. rewrite split1_absent; [done|].
    unfold s. by rewrite !lacks_app, Hxsemi, Htsemi. }
  assert (Hs : Text.strip s = s).
  { unfold Text.strip, s. rewrite (lstrip_starts_name _ _ Hx).
    rewrite <- append_assoc. by apply rstrip_ends_name. }
  assert (Hsplit : Text.split1 s " is " = Some (x, t)).
  { exact (split1_skip " " "is " x t Hxsp). }
  destruct (is_routed s s) as (var_part & type_part & Hsp & Hexec).
  - by rewrite Hb, Hs.
  - exact (not_keyword "let" x _ eq_refl Hx Hlet).
  - exact (not_keyword "call" x _ eq_refl Hx Hcall).
  - exact (not_keyword "vcall" x _ eq_refl Hx Hvcall).
  - unfold Text.contains at 1. rewrite split1_absent; [done|].
    unfold s. by rewrite !lacks_app, Hxdot, Htdot.
  - unfold Text.contains. by rewrite Hsplit.
  - rewrite Hsplit in Hsp. injection Hsp as <- <-.
    by rewrite (strip_name x Hx), (strip_name t Ht) in Hexec.
Qed.

(** The text [let y = cast<t> x] with names [y], [t] and [x] reaches the
    cast with these names. *)
Lemma cast_text y t x :
  is_name y = true -> is_name t = true -> is_name x = true ->
  Text._exec_statement ("let " +:+ y +:+ " = cast<" +:+ t +:+ "> " +:+ x) =
  Text.perform (_exec_statement (LetCast y t x)).
Proof.
  intros Hy Ht Hx.
  destruct (name_facts x Hx) as (Hxne & Hxw & Hxsp & Hxsemi & Hxdot & Hxeq & Hxgt).
  destruct (name_facts t Ht) as (Htne & Htw & Htsp & Htsemi & Htdot & Hteq & Htgt).
  destruct (name_facts y Hy) as (Hyne & Hyw & Hysp & Hysemi & Hydot & Hyeq & Hygt).
  set (expr := "cast<" +:+ t +:+ "> " +:+ x).
  set (s := "let " +:+ y +:+ " = cast<" +:+ t +:+ "> " +:+ x).
  assert (Hb : Text.before s ";" = s).
  { unfold Text.before. rewrite split1_absent; [done|].
    unfold s. by rewrite !lacks_app, Hxsemi, Htsemi, Hysemi. }
  assert (Hs : Text.strip s = s).
  { unfold Text.strip. change (Text.lstrip s) with s.
    unfold s. rewrite <- !append_assoc. by apply rstrip_ends_name. }
  assert (Hexpr : Text.strip (" " +:+ expr) = expr).
  { unfold Text.strip. change (Text.lstrip (" " +:+ expr)) with expr.
    unfold expr. rewrite <- !append_assoc. by apply rstrip_ends_name. }
  assert (Hname : Text.strip (" " +:+ y +:+ " ") = y).
  { unfold Text.strip. change (Text.lstrip (" " +:+ y +:+ " ")) with (Text.lstrip (y +:+ " ")).
    rewrite (lstrip_starts_name _ _ Hy), (rstrip_app_drop y " " eq_refl).
    by apply rstrip_nospace. }
  assert (Hsrc : Text.strip (" " +:+ x) = x).
  { unfold Text.strip. change (Text.lstrip (" " +:+ x)) with (Text.lstrip x).
    by apply (strip_name x). }
  unfold Text._exec_statement. rewrite Hb, Hs.
  rewrite bool_decide_eq_false_2 by done.
  rewrite (startswith_app "let " _ : Text.startswith s "let " = true).
  unfold Text._exec_let.
  rewrite (split1_here "let" (" " +:+ y +:+ " = " +:+ expr)
           : Text.split1 s "let" = _).
  replace (" " +:+ y +:+ " = " +:+ expr) with ((" " +:+ y +:+ " ") +:+ "=" +:+ " " +:+ expr)
    by (by rewrite !append_assoc).
  rewrite (split1_skip "=" EmptyString (" " +:+ y +:+ " ") (" " +:+ expr)).
  2:{ by rewrite !lacks_app, Hyeq. }
  rewrite Hname, Hexpr.
  change (Text.startswith expr "new ") with false.
  change (Text.startswith expr "clone ") with false.
  rewrite (startswith_app "cast<" _ : Text.startswith expr "cast<" = true).
  change (Text.from 5 expr) with (t +:+ "> " +:+ x).
  rewrite (split1_skip ">" EmptyString t (" " +:+ x) Htgt
           : Text.split1 (t +:+ "> " +:+ x) ">" = _).
  by rewrite (strip_name t Ht), Hsrc.
Qed.

(** In a state of a run, for names [x], [y] and [t], [x] bound and none
    of the words [let], [call] and [vcall]: the statement [x is t]
    prints IS exactly when [let y = cast<t> x] succeeds.  A successful
    cast binds [y] to the object of [x] viewed as [t] and changes nothing
    else; a failing cast leaves the state as it was and fails because the
    type is unknown or the runtime class does not conform to it. *)
Theorem cast_agrees_with_is T0 T st x y t b :
  declarations T0 -> _resolve_and_link T0 = Ok T -> Text.reachable T st ->
  is_name x = true -> is_name y = true -> is_name t = true ->
  x <> "let" -> x <> "call" -> x <> "vcall" ->
  env st !! x = Some b ->
  exists ans : bool,
    Text._exec_statement (x +:+ " is " +:+ t) st =
      (Text.Done,
       set_stdout st (stdout st ++ [Line (if ans then "IS" else "ISN'T")])) /\
    (ans = true ->
     Text._exec_statement ("let " +:+ y +:+ " = cast<" +:+ t +:+ "> " +:+ x) st =
       (Text.Done, set_env st (<[y := mkVarBinding (inst b) t]> (env st)))) /\
    (ans = false ->
     exists i e, objects st !! inst b = Some i /\
       Text._exec_statement ("let " +:+ y +:+ " = cast<" +:+ t +:+ "> " +:+ x) st =
         (Text.Failed (Text.Raised e), st) /\
       (e = UnknownType t \/ e = CannotCast (cls i) t \/
        e = CannotCastToInterface (cls i) t)).
Proof.
  intros HD Hlink Hr Hx Hy Ht Hlet Hcall Hvcall Hb.
  pose proof (text_reachable_Inv _ _ _ HD Hlink Hr) as I.
  destruct HD as (Hnd & HC & Hkeys).
  pose proof (link_Linked _ _ Hnd HC Hlink) as L.
  destruct (cast_is_same T0 T L st x y t b I Hb) as (ans & His & Hyes & Hno).
  exists ans. rewrite (is_text x t Hx Ht Hlet Hcall Hvcall), (cast_text y t x Hy Ht Hx).
  split; [by apply perform_Done|]. split.
  - intros Ha. apply perform_Done. by apply Hyes.
  - intros Ha. destruct (Hno Ha) as (i & e & Hi & Hc & He).
    exists i, e. split; [done|]. split; [|done].
    apply perform_Failed. eauto.
Qed.

Lemma cast_agrees_with_is_witness :
  exists ans : bool,
    Text._exec_statement "a is B" (Texts.after Runs.fast Texts.prog) =
      (Text.Done,
       set_stdout (Texts.after Runs.fast Texts.prog)
         (stdout (Texts.after Runs.fast Texts.prog) ++
          [Line (if ans then "IS" else "ISN'T")])) /\
    (ans = true ->
     Text._exec_statement "let b = cast<B> a" (Texts.after Runs.fast Texts.prog) =
       (Text.Done,
        set_env (Texts.after Runs.fast Texts.prog)
          (<["b" := mkVarBinding 0 "B"]> (env (Texts.after Runs.fast Texts.prog))))) /\
    (ans = false ->
     exists i e, objects (Texts.after Runs.fast Texts.prog) !! 0 = Some i /\
       Text._exec_statement "let b = cast<B> a" (Texts.after Runs.fast Texts.prog) =
         (Text.Failed (Text.Raised e), Texts.after Runs.fast Texts.prog) /\
       (e = UnknownType "B" \/ e = CannotCast (cls i) "B" \/
        e = CannotCastToInterface (cls i) "B")).
Proof.
  apply (cast_agrees_with_is Examples.table Linked_example.T
           (Texts.after Runs.fast Texts.prog) "a" "b" "B" (mkVarBinding 0 "A")).
  - exact Linked_example.table_declarations.
  - exact Linked_example.table_links.
  - apply Texts.after_texts_reachable. vm_compute. reflexivity.
  - vm_compute. reflexivity.
  - vm_compute. reflexivity.
  - vm_compute. reflexivity.
  - discriminate.
  - discriminate.
  - discriminate.
  - vm_compute. reflexivity.
Defined.

(** * The settings and what a run prints *)

Lemma cfg_insensitive : Insensitive cfg.
Proof. split; try done; intros; ins_fun. Qed.

Lemma cfg_internal : Internal cfg.
Proof. split; [apply cfg_insensitive | done..]. Qed.

(** No statement changes the settings. *)
Lemma exec_keeps_cfg s : keeps cfg (_exec_statement s).
Proof.
  apply (keeps_exec_statement cfg cfg_internal). intros _ b m d.
  by apply (keeps_resolve cfg cfg_insensitive).
Qed.

Section text_transparent.
Variables T0 T : list ClassDef.
Hypothesis L : Linked T0 T.
Hypothesis Hkeys : Forall (fun t => NoDup (dict_keys (methods t))) T0.

Lemma work_keeps_cfg m st st' :
  Work m -> Inv T st -> m st = (Ok tt, st') -> cfg st' = cfg st.
Proof.
  intros [s|q x] I H.
  - exact (exec_keeps_cfg s _ _ _ H).
  - by apply (query_Ok T q x st st' I) in H as (b & i & l & _ & _ & _ & ->).
Qed.

(** The work of a statement that ends normally in two states of runs
    with the same names, objects and output leaves them with the same
    names, objects and output. *)
Lemma work_transparent m st1 st2 st1' st2' :
  Work m -> Inv T st1 -> Inv T st2 -> Cached T st1 -> Cached T st2 ->
  same_view st1 st2 ->
  m st1 = (Ok tt, st1') -> m st2 = (Ok tt, st2') ->
  same_view st1' st2'.
Proof.
  intros [s|q x] I1 I2 C1 C2 Hsame H1 H2.
  - by eapply (step_transparent T0 T L Hkeys st1 st2 s).
  - destruct Hsame as (Ee & Eo & Es).
    apply (query_Ok T q x st1 st1' I1) in H1 as (b1 & i1 & l1 & Hb1 & Hi1 & Ha1 & ->).
    apply (query_Ok T q x st2 st2' I2) in H2 as (b2 & i2 & l2 & Hb2 & Hi2 & Ha2 & ->).
    rewrite Ee in Hb1. assert (b1 = b2) as -> by congruence.
    rewrite Eo in Hi1. assert (i1 = i2) as -> by congruence.
    assert (l1 = l2) as -> by congruence.
    unfold same_view. simpl. by rewrite Es.
Qed.

Lemma text_runs_transparent prog : forall st1 st2 st1' st2',
  Inv T st1 -> Inv T st2 -> Cached T st1 -> Cached T st2 ->
  same_view st1 st2 ->
  Text.exec_statements prog st1 = (Text.Done, st1') ->
  Text.exec_statements prog st2 = (Text.Done, st2') ->
  same_view st1' st2' /\ cfg st1' = cfg st1 /\ cfg st2' = cfg st2.
Proof.
  induction prog as [|stmt prog IH]; intros st1 st2 st1' st2' I1 I2 C1 C2 Hsame H1 H2;
    simpl in H1, H2.
  - injection H1 as <-. injection H2 as <-. done.
  - destruct (Text._exec_statement stmt st1) as [[|f1] s1] eqn:E1; [|done].
    destruct (Text._exec_statement stmt st2) as [[|f2] s2] eqn:E2; [|done].
    assert (Hstep : same_view s1 s2 /\ cfg s1 = cfg st1 /\ cfg s2 = cfg st2).
    { destruct (dispatch stmt) as [E|[(f & _ & E)|(m & Hm & E)]];
        rewrite E in E1, E2.
      - injection E1 as <-. injection E2 as <-. done.
      - done.
      - apply perform_Done in E1, E2. split; [|split].
        + by eapply (work_transparent m st1 st2).
        + by eapply work_keeps_cfg.
        + by eapply work_keeps_cfg. }
    destruct Hstep as (Hsame' & Ec1 & Ec2).
    destruct (IH s1 s2 st1' st2') as (Hv & Ec1' & Ec2'); try done.
    + by eapply (text_step_Inv T0 T L Hkeys stmt st1).
    + by eapply (text_step_Inv T0 T L Hkeys stmt st2).
    + by eapply (text_step_Cached T0 T L Hkeys stmt st1).
    + by eapply (text_step_Cached T0 T L Hkeys stmt st2).
    + split; [done|]. split; congruence.
Qed.
End text_transparent.

(** What [Interpreter.run] prints at its end: the report of the
    counters when metrics are enabled, nothing otherwise. *)
Definition final_report (config : Config) (st : Interpreter) : list OutLine :=
  if enable_metrics config then Metrics_print (metrics st) else [].

(** [Interpreter.run] prints the lines of the statements and then its
    final report.  Two runs of the same statement texts over a linked
    table that both end normally print the same lines of the statements
    and end with the same names and objects, whatever the settings of
    metrics, collection, vtable and cache and whatever the clock: what
    the two runs print differs in the final reports only, and not at
    all when metrics are disabled in both. *)
Theorem settings_do_not_change_output T0 T prog c1 c2 clk1 clk2 st1 st2 :
  declarations T0 -> _resolve_and_link T0 = Ok T ->
  Text.run prog (new_Interpreter T c1 clk1) = (Text.Done, st1) ->
  Text.run prog (new_Interpreter T c2 clk2) = (Text.Done, st2) ->
  (exists out,
     stdout st1 = out ++ final_report c1 st1 /\
     stdout st2 = out ++ final_report c2 st2) /\
  env st1 = env st2 /\ objects st1 = objects st2 /\
  (enable_metrics c1 = false -> enable_metrics c2 = false ->
   stdout st1 = stdout st2).
Proof.
  intros HD Hlink H1 H2. unfold Text.run in H1, H2.
  destruct (Text.exec_statements prog (new_Interpreter T c1 clk1))
    as [[|f1] s1] eqn:E1; [|done].
  destruct (Text.exec_statements prog (new_Interpreter T c2 clk2))
    as [[|f2] s2] eqn:E2; [|done].
  pose proof HD as (Hnd & HC & Hkeys).
  destruct (link_Linked_caches _ _ Hnd HC Hlink) as [L Hce].
  assert (Hc0 : forall c clk, Cached T (new_Interpreter T c clk)).
  { intros c clk mode v r m p Hc. simpl in Hc. by rewrite lookup_empty in Hc. }
  destruct (text_runs_transparent T0 T L Hkeys prog
              (new_Interpreter T c1 clk1) (new_Interpreter T c2 clk2) s1 s2)
    as ((Ee & Eo & Es) & Ec1 & Ec2); try done; try (by apply Inv_new).
  simpl in Ec1, Ec2. rewrite Ec1 in H1. rewrite Ec2 in H2.
  injection H1 as <-. injection H2 as <-.
  unfold final_report.
  split; [exists (stdout s1)|split; [|split]].
  - split.
    + destruct (enable_metrics c1); simpl; [done|by rewrite app_nil_r].
    + rewrite Es. destruct (enable_metrics c2); simpl; [done|by rewrite app_nil_r].
  - by destruct (enable_metrics c1), (enable_metrics c2).
  - by destruct (enable_metrics c1), (enable_metrics c2).
  - by intros -> ->.
Qed.

Module Text_runs.
Definition prog : list string :=
  Texts.prog ++ ["vcall a.show"; "call a.get"; "methodsof a"; "i is A"; "gc"].
Definition metered : Interpreter :=
  (Text.run prog (new_Interpreter Linked_example.T Runs.fast Runs.clk)).2.
Definition plain : Interpreter :=
  (Text.run prog (new_Interpreter Linked_example.T default_Config Runs.clk)).2.
End Text_runs.

Lemma settings_do_not_change_output_witness :
  (exists out,
     stdout Text_runs.metered = out ++ final_report Runs.fast Text_runs.metered /\
     stdout Text_runs.plain = out ++ final_report default_Config Text_runs.plain) /\
  env Text_runs.metered = env Text_runs.plain /\
  objects Text_runs.metered = objects Text_runs.plain /\
  (enable_metrics Runs.fast = false -> enable_metrics default_Config = false ->
   stdout Text_runs.metered = stdout Text_runs.plain).
Proof.
  apply (settings_do_not_change_output Examples.table Linked_example.T
           Text_runs.prog Runs.fast default_Config Runs.clk Runs.clk).
  - exact Linked_example.table_declarations.
  - exact Linked_example.table_links.
  - vm_compute. reflexivity.
  - vm_compute. reflexivity.
Defined.

(** * How a statement text fails *)

Lemma Sound_stdout T st o : Sound T st -> Sound T (set_stdout st o).
Proof. intros [S1 S2 S3 S4]. by split. Qed.

Lemma Filled_stdout st o : Filled st -> Filled (set_stdout st o).
Proof. by apply Filled_classes. Qed.

Section text_failures.
Variables T0 T : list ClassDef.
Hypothesis L : Linked T0 T.
Hypothesis Hkeys : Forall (fun t => NoDup (dict_keys (methods t))) T0.

(** On a linked table the walks of the reflection statements end. *)
Lemma answer_total q st x b i :
  Inv T st -> env st !! x = Some b -> objects st !! inst b = Some i ->
  exists l, answer T q b i = Ok l.
Proof.
  intros I Hx Hobj.
  destruct (inv_env _ _ I _ _ Hx) as (i' & rt & Hobj' & Hrt & Hir & [v Hv]).
  assert (i' = i) as -> by congruence.
  destruct q; unfold answer, deref.
  - eauto.
  - rewrite Hrt. simpl. eauto.
  - rewrite Hv. cbn [res_bind]. unfold visible_method_names.
    destruct (is_interface v) eqn:Hiv; [simpl; eauto|].
    destruct (class_chain T0 T L _ v Hv Hiv) as (l & Hl & _ & Hlen & _).
    rewrite (get_type_name _ _ _ Hv).
    destruct (visible_method_names_loop_chain T (v :: l) (Some (view_cls b))
                (chain_fuel T) ∅ Hl) as (vis & -> & _); [unfold chain_fuel; lia|].
    simpl. eauto.
  - rewrite Hrt. cbn [res_bind]. unfold all_interfaces. rewrite Hir.
    destruct (class_chain T0 T L _ rt Hrt Hir) as (l & Hl & _ & Hlen & _).
    rewrite (get_type_name _ _ _ Hrt).
    rewrite (all_interfaces_loop_chain T (rt :: l) (Some (cls i)) [] (chain_fuel T) Hl)
      by (unfold chain_fuel; lia).
    simpl. eauto.
Qed.

(** A reflection statement fails only on a name that is not bound. *)
Lemma query_Err q x st e st' :
  Inv T st -> query_work q x st = (Err e, st') ->
  e = UnknownVariable x /\ env st !! x = None /\ st' = st.
Proof.
  intros I H. rewrite (query_eval T q x st I) in H.
  destruct (env st !! x) as [b|] eqn:Hx; [|by injection H as <- <-].
  destruct (inv_env _ _ I _ _ Hx) as (i & rt & Hobj & _).
  rewrite Hobj in H.
  destruct (answer_total q st x b i I Hx Hobj) as [l Hl]. by rewrite Hl in H.
Qed.

Lemma work_Sound m st st' :
  Work m -> Inv T st -> Sound T st -> m st = (Ok tt, st') -> Sound T st'.
Proof.
  intros [s|q x] I S H.
  - by eapply (exec_Sound T0 T L Hkeys).
  - apply (query_Ok T q x st st' I) in H as (b & i & l & _ & _ & _ & ->).
    by apply Sound_stdout.
Qed.

Lemma work_Filled m st st' :
  Work m -> Inv T st -> Filled st -> m st = (Ok tt, st') -> Filled st'.
Proof.
  intros [s|q x] I F H.
  - by eapply (exec_Filled T0 T L Hkeys).
  - apply (query_Ok T q x st st' I) in H as (b & i & l & _ & _ & _ & ->).
    by apply Filled_stdout.
Qed.

(** The work of a statement fails with one of the interpreter's own
    errors and leaves the settings, the names, the objects, the heap and
    the output as they were. *)
Lemma work_fails m st e st' :
  Work m -> Inv T st -> Sound T st -> Filled st -> Cached T st ->
  m st = (Err e, st') ->
  user_error e = true /\ user_state st' = user_state st.
Proof.
  intros [s|q x] I S F C H.
  - split; [by eapply (exec_errors T0 T L Hkeys st s)|].
    exact (safe_exec_statement s _ _ _ H).
  - by apply (query_Err q x st e st' I) in H as (-> & _ & ->).
Qed.
End text_failures.

Lemma text_reachable_Sound T0 T st :
  declarations T0 -> _resolve_and_link T0 = Ok T -> Text.reachable T st -> Sound T st.
Proof.
  intros HD Hlink Hr. induction Hr as [config clk|st stmt st' Hr IH H].
  - apply Sound_new.
  - pose proof (text_reachable_Inv _ _ _ HD Hlink Hr) as I.
    destruct HD as (Hnd & HC & Hkeys).
    pose proof (link_Linked _ _ Hnd HC Hlink) as L.
    destruct (text_step _ _ _ H) as [->|(m & Hm & E)]; [done|].
    by eapply (work_Sound T0 T L Hkeys m st).
Qed.

Lemma text_reachable_Filled T0 T st :
  declarations T0 -> _resolve_and_link T0 = Ok T -> Text.reachable T st -> Filled st.
Proof.
  intros HD Hlink Hr. induction Hr as [config clk|st stmt st' Hr IH H].
  - destruct HD as (Hnd & HC & _).
    destruct (link_Linked_caches _ _ Hnd HC Hlink) as [_ Hce].
    intros n t i cache ifc m s Hg Hit. simpl in Hg. destruct (Hce _ _ Hg) as [E _].
    rewrite E in Hit. by rewrite lookup_empty in Hit.
  - pose proof (text_reachable_Inv _ _ _ HD Hlink Hr) as I.
    destruct HD as (Hnd & HC & Hkeys).
    pose proof (link_Linked _ _ Hnd HC Hlink) as L.
    destruct (text_step _ _ _ H) as [->|(m & Hm & E)]; [done|].
    by eapply (work_Filled T0 T L Hkeys m st).
Qed.


